(* ===== verification/_CoqProject ===== *)
-Q . S2P
Prelude.v
Base64.v
PyVal.v
FloatCount.v
Json.v
Glob.v
Session.v
Rules.v
Loader.v
Merge.v
Engine.v
Spans.v
Redaction.v
Detectors.v
Vault.v
Presidio.v
RedactionEval.v
Protocol.v
Approvals.v
Pipeline.v
Gateway.v
GatewayProofs.v
Safety.v
Spool.v
Forwarder.v
Transports.v
Framing.v
Upstream.v
MockCrm.v
Events.v
AuditIndex.v
Postgres.v
Tables.v
Bundle.v
BundleStore.v
Identity.v
IdentityConfig.v
Backtest.v
Connectors.v
Keys.v
Scaffold.v
Diff.v
Http.v
Stores.v
Observability.v
Central.v
Awaiting.v
Console.v
Passwords.v
PolicyCi.v
Reports.v
ConsoleApp.v
HttpStream.v
HttpApp.v
Remote.v
Cli.v
CliOps.v
CliWrap.v
CliMain.v
CliArgs.v
