(* ===== verification/Prelude.v ===== *)
(** * A verification of the MCP security gateway

    The program (Python, under [src/src/mcp_gateway/]) sits between an MCP client, an AI agent,
    and an MCP server that offers tools. Every line of JSON-RPC goes through it: it decides
    each tool call by a layered policy, gates it by the state of the session, redacts or
    withholds results, and audits what it does. This library translates the program's own logic
    and proves what each part promises and what the parts promise together.

    ** How the parts interact

    A line from the client reaches [SecurityGateway.on_client_line] ([core/gateway.py]). A tool
    call runs through five stages ([core/pipeline.py]): the session gate, the policy, the
    argument constraints, the sequence gate, the action. The policy stage asks the engine
    ([policy/engine.py]), which was compiled from the merge ([policy/merge.py]) of the
    documents the loader accepted ([policy/loader.py]); the action stage may rewrite arguments,
    ask a human ([approvals/]) or give the pending call a disposition. A denial feeds the risk
    engine ([risk/scoring.py]), which can suspend the session ([core/session.py]). A line from
    the upstream reaches [on_upstream_line], which looks up the pending call and delivers,
    redacts ([redaction/]), quarantines or filters. Everything is audited to a spool
    ([audit/spool.py]) that a forwarder ships to a SIEM and that the console's index derives
    its tables from. Around this: identity ([identity/]) names the principal of an HTTP
    session ([transports/streamable_http.py]), a store ([state/]) keeps sessions, the console ([console/]) answers approvals, and
    policies travel as signed bundles ([policy/bundle.py], [policy/bundle_store.py]) and are
    reviewed by backtests, diffs, golden tests and CI checks ([policy/]). The command line
    ([cli/]) starts all of this: as a sidecar of one upstream process ([wrap],
    [transports/stdio.py]), as the central HTTP service, as the console, and as the jobs that
    sign, review, install, forward, index and detokenize.

    ** Files, and the source each models

    Shared: [Prelude] (this file) has the error values ([exn_class], [result]), the state and
    error monad [M] of code that mutates state and may raise, its [keeps] and [no_raise]
    reasoning, insertion-ordered mappings ([aget], [aset], [aupdate], [adel]: a Python [dict]),
    stable sorting ([isort]: [sorted]), strings as lists of characters. [FloatCount] shows that
    counting up by [1.0] in binary64 is exact below [2^53]. [PyVal] has dynamically
    typed values ([val], [pydict]) with Python's truth, equality, [repr] and hashability;
    [Json] the encoder and decoder of the standard library; [Base64] its base64.

    - [Glob]: [policy/matcher.py], a [RuleMatcher] is its literals and its ranked globs.
    - [Session]: [core/session.py], [risk/scoring.py], [sequence/policy.py],
      [redaction/spec.py]; the record [Session] has the fields of the class.
    - [Rules]: [policy/constraints/], [policy/actions/rewrite.py]; regular expressions are the
      class [Regex].
    - [Loader], [Merge], [Engine]: [policy/loader.py], [policy/merge.py], [policy/engine.py] with
      [core/failure.py]; a function that raises returns a [result].
    - [Spans], [Redaction]: [redaction/]; detectors are functions of the text, the vault is state.
    - [Detectors]: [redaction/detectors/], [redaction/entities.py]; what a pattern matches is the
      class [Finditer].
    - [Protocol]: [protocol/jsonrpc.py], [protocol/mcp.py].
    - [Approvals]: [approvals/], [anomaly/].
    - [Pipeline]: [core/pipeline.py], [core/context.py], [policy/actions/]; a stage is a
      computation over the [CallContext].
    - [Gateway]: [core/gateway.py]; the state [World] holds the session, the vault, the monitor
      and a trace of everything sent to the client, sent to the upstream, audited and
      persisted. [GatewayProofs] has the lemmas on single handlers, [Safety] the end-to-end
      theorems and a small deployment they are evaluated on.
    - [Awaiting]: the await of [policy/actions/approval.py], a machine whose steps are arrivals,
      answers and upstream lines of one session.
    - [Spool], [AuditIndex]: [audit/]. [Forwarder]: the watermark file and the endless loop of
      [audit/forwarder.py], and [audit/sinks/]; a round of the loop is a [Tick], the spool and
      the sink as they are then. [Postgres]: [state/postgres.py], over the tables of
      [AuditIndex]; [Tables]: those tables as a database stores them.
    - [Bundle], [BundleStore]: [policy/bundle.py], [policy/bundle_store.py]; hash and signature
      check are the class [Crypto]. [Keys]: [policy/signing.py] and the bundle files; key
      generation, signing and the PEM formats are the class [KeyLib], with the laws [KeyLaws].
    - [Vault]: the encrypted vault of [redaction/vault.py], a computation over its two tables;
      the primitives are the class [VaultCrypto]. [Presidio]: [redaction/detectors/presidio.py].
      [RedactionEval]: [redaction/eval.py], rates in binary64.
    - [Transports]: [transports/stdio.py], [transports/upstream.py]; a stream of bytes is cut
      into frames, and a session is the turns the event loop gives to its two pumps. [Framing]:
      the launch of a sidecar, its two ends, and the bytes each peer receives. [Upstream]:
      [SubprocessUpstream] as an object.
    - [MockCrm]: the reference deployment, [demo/mock_server.py], [policies/mock-crm.yaml] and
      [demo/attack_scenario.py], as a closed loop of an agent, the gateway and the server.
    - [Events]: the event names of [audit/events.py] and what the trail discloses.
    - [Identity], [IdentityConfig]: [identity/], what it resolves and what it reads.
    - [Backtest], [Diff]: [policy/backtest.py], [policy/diff.py] and the target discovery and
      synthetic log of [policy/ci.py].
    - [Connectors]: [connectors/base.py], [connectors/registry.py]; the file system is a record.
      [Scaffold]: [connectors/scaffold.py].
    - [Reports]: what the diff, the CI run and the backtest print, as text, JSON, markdown and
      workflow annotations.
    - [Http]: [transports/streamable_http.py], a machine whose steps are the asynchronous events;
      [HttpStream]: its event streams and the end of its sessions; [HttpApp]: its routes.
    - [Console]: [console/auth.py], [console/approvals.py], the approval routes of
      [console/app.py]; [ConsoleApp]: the other routes and the live feed of [console/app.py];
      [Passwords]: the password hashes of [console/auth.py].
    - [Remote]: the parties across the network, [approvals/channels/http.py] and
      [anomaly/claude.py]; what a connection gives is a parameter.
    - [Cli], [CliOps], [CliWrap], [CliMain], [CliArgs]: [cli/__init__.py]. A command is a
      computation whose state is the list of its effects so far (text printed, files
      written, records audited, servers started, gateway sessions run); [Machine] has
      everything a command finds. [CliArgs] has the parser as a table.
    - [PolicyCi]: [policy/testing.py] and the checks of [policy/ci.py].
    - [Stores]: [state/base.py], [state/memory.py], [state/redis.py], and replicas that bind a
      session of [core/gateway.py] from one store; the client is the class [RedisClient].
    - [Observability]: [observability/], [audit/recorder.py], [make_event] of
      [audit/events.py]; a registry maps names to metrics, a sink is a state and its [emit].
    - [Central]: [central/config.py] and the routes of [create_central_app].

    ** What the theorems show

    - The gateway ([Safety]): complete mediation of tool calls, suspension and session gates
      that no later traffic undoes, quarantine and redaction of results, hidden tools that are
      denied, a session that only moves forward and a snapshot that restores it.
    - The whole ([MockCrm], [Events]): with the shipped pack, between any agent and the mock
      server, nothing is posted out after untrusted or personal data came in
      ([exfiltration_contained]), and without an id it is ([idless_post_escapes]); the audit
      trail does not depend on the payload of a result ([audit_holds_no_payload]).
    - Concurrency ([Awaiting]): a call that waits for a human passed every other gate, leaves
      only on a yes and is answered once; after a suspension no call joins the waiting ones.
    - The policy ([Glob], [Loader], [Merge], [Engine]): which rule governs a tool, which layer
      decides its action, what a role overlay changes, that every accepted document gives a
      well-formed layer and every decision is one the dispatch knows. [decision_of_layers] and
      [session_gate_of_layers] state the compiled engine against the documents it came from.
    - The command line: a sidecar started with a bundle enforces what was verified
      ([wrap_enforces_verified_bundle]), what a release job signs a gateway accepts
      ([release_pipeline_verifies]), a gate that answers 0 has passed ([gates_answer_zero]), no
      gateway error is a traceback ([main_exit_codes]), what parses can be run
      ([parsed_command_runs]), the console is not exposed by accident, detokenizing leaves a
      record before it prints.
    - Transports ([Transports], [Framing]): a session over two pipes is a run of the gateway's
      handlers on what the peers sent, in some interleaving, and nothing else; bounds on what
      is handed on; each message is one frame of the wire ([one_frame_per_message]).
    - Data: rewriting, redaction by reference for every shipped profile, overlap resolution, tokens of both vaults, the shape of a
      walked value, the framing of the wire.
    - The audit trail ([Spool], [AuditIndex]): at-least-once delivery under crashes,
      incremental reading, termination of a drain, delivery in the end whenever the sink is up
      often enough ([forwarder_delivers_eventually]), the index as derived state, the same
      answers from both indexes ([postgres_equals_sqlite]).
    - Supply of policies ([Bundle], [BundleStore], [Backtest], [Diff], [PolicyCi], [Connectors]): tamper
      evidence, atomic installs, rollback, exact backtests, complete diffs, golden tests that
      speak for production, green builds that checked everything, comments that never play a
      change down ([comment_raises_alarm]), discovery.
    - The console ([ConsoleApp]): its index is a cache no client can observe
      ([console_reads_spool]); its feed loses and repeats nothing ([feed_exactly_once]).
    - Access ([Identity], [Http], [Console], [Approvals]): fail-closed identity, session
      ownership, approvals by approvers only, cookies; a call the gateway gets approved over
      HTTP was approved by an approver who saw that call ([approval_end_to_end]); the streams
      of a session carry what its gateway sent, to its owner ([stream_carries_messages]).
    - Replicas ([Stores]): against the interface [SessionStore] with its laws [StoreLaws], which
      the in-process and the Redis store satisfy, the controls of a session survive its
      moves between replicas as long as one serves it at a time; a session resumes as it was
      left; a replica that bound it earlier undoes them ([stale_replica_forgets_suspension]).
    - Operations ([Observability], [Central]): a failing sink harms no other, the counters read
      the trail exactly, every session of the central service is policed by the pack of its
      own upstream, and readiness means what it says.

    ** Fuel and bounds

    Python integers are [Z]; nothing in the program has a fixed width. A glob is matched by
    structural recursion over its tokens and the text. [Json.loads] runs with fuel above the length of
    its text, and [loads_dumps] shows that is enough for every encoded value. [Spool.drain]
    takes its rounds as an argument, as the source does; [drain_delivers_all] shows that one
    more round than there are records is enough. Handlers of the dispatch call each other
    to depth two (an approval's follow-up), the fuel of [on_request]. [Presidio.chunk_loop] has the
    length of the text as fuel, and [chunking_ends] shows that more changes nothing. The endless
    loop of the forwarder is a fold over the rounds it makes.

    ** How the model idealises

    A gateway handler is one atomic step in [Gateway]; [Awaiting] interleaves traffic with the
    wait for a human and shows that the atomic handler is the case of an immediate answer. Upstreams accept what is written to them. A character is a
    code point below 256, a byte of a spool is a character; literal text beyond ASCII is its UTF-8
    bytes. Durations and stage timings are
    left out of audit events. A recorded or configured field of a type the code would only trip over
    later is reported at once as an untyped field where a file's header says so. A response
    whose id cannot be hashed is left out at the HTTP transport. Layers are values in a merge,
    where the code updates one layer's role mapping in place. Sinks of one recorder share no
    state. The expiry of a stored session is outside the laws of a store.

    ** Not modelled

    Network and database clients: the Redis and Postgres clients, the HTTP clients of the sinks
    and of the approval channel, the Anthropic SDK, boto3 and the connection of the OIDC key
    fetch are parameters, and so is what the operating system answers when a process is
    launched. What FastAPI does around a route, and the static page of the console. The
    primitives of cryptography, the presidio analyzer and the meaning of the detectors' regular
    expressions are parameters, as are [argparse] (of which the namespace is specified) and
    YAML. An interrupt of a command. The interleaving of replicas with awaited approvals. The
    other demonstration scripts and the load test, which print what sessions answer.
*)
From Stdlib Require Export ZArith Lia Ascii String.
From stdpp Require Export base list strings gmap sets pretty sorting.

Declare Scope py_scope.
Delimit Scope py_scope with py.
#[global] Open Scope Z_scope.
#[global] Open Scope string_scope.
#[global] Open Scope nat_scope.
#[global] Open Scope list_scope.
#[global] Open Scope stdpp_scope.

(** * Python exceptions and the fallible computations that raise them *)

(** The exception classes the modelled code raises or lets escape. *)
Inductive exn_class :=
  | PolicyError | BundleError | IdentityError | ConnectorError | GatewayError
  | SinkError | SigningError | TransportError
  | JSONDecodeError | TypeError | AttributeError | ValueError | KeyError | IndexError
  | AssertionError | RuntimeError | RedactionBudgetExceeded | OtherError.

#[export] Instance exn_class_eq_dec : EqDecision exn_class.
Proof. solve_decision. Defined.

(** An exception in flight: its class and the text of [str(exc)]. *)
Record exn := Exn { exn_cls : exn_class; exn_msg : string }.

#[export] Instance exn_eq_dec : EqDecision exn.
Proof. solve_decision. Defined.

Inductive result (A : Type) : Type :=
  | Ok (a : A)
  | Err (e : exn).
Arguments Ok {_} _.
Arguments Err {_} _.

#[export] Instance result_ret : MRet result := fun A a => Ok a.
#[export] Instance result_bind : MBind result := fun A B f m =>
  match m with Ok a => f a | Err e => Err e end.
#[export] Instance result_fmap : FMap result := fun A B f m =>
  match m with Ok a => Ok (f a) | Err e => Err e end.

Definition raise {A} (c : exn_class) (msg : string) : result A := Err (Exn c msg).

(** [guard c e]: raise [e] unless [c] holds; the shape of a validation branch. *)
Definition require (c : bool) (cls : exn_class) (msg : string) : result unit :=
  if c then Ok tt else raise cls msg.

Definition is_ok {A} (r : result A) : bool :=
  match r with Ok _ => true | Err _ => false end.

(** The value of a computation known to return. *)
Definition the {A} (r : result A) : match r with Ok _ => True | Err _ => False end -> A :=
  match r with Ok a => fun _ => a | Err _ => fun h => match h with end end.

Definition of_option {A} (o : option A) (e : exn) : result A :=
  match o with Some a => Ok a | None => Err e end.

(** [for] loops whose body may raise. *)
Fixpoint map_res {A B} (f : A -> result B) (l : list A) : result (list B) :=
  match l with
  | [] => Ok []
  | x :: l => y ← f x; ys ← map_res f l; Ok (y :: ys)
  end.

Fixpoint iter_res {A} (f : A -> result unit) (l : list A) : result unit :=
  match l with
  | [] => Ok tt
  | x :: l => _ ← f x; iter_res f l
  end.

Fixpoint fold_res {A B} (f : A -> B -> result A) (a : A) (l : list B) : result A :=
  match l with
  | [] => Ok a
  | b :: l => a' ← f a b; fold_res f a' l
  end.

(** [enumerate(l)] *)
Fixpoint enumerate_from {A} (n : nat) (l : list A) : list (nat * A) :=
  match l with [] => [] | x :: l => (n, x) :: enumerate_from (S n) l end.
Abbreviation enumerate := (enumerate_from 0).

(** * State and exceptions *)

(** A computation that reads and writes a state [S] and may raise; what it wrote before
    raising stays written. *)
Definition M (S A : Type) : Type := S -> result A * S.

#[export] Instance M_ret S : MRet (M S) := fun A a s => (Ok a, s).
#[export] Instance M_bind S : MBind (M S) := fun A B f m s =>
  match m s with (Ok a, s') => f a s' | (Err e, s') => (Err e, s') end.

Definition get {S} : M S S := fun s => (Ok s, s).
Definition modify {S} (f : S -> S) : M S unit := fun s => (Ok tt, f s).
Definition throw {S A} (e : exn) : M S A := fun s => (Err e, s).
Definition lift {S A} (r : result A) : M S A := fun s => (r, s).

(** [try: m except Exception as exc: h(exc)] *)
Definition try_catch {S A} (m : M S A) (h : exn -> M S A) : M S A := fun s =>
  match m s with (Ok a, s') => (Ok a, s') | (Err e, s') => h e s' end.

Definition when {S} (b : bool) (m : M S unit) : M S unit := if b then m else mret tt.

(** * Insertion-ordered dictionaries *)

(** A Python [dict] iterates in insertion order and an assignment to an existing
    key keeps that key's position, so where order matters it is an association list. *)
Section Assoc.
Context {K A : Type} `{EqDecision K}.

Fixpoint aget (k : K) (d : list (K * A)) : option A :=
  match d with
  | [] => None
  | (k', v) :: d => if decide (k = k') then Some v else aget k d
  end.

(** [d[k] = v] *)
Fixpoint aset (k : K) (v : A) (d : list (K * A)) : list (K * A) :=
  match d with
  | [] => [(k, v)]
  | (k', w) :: d => if decide (k = k') then (k', v) :: d else (k', w) :: aset k v d
  end.

(** [d.pop(k, None)], the dictionary left behind *)
Fixpoint adel (k : K) (d : list (K * A)) : list (K * A) :=
  match d with
  | [] => []
  | (k', w) :: d => if decide (k = k') then d else (k', w) :: adel k d
  end.

Definition ahas (k : K) (d : list (K * A)) : bool :=
  match aget k d with Some _ => true | None => false end.

Definition akeys (d : list (K * A)) : list K := d.*1.

(** [d.update(e)], also [{**d, **e}] *)
Definition aupdate (d e : list (K * A)) : list (K * A) :=
  fold_left (fun d '(k, v) => aset k v d) e d.

(** A comprehension that drops keys: [{k: v for k, v in d.items() if p(k)}] *)
Definition afilter (p : K -> bool) (d : list (K * A)) : list (K * A) :=
  List.filter (fun '(k, _) => p k) d.

Definition aget_or (k : K) (dflt : A) (d : list (K * A)) : A :=
  match aget k d with Some v => v | None => dflt end.

End Assoc.

(** * Stable sorting: Python's [sorted(l, key=...)] *)
Section Sort.
Context {A : Type} (leb : A -> A -> bool).

Fixpoint sort_insert (x : A) (l : list A) : list A :=
  match l with
  | [] => [x]
  | y :: l => if leb x y then x :: y :: l else y :: sort_insert x l
  end.

Fixpoint isort (l : list A) : list A :=
  match l with [] => [] | x :: l => sort_insert x (isort l) end.

End Sort.

(** Lexicographic order of [str]: code point by code point. *)
Fixpoint str_leb (s t : string) : bool :=
  match s, t with
  | EmptyString, _ => true
  | String _ _, EmptyString => false
  | String a s, String b t =>
      let x := nat_of_ascii a in let y := nat_of_ascii b in
      if x <? y then true else if y <? x then false else str_leb s t
  end.

(** * Strings *)

Definition chr (n : nat) : string := String (ascii_of_nat n) EmptyString.
Definition dquote : string := chr 34.
Definition squote : string := chr 39.
Definition newline : string := chr 10.

Fixpoint join (sep : string) (l : list string) : string :=
  match l with
  | [] => ""
  | [s] => s
  | s :: l => s +:+ sep +:+ join sep l
  end.

(** [s.split(sep)] for one character, on characters *)
Fixpoint split_by (sep : ascii) (l : list ascii) : list (list ascii) :=
  match l with
  | [] => [[]]
  | a :: l => if Ascii.eqb a sep then [] :: split_by sep l
              else match split_by sep l with f :: fs => (a :: f) :: fs | [] => [[a]] end
  end.

Lemma split_by_last sep l : forallb (fun a => negb (Ascii.eqb a sep)) l = true -> split_by sep l = [l].
Proof. induction l as [|a l IH]; cbn; [done|]. intros [Ha%negb_true_iff Hl]%andb_true_iff. by rewrite Ha, IH. Qed.

Lemma split_by_app sep l rest : forallb (fun a => negb (Ascii.eqb a sep)) l = true ->
  split_by sep (l ++ sep :: rest) = l :: split_by sep rest.
Proof.
  induction l as [|a l IH]; cbn; [by rewrite Ascii.eqb_refl|].
  intros [Ha%negb_true_iff Hl]%andb_true_iff. by rewrite Ha, IH.
Qed.

Fixpoint str_map (f : ascii -> ascii) (s : string) : string :=
  match s with EmptyString => EmptyString | String a s => String (f a) (str_map f s) end.

Fixpoint chars (s : string) : list ascii :=
  match s with EmptyString => [] | String a s => a :: chars s end.

Fixpoint of_chars (l : list ascii) : string :=
  match l with [] => EmptyString | a :: l => String a (of_chars l) end.

Definition is_upper (a : ascii) : bool :=
  let n := nat_of_ascii a in (65 <=? n) && (n <=? 90).
Definition is_lower (a : ascii) : bool :=
  let n := nat_of_ascii a in (97 <=? n) && (n <=? 122).
Definition is_digit (a : ascii) : bool :=
  let n := nat_of_ascii a in (48 <=? n) && (n <=? 57).
Definition is_alnum (a : ascii) : bool := is_upper a || is_lower a || is_digit a.

(** ASCII part of [str.lower]. *)
Definition lower_char (a : ascii) : ascii :=
  if is_upper a then ascii_of_nat (nat_of_ascii a + 32) else a.
Definition str_lower : string -> string := str_map lower_char.

(** [str.isspace] below 128: tab, newline, vertical tab, form feed, return, 28-31, space *)
Definition is_space (a : ascii) : bool :=
  let n := nat_of_ascii a in ((9 <=? n) && (n <=? 13)) || ((28 <=? n) && (n <=? 32)).

Fixpoint drop_while {A} (p : A -> bool) (l : list A) : list A :=
  match l with [] => [] | x :: l' => if p x then drop_while p l' else l end.
Fixpoint take_while {A} (p : A -> bool) (l : list A) : list A :=
  match l with [] => [] | x :: l' => if p x then x :: take_while p l' else [] end.

Definition lstrip_by (p : ascii -> bool) (s : string) : string := of_chars (drop_while p (chars s)).
Definition rstrip_by (p : ascii -> bool) (s : string) : string :=
  of_chars (rev (drop_while p (rev (chars s)))).
Definition strip_by (p : ascii -> bool) (s : string) : string := lstrip_by p (rstrip_by p s).
Definition strip : string -> string := strip_by is_space.

Definition startswith (p s : string) : bool := String.prefix p s.
Definition endswith (p s : string) : bool :=
  let n := String.length s in let k := String.length p in
  (k <=? n) && String.eqb (substring (n - k) k s) p.
(** [sub in s] *)
Definition contains (sub s : string) : bool :=
  match String.index 0 sub s with Some _ => true | None => false end.

(** [s[i:j]] for [0 <= i <= j] *)
Definition slice (s : string) (i j : nat) : string := substring i (j - i) s.

Definition nonempty (s : string) : bool := negb (String.eqb s "").

Lemma prefix_app_true s t : String.prefix s (s +:+ t) = true.
Proof.
  induction s as [|a s IH]; [by destruct t|]. change (String a s +:+ t) with (String a (s +:+ t)). cbn [String.prefix].
  destruct (ascii_dec a a) as [_|Hn]; [exact IH|by destruct Hn].
Qed.

(** * Lemmas on the fallible computations *)

Lemma bind_ok {A B} (m : result A) (f : A -> result B) y :
  (x ← m; f x) = Ok y <-> exists x, m = Ok x /\ f x = Ok y.
Proof. destruct m as [a|e]; cbn; naive_solver. Qed.

Lemma require_ok c cls msg u : require c cls msg = Ok u <-> c = true.
Proof. destruct c, u; cbn; unfold raise; naive_solver. Qed.

Lemma map_res_Forall2 {A B} (f : A -> result B) l l' :
  map_res f l = Ok l' <-> Forall2 (fun x y => f x = Ok y) l l'.
Proof.
  revert l'. induction l as [|x l IH]; intros l'; simpl; split; intros H.
  - injection H as <-. constructor.
  - by inversion H.
  - apply bind_ok in H as (y & Hy & H). apply bind_ok in H as (ys & Hys & H).
    injection H as <-. constructor; [done|]. by apply IH.
  - inversion H as [|? y ? ys Hy Hys]; subst. rewrite Hy. simpl.
    apply IH in Hys. by rewrite Hys.
Qed.

Lemma map_res_ok {A B} (f : A -> result B) l l' : map_res f l = Ok l' <-> Forall2 (fun x y => f x = Ok y) l l'.
Proof.
  split; [apply map_res_Forall2|]. induction 1 as [|x y l l' Hf _ IH]; [done|]. cbn. by rewrite Hf, IH.
Qed.

Lemma Forall2_elem {A B} (R : A -> B -> Prop) l l' : Forall2 R l l' ->
  (forall x, x ∈ l -> exists y, y ∈ l' /\ R x y) /\ (forall y, y ∈ l' -> exists x, x ∈ l /\ R x y).
Proof. induction 1 as [|x y l l' HR _ [IH1 IH2]]; set_solver. Qed.

Lemma elem_omap_id {A} (x : A) (l : list (option A)) : x ∈ omap id l <-> Some x ∈ l.
Proof. rewrite list_elem_of_omap. split; [intros (o & Ho & Hx); cbv in Hx; by subst|]. intros Ho. by exists (Some x). Qed.

Lemma elem_concat {A} (x : A) ls : x ∈ concat ls <-> exists l, l ∈ ls /\ x ∈ l.
Proof. rewrite list_elem_of_In, in_concat. by setoid_rewrite list_elem_of_In. Qed.

Lemma map_res_total {A B} (f : A -> result B) (P : A -> B -> Prop) l :
  (forall x, x ∈ l -> exists y, f x = Ok y /\ P x y) -> exists l', map_res f l = Ok l' /\ Forall2 P l l'.
Proof.
  induction l as [|x l IH]; intros Hf; [by exists []|].
  destruct (Hf x) as (y & Hy & HP); [set_solver|]. destruct IH as (l' & Hl & HF); [set_solver|].
  exists (y :: l'). cbn. rewrite Hy. cbn. rewrite Hl. split; [done|by constructor].
Qed.

Lemma iter_res_Forall {A} (f : A -> result unit) l :
  iter_res f l = Ok tt <-> Forall (fun x => f x = Ok tt) l.
Proof.
  induction l as [|x l IH]; simpl; [split; constructor|].
  rewrite Forall_cons, <- IH. destruct (f x) as [[]|e]; naive_solver.
Qed.

Lemma fold_res_app {A B} (f : A -> B -> result A) a l1 l2 :
  fold_res f a (l1 ++ l2) = (a' ← fold_res f a l1; fold_res f a' l2).
Proof.
  revert a. induction l1 as [|b l1 IH]; intros a; simpl; [done|].
  destruct (f a b); simpl; [apply IH|done].
Qed.

(** An invariant kept by every iteration of a loop that may raise. *)
Lemma fold_res_inv {A B} (P : A -> Prop) (f : A -> B -> result A) a l a' :
  (forall x y z, P x -> f x y = Ok z -> P z) -> P a -> fold_res f a l = Ok a' -> P a'.
Proof.
  intros Hf. revert a. induction l as [|b l IH]; intros a Ha; simpl; intros H; [naive_solver|].
  apply bind_ok in H as (x & Hx & H). eauto.
Qed.

(** [res_inv]: take apart every successful bind and branch in the hypotheses. *)
Ltac res_inv :=
  repeat match goal with
  | H : mbind _ _ = Ok _ |- _ => apply bind_ok in H as (? & ? & ?)
  | H : require _ _ _ = Ok _ |- _ => apply require_ok in H
  | H : raise _ _ = Ok _ |- _ => discriminate H
  | H : Ok _ = Ok _ |- _ => injection H as H
  | H : Err _ = Ok _ |- _ => discriminate H
  | H : mret _ = Ok _ |- _ => injection H as H
  end; simplify_eq.

(** [case_all]: split on the scrutinee of every [match] and [if] of the goal. *)
Ltac case_all := repeat (case_match; simpl in *; simplify_eq; try done).

(** * Relational reasoning over computations *)

Create HintDb keeps.

(** A computation relates the state before to the state after, whether it returns or raises. *)
Definition keeps {S A} (R : S -> S -> Prop) (m : M S A) : Prop := forall s, R s (m s).2.

Section Keeps.
Context {S : Type} (R : S -> S -> Prop) `{!PreOrder R}.

Lemma keeps_ret {A} (a : A) : keeps R (mret a).
Proof. intros s. cbn. reflexivity. Qed.
Lemma keeps_get : keeps R get.
Proof. intros s. cbn. reflexivity. Qed.
Lemma keeps_lift {A} (r : result A) : keeps R (lift r).
Proof. intros s. cbn. reflexivity. Qed.
Lemma keeps_throw {A} e : keeps R (throw (A := A) e).
Proof. intros s. cbn. reflexivity. Qed.
Lemma keeps_modify f : (forall s, R s (f s)) -> keeps R (modify f).
Proof. intros Hf s. apply Hf. Qed.
Lemma keeps_bind {A B} (m : M S A) (f : A -> M S B) : keeps R m -> (forall a, keeps R (f a)) -> keeps R (m ≫= f).
Proof.
  intros Hm Hf s. unfold mbind, M_bind. specialize (Hm s). destruct (m s) as [[a|e] s']; [|done].
  etrans; [exact Hm|apply Hf].
Qed.
Lemma keeps_when b m : keeps R m -> keeps R (when b m).
Proof. intros Hm. destruct b; [done|apply keeps_ret]. Qed.
End Keeps.

(** [keep_tac]: decompose a handler into its primitive steps. *)
Ltac keep_tac :=
  repeat first
    [ solve [eauto with keeps]
    | apply (keeps_ret _)
    | apply (keeps_get _)
    | apply (keeps_lift _)
    | apply (keeps_throw _)
    | apply (keeps_when _)
    | apply (keeps_bind _); [|intros ?]
    | progress case_match ].

(** ** Computations that return *)
Definition no_raise {S A} (m : M S A) : Prop := forall s, exists a, (m s).1 = Ok a.

Lemma no_raise_bind {S A B} (m : M S A) (f : A -> M S B) :
  no_raise m -> (forall a, no_raise (f a)) -> no_raise (m ≫= f).
Proof.
  intros Hm Hf s. unfold mbind, M_bind. destruct (Hm s) as [a Ha]. destruct (m s) as [r s']. cbn in Ha. subst r. apply Hf.
Qed.
Lemma no_raise_ret {S A} (a : A) : no_raise (S := S) (mret a).
Proof. intros s. by eexists. Qed.
Lemma no_raise_get {S} : no_raise (S := S) get.
Proof. intros s. by eexists. Qed.
Lemma no_raise_modify {S} (f : S -> S) : no_raise (modify f).
Proof. intros s. by eexists. Qed.
Lemma no_raise_when {S} b (m : M S unit) : no_raise m -> no_raise (when b m).
Proof. destruct b; [done|intros _; apply no_raise_ret]. Qed.

Ltac no_raise_tac :=
  repeat first
    [ apply no_raise_ret | apply no_raise_get | apply no_raise_modify | apply no_raise_when
    | apply no_raise_bind; [|intros ?] | solve [eauto with keeps] | progress case_match ].

(** * Lemmas on insertion-ordered dictionaries *)
Section AssocLemmas.
Context {K A : Type} `{EqDecision K}.
Implicit Types (d : list (K * A)) (k : K) (v : A).

Lemma aget_aset_eq k v d : aget k (aset k v d) = Some v.
Proof. induction d as [|[k' w] d IH]; simpl; repeat (case_decide; simpl); by try subst. Qed.

Lemma aget_aset_ne k k' v d : k <> k' -> aget k (aset k' v d) = aget k d.
Proof. intros. induction d as [|[k'' w] d IH]; simpl; repeat (case_decide; simpl); by try subst. Qed.

Lemma aget_aset k k' v d : aget k (aset k' v d) = if decide (k = k') then Some v else aget k d.
Proof. case_decide; subst; [apply aget_aset_eq|by apply aget_aset_ne]. Qed.

Lemma aget_adel_ne k k' d : k <> k' -> aget k (adel k' d) = aget k d.
Proof. intros. induction d as [|[k'' w] d IH]; simpl; repeat (case_decide; simpl); by try subst. Qed.

Lemma aget_Some_elem k v d : aget k d = Some v -> (k, v) ∈ d.
Proof.
  induction d as [|[k' w] d IH]; simpl; [done|]. case_decide; intros; simplify_eq; set_solver.
Qed.

Lemma aget_is_Some k d : is_Some (aget k d) <-> k ∈ akeys d.
Proof.
  unfold akeys. induction d as [|[k' w] d IH]; simpl.
  - split; [intros [? [=]]|set_solver].
  - case_decide; subst; [set_solver|]. rewrite IH. set_solver.
Qed.

Lemma aget_None k d : aget k d = None <-> k ∉ akeys d.
Proof. rewrite <- aget_is_Some. destruct (aget k d); naive_solver. Qed.

Lemma ahas_spec k d : ahas k d = true <-> k ∈ akeys d.
Proof. rewrite <- aget_is_Some. unfold ahas. destruct (aget k d); naive_solver. Qed.

Lemma elem_aget k v d : NoDup (akeys d) -> (k, v) ∈ d -> aget k d = Some v.
Proof.
  unfold akeys. induction d as [|[k' w] d IH]; simpl; [set_solver|].
  intros [Hk Hd]%NoDup_cons [Heq|Hin]%elem_of_cons; simplify_eq; [by case_decide|].
  case_decide; subst; [|by apply IH].
  exfalso. apply Hk. apply list_elem_of_fmap. by exists (k', v).
Qed.

Lemma Forall_aset (P : K * A -> Prop) k v d : Forall P d -> P (k, v) -> Forall P (aset k v d).
Proof.
  intros Hd Hkv. induction Hd as [|[k' v'] d Hx Hd IH]; cbn; [by constructor|].
  destruct (decide (k = k')) as [->|]; by constructor.
Qed.

(** An assignment keeps an existing key's position and appends a new key. *)
Lemma akeys_aset k v d :
  akeys (aset k v d) = if decide (k ∈ akeys d) then akeys d else akeys d ++ [k].
Proof.
  unfold akeys. induction d as [|[k' w] d IH]; simpl.
  - done.
  - destruct (decide (k = k')) as [->|Hne]; simpl.
    + by rewrite decide_True by set_solver.
    + unfold fmap in *. rewrite IH. destruct (decide (k ∈ list_fmap _ _ fst d)).
      * by rewrite decide_True by set_solver.
      * by rewrite decide_False by set_solver.
Qed.

Lemma NoDup_aset k v d : NoDup (akeys d) -> NoDup (akeys (aset k v d)).
Proof.
  intros. rewrite akeys_aset. case_decide; [done|].
  apply NoDup_app. split_and!; [done|set_solver|apply NoDup_singleton].
Qed.

Lemma elem_akeys_aset k k' v d : k ∈ akeys (aset k' v d) <-> k = k' \/ k ∈ akeys d.
Proof. rewrite akeys_aset. case_decide; set_solver. Qed.

Lemma aupdate_app d e1 e2 : aupdate d (e1 ++ e2) = aupdate (aupdate d e1) e2.
Proof. apply fold_left_app. Qed.

Lemma NoDup_aupdate d e : NoDup (akeys d) -> NoDup (akeys (aupdate d e)).
Proof.
  unfold aupdate. revert d. induction e as [|[k v] e IH]; simpl; intros d Hd; [done|].
  by apply IH, NoDup_aset.
Qed.

(** [{**d, **e}]: the later mapping wins. *)
Lemma aget_aupdate k d e :
  NoDup (akeys e) ->
  aget k (aupdate d e) = match aget k e with Some v => Some v | None => aget k d end.
Proof.
  unfold aupdate. revert d. induction e as [|[k' v] e IH]; simpl; intros d Hd; [done|].
  unfold akeys in *. simpl in Hd. apply NoDup_cons in Hd as [Hk Hd].
  rewrite IH by done. destruct (decide (k = k')) as [->|Hne].
  - assert (aget k' e = None) as -> by (by apply aget_None). apply aget_aset_eq.
  - destruct (aget k e); [done|]. by apply aget_aset_ne.
Qed.

Lemma aget_afilter p k d : aget k (afilter p d) = if p k then aget k d else None.
Proof.
  unfold afilter. induction d as [|[k' v] d IH]; simpl; [by destruct (p k)|].
  destruct (p k') eqn:Hp; simpl; case_decide; subst; rewrite ?Hp, ?IH; try done.
  by rewrite Hp.
Qed.

Lemma NoDup_afilter p d : NoDup (akeys d) -> NoDup (akeys (afilter p d)).
Proof.
  unfold akeys, afilter. induction d as [|[k v] d IH]; simpl; [done|].
  intros [Hk Hd]%NoDup_cons. destruct (p k); simpl; [|auto].
  constructor; [|auto]. intros ([k' v'] & -> & Hin)%list_elem_of_fmap.
  apply Hk. apply list_elem_of_fmap. exists (k', v'). split; [done|].
  apply list_elem_of_In in Hin. apply List.filter_In in Hin as [? _]. by apply list_elem_of_In.
Qed.

Lemma aget_adel_eq k d : NoDup (akeys d) -> aget k (adel k d) = None.
Proof.
  unfold akeys. induction d as [|[k' v] d IH]; cbn; [done|]. intros [Hk Hd]%NoDup_cons.
  case_decide; subst; cbn; [by apply aget_None|]. rewrite decide_False by done. auto.
Qed.

Lemma NoDup_adel k d : NoDup (akeys d) -> NoDup (akeys (adel k d)).
Proof.
  induction d as [|[k' v] d IH]; [done|]. intros [Hk Hn]%NoDup_cons. cbn. case_decide; [done|]. cbn. constructor; [|by apply IH].
  intros Hin. apply Hk. clear -Hin. induction d as [|[k1 v1] d IH]; [done|]. cbn in *. case_decide; set_solver.
Qed.

End AssocLemmas.

#[export] Hint Rewrite @aget_aset_eq @aget_afilter : assoc.

(** * Lemmas on sorting *)
Section SortLemmas.
Context {A : Type} (leb : A -> A -> bool).

Lemma sort_insert_perm x l : sort_insert leb x l ≡ₚ x :: l.
Proof.
  induction l as [|y l IH]; simpl; [done|]. case_match; [done|].
  rewrite IH. constructor.
Qed.

Lemma isort_perm l : isort leb l ≡ₚ l.
Proof. induction l as [|x l IH]; simpl; [done|]. by rewrite sort_insert_perm, IH. Qed.

Lemma elem_isort x l : x ∈ isort leb l <-> x ∈ l.
Proof. by rewrite isort_perm. Qed.

Lemma length_isort l : List.length (isort leb l) = List.length l.
Proof. apply Permutation_length, isort_perm. Qed.

Context (leb_total : forall x y, leb x y = true \/ leb y x = true).
Context (leb_trans : forall x y z, leb x y = true -> leb y z = true -> leb x z = true).

Lemma sort_insert_sorted x l :
  StronglySorted (fun a b => leb a b = true) l ->
  StronglySorted (fun a b => leb a b = true) (sort_insert leb x l).
Proof.
  induction 1 as [|y l Hl IH Hy]; simpl; [repeat constructor|].
  destruct (leb x y) eqn:Hxy.
  - constructor; [by constructor|]. constructor; [done|].
    eapply Forall_impl; [exact Hy|]. simpl. eauto.
  - constructor; [done|]. rewrite sort_insert_perm. constructor; [|done].
    destruct (leb_total x y); congruence.
Qed.

Lemma isort_sorted l : StronglySorted (fun a b => leb a b = true) (isort leb l).
Proof. induction l as [|x l IH]; simpl; [constructor|]. by apply sort_insert_sorted. Qed.

End SortLemmas.

Lemma str_leb_cons a s b t :
  str_leb (String a s) (String b t) =
  if nat_of_ascii a <? nat_of_ascii b then true
  else if nat_of_ascii b <? nat_of_ascii a then false else str_leb s t.
Proof. done. Qed.

Lemma str_leb_total s t : str_leb s t = true \/ str_leb t s = true.
Proof.
  revert t. induction s as [|a s IH]; intros [|b t]; [auto..|].
  rewrite !str_leb_cons. generalize (nat_of_ascii a) (nat_of_ascii b). intros x y.
  destruct (Nat.ltb_spec x y), (Nat.ltb_spec y x); auto.
Qed.

Lemma str_leb_trans s t u : str_leb s t = true -> str_leb t u = true -> str_leb s u = true.
Proof.
  revert t u. induction s as [|a s IH]; intros [|b t] [|c u]; [done..|].
  rewrite !str_leb_cons.
  generalize (nat_of_ascii a) (nat_of_ascii b) (nat_of_ascii c). intros x y z.
  destruct (Nat.ltb_spec x y), (Nat.ltb_spec y x), (Nat.ltb_spec y z), (Nat.ltb_spec z y),
    (Nat.ltb_spec x z), (Nat.ltb_spec z x); try done; try lia. eauto.
Qed.

Lemma str_leb_antisym s t : str_leb s t = true -> str_leb t s = true -> s = t.
Proof.
  revert t. induction s as [|a s IH]; intros [|b t]; try done. rewrite !str_leb_cons.
  destruct (Nat.ltb_spec (nat_of_ascii a) (nat_of_ascii b)), (Nat.ltb_spec (nat_of_ascii b) (nat_of_ascii a)); try done; try lia.
  intros Hs Ht. f_equal; [|by apply IH]. rewrite <- (ascii_nat_embedding a), <- (ascii_nat_embedding b). f_equal. lia.
Qed.

(** * Lemmas on strings *)

Lemma of_chars_chars s : of_chars (chars s) = s.
Proof. induction s as [|a s IH]; simpl; [done|by rewrite IH]. Qed.

Lemma chars_of_chars l : chars (of_chars l) = l.
Proof. induction l as [|a l IH]; simpl; [done|by rewrite IH]. Qed.

Lemma chars_app s t : chars (s +:+ t) = chars s ++ chars t.
Proof. induction s as [|a s IH]; simpl; [done|by rewrite IH]. Qed.

Lemma length_chars s : List.length (chars s) = String.length s.
Proof. induction s as [|a s IH]; simpl; [done|by rewrite IH]. Qed.

Lemma chars_inj s t : chars s = chars t -> s = t.
Proof. intros H. by rewrite <- (of_chars_chars s), H, of_chars_chars. Qed.

Lemma chars_substring i n s : chars (substring i n s) = take n (drop i (chars s)).
Proof.
  revert i n. induction s as [|a s IH]; intros [|i] [|n]; cbn; try done; by rewrite IH.
Qed.

Lemma chars_slice s i j : chars (slice s i j) = take (j - i) (drop i (chars s)).
Proof. apply chars_substring. Qed.

Lemma take_while_stop {A} (p : A -> bool) l x m : p x = false -> take_while p (l ++ x :: m) = take_while p l.
Proof. intros Hx. induction l as [|y l IH]; cbn; [by rewrite Hx|]. by rewrite IH. Qed.

Lemma take_while_all {A} (p : A -> bool) l : Forall (fun x => p x = true) l -> take_while p l = l.
Proof. induction 1 as [|x l Hx _ IH]; cbn; [done|by rewrite Hx, IH]. Qed.

Lemma drop_while_app {A} (p : A -> bool) l m : Forall (fun x => p x = true) l -> drop_while p (l ++ m) = drop_while p m.
Proof. induction 1 as [|x l Hx _ IH]; cbn; [done|by rewrite Hx]. Qed.

Lemma drop_while_none {A} (p : A -> bool) l : Forall (fun x => p x = false) l -> drop_while p l = l.
Proof. destruct 1 as [|x l Hx _]; cbn; [done|by rewrite Hx]. Qed.

Lemma rstrip_by_app p s l : Forall (fun a => p a = false) (chars s) -> Forall (fun a => p a = true) l ->
  rstrip_by p (s +:+ of_chars l) = s.
Proof.
  intros Hs Hl. unfold rstrip_by. rewrite chars_app, chars_of_chars, rev_app_distr, drop_while_app by by apply Forall_rev.
  rewrite drop_while_none by by apply Forall_rev. by rewrite rev_involutive, of_chars_chars.
Qed.

Lemma chars_str_map f s : chars (str_map f s) = f <$> chars s.
Proof. induction s as [|a s IH]; cbn; [done|by rewrite IH]. Qed.
