(* ===== verification/Base64.v ===== *)
(** [base64] as the bundle and console code call it: encoding with padding, and decoding
    that rejects a character outside the alphabet and wrong padding ([validate=True]).
    Bytes are characters. *)
From S2P Require Import Prelude.

Definition alphabet : list ascii := chars "ABCDEFGHIJKLMNOPQRSTUVWXYZabcdefghijklmnopqrstuvwxyz0123456789+/".

Definition enc_digit (n : nat) : ascii := nth n alphabet "A"%char.

Fixpoint index_in (a : ascii) (l : list ascii) (i : nat) : option nat :=
  match l with [] => None | b :: l => if Ascii.eqb a b then Some i else index_in a l (S i) end.
Definition dec_digit (a : ascii) : option nat := index_in a alphabet 0.

Fixpoint encode_bytes (l : list nat) : list ascii :=
  match l with
  | [] => []
  | [x] => [enc_digit (x / 4); enc_digit (x mod 4 * 16); "="%char; "="%char]
  | [x; y] => [enc_digit (x / 4); enc_digit (x mod 4 * 16 + y / 16); enc_digit (y mod 16 * 4); "="%char]
  | x :: y :: z :: l =>
      enc_digit (x / 4) :: enc_digit (x mod 4 * 16 + y / 16) :: enc_digit (y mod 16 * 4 + z / 64)
      :: enc_digit (z mod 64) :: encode_bytes l
  end.

(** A quantum ends the text when it is padded. *)
Fixpoint decode_digits (l : list ascii) : option (list nat) :=
  match l with
  | [] => Some []
  | a :: b :: c :: d :: l =>
      x ← dec_digit a; y ← dec_digit b;
      if Ascii.eqb c "=" then
        if Ascii.eqb d "=" then match l with [] => Some [x * 4 + y / 16] | _ => None end else None
      else
        z ← dec_digit c;
        if Ascii.eqb d "=" then
          match l with [] => Some [x * 4 + y / 16; y mod 16 * 16 + z / 4] | _ => None end
        else
          w ← dec_digit d; r ← decode_digits l;
          Some (x * 4 + y / 16 :: y mod 16 * 16 + z / 4 :: z mod 4 * 64 + w :: r)
  | _ => None
  end.

Definition b64encode (s : string) : string := of_chars (encode_bytes (nat_of_ascii <$> chars s)).
Definition b64decode (s : string) : option string :=
  (fun l => of_chars (ascii_of_nat <$> l)) <$> decode_digits (chars s).

(** * Decoding inverts encoding *)
Lemma dec_enc n : n < 64 -> dec_digit (enc_digit n) = Some n /\ Ascii.eqb (enc_digit n) "=" = false.
Proof.
  intros Hn.
  assert (forallb (fun n => bool_decide (dec_digit (enc_digit n) = Some n) && negb (Ascii.eqb (enc_digit n) "="))
    (seq 0 64) = true) as Hall by (vm_compute; reflexivity).
  rewrite forallb_forall in Hall. specialize (Hall n). rewrite in_seq in Hall.
  specialize (Hall ltac:(lia)). apply andb_true_iff in Hall as [H1%bool_decide_eq_true H2%negb_true_iff]. done.
Qed.

Lemma digits_of_bytes x y z : x < 256 -> y < 256 -> z < 256 ->
  x / 4 < 64 /\ x mod 4 * 16 + y / 16 < 64 /\ y mod 16 * 4 + z / 64 < 64 /\ z mod 64 < 64.
Proof.
  intros Hx Hy Hz. pose proof (Nat.mod_upper_bound x 4). pose proof (Nat.mod_upper_bound y 16).
  pose proof (Nat.mod_upper_bound z 64). pose proof (Nat.Div0.div_lt_upper_bound x 4 64).
  pose proof (Nat.Div0.div_lt_upper_bound y 16 16). pose proof (Nat.Div0.div_lt_upper_bound z 64 4). lia.
Qed.

Lemma bytes_of_digits x y z : y < 256 -> z < 256 ->
  x / 4 * 4 + (x mod 4 * 16 + y / 16) / 16 = x /\
  (x mod 4 * 16 + y / 16) mod 16 * 16 + (y mod 16 * 4 + z / 64) / 4 = y /\
  (y mod 16 * 4 + z / 64) mod 4 * 64 + z mod 64 = z.
Proof.
  intros Hy Hz. assert (y / 16 < 16) by (apply Nat.Div0.div_lt_upper_bound; lia).
  assert (z / 64 < 4) by (apply Nat.Div0.div_lt_upper_bound; lia).
  rewrite !Nat.div_add_l, !(Nat.add_comm (_ * _) (_ / _)), !Nat.Div0.mod_add by lia.
  rewrite !(Nat.div_small (_ / _)), !(Nat.mod_small (_ / _)) by lia.
  pose proof (Nat.div_mod_eq x 4). pose proof (Nat.div_mod_eq y 16). pose proof (Nat.div_mod_eq z 64). lia.
Qed.

#[local] Arguments Nat.div : simpl never.
#[local] Arguments Nat.modulo : simpl never.

Lemma decode_encode_bytes l : Forall (fun x => x < 256) l -> decode_digits (encode_bytes l) = Some l.
Proof.
  revert l. fix IH 1. intros [|x [|y [|z l]]] Hl; [done|..]; decompose_Forall_hyps.
  - destruct (digits_of_bytes x 0 0) as (D1 & D2 & _); [lia..|]. destruct (bytes_of_digits x 0 0) as (B1 & _); [lia..|].
    change (0 / 16) with 0 in *. rewrite Nat.add_0_r in *. cbn [encode_bytes decode_digits].
    rewrite (proj1 (dec_enc _ D1)), (proj1 (dec_enc _ D2)). cbn. by rewrite B1.
  - destruct (digits_of_bytes x y 0) as (D1 & D2 & D3 & _); [lia..|].
    destruct (bytes_of_digits x y 0) as (B1 & B2 & _); [lia..|].
    change (0 / 64) with 0 in *. rewrite Nat.add_0_r in *. cbn [encode_bytes decode_digits].
    rewrite (proj1 (dec_enc _ D1)), (proj1 (dec_enc _ D2)), (proj1 (dec_enc _ D3)), (proj2 (dec_enc _ D3)).
    cbn. by rewrite B1, B2.
  - destruct (digits_of_bytes x y z) as (D1 & D2 & D3 & D4); [lia..|].
    destruct (bytes_of_digits x y z) as (B1 & B2 & B3); [lia..|]. cbn [encode_bytes decode_digits].
    rewrite (proj1 (dec_enc _ D1)), (proj1 (dec_enc _ D2)), (proj1 (dec_enc _ D3)), (proj2 (dec_enc _ D3)),
      (proj1 (dec_enc _ D4)), (proj2 (dec_enc _ D4)), (IH l) by done.
    cbn. by rewrite B1, B2, B3.
Qed.

Lemma b64_roundtrip s : b64decode (b64encode s) = Some s.
Proof.
  unfold b64decode, b64encode. rewrite chars_of_chars, decode_encode_bytes.
  - cbn. f_equal. trans (of_chars (chars s)); [f_equal|apply of_chars_chars].
    induction (chars s) as [|a l IH]; [done|]. cbn. by rewrite ascii_nat_embedding, IH.
  - apply Forall_fmap, Forall_forall. intros a _. apply nat_ascii_bounded.
Qed.
