(* ===== verification/PyVal.v ===== *)
(** Dynamically typed Python values: the documents [yaml.safe_load] and [json.loads]
    return, JSON-RPC messages, tool arguments and audit events. A [str] is a Rocq
    [string] whose characters are code points below 256; an [int] is a [Z]; a [float]
    is an IEEE binary64 value of [SpecFloat]. Mapping keys are the scalars YAML
    produces; a mapping is an insertion-ordered association list. *)
From Stdlib Require Import SpecFloat.
From S2P Require Import Prelude.

Inductive key := KStr (s : string) | KInt (z : Z) | KBool (b : bool) | KNone.

#[export] Instance key_eq_dec : EqDecision key.
Proof. solve_decision. Defined.

Inductive val :=
  | VNone
  | VBool (b : bool)
  | VInt (z : Z)
  | VFloat (f : spec_float)
  | VStr (s : string)
  | VList (l : list val)
  | VDict (d : list (key * val)).

Abbreviation pydict := (list (key * val)).

(** ** The accessors the code uses on a [dict] *)

(** [d.get(name)] and [d[name]] for a string literal *)
Definition dget (name : string) (d : pydict) : option val := aget (KStr name) d.
(** [d.get(name, dflt)] *)
Definition dget_or (name : string) (dflt : val) (d : pydict) : val := aget_or (KStr name) dflt d.
(** [name in d] *)
Definition dhas (name : string) (d : pydict) : bool := ahas (KStr name) d.
Definition dset (name : string) (v : val) (d : pydict) : pydict := aset (KStr name) v d.

(** A dict display with literal string keys. *)
Definition fields (l : list (string * val)) : pydict := (fun '(k, v) => (KStr k, v)) <$> l.
Definition VObj (l : list (string * val)) : val := VDict (fields l).

Definition as_dict (v : val) : option pydict := match v with VDict d => Some d | _ => None end.
Definition as_list (v : val) : option (list val) := match v with VList l => Some l | _ => None end.
Definition as_str (v : val) : option string := match v with VStr s => Some s | _ => None end.

Definition is_str (v : val) : bool := match v with VStr _ => true | _ => false end.
Definition is_dict (v : val) : bool := match v with VDict _ => true | _ => false end.
Definition is_list (v : val) : bool := match v with VList _ => true | _ => false end.
(** [isinstance(v, int)]: [bool] is a subclass of [int] *)
Definition is_int (v : val) : bool := match v with VInt _ | VBool _ => true | _ => false end.
Definition is_bool (v : val) : bool := match v with VBool _ => true | _ => false end.
Definition is_none (v : val) : bool := match v with VNone => true | _ => false end.
Definition key_is_str (k : key) : bool := match k with KStr _ => true | _ => false end.

(** [isinstance(v, str) and v] *)
Definition is_nonempty_str (v : val) : bool :=
  match v with VStr s => nonempty s | _ => false end.
Definition is_str_list (v : val) : bool :=
  match v with VList l => forallb is_str l | _ => false end.
Definition str_list (v : val) : list string :=
  match v with VList l => omap as_str l | _ => [] end.

(** [hash(v)] raises [TypeError] on lists and dicts, and so do [v in a_set] and [d[v]]. *)
Definition hashable (v : val) : bool :=
  match v with VList _ | VDict _ => false | _ => true end.

Definition opt_val (o : option val) : val := match o with Some v => v | None => VNone end.
Definition opt_str (o : option string) : val := match o with Some s => VStr s | None => VNone end.
Definition strs (l : list string) : val := VList (VStr <$> l).
Definition key_val (k : key) : val :=
  match k with KStr s => VStr s | KInt z => VInt z | KBool b => VBool b | KNone => VNone end.

(** Truth value testing: [if v] *)
Definition truthy (v : val) : bool :=
  match v with
  | VNone => false
  | VBool b => b
  | VInt z => negb (z =? 0)%Z
  | VFloat (S754_zero _) => false
  | VFloat _ => true
  | VStr s => nonempty s
  | VList l => match l with [] => false | _ => true end
  | VDict d => match d with [] => false | _ => true end
  end.

(** ** binary64 *)
Definition prec64 : Z := 53%Z.
Definition emax64 : Z := 1024%Z.

(** [float] of a decimal literal [d * 10^k], correctly rounded *)
Definition float_of_decimal (neg : bool) (d k : Z) : spec_float :=
  let pos :=
    match d with
    | Zpos p =>
        if (0 <=? k)%Z then binary_normalize prec64 emax64 (d * 10 ^ k) 0 false
        else match (10 ^ (- k))%Z with
             | Zpos q => SFdiv prec64 emax64 (S754_finite false p 0) (S754_finite false q 0)
             | _ => S754_nan
             end
    | _ => S754_zero false
    end in
  if neg then SFopp pos else pos.

Definition sf_eqb (x y : spec_float) : bool :=
  match SFcompare x y with Some Eq => true | _ => false end.

(** An [int] compares with a [float] by exact value. *)
Definition sf_eq_Z (f : spec_float) (z : Z) : bool :=
  match f with
  | S754_zero _ => (z =? 0)%Z
  | S754_finite s m e =>
      let sm := if s then Zneg m else Zpos m in
      if (0 <=? e)%Z then (sm * 2 ^ e =? z)%Z else (sm =? z * 2 ^ (- e))%Z
  | _ => false
  end.

(** ** Equality: [v == w] *)
Definition num_of (v : val) : option Z :=
  match v with VBool b => Some (if b then 1%Z else 0%Z) | VInt z => Some z | _ => None end.

Fixpoint py_eqb (v w : val) {struct v} : bool :=
  match v, w with
  | VNone, VNone => true
  | VStr s, VStr t => String.eqb s t
  | VFloat f, VFloat g => sf_eqb f g
  | VFloat f, (VInt _ | VBool _) =>
      match num_of w with Some z => sf_eq_Z f z | None => false end
  | (VInt _ | VBool _), VFloat f =>
      match num_of v with Some z => sf_eq_Z f z | None => false end
  | (VInt _ | VBool _), (VInt _ | VBool _) => bool_decide (num_of v = num_of w)
  | VList l, VList m =>
      (fix go l m := match l, m with
        | [], [] => true
        | x :: l, y :: m => py_eqb x y && go l m
        | _, _ => false end) l m
  | VDict d, VDict e =>
      (List.length d =? List.length e) &&
      (fix go d := match d with
        | [] => true
        | (k, x) :: d => match aget k e with Some y => py_eqb x y | None => false end && go d
        end) d
  | _, _ => false
  end.

(** A dictionary keyed by JSON values. *)
Fixpoint vget {A} (k : val) (d : list (val * A)) : option A :=
  match d with [] => None | (k', x) :: d => if py_eqb k k' then Some x else vget k d end.
Fixpoint vset {A} (k : val) (x : A) (d : list (val * A)) : list (val * A) :=
  match d with [] => [(k, x)] | (k', y) :: d => if py_eqb k k' then (k', x) :: d else (k', y) :: vset k x d end.

(** ** [repr] and [str] *)
Definition hex_digit (n : nat) : ascii := ascii_of_nat (if n <? 10 then 48 + n else 87 + n).
Definition hex2 (n : nat) : string := of_chars [hex_digit (n / 16); hex_digit (n mod 16)].

(** Printable code points below 256 (no separator or control character). *)
Definition printable (n : nat) : bool :=
  ((32 <=? n) && (n <? 127)) || ((161 <=? n) && negb (n =? 173)).

Fixpoint repr_body (quote : nat) (s : string) : string :=
  match s with
  | EmptyString => EmptyString
  | String a s =>
      let n := nat_of_ascii a in
      (if (n =? 92) || (n =? quote) then chr 92 +:+ chr n
       else if n =? 10 then chr 92 +:+ "n"
       else if n =? 13 then chr 92 +:+ "r"
       else if n =? 9 then chr 92 +:+ "t"
       else if printable n then chr n
       else chr 92 +:+ "x" +:+ hex2 n) +:+ repr_body quote s
  end.

Definition str_repr (s : string) : string :=
  let q := if contains squote s && negb (contains dquote s) then 34 else 39 in
  chr q +:+ repr_body q s +:+ chr q.

(** Digits of the shortest decimal that reads back as the float: the decimal point
    comes after [k] digits. At most 17 digits are ever needed for binary64. *)
Definition ratio_of (m : positive) (e : Z) : Z * Z :=
  if (0 <=? e)%Z then (Zpos m * 2 ^ e, 1)%Z else (Zpos m, 2 ^ (- e))%Z.

(** [num/den >= 10^k] *)
Definition ge_pow10 (num den k : Z) : bool :=
  if (0 <=? k)%Z then (den * 10 ^ k <=? num)%Z else (den <=? num * 10 ^ (- k))%Z.

Fixpoint fix_exp (fuel : nat) (num den k : Z) : Z :=
  match fuel with
  | 0 => k
  | S fuel =>
      if ge_pow10 num den k then fix_exp fuel num den (k + 1)%Z
      else if ge_pow10 num den (k - 1)%Z then k else fix_exp fuel num den (k - 1)%Z
  end.

Definition decimal_exp (num den : Z) : Z :=
  fix_exp 8 num den (((Z.log2 num - Z.log2 den) * 30103) / 100000)%Z.

(** nearest integer to [num/den], ties to even *)
Definition round_div (num den : Z) : Z :=
  let q := (num / den)%Z in let r := (num mod den)%Z in
  match (2 * r ?= den)%Z with
  | Lt => q | Gt => (q + 1)%Z | Eq => if Z.even q then q else (q + 1)%Z
  end.

Definition scaled (num den j : Z) : Z :=
  if (0 <=? j)%Z then round_div (num * 10 ^ j)%Z den else round_div num (den * 10 ^ (- j))%Z.

Fixpoint shortest (fuel n : nat) (f : spec_float) (num den k : Z) : Z * Z :=
  let d := scaled num den (Z.of_nat n - k) in
  match fuel with
  | 0 => (d, (k - Z.of_nat n)%Z)
  | S fuel =>
      if sf_eqb (float_of_decimal false d (k - Z.of_nat n)) f then (d, (k - Z.of_nat n)%Z)
      else shortest fuel (S n) f num den k
  end.

Fixpoint strip_zeros (fuel : nat) (d e : Z) : Z * Z :=
  match fuel with
  | 0 => (d, e)
  | S fuel => if (d mod 10 =? 0)%Z then strip_zeros fuel (d / 10)%Z (e + 1)%Z else (d, e)
  end.

Definition zeros (n : Z) : string := of_chars (repeat "0"%char (Z.to_nat n)).

Definition float_digits (ds : string) (k : Z) : string :=
  let n := Z.of_nat (String.length ds) in
  if (-4 <? k)%Z && (k <=? 16)%Z then
    if (k <=? 0)%Z then "0." +:+ zeros (- k) +:+ ds
    else if (n <=? k)%Z then ds +:+ zeros (k - n) +:+ ".0"
    else slice ds 0 (Z.to_nat k) +:+ "." +:+ slice ds (Z.to_nat k) (String.length ds)
  else
    let x := (k - 1)%Z in let ax := pretty (Z.abs x) in
    slice ds 0 1 +:+ (if (n =? 1)%Z then "" else "." +:+ slice ds 1 (String.length ds))
    +:+ "e" +:+ (if (x <? 0)%Z then "-" else "+")
    +:+ (if String.length ax <? 2 then "0" else "") +:+ ax.

Definition float_repr (f : spec_float) : string :=
  match f with
  | S754_zero s => if s then "-0.0" else "0.0"
  | S754_infinity s => if s then "-inf" else "inf"
  | S754_nan => "nan"
  | S754_finite s m e =>
      let '(num, den) := ratio_of m e in
      let k := decimal_exp num den in
      let '(d, x) := shortest 16 1 (S754_finite false m e) num den k in
      let '(d, x) := strip_zeros 20 d x in
      let ds := pretty d in
      (if s then "-" else "") +:+ float_digits ds (Z.of_nat (String.length ds) + x)
  end.

Definition key_repr (k : key) : string :=
  match k with
  | KStr s => str_repr s | KInt z => pretty z
  | KBool b => if b then "True" else "False" | KNone => "None"
  end.

Fixpoint py_repr (v : val) : string :=
  match v with
  | VNone => "None"
  | VBool b => if b then "True" else "False"
  | VInt z => pretty z
  | VFloat f => float_repr f
  | VStr s => str_repr s
  | VList l => "[" +:+ join ", " (py_repr <$> l) +:+ "]"
  | VDict d => "{" +:+ join ", " ((fun '(k, x) => key_repr k +:+ ": " +:+ py_repr x) <$> d) +:+ "}"
  end.

Definition py_str (v : val) : string := match v with VStr s => s | _ => py_repr v end.

Definition strs_repr (l : list string) : string := "[" +:+ join ", " (str_repr <$> l) +:+ "]".

(** ** [sorted(set(d) - allowed)] of the validators

    Sorting mixed keys ([str] against [int], or [None] against anything) raises
    [TypeError]; a validator that reports its unknown fields inherits that. *)
Definition unknown_keys (allowed : list string) (d : pydict) : list key :=
  List.filter (fun k => match k with KStr s => negb (bool_decide (s ∈ allowed)) | _ => true end) (akeys d).

Definition key_num (k : key) : option Z :=
  match k with KInt z => Some z | KBool b => Some (if b then 1%Z else 0%Z) | _ => None end.
Definition key_leb (k1 k2 : key) : bool :=
  match k1, k2 with
  | KStr s, KStr t => str_leb s t
  | _, _ => match key_num k1, key_num k2 with Some x, Some y => (x <=? y)%Z | _, _ => true end
  end.

Definition sorted_keys (l : list key) : result (list key) :=
  if forallb key_is_str l || forallb (fun k => bool_decide (is_Some (key_num k))) l
     || (List.length l <=? 1)
  then Ok (isort key_leb l)
  else raise TypeError "'<' not supported between instances".

(** The validators' common shape: refuse a mapping with a field outside [allowed]. *)
Definition check_unknown (cls : exn_class) (prefix : string) (allowed : list string) (d : pydict)
  : result unit :=
  match unknown_keys allowed d with
  | [] => Ok tt
  | ks => ks ← sorted_keys ks;
          raise cls (prefix +:+ "[" +:+ join ", " (key_repr <$> ks) +:+ "]")
  end.

(** ** Structural induction and decidable equality on values *)
Section ValInd.
Context (P : val -> Prop).
Context (HNone : P VNone) (HBool : forall b, P (VBool b)) (HInt : forall z, P (VInt z))
  (HFloat : forall f, P (VFloat f)) (HStr : forall s, P (VStr s))
  (HList : forall l, Forall P l -> P (VList l))
  (HDict : forall d, Forall (fun kv => P kv.2) d -> P (VDict d)).

Fixpoint val_ind' (v : val) : P v :=
  match v with
  | VNone => HNone
  | VBool b => HBool b
  | VInt z => HInt z
  | VFloat f => HFloat f
  | VStr s => HStr s
  | VList l => HList l ((fix go l : Forall P l :=
      match l with
      | [] => Forall_nil_2 P
      | x :: l => Forall_cons_2 P x l (val_ind' x) (go l)
      end) l)
  | VDict d => HDict d ((fix go d : Forall (fun kv => P kv.2) d :=
      match d with
      | [] => Forall_nil_2 _
      | kv :: d => Forall_cons_2 (fun kv => P kv.2) kv d (val_ind' kv.2) (go d)
      end) d)
  end.
End ValInd.

#[export] Instance spec_float_eq_dec : EqDecision spec_float.
Proof. solve_decision. Defined.

#[export] Instance val_eq_dec : EqDecision val.
Proof.
  refine (fix go (v w : val) {struct v} : Decision (v = w) :=
    match v, w with
    | VNone, VNone => left eq_refl
    | VBool b, VBool c => cast_if (decide (b = c))
    | VInt x, VInt y => cast_if (decide (x = y))
    | VFloat x, VFloat y => cast_if (decide (x = y))
    | VStr x, VStr y => cast_if (decide (x = y))
    | VList l, VList m => cast_if (@list_eq_dec val go l m)
    | VDict d, VDict e => cast_if (@list_eq_dec (key * val) (@prod_eq_dec key _ val go) d e)
    | _, _ => right _
    end); congruence.
Defined.

(** ** Lemmas *)

Lemma dget_dset_eq name v d : dget name (dset name v d) = Some v.
Proof. apply aget_aset_eq. Qed.

Lemma decide_KStr {B} a b (x y : B) :
  (if decide (KStr a = KStr b) then x else y) = if String.eqb a b then x else y.
Proof. destruct (String.eqb_spec a b); [by rewrite decide_True by congruence|by rewrite decide_False by congruence]. Qed.

(** [dict_simpl]: look literal keys up in literal dictionaries. *)
Ltac dict_simpl :=
  unfold dget_or, aget_or, dget, dhas, ahas, VObj in *;
  cbn [fields fmap list_fmap aget app] in *;
  repeat (rewrite decide_KStr; cbn [String.eqb Ascii.eqb Bool.eqb aget]).

Lemma dget_dset_ne name name' v d : name <> name' -> dget name (dset name' v d) = dget name d.
Proof. intros. apply aget_aset_ne. congruence. Qed.

Lemma check_unknown_ok cls prefix allowed d u :
  check_unknown cls prefix allowed d = Ok u ->
  forall k, k ∈ akeys d -> exists s, k = KStr s /\ s ∈ allowed.
Proof.
  unfold check_unknown. destruct (unknown_keys allowed d) as [|k0 ks] eqn:Hu.
  - intros _ k Hk.
    destruct (match k with KStr s => negb (bool_decide (s ∈ allowed)) | _ => true end) eqn:Hb.
    + assert (k ∈ unknown_keys allowed d) as Hin
        by (unfold unknown_keys; apply list_elem_of_In, List.filter_In; split;
            [by apply list_elem_of_In|done]).
      rewrite Hu in Hin. set_solver.
    + destruct k as [s| | |]; try done. exists s. split; [done|].
      apply negb_false_iff, bool_decide_eq_true in Hb. done.
  - destruct (sorted_keys (k0 :: ks)) as [ks'|e]; cbn; discriminate.
Qed.

Lemma is_nonempty_str_spec v :
  is_nonempty_str v = true <-> exists s, v = VStr s /\ s <> "".
Proof.
  destruct v; simpl; try naive_solver. unfold nonempty.
  rewrite negb_true_iff, String.eqb_neq. naive_solver.
Qed.
