(* ===== verification/FloatCount.v ===== *)
(** Counting in binary64: a float counter incremented by [1.0] holds its count exactly as
    long as the count has at most 53 binary digits. The operations are those of the Standard
    Library's [SpecFloat]. *)
From Stdlib Require Import SpecFloat.
From S2P Require Import Prelude PyVal.
#[local] Open Scope Z_scope.

Definition float_of_nat (n : nat) : spec_float := float_of_decimal false (Z.of_nat n) 0.

(** [q * 2^k] *)
Definition dbl (k : nat) (q : positive) : positive := Nat.iter k xO q.

Lemma dbl_add j k q : dbl (j + k) q = dbl j (dbl k q).
Proof. apply Nat.iter_add. Qed.
Lemma iter_dbl q n : Pos.iter xO q n = dbl (Pos.to_nat n) q.
Proof. unfold dbl. by rewrite Pos2Nat.inj_iter. Qed.
Lemma dbl_val k q : Zpos (dbl k q) = Zpos q * 2 ^ Z.of_nat k.
Proof.
  induction k as [|k IH]; [cbn; lia|]. change (dbl (S k) q) with (xO (dbl k q)).
  rewrite Pos2Z.inj_xO, IH, Nat2Z.inj_succ, Z.pow_succ_r by lia. lia.
Qed.
Lemma digits_dbl k q : Zpos (digits2_pos (dbl k q)) = Zpos (digits2_pos q) + Z.of_nat k.
Proof.
  induction k as [|k IH]; [cbn; lia|]. change (dbl (S k) q) with (xO (dbl k q)).
  cbn [digits2_pos]. lia.
Qed.

Lemma iter_pos_nat {A} (f : A -> A) n : forall x : A, SpecFloat.iter_pos f n x = Nat.iter (Pos.to_nat n) f x.
Proof.
  induction n as [n IH|n IH|]; intros x; [| |done].
  - change (SpecFloat.iter_pos f (xI n) x) with (SpecFloat.iter_pos f n (SpecFloat.iter_pos f n (f x))).
    rewrite !IH, <- Nat.iter_add, <- Nat.iter_succ_r. f_equal. lia.
  - change (SpecFloat.iter_pos f (xO n) x) with (SpecFloat.iter_pos f n (SpecFloat.iter_pos f n x)).
    rewrite !IH, <- Nat.iter_add. f_equal. lia.
Qed.

Definition exact (q : positive) : shr_record := {| shr_m := Zpos q; shr_r := false; shr_s := false |}.
Lemma shr_dbl k q : Nat.iter k shr_1 (exact (dbl k q)) = exact q.
Proof. induction k as [|k IH]; [done|]. rewrite Nat.iter_succ_r. exact IH. Qed.

Lemma shr_exact k q e n : n = Z.of_nat k -> shr (exact (dbl k q)) e n = (exact q, e + n).
Proof.
  intros ->. destruct k as [|k]; [cbn; by rewrite Z.add_0_r|].
  change (Z.of_nat (S k)) with (Zpos (Pos.of_succ_nat k)). unfold shr. rewrite iter_pos_nat, SuccNat2Pos.id_succ, shr_dbl. done.
Qed.

Lemma fexp_normal e : -1021 <= e -> fexp prec64 emax64 e = e - 53.
Proof. unfold fexp, emin, prec64, emax64. lia. Qed.

Lemma round_aux_exact k q e : Zpos (digits2_pos q) = 53 -> -1074 <= e + Z.of_nat k <= 971 ->
  binary_round_aux prec64 emax64 false (Zpos (dbl k q)) e loc_Exact = S754_finite false q (e + Z.of_nat k).
Proof.
  intros Hd He. unfold binary_round_aux, shr_fexp. cbn [Zdigits2 shr_record_of_loc].
  fold (exact (dbl k q)). rewrite digits_dbl, Hd, fexp_normal, (shr_exact k) by lia.
  cbn [shr_m exact loc_of_shr_record round_nearest_even Zdigits2]. fold (exact q).
  replace (e + _) with (e + Z.of_nat k) by lia.
  rewrite Hd, fexp_normal by lia. change (exact q) with (exact (dbl 0 q)). rewrite (shr_exact 0) by lia.
  cbn [exact shr_m]. unfold prec64, emax64. rewrite Zle_imp_le_bool by lia. f_equal. lia.
Qed.

Lemma round_exact k q e : Zpos (digits2_pos q) = 53 -> -1074 <= e + Z.of_nat k <= 971 ->
  binary_round prec64 emax64 false (dbl k q) e = S754_finite false q (e + Z.of_nat k).
Proof.
  intros Hd He. unfold binary_round. rewrite digits_dbl, Hd, fexp_normal by lia.
  unfold shl_align. destruct (_ - e) eqn:Hs; [|..|lia]; by apply round_aux_exact.
Qed.

(** The float of a positive integer of at most 53 binary digits. *)
Definition digits (p : positive) : nat := Pos.to_nat (digits2_pos p).
Definition float_of_pos (p : positive) : spec_float :=
  S754_finite false (dbl (53 - digits p) p) (Z.of_nat (digits p) - 53).

Lemma digits_pos p : (0 < digits p)%nat.
Proof. unfold digits. lia. Qed.
Lemma digits_canonical p : (digits p <= 53)%nat -> Zpos (digits2_pos (dbl (53 - digits p) p)) = 53.
Proof. intros. rewrite digits_dbl. unfold digits in *. lia. Qed.

Lemma normalize_pos p : (digits p <= 53)%nat -> binary_normalize prec64 emax64 (Zpos p) 0 false = float_of_pos p.
Proof.
  intros Hp. pose proof (digits_pos p). cbn [binary_normalize]. unfold binary_round.
  replace (Zpos (digits2_pos p) + 0) with (Z.of_nat (digits p)) by (unfold digits; lia).
  rewrite fexp_normal by lia. unfold shl_align.
  assert ((match Z.of_nat (digits p) - 53 - 0 with Zneg d => (Pos.iter xO p d, Z.of_nat (digits p) - 53) | _ => (p, 0) end)
    = (dbl 0 (dbl (53 - digits p) p), Z.of_nat (digits p) - 53)) as ->.
  { destruct (Z.of_nat (digits p) - 53 - 0) eqn:Hs; [|lia|].
    - replace (53 - digits p)%nat with 0%nat by lia. cbn. f_equal. lia.
    - rewrite iter_dbl. cbn. do 3 f_equal. lia. }
  rewrite round_aux_exact; [|by apply digits_canonical|lia]. unfold float_of_pos. f_equal. lia.
Qed.

Lemma float_succ p : (digits (Pos.succ p) <= 53)%nat -> (digits p <= 53)%nat ->
  SFadd prec64 emax64 (float_of_pos p) (float_of_pos 1) = float_of_pos (Pos.succ p).
Proof.
  intros Hs Hp. pose proof (digits_pos p). pose proof (digits_pos (Pos.succ p)).
  unfold float_of_pos at 1 2. change (digits 1) with 1%nat. cbn [SFadd].
  replace (Z.min _ _) with (-52) by lia. cbn [cond_Zopp].
  assert (fst (shl_align (dbl (53 - digits p) p) (Z.of_nat (digits p) - 53) (-52)) = dbl 52 p) as ->.
  { unfold shl_align. destruct (-52 - (Z.of_nat (digits p) - 53)) eqn:Hz; cbn [fst]; [|lia|].
    - by replace (53 - digits p)%nat with 52%nat by lia.
    - rewrite iter_dbl, <- dbl_add. f_equal. lia. }
  assert (fst (shl_align (dbl (53 - 1) 1) (Z.of_nat 1 - 53) (-52)) = dbl 52 1) as -> by reflexivity.
  replace (Zpos (dbl 52 p) + Zpos (dbl 52 1)) with (Zpos (dbl (digits (Pos.succ p) - 1) (dbl (53 - digits (Pos.succ p)) (Pos.succ p)))).
  - cbn [binary_normalize]. rewrite round_exact; [|by apply digits_canonical|lia]. unfold float_of_pos. f_equal. lia.
  - rewrite <- dbl_add. replace (_ + _)%nat with 52%nat by lia. rewrite !dbl_val. lia.
Qed.

Lemma digits_low p : 2 ^ (Z.of_nat (digits p) - 1) <= Zpos p.
Proof.
  unfold digits. rewrite positive_nat_Z. induction p as [p IH|p IH|]; cbn [digits2_pos]; [| |done];
    rewrite Pos2Z.inj_succ; replace (Z.succ _ - 1) with (Z.succ (Zpos (digits2_pos p) - 1)) by lia;
    rewrite Z.pow_succ_r by lia; lia.
Qed.

Lemma digits_small p : Zpos p < 2 ^ 53 -> (digits p <= 53)%nat.
Proof.
  intros Hp. pose proof (digits_low p) as Hl. destruct (Nat.le_gt_cases (digits p) 53) as [|Hgt]; [done|exfalso].
  assert (2 ^ 53 <= 2 ^ (Z.of_nat (digits p) - 1)) by (apply Z.pow_le_mono_r; lia). lia.
Qed.

Lemma float_of_nat_pos p : Zpos p < 2 ^ 53 -> float_of_nat (Pos.to_nat p) = float_of_pos p.
Proof.
  intros Hp. unfold float_of_nat, float_of_decimal. rewrite positive_nat_Z. cbn [Z.leb Z.compare].
  change (10 ^ 0) with 1. rewrite Z.mul_1_r. by apply normalize_pos, digits_small.
Qed.

(** [x += 1.0] *)
Definition one64 : spec_float := float_of_nat 1.
Definition incr (x : spec_float) : spec_float := SFadd prec64 emax64 x one64.

Lemma incr_exact n : Z.of_nat (S n) < 2 ^ 53 -> incr (float_of_nat n) = float_of_nat (S n).
Proof.
  intros Hn. unfold incr, one64. destruct n as [|n]; [reflexivity|].
  replace (S n) with (Pos.to_nat (Pos.of_succ_nat n)) in * by lia.
  replace (S (Pos.to_nat _)) with (Pos.to_nat (Pos.succ (Pos.of_succ_nat n))) in * by lia.
  replace 1%nat with (Pos.to_nat 1) by lia. rewrite !float_of_nat_pos by lia.
  apply float_succ; apply digits_small; lia.
Qed.

(** Counting up from zero is exact below [2^53]. *)
Lemma count_exact n : Z.of_nat n < 2 ^ 53 -> Nat.iter n incr (S754_zero false) = float_of_nat n.
Proof.
  induction n as [|n IH]; intros Hn; [reflexivity|]. cbn [Nat.iter nat_rect].
  change (incr (Nat.iter n incr (S754_zero false)) = float_of_nat (S n)). rewrite IH by lia. by apply incr_exact.
Qed.

(** [int(x)]: towards zero; an infinity and a NaN raise. *)
Definition sf_int (x : spec_float) : result Z :=
  match x with
  | S754_zero _ => Ok 0
  | S754_finite s m e =>
      let a := if 0 <=? e then Zpos m * 2 ^ e else Zpos m / 2 ^ (- e) in Ok (if s then - a else a)
  | S754_nan => raise ValueError "cannot convert float NaN to integer"
  | S754_infinity _ => raise OtherError "cannot convert float infinity to integer"
  end.

Lemma sf_int_nat n : Z.of_nat n < 2 ^ 53 ->
  sf_int (float_of_nat n) = Ok (Z.of_nat n) /\ sf_eq_Z (float_of_nat n) (Z.of_nat n) = true.
Proof.
  intros Hn. destruct n as [|n]; [by split|].
  replace (S n) with (Pos.to_nat (Pos.of_succ_nat n)) in * by lia. rewrite positive_nat_Z in *.
  generalize dependent (Pos.of_succ_nat n). clear n. intros p Hp. rewrite float_of_nat_pos by done.
  pose proof (digits_small p Hp) as Hd. unfold float_of_pos, sf_int, sf_eq_Z. rewrite dbl_val.
  destruct (Z.leb_spec 0 (Z.of_nat (digits p) - 53)).
  - replace (53 - digits p)%nat with 0%nat by lia. replace (Z.of_nat (digits p) - 53) with 0 by lia.
    rewrite Z.eqb_eq. split; [f_equal|]; cbn; lia.
  - replace (- (Z.of_nat (digits p) - 53)) with (Z.of_nat (53 - digits p)) by lia.
    rewrite Z.div_mul by (apply Z.pow_nonzero; lia). split; [done|]. by rewrite Z.eqb_eq.
Qed.
