(* ===== verification/Json.v ===== *)
(** [json.dumps] and [json.loads] as the source calls them: compact or default
    separators, [ensure_ascii=False], strict string decoding, a last-wins object with
    the position of the first occurrence, and the 4300-digit limit on integers, whose
    error is a plain [ValueError]. Escapes above U+00FF are outside the model (a
    character is a code point below 256) and decode to an error. *)
From Stdlib Require Import SpecFloat.
From S2P Require Import Prelude PyVal.

(** * Encoding *)

Definition escape_char (a : ascii) : string :=
  let n := nat_of_ascii a in
  if n =? 34 then chr 92 +:+ chr 34
  else if n =? 92 then chr 92 +:+ chr 92
  else if n =? 10 then chr 92 +:+ "n"
  else if n =? 13 then chr 92 +:+ "r"
  else if n =? 9 then chr 92 +:+ "t"
  else if n =? 12 then chr 92 +:+ "f"
  else if n =? 8 then chr 92 +:+ "b"
  else if n <? 32 then chr 92 +:+ "u00" +:+ hex2 n
  else chr n.

Fixpoint escape (s : string) : string :=
  match s with EmptyString => EmptyString | String a s => escape_char a +:+ escape s end.

Definition dump_str (s : string) : string := dquote +:+ escape s +:+ dquote.

Definition dump_float (f : spec_float) : string :=
  match f with
  | S754_nan => "NaN"
  | S754_infinity s => if s then "-Infinity" else "Infinity"
  | _ => float_repr f
  end.

Definition dump_key (k : key) : string :=
  dump_str (match k with
            | KStr s => s | KInt z => pretty z
            | KBool b => if b then "true" else "false" | KNone => "null"
            end).

Fixpoint dumps_with (isep ksep : string) (v : val) : string :=
  match v with
  | VNone => "null"
  | VBool b => if b then "true" else "false"
  | VInt z => pretty z
  | VFloat f => dump_float f
  | VStr s => dump_str s
  | VList l => "[" +:+ join isep (dumps_with isep ksep <$> l) +:+ "]"
  | VDict d =>
      "{" +:+ join isep ((fun '(k, x) => dump_key k +:+ ksep +:+ dumps_with isep ksep x) <$> d)
      +:+ "}"
  end.

(** [json.dumps(v, separators=(",", ":"), ensure_ascii=False)] *)
Definition json_dumps : val -> string := dumps_with "," ":".
(** [json.dumps(v)] up to the escaping of non-ASCII text *)
Definition json_dumps_default : val -> string := dumps_with ", " ": ".

(** The blanks an encoder may put around the items of a container [n] levels deep: after its
    opening bracket, after a comma, after a colon, before its closing bracket. *)
Record Layout := { open_gap : nat -> string; item_gap : nat -> string; key_gap : string; close_gap : nat -> string }.

Fixpoint laid (L : Layout) (n : nat) (v : val) : string :=
  match v with
  | VList ((_ :: _) as l) =>
      "[" +:+ (open_gap L n +:+ (join ("," +:+ item_gap L n) (laid L (S n) <$> l) +:+ (close_gap L n +:+ "]")))
  | VDict ((_ :: _) as d) =>
      "{" +:+ (open_gap L n +:+ (join ("," +:+ item_gap L n)
        ((fun '(k, x) => dump_key k +:+ ((":" +:+ key_gap L) +:+ laid L (S n) x)) <$> d) +:+ (close_gap L n +:+ "}")))
  | v => dumps_with "" "" v
  end.

(** [indent=2]: each item on a line of its own. *)
Definition new_line (n : nat) : string := newline +:+ of_chars (repeat " "%char (2 * n)).
Definition indent2 : Layout :=
  {| open_gap := fun n => new_line (S n); item_gap := fun n => new_line (S n); key_gap := " "; close_gap := new_line |}.
(** [json.dumps(v, indent=2)] up to the escaping of non-ASCII text *)
Definition json_dumps_indent : val -> string := laid indent2 0.

(** [sort_keys=True] on a value whose keys are strings *)
Fixpoint sort_val (v : val) : val :=
  match v with
  | VList l => VList (sort_val <$> l)
  | VDict d => VDict (isort (fun kx ky => key_leb kx.1 ky.1) ((fun '(k, x) => (k, sort_val x)) <$> d))
  | _ => v
  end.

(** * Decoding *)

Abbreviation text := (list ascii).

Definition decode_error {A} : result A := raise JSONDecodeError "Expecting value".

Definition is_ws (a : ascii) : bool :=
  let n := nat_of_ascii a in (n =? 32) || (n =? 9) || (n =? 10) || (n =? 13).
Definition skip_ws : text -> text := drop_while is_ws.

Definition hex_val (a : ascii) : option nat :=
  let n := nat_of_ascii a in
  if (48 <=? n) && (n <=? 57) then Some (n - 48)
  else if (97 <=? n) && (n <=? 102) then Some (n - 87)
  else if (65 <=? n) && (n <=? 70) then Some (n - 55)
  else None.

Definition unescape (a : ascii) : option ascii :=
  let n := nat_of_ascii a in
  if n =? 34 then Some (ascii_of_nat 34) else if n =? 92 then Some (ascii_of_nat 92)
  else if n =? 47 then Some (ascii_of_nat 47) else if n =? 98 then Some (ascii_of_nat 8)
  else if n =? 102 then Some (ascii_of_nat 12) else if n =? 110 then Some (ascii_of_nat 10)
  else if n =? 114 then Some (ascii_of_nat 13) else if n =? 116 then Some (ascii_of_nat 9)
  else None.

(** The characters of a string literal up to its closing quote. *)
Fixpoint pstring (l : text) : result (text * text) :=
  match l with
  | [] => decode_error
  | a :: l =>
      let n := nat_of_ascii a in
      if n =? 34 then Ok ([], l)
      else if n <? 32 then decode_error
      else if n =? 92 then
        match l with
        | [] => decode_error
        | c :: l =>
            if nat_of_ascii c =? 117 then
              match l with
              | h1 :: h2 :: h3 :: h4 :: l =>
                  match hex_val h1, hex_val h2, hex_val h3, hex_val h4 with
                  | Some 0, Some 0, Some x, Some y =>
                      '(s, r) ← pstring l; Ok (ascii_of_nat (16 * x + y) :: s, r)
                  | _, _, _, _ => decode_error
                  end
              | _ => decode_error
              end
            else match unescape c with
                 | Some b => '(s, r) ← pstring l; Ok (b :: s, r)
                 | None => decode_error
                 end
        end
      else '(s, r) ← pstring l; Ok (a :: s, r)
  end.

Definition digit_val (a : ascii) : Z := (Z.of_nat (nat_of_ascii a) - 48)%Z.
Definition digits_val (l : text) : Z := fold_left (fun x a => (10 * x + digit_val a)%Z) l 0%Z.

Definition span_digits (l : text) : text * text :=
  (take_while is_digit l, drop_while is_digit l).

Definition char_is (c : ascii) (l : text) : bool :=
  match l with a :: _ => Ascii.eqb a c | [] => false end.

(** The fraction [.d+] and the exponent [e(+|-)?d+]: present only when complete. *)
Definition pfrac (l : text) : option (text * text) :=
  match l with
  | a :: l => if Ascii.eqb a "."%char then
                let '(ds, r) := span_digits l in match ds with [] => None | _ => Some (ds, r) end
              else None
  | [] => None
  end.

Definition pexp (l : text) : option (Z * text) :=
  match l with
  | a :: l =>
      if Ascii.eqb a "e"%char || Ascii.eqb a "E"%char then
        let '(neg, l) := match l with
          | b :: l' => if Ascii.eqb b "-"%char then (true, l')
                       else if Ascii.eqb b "+"%char then (false, l') else (false, l)
          | [] => (false, l) end in
        let '(ds, r) := span_digits l in
        match ds with [] => None | _ => Some (if neg then (- digits_val ds)%Z else digits_val ds, r) end
      else None
  | [] => None
  end.

(** A number: an optional minus, [0] or digits not starting with [0], then an optional
    fraction and an optional exponent. *)
Definition pint (l : text) : text * text :=
  if char_is "0"%char l then (["0"%char], tail l) else span_digits l.

Definition pnumber_rest (neg : bool) (ds r : text) : result (val * text) :=
  match ds with
  | [] => decode_error
  | _ =>
      match pfrac r, pexp (match pfrac r with Some (_, r') => r' | None => r end) with
      | None, None =>
          if 4300 <? List.length ds then raise ValueError "Exceeds the limit for integer string conversion"
          else Ok (VInt (if neg then (- digits_val ds)%Z else digits_val ds), r)
      | fr, ex =>
          let fds := match fr with Some (fds, _) => fds | None => [] end in
          let r1 := match fr with Some (_, r') => r' | None => r end in
          let x := match ex with Some (x, _) => x | None => 0%Z end in
          let r2 := match ex with Some (_, r') => r' | None => r1 end in
          Ok (VFloat (float_of_decimal neg (digits_val (ds ++ fds)) (x - Z.of_nat (List.length fds))), r2)
      end
  end.

Definition pnumber (l : text) : result (val * text) :=
  let neg := char_is "-"%char l in
  let p := pint (if neg then tail l else l) in
  pnumber_rest neg p.1 p.2.

Fixpoint strip_prefix (p l : text) : option text :=
  match p, l with
  | [], _ => Some l
  | a :: p, b :: l => if Ascii.eqb a b then strip_prefix p l else None
  | _, [] => None
  end.

(** Values, the rest of an array after [\[], and the rest of an object after [{]. *)
Definition pliteral (l : text) : result (val * text) :=
  match strip_prefix (chars "null") l with Some r => Ok (VNone, r) | None =>
  match strip_prefix (chars "true") l with Some r => Ok (VBool true, r) | None =>
  match strip_prefix (chars "false") l with Some r => Ok (VBool false, r) | None =>
  match strip_prefix (chars "NaN") l with Some r => Ok (VFloat S754_nan, r) | None =>
  match strip_prefix (chars "Infinity") l with Some r => Ok (VFloat (S754_infinity false), r) | None =>
  match strip_prefix (chars "-Infinity") l with Some r => Ok (VFloat (S754_infinity true), r) | None =>
  pnumber l end end end end end end.

Fixpoint pvalue (fuel : nat) (l : text) : result (val * text) :=
  match fuel with
  | 0 => decode_error
  | S fuel =>
      match l with
      | [] => decode_error
      | a :: l' =>
          if nat_of_ascii a =? 34 then
            '(s, r) ← pstring l'; Ok (VStr (of_chars s), r)
          else if Ascii.eqb a "["%char then
            let l2 := skip_ws l' in
            if char_is "]"%char l2 then Ok (VList [], tail l2)
            else '(vs, r) ← pelems fuel l2; Ok (VList vs, r)
          else if Ascii.eqb a "{"%char then
            let l2 := skip_ws l' in
            if char_is "}"%char l2 then Ok (VDict [], tail l2)
            else '(kvs, r) ← pmembers fuel l2; Ok (VDict (aupdate [] kvs), r)
          else pliteral l
      end
  end
with pelems (fuel : nat) (l : text) : result (list val * text) :=
  match fuel with
  | 0 => decode_error
  | S fuel =>
      '(v, r) ← pvalue fuel l;
      let r := skip_ws r in
      if char_is "]"%char r then Ok ([v], tail r)
      else if char_is ","%char r then
        '(vs, r) ← pelems fuel (skip_ws (tail r)); Ok (v :: vs, r)
      else decode_error
  end
with pmembers (fuel : nat) (l : text) : result (pydict * text) :=
  match fuel with
  | 0 => decode_error
  | S fuel =>
      if char_is (ascii_of_nat 34) l then
        '(k, r) ← pstring (tail l);
        let r := skip_ws r in
        if char_is ":"%char r then
          '(v, r) ← pvalue fuel (skip_ws (tail r));
          let r := skip_ws r in
          if char_is "}"%char r then Ok ([(KStr (of_chars k), v)], tail r)
          else if char_is ","%char r then
            '(kvs, r) ← pmembers fuel (skip_ws (tail r)); Ok ((KStr (of_chars k), v) :: kvs, r)
          else decode_error
        else decode_error
      else decode_error
  end.

(** Every nested call consumes a character, so twice the length is enough fuel. *)
Definition json_loads (s : string) : result val :=
  let l := skip_ws (chars s) in
  '(v, r) ← pvalue (S (2 * List.length l)) l;
  match skip_ws r with [] => Ok v | _ => raise JSONDecodeError "Extra data" end.

(** * Round trip *)

(** What the round trip covers: string keys without repetition, integers below the digit
    limit, and no [float] (whose shortest decimal is printed and read back by search). *)
Definition int_ok (z : Z) : bool := String.length (pretty z) <=? 4300.

Fixpoint plain (v : val) : Prop :=
  match v with
  | VFloat _ => False
  | VInt z => int_ok z = true
  | VList l => (fix go l := match l with [] => True | x :: l => plain x /\ go l end) l
  | VDict d => Forall (fun k => key_is_str k = true) (akeys d) /\ NoDup (akeys d) /\
      (fix go (d : pydict) := match d with [] => True | (_, x) :: d => plain x /\ go d end) d
  | _ => True
  end.

(** Fuel that decoding the encoding of [v] needs. *)
Fixpoint vsize (v : val) : nat :=
  match v with
  | VList l => S ((fix go l := match l with [] => 0 | x :: l => S (vsize x + go l) end) l)
  | VDict d => S ((fix go (d : pydict) := match d with [] => 0 | (_, x) :: d => S (vsize x + go d) end) d)
  | _ => 1
  end.

(** What may follow an encoded value inside a document. *)
Definition stop (rest : text) : Prop :=
  match rest with [] => True | a :: _ => is_ws a || Ascii.eqb a "," || Ascii.eqb a "]" || Ascii.eqb a "}" = true end.

Lemma plain_list l : plain (VList l) <-> Forall plain l.
Proof. simpl. induction l as [|x l IH]; [by split|]. rewrite Forall_cons, <- IH. done. Qed.

Lemma pstring_escape_char a l :
  pstring (chars (escape_char a) ++ l) = ('(s, r) ← pstring l; Ok (a :: s, r)).
Proof. destruct a as [[] [] [] [] [] [] [] []]; reflexivity. Qed.

Lemma pstring_escape s rest :
  pstring (chars (escape s +:+ dquote) ++ rest) = Ok (chars s, rest).
Proof.
  induction s as [|a s IH]; [done|].
  change (escape (String a s) +:+ dquote) with ((escape_char a +:+ escape s) +:+ dquote).
  rewrite chars_app, chars_app, <- !(assoc_L (++)), pstring_escape_char.
  rewrite (assoc_L (++)), <- chars_app, IH. done.
Qed.

Lemma digits_val_app l1 l2 :
  digits_val (l1 ++ l2) = (digits_val l1 * 10 ^ Z.of_nat (List.length l2) + digits_val l2)%Z.
Proof.
  unfold digits_val. rewrite fold_left_app. generalize (fold_left (fun x a => 10 * x + digit_val a)%Z l1 0%Z).
  induction l2 as [|a l2 IH] using rev_ind; intros x; simpl; [lia|].
  rewrite !fold_left_app, IH, length_app. simpl.
  replace (Z.of_nat (List.length l2 + 1)) with (Z.succ (Z.of_nat (List.length l2))) by lia.
  rewrite Z.pow_succ_r by lia. lia.
Qed.

Lemma pretty_digit x : (x < 10)%N ->
  is_digit (pretty_N_char x) = true /\ digit_val (pretty_N_char x) = Z.of_N x /\
  (pretty_N_char x = "0"%char -> x = 0%N).
Proof.
  intros Hx. assert (x = 0 \/ x = 1 \/ x = 2 \/ x = 3 \/ x = 4 \/ x = 5 \/ x = 6 \/ x = 7 \/
    x = 8 \/ x = 9)%N as Hcases by lia.
  repeat destruct Hcases as [->|Hcases]; [..|subst]; vm_compute; repeat split; congruence.
Qed.

Lemma pretty_N_go_digits x s : (0 < x)%N ->
  exists a ds, chars (pretty_N_go x s) = (a :: ds) ++ chars s /\
    forallb is_digit (a :: ds) = true /\ digits_val (a :: ds) = Z.of_N x /\ a <> "0"%char.
Proof.
  revert s. induction (N.lt_wf_0 x) as [x _ IH]. intros s Hx.
  rewrite pretty_N_go_step by done.
  assert (x `mod` 10 < 10)%N as Hmod by (apply N.mod_lt; lia).
  destruct (pretty_digit _ Hmod) as (Hd & Hv & Hz).
  destruct (decide (x < 10)%N) as [Hlt|Hge].
  - rewrite N.div_small, pretty_N_go_0 by done. rewrite N.mod_small in * by done.
    exists (pretty_N_char x), []. simpl. rewrite Hd. unfold digits_val. simpl.
    rewrite Hv. split_and!; [done|done|lia|]. intros H0. specialize (Hz H0). lia.
  - assert (x / 10 < x)%N as Hlt by (apply N.div_lt; lia).
    assert (0 < x / 10)%N as Hpos by (apply N.div_str_pos; lia).
    destruct (IH _ Hlt (String (pretty_N_char (x `mod` 10)) s) Hpos) as (a & ds & Heq & Hall & Hval & Ha).
    exists a, (ds ++ [pretty_N_char (x `mod` 10)]%N). rewrite Heq. split_and!; [| |..|done].
    + simpl. by rewrite <- (assoc_L (++)).
    + change (a :: ds ++ _) with ((a :: ds) ++ [pretty_N_char (x `mod` 10)%N]).
      rewrite forallb_app, Hall. simpl. by rewrite Hd.
    + change (a :: ds ++ _) with ((a :: ds) ++ [pretty_N_char (x `mod` 10)%N]).
      rewrite digits_val_app, Hval. unfold digits_val at 1. cbn [fold_left List.length].
      rewrite Hv. pose proof (N.div_mod' x 10). lia.
Qed.

Lemma span_digits_app ds rest :
  forallb is_digit ds = true -> (match rest with [] => True | a :: _ => is_digit a = false end) ->
  span_digits (ds ++ rest) = (ds, rest).
Proof.
  intros Hds Hr. unfold span_digits. induction ds as [|a ds IH]; simpl in *.
  - destruct rest as [|b rest]; simpl; [done|]. by rewrite Hr.
  - apply andb_true_iff in Hds as [Ha Hds]. rewrite Ha. specialize (IH Hds).
    injection IH as IH1 IH2. by rewrite IH1, IH2.
Qed.

Lemma stop_not_number rest : stop rest ->
  pfrac rest = None /\ pexp rest = None /\
  match rest with [] => True | a :: _ => is_digit a = false end.
Proof. destruct rest as [|[[] [] [] [] [] [] [] []] rest]; try done; cbn; by intros [=]. Qed.

Lemma pnumber_rest_int neg ds rest : ds <> [] -> List.length ds <= 4300 -> stop rest ->
  pnumber_rest neg ds rest = Ok (VInt (if neg then (- digits_val ds)%Z else digits_val ds), rest).
Proof.
  intros Hne Hlen Hstop. destruct (stop_not_number rest Hstop) as (Hf & He & _).
  unfold pnumber_rest. destruct ds; [done|]. rewrite Hf, He.
  by rewrite (proj2 (Nat.ltb_ge _ _)) by done.
Qed.

Lemma pint_digits a ds rest :
  forallb is_digit (a :: ds) = true -> a <> "0"%char -> stop rest ->
  pint ((a :: ds) ++ rest) = (a :: ds, rest).
Proof.
  intros Hall Ha Hstop. unfold pint. simpl char_is.
  rewrite (proj2 (Ascii.eqb_neq _ _)) by done.
  apply span_digits_app; [done|]. by apply stop_not_number.
Qed.

Lemma pnumber_pos x rest : (0 < x)%N -> List.length (chars (pretty x)) <= 4300 -> stop rest ->
  pnumber (chars (pretty x) ++ rest) = Ok (VInt (Z.of_N x), rest) /\
  pnumber ("-"%char :: chars (pretty x) ++ rest) = Ok (VInt (- Z.of_N x), rest).
Proof.
  intros Hx Hlen Hstop. unfold pretty, pretty_N in *. rewrite decide_False in * by lia.
  destruct (pretty_N_go_digits x "" Hx) as (a & ds & Heq & Hall & Hval & Ha).
  rewrite Heq in *. simpl chars in *. rewrite app_nil_r in *.
  assert (char_is "-" ((a :: ds) ++ rest) = false) as Hm.
  { simpl. apply Ascii.eqb_neq. intros ->. simpl in Hall. done. }
  split; unfold pnumber.
  - rewrite Hm. cbv zeta iota. rewrite pint_digits by done. simpl fst. simpl snd.
    rewrite pnumber_rest_int by done. by rewrite Hval.
  - change (char_is "-" ("-"%char :: (a :: ds) ++ rest)) with true. cbv zeta iota.
    change (tail ("-"%char :: (a :: ds) ++ rest)) with ((a :: ds) ++ rest).
    rewrite pint_digits by done. simpl fst. simpl snd.
    rewrite pnumber_rest_int by done. by rewrite Hval.
Qed.

Lemma pnumber_pretty z rest : int_ok z = true -> stop rest ->
  pnumber (chars (pretty z) ++ rest) = Ok (VInt z, rest).
Proof.
  unfold int_ok. rewrite Nat.leb_le, <- length_chars. intros Hlen Hstop.
  destruct z as [|p|p].
  - change (pnumber (["0"%char] ++ rest) = Ok (VInt 0, rest)).
    unfold pnumber. simpl char_is. cbv zeta iota. unfold pint. simpl char_is. cbv iota.
    simpl fst. simpl snd. by rewrite pnumber_rest_int.
  - change (pretty (Z.pos p)) with (pretty (N.pos p)) in *.
    by apply (pnumber_pos (N.pos p) rest).
  - change (chars (pretty (Z.neg p))) with ("-"%char :: chars (pretty (N.pos p))) in *.
    apply (pnumber_pos (N.pos p) rest); [done|simpl in Hlen; lia|done].
Qed.

(** The two separators of an encoder on one line, each followed by the blanks [sp]. *)
Definition isep (sp : string) : string := "," +:+ sp.
Definition ksep (sp : string) : string := ":" +:+ sp.
Definition dumped (sp : string) : val -> string := dumps_with (isep sp) (ksep sp).
Definition one_line (sp : string) : Layout :=
  {| open_gap := fun _ => ""; item_gap := fun _ => sp; key_gap := sp; close_gap := fun _ => "" |}.

Lemma dumped_laid sp v n : dumped sp v = laid (one_line sp) n v.
Proof.
  revert n. induction v as [|b|z|f|s|l IH|d IH] using val_ind'; intros n; try done.
  - destruct l as [|x l]; [done|]. enough (dumped sp <$> x :: l = laid (one_line sp) (S n) <$> x :: l) as H
      by exact (f_equal (fun m => "[" +:+ (join (isep sp) m +:+ "]")) H).
    apply list_fmap_ext. intros i y Hy. apply list_elem_of_lookup_2 in Hy. rewrite Forall_forall in IH. exact (IH y Hy (S n)).
  - destruct d as [|kx d]; [done|]. set (member f (kv : key * val) := let '(k, x) := kv in dump_key k +:+ (ksep sp +:+ f x) : string).
    enough (member (dumped sp) <$> kx :: d = member (laid (one_line sp) (S n)) <$> kx :: d) as H
      by exact (f_equal (fun m => "{" +:+ (join (isep sp) m +:+ "}")) H).
    apply list_fmap_ext. intros i [k y] Hy. apply list_elem_of_lookup_2 in Hy. rewrite Forall_forall in IH.
    specialize (IH _ Hy (S n)). cbn in IH |- *. by rewrite IH.
Qed.

Definition blank (s : string) : Prop := forallb is_ws (chars s) = true.
Record layout_ok (L : Layout) : Prop := {
  lo_open n : blank (open_gap L n); lo_item n : blank (item_gap L n); lo_key : blank (key_gap L); lo_close n : blank (close_gap L n) }.

Section Gap.
Context (L : Layout) (HL : layout_ok L).

(** The first character of an encoding is neither white space nor a closing bracket. *)
Lemma laid_head n v : plain v -> exists a l, chars (laid L n v) = a :: l /\
  is_ws a = false /\ a <> "]"%char.
Proof.
  destruct v as [|[]|[|p|p]|f|s|[|x l]|[|[k x] d]]; intros Hp; try done;
    try (eexists _, _; split; [reflexivity|split; [reflexivity|discriminate]]).
  change (laid L n (VInt (Z.pos p))) with (pretty_N_go (N.pos p) "").
  destruct (pretty_N_go_digits (N.pos p) "" eq_refl) as (a & ds & -> & Hall & _).
  exists a. eexists. split; [done|]. simpl in Hall. apply andb_true_iff in Hall as [Ha _].
  revert Ha. clear. destruct a as [[] [] [] [] [] [] [] []]; vm_compute; try done; naive_solver.
Qed.

Definition no_blank (l : text) : Prop := match l with [] => True | a :: _ => is_ws a = false end.

Lemma skip_ws_head l : no_blank l -> skip_ws l = l.
Proof.
  unfold skip_ws. destruct l as [|a l]; [done|]. intros H. cbn [drop_while]. cbn in H. by rewrite H.
Qed.

Lemma skip_gap sp l : blank sp -> no_blank l -> skip_ws (chars sp ++ l) = l.
Proof.
  intros Hsp Hl. revert Hsp. unfold skip_ws, blank. induction (chars sp) as [|a g IH]; intros Hg; [by apply skip_ws_head|].
  cbn in Hg. apply andb_true_iff in Hg as [Ha Hg]. cbn [app drop_while]. rewrite Ha. by apply IH.
Qed.

Lemma laid_no_blank n v rest : plain v -> no_blank (chars (laid L n v) ++ rest).
Proof. intros Hp. destruct (laid_head n v Hp) as (a & l & -> & Ha & _). exact Ha. Qed.

(** A value is followed by blanks and a sign. *)
Lemma stop_gap sp a rest : blank sp -> stop (a :: rest) -> stop (chars sp ++ a :: rest).
Proof.
  unfold blank. destruct (chars sp) as [|b g]; [done|]. cbn. intros [-> _]%andb_true_iff. done.
Qed.

Lemma pvalue_number z rest : plain (VInt z) -> stop rest ->
  forall n, pvalue (S n) (chars (pretty z) ++ rest) = Ok (VInt z, rest).
Proof.
  intros Hp Hstop n. destruct (laid_head 0 _ Hp) as (a & l & Heq & _).
  pose proof (pnumber_pretty z rest Hp Hstop) as Hnum.
  change (laid L 0 (VInt z)) with (pretty z) in *.
  assert (is_digit a = true \/ a = "-"%char /\ match l with b :: _ => is_digit b = true | [] => False end) as Ha.
  { destruct z as [|p|p].
    - injection Heq as <- _. by left.
    - left. change (pretty (Z.pos p)) with (pretty_N_go (N.pos p) "") in Heq.
      destruct (pretty_N_go_digits (N.pos p) "" eq_refl) as (b & ds & Hb & Hall & _).
      rewrite Hb in Heq. injection Heq as <- _. simpl in Hall. by apply andb_true_iff in Hall as [? _].
    - right. change (chars (pretty (Z.neg p))) with ("-"%char :: chars (pretty_N_go (N.pos p) "")) in Heq.
      destruct (pretty_N_go_digits (N.pos p) "" eq_refl) as (b & ds & Hb & Hall & _).
      rewrite Hb in Heq. injection Heq as <- <-. simpl in Hall.
      by apply andb_true_iff in Hall as [? _]. }
  rewrite Heq in *. rewrite <- Hnum. clear Hnum Heq.
  destruct Ha as [Ha|[-> Hb]].
  - destruct a as [[] [] [] [] [] [] [] []]; try discriminate Ha; reflexivity.
  - destruct l as [|b l]; [done|].
    destruct b as [[] [] [] [] [] [] [] []]; try discriminate Hb; reflexivity.
Qed.

(** Decoding an encoded value inside any document, and the elements and members around it. *)
Definition decodes (v : val) : Prop :=
  forall n fuel rest, plain v -> stop rest -> vsize v <= fuel ->
    pvalue fuel (chars (laid L n v) ++ rest) = Ok (v, rest).

Definition items (n : nat) (l : list string) : string := join ("," +:+ item_gap L n) l.

Lemma chars_items n x y l : chars (items n (x :: y :: l)) =
  chars x ++ ","%char :: chars (item_gap L n) ++ chars (items n (y :: l)).
Proof.
  change (items n (x :: y :: l)) with (x +:+ (("," +:+ item_gap L n) +:+ items n (y :: l))).
  by rewrite !chars_app.
Qed.

Lemma items_head n x l rest : no_blank (chars x ++ rest) -> chars x <> [] -> no_blank (chars (items n (x :: l)) ++ rest).
Proof.
  destruct l as [|y l]; [done|]. rewrite chars_items, <- (assoc_L (++)). by destruct (chars x).
Qed.

Lemma laid_nonempty n v : plain v -> chars (laid L n v) <> [].
Proof. intros Hp. by destruct (laid_head n v Hp) as (a & l & -> & _). Qed.

Lemma pelems_laid n x l fuel rest :
  Forall decodes (x :: l) -> Forall plain (x :: l) -> vsize (VList (x :: l)) <= S fuel ->
  pelems fuel (chars (items n (laid L (S n) <$> x :: l)) ++ chars (close_gap L n) ++ "]"%char :: rest) = Ok (x :: l, rest).
Proof.
  revert x fuel. induction l as [|y l IH]; intros x fuel [Hx Hl]%Forall_cons [Px Pl]%Forall_cons Hf;
    (destruct fuel as [|fuel]; [simpl in Hf; lia|]); simpl in Hf.
  - cbn [pelems fmap list_fmap items join]. rewrite Hx by (done || (apply stop_gap; [apply HL|done]) || (simpl; lia)).
    cbn [mbind result_bind]. by rewrite skip_gap by (done || apply HL).
  - rewrite !fmap_cons, chars_items, <- !(assoc_L (++)). cbn [pelems app].
    rewrite Hx by (done || (simpl; lia)). cbn [mbind result_bind].
    rewrite skip_ws_head by done. cbn [char_is tail].
    replace (Ascii.eqb "," "]") with false by done. rewrite Ascii.eqb_refl.
    rewrite <- ?(assoc_L (++)), skip_gap.
    + rewrite <- fmap_cons, IH by (try done; simpl; lia). done.
    + apply HL.
    + apply Forall_cons in Pl as [Py _]. by apply items_head; [apply laid_no_blank|apply laid_nonempty].
Qed.

Definition dump_member (n : nat) (kx : key * val) : string :=
  dump_key kx.1 +:+ ((":" +:+ key_gap L) +:+ laid L n kx.2).

Lemma chars_dump_member n s x rest :
  chars (dump_member n (KStr s, x)) ++ rest =
  ascii_of_nat 34 :: (chars (escape s +:+ dquote) ++ ":"%char :: chars (key_gap L) ++ chars (laid L n x) ++ rest).
Proof.
  change (dump_member n (KStr s, x)) with
    (dquote +:+ ((escape s +:+ dquote) +:+ ((":" +:+ key_gap L) +:+ laid L n x))).
  rewrite !chars_app, <- !(assoc_L (++)). cbn [chars app]. by rewrite <- ?(assoc_L (++)).
Qed.

Lemma pmembers_laid n kx d fuel rest :
  Forall (fun kv => decodes kv.2) (kx :: d) -> Forall (fun kv => plain kv.2) (kx :: d) ->
  Forall (fun k => key_is_str k = true) (akeys (kx :: d)) ->
  vsize (VDict (kx :: d)) <= S fuel ->
  pmembers fuel (chars (items n (dump_member (S n) <$> kx :: d)) ++ chars (close_gap L n) ++ "}"%char :: rest) = Ok (kx :: d, rest).
Proof.
  revert kx fuel. induction d as [|ky d IH];
    intros [k x] fuel [Hx Hl]%Forall_cons [Px Pl]%Forall_cons Hk Hf;
    (destruct fuel as [|fuel]; [simpl in Hf; lia|]); simpl in Hf, Hx, Px;
    apply Forall_cons in Hk as [Hk Hks]; (destruct k as [s| | |]; [|done..]).
  - cbn [fmap list_fmap items join]. rewrite chars_dump_member. cbn [pmembers].
    cbn [char_is tail]. rewrite Ascii.eqb_refl, pstring_escape. cbn [mbind result_bind].
    rewrite skip_ws_head by done. cbn [char_is tail]. rewrite Ascii.eqb_refl.
    rewrite skip_gap by (apply HL || by apply laid_no_blank).
    rewrite Hx by (done || (apply stop_gap; [apply HL|done]) || (simpl; lia)). cbn [mbind result_bind].
    rewrite skip_gap by (done || apply HL). cbn [char_is tail]. rewrite Ascii.eqb_refl.
    by rewrite of_chars_chars.
  - rewrite !fmap_cons, chars_items, <- !(assoc_L (++)), chars_dump_member. cbn [pmembers app].
    cbn [char_is tail]. rewrite Ascii.eqb_refl, pstring_escape. cbn [mbind result_bind].
    rewrite skip_ws_head by done. cbn [char_is tail]. rewrite Ascii.eqb_refl.
    rewrite skip_gap by (apply HL || by apply laid_no_blank).
    rewrite Hx by (done || (simpl; lia)). cbn [mbind result_bind].
    rewrite skip_ws_head by done. cbn [char_is tail].
    replace (Ascii.eqb "," "}") with false by done. rewrite Ascii.eqb_refl.
    rewrite <- ?(assoc_L (++)), skip_gap.
    + rewrite <- fmap_cons, IH by (try done; destruct ky; simpl; lia). cbn [mbind result_bind].
      by rewrite of_chars_chars.
    + apply HL.
    + apply Forall_cons in Hks as [Hky _]. destruct ky as [[t| | |] y]; try done.
      apply items_head; [by rewrite chars_dump_member|].
      rewrite <- (app_nil_r (chars _)), chars_dump_member. done.
Qed.

Lemma aset_fresh {A} (k : key) (v : A) d : k ∉ akeys d -> aset k v d = d ++ [(k, v)].
Proof.
  unfold akeys. induction d as [|[k' w] d IH]; simpl; [done|].
  intros Hk. rewrite decide_False by set_solver. by rewrite IH by set_solver.
Qed.

Lemma aupdate_fresh {A} (d e : list (key * A)) : NoDup (akeys (d ++ e)) -> aupdate d e = d ++ e.
Proof.
  unfold aupdate. revert d. induction e as [|[k v] e IH]; simpl; intros d Hd; [by rewrite app_nil_r|].
  assert (k ∉ akeys d) as Hk.
  { unfold akeys in *. rewrite fmap_app in Hd. apply NoDup_app in Hd as (_ & Hd & _).
    intros Hin. apply (Hd k Hin). set_solver. }
  rewrite aset_fresh by done. rewrite IH; rewrite <- (assoc_L (++)); done.
Qed.

Lemma plain_dict d : plain (VDict d) ->
  Forall (fun k => key_is_str k = true) (akeys d) /\ NoDup (akeys d) /\ Forall (fun kv => plain kv.2) d.
Proof.
  intros (Hk & Hd & Hp). split_and!; [done..|]. clear Hk Hd. revert Hp.
  induction d as [|[k x] d IH]; intros; constructor; naive_solver.
Qed.

Lemma plain_dict_intro d : Forall (fun k => key_is_str k = true) (akeys d) -> NoDup (akeys d) ->
  Forall (fun kv => plain kv.2) d -> plain (VDict d).
Proof.
  intros Hk Hd Hp. split; [done|]. split; [done|]. clear Hk Hd.
  induction Hp as [|[k x] d Hx _ IH]; [done|]. by split.
Qed.

Lemma plain_obj l : NoDup l.*1 -> Forall (fun kx => plain kx.2) l -> plain (VObj l).
Proof.
  intros Hd Hp. assert (akeys (fields l) = KStr <$> l.*1) as Hk.
  { unfold akeys, fields. clear. induction l as [|[k x] l IH]; [done|]. cbn. by f_equal. }
  apply plain_dict_intro; rewrite ?Hk.
  - by apply Forall_fmap, Forall_true.
  - apply NoDup_fmap_2; [by intros ? ? [= ->]|done].
  - unfold fields. apply Forall_fmap. eapply Forall_impl; [exact Hp|]. by intros [? ?].
Qed.

Lemma pvalue_list fuel l : pvalue (S fuel) (chars "[" ++ l) =
  if char_is "]"%char (skip_ws l) then Ok (VList [], tail (skip_ws l))
  else '(vs, r) ← pelems fuel (skip_ws l); Ok (VList vs, r).
Proof. reflexivity. Qed.

Lemma pvalue_dict fuel l : pvalue (S fuel) (chars "{" ++ l) =
  if char_is "}"%char (skip_ws l) then Ok (VDict [], tail (skip_ws l))
  else '(kvs, r) ← pmembers fuel (skip_ws l); Ok (VDict (aupdate [] kvs), r).
Proof. reflexivity. Qed.

Lemma laid_list n x l : laid L n (VList (x :: l)) =
  "[" +:+ (open_gap L n +:+ (items n (laid L (S n) <$> x :: l) +:+ (close_gap L n +:+ "]"))).
Proof. reflexivity. Qed.

Lemma laid_dict n k x d : laid L n (VDict ((k, x) :: d)) =
  "{" +:+ (open_gap L n +:+ (items n (dump_member (S n) <$> (k, x) :: d) +:+ (close_gap L n +:+ "}"))).
Proof.
  cbn [laid]. unfold items. do 3 f_equal. f_equal. apply list_fmap_ext. by intros ? [? ?] _.
Qed.

Lemma decodes_all v : decodes v.
Proof.
  induction v as [|b|z|f|s|l IH|d IH] using val_ind'; intros n fuel rest Hp Hstop Hf;
    (destruct fuel as [|fuel]; [simpl in Hf; lia|]).
  - done.
  - by destruct b.
  - by apply pvalue_number.
  - done.
  - change (laid L n (VStr s)) with (dquote +:+ (escape s +:+ dquote)).
    rewrite chars_app. simpl. rewrite pstring_escape. simpl. by rewrite of_chars_chars.
  - destruct l as [|x l]; [done|]. apply plain_list in Hp. pose proof (Forall_inv Hp) as Px.
    rewrite laid_list, !chars_app, <- !(assoc_L (++)), pvalue_list.
    change (chars "]" ++ rest) with ("]"%char :: rest).
    assert (no_blank (chars (items n (laid L (S n) <$> x :: l)) ++ chars (close_gap L n) ++ "]"%char :: rest)) as Hb
      by (apply items_head; [by apply laid_no_blank|by apply laid_nonempty]).
    rewrite skip_gap by (done || apply HL). rewrite pelems_laid by done.
    replace (char_is _ _) with false; [done|]. symmetry.
    destruct (laid_head (S n) x Px) as (a & m & Heq & _ & Ha).
    rewrite fmap_cons. destruct l as [|y l]; [cbn [items join fmap list_fmap]|rewrite fmap_cons, chars_items];
      rewrite Heq; cbn; by apply Ascii.eqb_neq.
  - destruct d as [|[k x] d]; [done|]. apply plain_dict in Hp as (Hk & Hd & Hp).
    rewrite laid_dict, !chars_app, <- !(assoc_L (++)), pvalue_dict.
    change (chars "}" ++ rest) with ("}"%char :: rest).
    assert (exists m, chars (items n (dump_member (S n) <$> (k, x) :: d)) ++ chars (close_gap L n) ++ "}"%char :: rest =
      ascii_of_nat 34 :: m) as (m & Heq).
    { apply Forall_cons in Hk as [Hk _]. destruct k as [s| | |]; try done.
      rewrite fmap_cons. destruct d as [|ky d]; [cbn [items join fmap list_fmap]|rewrite fmap_cons, chars_items, <- (assoc_L (++))];
        rewrite chars_dump_member; by eexists. }
    rewrite skip_gap by (apply HL || by rewrite Heq).
    rewrite Heq at 1. cbn [char_is]. replace (Ascii.eqb (ascii_of_nat 34) "}") with false by done.
    rewrite pmembers_laid by done. cbn [mbind result_bind].
    by rewrite aupdate_fresh.
Qed.

Lemma length_join_ge sep l : sum_list_with String.length l <= String.length (join sep l).
Proof.
  induction l as [|s [|t l] IH]; [simpl; lia..|].
  change (join sep (s :: t :: l)) with (s +:+ (sep +:+ join sep (t :: l))).
  rewrite <- length_chars, !chars_app, !length_app, !length_chars. simpl in *. lia.
Qed.

Lemma vsize_bound n v : plain v -> vsize v < 2 * String.length (laid L n v).
Proof.
  revert n. induction v as [|b|z|f|s|l IH|d IH] using val_ind'; intros n Hp; try (destruct b); try (simpl; lia).
  - destruct (laid_head n _ Hp) as (a & m & Heq & _). rewrite <- length_chars, Heq. simpl. lia.
  - done.
  - apply plain_list in Hp. destruct l as [|x0 l0]; [simpl; lia|]. rewrite laid_list.
    rewrite <- length_chars, !chars_app, !length_app, !length_chars. revert IH Hp. generalize (x0 :: l0). intros l IH Hp.
    pose proof (length_join_ge ("," +:+ item_gap L n) (laid L (S n) <$> l)) as Hj. fold (items n (laid L (S n) <$> l)) in Hj. simpl.
    enough ((fix go l := match l with [] => 0 | x :: l => S (vsize x + go l) end) l
      <= 2 * sum_list_with String.length (laid L (S n) <$> l)) by lia.
    clear Hj. induction l as [|x l IHl]; [simpl; lia|].
    apply Forall_cons in IH as [Hx Hl], Hp as [Px Pl]. specialize (Hx (S n) Px). specialize (IHl Hl Pl).
    rewrite fmap_cons. cbn [sum_list_with]. lia.
  - apply plain_dict in Hp as (_ & _ & Hp). destruct d as [|[k0 x0] d0]; [simpl; lia|]. rewrite laid_dict.
    rewrite <- length_chars, !chars_app, !length_app, !length_chars. revert IH Hp. generalize ((k0, x0) :: d0). intros d IH Hp.
    pose proof (length_join_ge ("," +:+ item_gap L n) (dump_member (S n) <$> d)) as Hj. fold (items n (dump_member (S n) <$> d)) in Hj. simpl.
    enough ((fix go (d : pydict) := match d with [] => 0 | (_, x) :: d => S (vsize x + go d) end) d
      <= 2 * sum_list_with String.length (dump_member (S n) <$> d)) by lia.
    clear Hj. induction d as [|[k x] d IHd]; [simpl; lia|].
    apply Forall_cons in IH as [Hx Hd], Hp as [Px Pd]. specialize (Hx (S n) Px). specialize (IHd Hd Pd).
    rewrite fmap_cons. cbn [sum_list_with snd] in *.
    assert (String.length (laid L (S n) x) <= String.length (dump_member (S n) (k, x))).
    { unfold dump_member. rewrite <- !length_chars, !chars_app, !length_app. simpl. lia. }
    lia.
Qed.

(** White space after the document is allowed. *)
Lemma loads_laid v tail_ : plain v -> blank tail_ -> json_loads (laid L 0 v +:+ tail_) = Ok v.
Proof.
  intros Hp Ht. unfold json_loads. rewrite chars_app.
  rewrite skip_ws_head by by apply laid_no_blank.
  pose proof (vsize_bound 0 v Hp) as Hb. rewrite <- length_chars in Hb.
  rewrite (decodes_all v 0 _ (chars tail_)); [|done| |rewrite length_app; lia].
  - cbn [mbind result_bind]. rewrite <- (app_nil_r (chars tail_)), skip_gap; done.
  - revert Ht. unfold blank. destruct (chars tail_); [done|]. cbn. by intros [-> _]%andb_true_iff.
Qed.
End Gap.

Lemma one_line_ok sp : blank sp -> layout_ok (one_line sp).
Proof. by constructor. Qed.

Lemma indent2_ok : layout_ok indent2.
Proof.
  assert (forall n, blank (new_line n)) as Hn.
  { intros n. unfold blank, new_line. rewrite chars_app, forallb_app, chars_of_chars. cbn [forallb chars app].
    by induction (2 * n). }
  constructor; intros; by try apply Hn.
Qed.

Lemma loads_dumped sp v : blank sp -> plain v -> json_loads (dumped sp v) = Ok v.
Proof.
  intros Hsp Hp. pose proof (loads_laid _ (one_line_ok sp Hsp) v "" Hp eq_refl) as H. rewrite <- dumped_laid in H.
  rewrite <- H. f_equal. rewrite <- (of_chars_chars (dumped sp v)) at 1. rewrite <- (of_chars_chars (dumped sp v +:+ "")).
  by rewrite chars_app, app_nil_r.
Qed.

Lemma loads_dumps v : plain v -> json_loads (json_dumps v) = Ok v.
Proof. by apply (loads_dumped "" v). Qed.

Lemma loads_dumps_default v : plain v -> json_loads (json_dumps_default v) = Ok v.
Proof. by apply (loads_dumped " " v). Qed.

Lemma loads_dumps_indent v tail_ : plain v -> blank tail_ -> json_loads (json_dumps_indent v +:+ tail_) = Ok v.
Proof. exact (loads_laid _ indent2_ok v tail_). Qed.

(** No raw line break leaves the encoder: newline-delimited framing is kept. *)
Definition no_newline (s : string) : bool :=
  forallb (fun a => negb (nat_of_ascii a =? 10)) (chars s).

Lemma no_newline_app s t : no_newline (s +:+ t) = no_newline s && no_newline t.
Proof. unfold no_newline. by rewrite chars_app, forallb_app. Qed.

Lemma escape_char_no_newline a : no_newline (escape_char a) = true.
Proof. destruct a as [[] [] [] [] [] [] [] []]; reflexivity. Qed.

Lemma dump_str_no_newline s : no_newline (dump_str s) = true.
Proof.
  unfold dump_str. rewrite !no_newline_app. apply andb_true_iff. split; [done|].
  apply andb_true_iff. split; [|done].
  induction s as [|a s IH]; [done|]. change (escape (String a s)) with (escape_char a +:+ escape s).
  by rewrite no_newline_app, escape_char_no_newline, IH.
Qed.

Lemma join_no_newline sep l :
  no_newline sep = true -> Forall (fun s => no_newline s = true) l -> no_newline (join sep l) = true.
Proof.
  intros Hs. induction 1 as [|s [|t l] Hx Hl IH]; [done|done|].
  change (join sep (s :: t :: l)) with (s +:+ (sep +:+ join sep (t :: l))).
  by rewrite !no_newline_app, Hx, Hs, IH.
Qed.
