(* ===== verification/Glob.v ===== *)
(** Glob patterns and tool-name matching: [policy/matcher.py] and the part of [fnmatch]
    it relies on ([*], [?], [\[seq\]], [\[!seq\]], an unclosed bracket is literal). One
    corner of [fnmatch] is left out: a set that begins with an empty range followed by
    an exclamation mark. *)
From S2P Require Import Prelude.

(** * Patterns *)
Inductive set_item := SChar (a : ascii) | SRange (lo hi : nat).
Inductive token := TChar (a : ascii) | TAny | TStar | TSet (neg : bool) (items : list set_item).

#[export] Instance set_item_eq_dec : EqDecision set_item.
Proof. solve_decision. Defined.
#[export] Instance token_eq_dec : EqDecision token.
Proof. solve_decision. Defined.

(** The inside of a bracket: [x-y] is a range, anything else stands for itself. *)
Fixpoint set_items (l : list ascii) : list set_item :=
  match l with
  | [] => []
  | a :: l' =>
      match l' with
      | d :: b :: l'' =>
          if Ascii.eqb d "-" then SRange (nat_of_ascii a) (nat_of_ascii b) :: set_items l''
          else SChar a :: set_items l'
      | _ => SChar a :: set_items l'
      end
  end.

(** The text up to the closing bracket and what follows it; a bracket in first place does
    not close. *)
Fixpoint until_bracket (first : bool) (l : list ascii) : option (list ascii * list ascii) :=
  match l with
  | [] => None
  | a :: l =>
      if Ascii.eqb a "]" && negb first then Some ([], l)
      else match until_bracket false l with Some (s, r) => Some (a :: s, r) | None => None end
  end.

Definition split_set (l : list ascii) : option (bool * list ascii * list ascii) :=
  let neg := match l with a :: _ => Ascii.eqb a "!" | [] => false end in
  match until_bracket true (if neg then tail l else l) with
  | Some (s, r) => Some (neg, s, r)
  | None => None
  end.

Fixpoint glob_tokens (fuel : nat) (l : list ascii) : list token :=
  match fuel, l with
  | S fuel, a :: l =>
      if Ascii.eqb a "*" then TStar :: glob_tokens fuel l
      else if Ascii.eqb a "?" then TAny :: glob_tokens fuel l
      else if Ascii.eqb a "[" then
        match split_set l with
        | Some (neg, s, r) => TSet neg (set_items s) :: glob_tokens fuel r
        | None => TChar a :: glob_tokens fuel l
        end
      else TChar a :: glob_tokens fuel l
  | _, _ => []
  end.

(** [fnmatch.translate] *)
Definition glob_parse (pattern : string) : list token :=
  glob_tokens (String.length pattern) (chars pattern).

(** * Matching *)
Definition item_match (a : ascii) (i : set_item) : bool :=
  match i with
  | SChar b => Ascii.eqb a b
  | SRange lo hi => (lo <=? nat_of_ascii a) && (nat_of_ascii a <=? hi)
  end.

Definition token_match (t : token) (a : ascii) : bool :=
  match t with
  | TChar b => Ascii.eqb a b
  | TAny | TStar => true
  | TSet neg items => xorb neg (existsb (item_match a) items)
  end.

Fixpoint tokens_match (ts : list token) : list ascii -> bool :=
  match ts with
  | [] => fun l => match l with [] => true | _ => false end
  | TStar :: ts => fix star l := tokens_match ts l || match l with [] => false | _ :: l => star l end
  | t :: ts => fun l => match l with [] => false | a :: l => token_match t a && tokens_match ts l end
  end.

(** [fnmatch.fnmatch(name, pattern)], and [re.compile(fnmatch.translate(pattern)).match(name)] *)
Definition fnmatch (name pattern : string) : bool := tokens_match (glob_parse pattern) (chars name).

(** * [RuleMatcher] *)
Definition wildcard (a : ascii) : bool := Ascii.eqb a "*" || Ascii.eqb a "?" || Ascii.eqb a "[".
Definition is_glob (pattern : string) : bool := existsb wildcard (chars pattern).
Definition specificity (pattern : string) : nat :=
  List.length (List.filter (fun a => negb (wildcard a)) (chars pattern)).

Record RuleMatcher := {
  rm_exact : list string;
  rm_globs : list (string * list token * nat * nat);  (* pattern, compiled, specificity, index *)
}.

Definition RuleMatcher_init (patterns : list string) : RuleMatcher :=
  fold_left (fun m '(index, pattern) =>
    if is_glob pattern then
      {| rm_exact := rm_exact m;
         rm_globs := rm_globs m ++ [(pattern, glob_parse pattern, specificity pattern, index)] |}
    else {| rm_exact := rm_exact m ++ [pattern]; rm_globs := rm_globs m |})
    (enumerate patterns) {| rm_exact := []; rm_globs := [] |}.

(** Comparison of the pairs [(spec, index)]. *)
Definition rank_gtb (x y : nat * nat) : bool :=
  (y.1 <? x.1) || ((x.1 =? y.1) && (y.2 <? x.2)).

Definition match_step (tool : string) (best : option (nat * nat * string))
  (g : string * list token * nat * nat) : option (nat * nat * string) :=
  let '(pattern, regex, spec, index) := g in
  if tokens_match regex (chars tool) &&
     match best with None => true | Some (r, _) => rank_gtb (spec, index) r end
  then Some (spec, index, pattern) else best.

Definition RuleMatcher_match (m : RuleMatcher) (tool : string) : option string :=
  if bool_decide (tool ∈ rm_exact m) then Some tool
  else match fold_left (match_step tool) (rm_globs m) None with
       | Some (_, pattern) => Some pattern
       | None => None
       end.

(** * What a pattern means *)

(** The language of a token list, stated without an order of search. *)
Inductive denotes : list token -> list ascii -> Prop :=
  | den_nil : denotes [] []
  | den_star ts l1 l2 : denotes ts l2 -> denotes (TStar :: ts) (l1 ++ l2)
  | den_char t ts a l : t <> TStar -> token_match t a = true -> denotes ts l ->
      denotes (t :: ts) (a :: l).

Lemma tokens_match_star ts l :
  tokens_match (TStar :: ts) l = true <-> exists l1 l2, l = l1 ++ l2 /\ tokens_match ts l2 = true.
Proof.
  induction l as [|a l IH]; cbn.
  - rewrite orb_false_r. split; [by exists [], []|].
    intros (l1 & l2 & H & Hm). symmetry in H. apply app_eq_nil in H as [-> ->]. done.
  - rewrite orb_true_iff. cbn in IH. rewrite IH. split.
    + intros [Hm|(l1 & l2 & -> & Hm)]; [by exists [], (a :: l)|by exists (a :: l1), l2].
    + intros ([|b l1] & l2 & H & Hm); [left; by rewrite H|]. injection H as -> ->. naive_solver.
Qed.

Lemma tokens_match_denotes ts l : tokens_match ts l = true <-> denotes ts l.
Proof.
  revert l. induction ts as [|t ts IH]; intros l.
  - split; [|by inversion 1]. destruct l; [constructor|done].
  - destruct (decide (t = TStar)) as [->|Ht].
    + rewrite tokens_match_star. setoid_rewrite IH. split.
      * intros (l1 & l2 & -> & H). by constructor.
      * inversion 1; subst; [eauto|done].
    + assert (tokens_match (t :: ts) l =
        match l with [] => false | a :: l => token_match t a && tokens_match ts l end) as ->
        by (by destruct t).
      destruct l as [|a l]; [split; [done|inversion 1; by subst]|].
      rewrite andb_true_iff, IH. split; [intros []; by constructor|].
      inversion 1; by subst.
Qed.

(** A pattern without a wildcard character matches exactly its own text. *)
Lemma glob_tokens_literal fuel l : List.length l <= fuel -> existsb wildcard l = false ->
  glob_tokens fuel l = TChar <$> l.
Proof.
  revert fuel. induction l as [|a l IH]; intros [|fuel] Hf Hw; simpl in *; try done; try lia.
  apply orb_false_iff in Hw as [Ha Hw]. unfold wildcard in Ha.
  apply orb_false_iff in Ha as [[Ha1 Ha2]%orb_false_iff Ha3].
  rewrite Ha1, Ha2, Ha3. rewrite IH by (try done; lia). done.
Qed.

Lemma tokens_match_chars l m : tokens_match (TChar <$> l) m = true <-> l = m.
Proof.
  revert m. induction l as [|a l IH]; intros [|b m]; simpl; try (by split).
  rewrite andb_true_iff, IH, Ascii.eqb_eq. split; [by intros [-> ->]|by intros [= -> ->]].
Qed.

Lemma fnmatch_literal pattern name : is_glob pattern = false ->
  fnmatch name pattern = true <-> name = pattern.
Proof.
  intros Hg. unfold fnmatch, glob_parse. rewrite glob_tokens_literal by (by rewrite ?length_chars).
  rewrite tokens_match_chars. split; [intros H; symmetry; by apply chars_inj|by intros ->].
Qed.

(** * What the matcher returns *)
Definition glob_entry (pattern : string) (index : nat) : string * list token * nat * nat :=
  (pattern, glob_parse pattern, specificity pattern, index).

Definition init_step := fun m '(index, pattern) =>
    if is_glob pattern then
      {| rm_exact := rm_exact m;
         rm_globs := rm_globs m ++ [(pattern, glob_parse pattern, specificity pattern, index)] |}
    else {| rm_exact := rm_exact m ++ [pattern]; rm_globs := rm_globs m |}.

Lemma init_fold l m0 :
  fold_left init_step l m0 =
  {| rm_exact := rm_exact m0 ++ (List.filter (fun ip => negb (is_glob ip.2)) l).*2;
     rm_globs := rm_globs m0 ++ ((fun ip => glob_entry ip.2 ip.1) <$> List.filter (fun ip => is_glob ip.2) l) |}.
Proof.
  revert m0. induction l as [|[i p] l IH]; intros m0; cbn [fold_left List.filter snd].
  - cbn. rewrite !app_nil_r. by destruct m0.
  - rewrite IH. unfold init_step. destruct (is_glob p); cbn; by rewrite <- (assoc_L (++)).
Qed.

Lemma elem_filter {A} (f : A -> bool) l x : x ∈ List.filter f l <-> x ∈ l /\ f x = true.
Proof. rewrite !list_elem_of_In. apply List.filter_In. Qed.

Lemma elem_enumerate_from {A} (l : list A) n i x :
  (i, x) ∈ enumerate_from n l <-> n <= i /\ l !! (i - n) = Some x.
Proof.
  revert n. induction l as [|y l IH]; intros n; simpl; [set_solver|].
  rewrite elem_of_cons, IH. split.
  - intros [[= -> ->]|[Hle Hl]]; [rewrite Nat.sub_diag; auto|]. split; [lia|].
    replace (i - n) with (S (i - S n)) by lia. done.
  - intros [Hle Hl]. destruct (decide (i = n)) as [->|Hne].
    + rewrite Nat.sub_diag in Hl. naive_solver.
    + right. split; [lia|]. replace (i - n) with (S (i - S n)) in Hl by lia. done.
Qed.

Lemma init_spec patterns :
  (forall p, p ∈ rm_exact (RuleMatcher_init patterns) <-> p ∈ patterns /\ is_glob p = false) /\
  (forall e, e ∈ rm_globs (RuleMatcher_init patterns) <->
    exists i p, patterns !! i = Some p /\ is_glob p = true /\ e = glob_entry p i).
Proof.
  assert (RuleMatcher_init patterns = fold_left init_step (enumerate patterns) {| rm_exact := []; rm_globs := [] |}) as -> by done.
  rewrite init_fold. cbn [rm_exact rm_globs app]. split.
  - intros p. rewrite list_elem_of_fmap. setoid_rewrite elem_filter. rewrite list_elem_of_lookup. split.
    + intros ([i q] & -> & [_ Hi]%elem_enumerate_from & Hg). rewrite Nat.sub_0_r in Hi.
      split; [by exists i|]. by apply negb_true_iff.
    + intros [[i Hi] Hg]. exists (i, p). split; [done|]. split; [|by apply negb_true_iff].
      apply elem_enumerate_from. rewrite Nat.sub_0_r. split; [lia|done].
  - intros e. rewrite list_elem_of_fmap. setoid_rewrite elem_filter. split.
    + intros ([i q] & -> & [_ Hi]%elem_enumerate_from & Hg). rewrite Nat.sub_0_r in Hi. by exists i, q.
    + intros (i & p & Hi & Hg & ->). exists (i, p). split; [done|]. split; [|done].
      apply elem_enumerate_from. rewrite Nat.sub_0_r. split; [lia|done].
Qed.

Lemma rank_gtb_false_trans x y z : rank_gtb x y = false -> rank_gtb y z = false -> rank_gtb x z = false.
Proof.
  unfold rank_gtb. rewrite !orb_false_iff, !andb_false_iff, !Nat.ltb_ge, !Nat.eqb_neq. lia.
Qed.

Lemma rank_gtb_irrefl x : rank_gtb x x = false.
Proof. unfold rank_gtb. rewrite !Nat.ltb_irrefl. by rewrite andb_false_r. Qed.

Lemma rank_gtb_asym x y : rank_gtb x y = true -> rank_gtb y x = false.
Proof.
  unfold rank_gtb. rewrite orb_true_iff, orb_false_iff, andb_true_iff, andb_false_iff,
    !Nat.ltb_lt, !Nat.ltb_ge, Nat.eqb_eq, Nat.eqb_neq. lia.
Qed.

(** The loop keeps a matching entry of greatest rank. *)
Definition best_of (tool : string) (gs : list (string * list token * nat * nat))
  (best : option (nat * nat * string)) : Prop :=
  (forall r p, best = Some (r, p) -> exists ts, (p, ts, r.1, r.2) ∈ gs /\ tokens_match ts (chars tool) = true) /\
  (forall p ts s i, (p, ts, s, i) ∈ gs -> tokens_match ts (chars tool) = true ->
    exists r q, best = Some (r, q) /\ rank_gtb (s, i) r = false).

Lemma match_step_best tool gs best g :
  best_of tool gs best -> best_of tool (gs ++ [g]) (match_step tool best g).
Proof.
  intros [Hin Hmax]. destruct g as [[[p ts] s] i]. unfold match_step.
  assert (forall r q, best = Some (r, q) -> exists ts0, (q, ts0, r.1, r.2) ∈ gs ++ [(p, ts, s, i)] /\
    tokens_match ts0 (chars tool) = true) as Hold by set_solver.
  destruct (tokens_match ts (chars tool)) eqn:Hm; simpl.
  - destruct best as [[r q]|].
    + destruct (rank_gtb (s, i) r) eqn:Hr; split; try done.
      * intros ? ? [= <- <-]. exists ts. set_solver.
      * intros p' ts' s' i' [Hg|Hg]%elem_of_app Hm'; eexists _, _; (split; [done|]).
        -- destruct (Hmax _ _ _ _ Hg Hm') as (? & ? & [= <- <-] & ?).
           eapply rank_gtb_false_trans; [done|]. by apply rank_gtb_asym.
        -- apply list_elem_of_singleton in Hg. simplify_eq. apply rank_gtb_irrefl.
      * intros p' ts' s' i' [Hg|Hg]%elem_of_app Hm'; [eauto|].
        apply list_elem_of_singleton in Hg. simplify_eq. eauto.
    + split; [intros ? ? [= <- <-]; exists ts; set_solver|].
      intros p' ts' s' i' [Hg|Hg]%elem_of_app Hm'.
      * destruct (Hmax _ _ _ _ Hg Hm') as (? & ? & [=] & _).
      * apply list_elem_of_singleton in Hg. simplify_eq. eexists _, _. split; [done|apply rank_gtb_irrefl].
  - split; [done|]. intros p' ts' s' i' [Hg|Hg]%elem_of_app Hm'; [eauto|].
    apply list_elem_of_singleton in Hg. simplify_eq. congruence.
Qed.

Lemma match_fold_best tool gs : best_of tool gs (fold_left (match_step tool) gs None).
Proof.
  induction gs as [|g gs IH] using rev_ind; [split; set_solver|].
  rewrite fold_left_app. by apply match_step_best.
Qed.

Definition exact_rule (patterns : list string) (tool : string) : Prop :=
  tool ∈ patterns /\ is_glob tool = false.

Definition best_glob (patterns : list string) (tool p : string) : Prop :=
  exists i, patterns !! i = Some p /\ is_glob p = true /\ fnmatch tool p = true /\
    forall j q, patterns !! j = Some q -> is_glob q = true -> fnmatch tool q = true ->
      specificity q < specificity p \/ (specificity q = specificity p /\ j <= i).

Lemma match_cases patterns tool :
  match RuleMatcher_match (RuleMatcher_init patterns) tool with
  | Some p => (exact_rule patterns tool /\ p = tool) \/
              (~ exact_rule patterns tool /\ best_glob patterns tool p)
  | None => forall p, p ∈ patterns -> fnmatch tool p = false
  end.
Proof.
  destruct (init_spec patterns) as [He Hg]. unfold RuleMatcher_match. case_bool_decide as Hex.
  { left. split; [by apply He|done]. }
  rewrite He in Hex. destruct (match_fold_best tool (rm_globs (RuleMatcher_init patterns))) as [Hin Hmax].
  destruct (fold_left _ _ _) as [[[s i] p]|] eqn:Hf.
  - right. split; [done|]. destruct (Hin _ _ eq_refl) as (ts & Hp & Hm).
    apply Hg in Hp as (k & p' & Hk & Hgl & [= -> -> -> ->]). exists k. split_and!; [done..|].
    intros j q Hj Hq Hmq.
    destruct (Hmax q (glob_parse q) (specificity q) j) as (? & ? & [= <- <-] & Hr); [|done|].
    + apply Hg. by exists j, q.
    + unfold rank_gtb in Hr. cbn in Hr. apply orb_false_iff in Hr as [Hr1 Hr2].
      apply Nat.ltb_ge in Hr1. apply andb_false_iff in Hr2 as [Hr2|Hr2];
        [apply Nat.eqb_neq in Hr2|apply Nat.ltb_ge in Hr2]; lia.
  - intros p Hp. apply not_true_is_false. intros Hm. destruct (is_glob p) eqn:Hgl.
    + apply list_elem_of_lookup in Hp as [j Hj].
      destruct (Hmax p (glob_parse p) (specificity p) j) as (? & ? & [=] & _); [|done].
      apply Hg. by exists j, p.
    + apply fnmatch_literal in Hm; [subst|done]. by apply Hex.
Qed.

Lemma best_glob_unique patterns tool p q :
  best_glob patterns tool p -> best_glob patterns tool q -> p = q.
Proof.
  intros (i & Hi & Hgi & Hmi & Hbi) (j & Hj & Hgj & Hmj & Hbj).
  specialize (Hbi j q Hj Hgj Hmj). specialize (Hbj i p Hi Hgi Hmi).
  assert (i = j) as -> by lia. congruence.
Qed.

(** C19: Which rule governs a tool. The matcher returns [p] exactly when [p] is the rule named by the
    tool itself, or no such rule exists and [p] is the matching glob with the most literal
    characters, the last declared among equals; it returns nothing exactly when no pattern
    matches the tool. *)
Theorem matcher_most_specific patterns tool :
  (forall p, RuleMatcher_match (RuleMatcher_init patterns) tool = Some p <->
     (exact_rule patterns tool /\ p = tool) \/ (~ exact_rule patterns tool /\ best_glob patterns tool p)) /\
  (RuleMatcher_match (RuleMatcher_init patterns) tool = None <-> forall p, p ∈ patterns -> fnmatch tool p = false).
Proof.
  pose proof (match_cases patterns tool) as Hc.
  assert (forall p, best_glob patterns tool p -> p ∈ patterns /\ fnmatch tool p = true) as Hbest.
  { intros p (i & Hi & _ & Hm & _). split; [by apply list_elem_of_lookup; eauto|done]. }
  destruct (RuleMatcher_match _ tool) as [q|].
  - split.
    + intros p. split; [by intros [= <-]|]. destruct Hc as [[He ->]|[He Hb]].
      * intros [[_ ->]|[? _]]; [done|contradiction].
      * intros [[? _]|[_ Hp]]; [contradiction|]. by rewrite (best_glob_unique _ _ _ _ Hb Hp).
    + split; [done|]. intros Hno. exfalso. destruct Hc as [[[Hin Hg] ->]|[_ Hb]].
      * specialize (Hno _ Hin). by rewrite (proj2 (fnmatch_literal tool tool Hg) eq_refl) in Hno.
      * destruct (Hbest _ Hb) as [Hin Hm]. by rewrite Hno in Hm.
  - split; [|by split]. intros p. split; [done|]. intros [[[Hin Hg] ->]|[_ Hb]].
    + specialize (Hc _ Hin). by rewrite (proj2 (fnmatch_literal tool tool Hg) eq_refl) in Hc.
    + destruct (Hbest _ Hb) as [Hin Hm]. by rewrite Hc in Hm.
Qed.
