(* ===== verification/Session.v ===== *)
(** Per-session state and the two controls that read and write it: [core/session.py],
    [risk/scoring.py], [sequence/policy.py] and the data of [redaction/spec.py].
    Wall-clock readings ([PendingCall.started]) are left out. *)
From S2P Require Import Prelude PyVal Glob.

(** * [RedactionSpec] *)
Definition DEFAULT_PROFILE : string := "standard".

Record RedactionSpec := {
  spec_profile : string;
  exclude_keys : gset string;
  spec_allowlist : gset string;
  spec_denylist : gset string;
  spec_context_words : gset string;
}.

#[export] Instance RedactionSpec_eq_dec : EqDecision RedactionSpec.
Proof. solve_decision. Defined.

Definition RedactionSpec_default : RedactionSpec :=
  {| spec_profile := DEFAULT_PROFILE; exclude_keys := ∅; spec_allowlist := ∅;
     spec_denylist := ∅; spec_context_words := ∅ |}.

(** [frozenset(config.get(name, ()))] on a validated mapping: a list of strings or absent;
    an explicit [null] passes validation and [frozenset(None)] raises. *)
Definition frozenset_field (name : string) (config : pydict) : result (gset string) :=
  match dget name config with
  | None => Ok ∅
  | Some (VList l) => Ok (list_to_set (str_list (VList l)))
  | Some _ => raise TypeError "'NoneType' object is not iterable"
  end.

Definition RedactionSpec_from_config (config : val) : result RedactionSpec :=
  match config with
  | VNone => Ok RedactionSpec_default
  | VStr s => Ok {| spec_profile := s; exclude_keys := ∅; spec_allowlist := ∅;
                    spec_denylist := ∅; spec_context_words := ∅ |}
  | VDict d =>
      ek ← frozenset_field "exclude_keys" d;
      al ← frozenset_field "allowlist" d;
      dl ← frozenset_field "denylist" d;
      cw ← frozenset_field "context_words" d;
      Ok {| spec_profile := match dget "profile" d with Some (VStr s) => s | _ => DEFAULT_PROFILE end;
            exclude_keys := ek; spec_allowlist := al; spec_denylist := dl;
            spec_context_words := cw |}
  | _ => raise AttributeError "object has no attribute 'get'"
  end.

(** [sorted(s)] of a set of strings *)
Definition sorted_set (s : gset string) : list string := isort str_leb (elements s).

Definition RedactionSpec_describe (s : RedactionSpec) : val :=
  let opt name x := if bool_decide (x = (∅ : gset string)) then [] else [(name, strs (sorted_set x))] in
  VObj ([("profile", VStr (spec_profile s))] ++ opt "exclude_keys" (exclude_keys s)
        ++ opt "allowlist" (spec_allowlist s) ++ opt "denylist" (spec_denylist s)
        ++ opt "context_words" (spec_context_words s)).

(** * [Session] *)
Inductive disposition := DispNone | DispQuarantine | DispRedact.

#[export] Instance disposition_eq_dec : EqDecision disposition.
Proof. solve_decision. Defined.

Record PendingCall := {
  pc_tool : string;
  pc_action : string;
  pc_disposition : disposition;
  pc_redaction : option RedactionSpec;
}.

Record Session := {
  s_id : string;
  started_at : string;
  suspended : bool;
  history : list string;
  pending : list (val * PendingCall);  (* keyed by request id *)
  tainted : bool;
  taint_origin : option string;
  risk_score : Z;
  risk_events : list val;
}.

Definition Session_new (id now : string) : Session :=
  {| s_id := id; started_at := now; suspended := false; history := []; pending := [];
     tainted := false; taint_origin := None; risk_score := 0; risk_events := [] |}.

Definition set_history h s := {| s_id := s_id s; started_at := started_at s; suspended := suspended s;
  history := h; pending := pending s; tainted := tainted s; taint_origin := taint_origin s;
  risk_score := risk_score s; risk_events := risk_events s |}.
Definition set_pending p s := {| s_id := s_id s; started_at := started_at s; suspended := suspended s;
  history := history s; pending := p; tainted := tainted s; taint_origin := taint_origin s;
  risk_score := risk_score s; risk_events := risk_events s |}.
Definition set_taint t o s := {| s_id := s_id s; started_at := started_at s; suspended := suspended s;
  history := history s; pending := pending s; tainted := t; taint_origin := o;
  risk_score := risk_score s; risk_events := risk_events s |}.
Definition set_risk sus sc ev s := {| s_id := s_id s; started_at := started_at s; suspended := sus;
  history := history s; pending := pending s; tainted := tainted s; taint_origin := taint_origin s;
  risk_score := sc; risk_events := ev |}.

Definition record_call (tool : string) (s : Session) : Session :=
  set_history (history s ++ [tool]) s.

(** The flag tells whether this is the first taint. *)
Definition mark_tainted (origin : string) (s : Session) : bool * Session :=
  if tainted s then (false, s) else (true, set_taint true (Some origin) s).

(** A [dict] keyed by request ids: keys are equal when [==] holds ([1] and [1.0]). *)
Fixpoint pget (k : val) (d : list (val * PendingCall)) : option PendingCall :=
  match d with
  | [] => None
  | (k', p) :: d => if py_eqb k k' then Some p else pget k d
  end.
Fixpoint pset (k : val) (p : PendingCall) (d : list (val * PendingCall)) : list (val * PendingCall) :=
  match d with
  | [] => [(k, p)]
  | (k', q) :: d => if py_eqb k k' then (k', p) :: d else (k', q) :: pset k p d
  end.
Fixpoint pdel (k : val) (d : list (val * PendingCall)) : list (val * PendingCall) :=
  match d with
  | [] => []
  | (k', q) :: d => if py_eqb k k' then d else (k', q) :: pdel k d
  end.

Definition track_pending (request_id : val) (tool action : string) (disp : disposition)
  (redaction : option RedactionSpec) (s : Session) : result Session :=
  if hashable request_id then
    Ok (set_pending (pset request_id {| pc_tool := tool; pc_action := action;
                       pc_disposition := disp; pc_redaction := redaction |} (pending s)) s)
  else raise TypeError "unhashable type".

(** [self.pending.pop(request_id, None)]; an empty [dict] answers before hashing the key. *)
Definition resolve_pending (request_id : val) (s : Session) : result (option PendingCall * Session) :=
  match pending s with
  | [] => Ok (None, s)
  | d => if hashable request_id then Ok (pget request_id d, set_pending (pdel request_id d) s)
         else raise TypeError "unhashable type"
  end.

Definition to_dict (s : Session) : pydict := fields
  [("id", VStr (s_id s)); ("started_at", VStr (started_at s)); ("suspended", VBool (suspended s));
   ("history", strs (history s)); ("tainted", VBool (tainted s));
   ("taint_origin", opt_str (taint_origin s)); ("risk_score", VInt (risk_score s));
   ("risk_events", VList (risk_events s))].

(** Fields of another type, which Python would store as they are, have no counterpart in
    the record: the model reports them as an error of its own. *)
Definition untyped {A} (name : string) : result A := raise OtherError (name +:+ ": untyped field").

Definition str_field (name : string) (v : val) : result string :=
  match v with VStr s => Ok s | _ => untyped name end.
Definition list_field (name : string) (v : val) : result (list val) :=
  match v with VList l => Ok l | _ => untyped name end.
Definition int_field (name : string) (v : val) : result Z :=
  match num_of v with Some z => Ok z | None => untyped name end.
Definition opt_str_field (name : string) (v : val) : result (option string) :=
  match v with VNone => Ok None | VStr s => Ok (Some s) | _ => untyped name end.

Definition from_dict (data : pydict) : result Session :=
  idv ← of_option (dget "id" data) (Exn KeyError "'id'");
  id ← str_field "id" idv;
  started ← str_field "started_at" (dget_or "started_at" (VStr "") data);
  hist ← list_field "history" (dget_or "history" (VList []) data);
  hist ← map_res (str_field "history") hist;
  origin ← opt_str_field "taint_origin" (opt_val (dget "taint_origin" data));
  score ← int_field "risk_score" (dget_or "risk_score" (VInt 0) data);
  events ← list_field "risk_events" (dget_or "risk_events" (VList []) data);
  Ok {| s_id := id; started_at := started;
        suspended := truthy (dget_or "suspended" (VBool false) data);
        history := hist; pending := [];
        tainted := truthy (dget_or "tainted" (VBool false) data);
        taint_origin := origin; risk_score := score; risk_events := events |}.

(** * [RiskEngine] *)
Definition BLOCKED_TOOL := "blocked_tool".
Definition CONSTRAINT_VIOLATION := "constraint_violation".
Definition SEQUENCE_VIOLATION := "sequence_violation".
Definition APPROVAL_DENIED := "approval_denied".
Definition HEAVY_REDACTION := "heavy_redaction".
Definition ANOMALY_LOW := "anomaly_low".
Definition ANOMALY_MEDIUM := "anomaly_medium".
Definition ANOMALY_HIGH := "anomaly_high".

Definition DEFAULT_WEIGHTS : list (string * Z) :=
  [(BLOCKED_TOOL, 25%Z); (CONSTRAINT_VIOLATION, 20%Z); (SEQUENCE_VIOLATION, 30%Z);
   (APPROVAL_DENIED, 25%Z); (HEAVY_REDACTION, 5%Z); (ANOMALY_LOW, 10%Z); (ANOMALY_MEDIUM, 25%Z);
   (ANOMALY_HIGH, 45%Z)].

Definition DEFAULT_ELEVATED_AT : Z := 50.
Definition DEFAULT_SUSPEND_AT : Z := 80.

Inductive risk_level := LEVEL_NORMAL | LEVEL_ELEVATED | LEVEL_SUSPENDED.

#[export] Instance risk_level_eq_dec : EqDecision risk_level.
Proof. solve_decision. Defined.

Definition level_str (l : risk_level) : string :=
  match l with LEVEL_NORMAL => "normal" | LEVEL_ELEVATED => "elevated" | LEVEL_SUSPENDED => "suspended" end.

Record RiskUpdate := {
  ru_event : string; ru_weight : Z; ru_score : Z; ru_level : risk_level; suspended_now : bool }.

Definition audit_fields (u : RiskUpdate) : pydict := fields
  [("risk_event", VStr (ru_event u)); ("risk_delta", VInt (ru_weight u));
   ("session_score", VInt (ru_score u)); ("session_level", VStr (level_str (ru_level u)))].

Record RiskEngine := { weights : list (string * Z); elevated_at : Z; suspend_at : Z }.

Definition RiskEngine_init (ws : list (string * Z)) (elevated suspend : Z) : RiskEngine :=
  {| weights := aupdate DEFAULT_WEIGHTS ws; elevated_at := elevated; suspend_at := suspend |}.

Definition level (e : RiskEngine) (score : Z) : risk_level :=
  if (suspend_at e <=? score)%Z then LEVEL_SUSPENDED
  else if (elevated_at e <=? score)%Z then LEVEL_ELEVATED
  else LEVEL_NORMAL.

Definition event_weight (e : RiskEngine) (event : string) : Z := aget_or event 0%Z (weights e).

Definition record (e : RiskEngine) (s : Session) (event detail : string) : RiskUpdate * Session :=
  let weight := event_weight e event in
  let was_suspended := suspended s in
  let score := (risk_score s + weight)%Z in
  let events := risk_events s ++
    [VObj [("event", VStr event); ("weight", VInt weight); ("detail", VStr detail)]] in
  let lvl := level e score in
  let newly_suspended := bool_decide (lvl = LEVEL_SUSPENDED) && negb was_suspended in
  ({| ru_event := event; ru_weight := weight; ru_score := score; ru_level := lvl;
      suspended_now := newly_suspended |},
   set_risk (was_suspended || newly_suspended) score events s).

(** * [SequencePolicy] *)
Definition matches_any (tool : string) (patterns : list string) : bool :=
  existsb (fnmatch tool) patterns.

Record SequenceRule := { after : string; forbid : string; rule_reason : val }.

Record SequencePolicy := {
  taint_sources : list string;
  taint_sinks : list string;
  sequence_rules : list SequenceRule;
}.

Definition active (p : SequencePolicy) : bool :=
  match taint_sources p, taint_sinks p, sequence_rules p with [], [], [] => false | _, _, _ => true end.

Definition is_taint_source (p : SequencePolicy) (tool : string) : bool :=
  matches_any tool (taint_sources p).

Definition taint_reason (tool : string) (s : Session) : string :=
  "outbound/mutating tool '" +:+ tool +:+ "' blocked: session is tainted (untrusted content ingested via '"
  +:+ py_str (opt_str (taint_origin s)) +:+ "'); a human must clear the session".

Definition rule_fires (tool : string) (hist : list string) (r : SequenceRule) : bool :=
  fnmatch tool (forbid r) && existsb (fun prev => fnmatch prev (after r)) hist.

Definition check (p : SequencePolicy) (tool : string) (s : Session) : option val :=
  if tainted s && matches_any tool (taint_sinks p) then Some (VStr (taint_reason tool s))
  else match List.find (rule_fires tool (history s)) (sequence_rules p) with
       | Some r => Some (if truthy (rule_reason r) then rule_reason r
                         else VStr ("'" +:+ tool +:+ "' is forbidden after '" +:+ after r
                              +:+ "' in the same session"))
       | None => None
       end.

(** [SequencePolicy.__init__] on rules the loader has validated; [reason] is not checked
    by the loader and may be any value. *)
Definition SequenceRule_init (r : val) : result SequenceRule :=
  match r with
  | VDict d =>
      a ← of_option (dget "after" d) (Exn KeyError "'after'");
      f ← of_option (dget "forbid" d) (Exn KeyError "'forbid'");
      a ← str_field "after" a;
      f ← str_field "forbid" f;
      Ok {| after := a; forbid := f; rule_reason := dget_or "reason" (VStr "") d |}
  | _ => raise TypeError "indices must be integers"
  end.

Definition SequencePolicy_init (sources sinks : list string) (rules : list val) : result SequencePolicy :=
  rs ← map_res SequenceRule_init rules;
  Ok {| taint_sources := sources; taint_sinks := sinks; sequence_rules := rs |}.

(** * Serialization *)

Lemma map_res_map {A B C} (f : B -> result C) (g : A -> B) (h : A -> C) l :
  (forall x, f (g x) = Ok (h x)) -> map_res f (g <$> l) = Ok (h <$> l).
Proof. intros H. induction l as [|x l IH]; [done|]. cbn in *. rewrite H. cbn. by rewrite IH. Qed.

Lemma from_dict_to_dict s : from_dict (to_dict s) = Ok (set_pending [] s).
Proof.
  unfold from_dict, to_dict. dict_simpl. cbn.
  rewrite (map_res_map _ VStr id) by done. rewrite list_fmap_id.
  by destruct s as [? ? [] ? ? [] [] ? ?].
Qed.

(** * Risk *)

(** What recording a list of events does to a session. *)
Definition record_all (e : RiskEngine) (s : Session) (evs : list (string * string)) : list RiskUpdate * Session :=
  fold_left (fun '(us, s) '(ev, detail) => let '(u, s') := record e s ev detail in (us ++ [u], s'))
    evs ([], s).

Definition total_weight (e : RiskEngine) (evs : list (string * string)) : Z :=
  fold_right (fun ev a => (event_weight e ev.1 + a)%Z) 0%Z evs.

Lemma level_suspended e z : level e z = LEVEL_SUSPENDED <-> (suspend_at e <= z)%Z.
Proof. unfold level. case_match eqn:H; [by rewrite <- Z.leb_le|]. apply Z.leb_gt in H. case_match; split; try done; lia. Qed.

Lemma record_score e s ev d : risk_score (record e s ev d).2 = (risk_score s + event_weight e ev)%Z.
Proof. done. Qed.

Lemma record_suspended e s ev d :
  suspended (record e s ev d).2 = suspended s || bool_decide (suspend_at e <= risk_score s + event_weight e ev)%Z.
Proof.
  unfold record. cbn. destruct (suspended s); [done|]. cbn. rewrite andb_true_r.
  apply bool_decide_ext, level_suspended.
Qed.

Lemma record_suspended_now e s ev d :
  suspended_now (record e s ev d).1 = negb (suspended s) && suspended (record e s ev d).2.
Proof. unfold record. cbn. destruct (suspended s); cbn; [by rewrite andb_false_r|by rewrite andb_true_r]. Qed.

Lemma record_all_snoc e s evs ev d :
  record_all e s (evs ++ [(ev, d)]) =
  ((record_all e s evs).1 ++ [(record e (record_all e s evs).2 ev d).1], (record e (record_all e s evs).2 ev d).2).
Proof.
  unfold record_all. rewrite fold_left_app. cbn. destruct (fold_left _ _ _) as [us s'].
  by destruct (record e s' ev d).
Qed.

Lemma total_weight_app e l1 l2 : total_weight e (l1 ++ l2) = (total_weight e l1 + total_weight e l2)%Z.
Proof. unfold total_weight. induction l1 as [|x l1 IH]; cbn [fold_right app]; lia. Qed.

Lemma total_weight_one e ev d : total_weight e [(ev, d)] = event_weight e ev.
Proof. unfold total_weight. cbn [fold_right fst]. lia. Qed.

Lemma record_all_score e s evs : risk_score (record_all e s evs).2 = (risk_score s + total_weight e evs)%Z.
Proof.
  induction evs as [|[ev d] evs IH] using rev_ind; [unfold total_weight; cbn [fold_right record_all fold_left snd]; lia|].
  rewrite record_all_snoc, total_weight_app. cbn [snd].
  rewrite record_score, IH, total_weight_one. lia.
Qed.

Definition transitions (us : list RiskUpdate) : nat := List.length (List.filter suspended_now us).

Lemma transitions_snoc us u : transitions (us ++ [u]) = transitions us + if suspended_now u then 1 else 0.
Proof. unfold transitions. rewrite List.filter_app, length_app. cbn. by destruct (suspended_now u). Qed.

(** The risk engine's kill switch. After any list of risk events on a session that is not
    suspended, the session is suspended exactly when the accumulated score reached the
    threshold after one of them (negative weights later do not lift it), and exactly one of
    the updates reports the transition. *)
Theorem record_all_spec e s evs : suspended s = false ->
  let '(us, s') := record_all e s evs in
  (suspended s' = true <-> exists pre post, evs = pre ++ post /\ pre <> [] /\
     (suspend_at e <= risk_score s + total_weight e pre)%Z) /\
  transitions us = if suspended s' then 1 else 0.
Proof.
  intros Hs. induction evs as [|[ev d] evs IH] using rev_ind.
  - cbn. rewrite Hs. split; [|done]. split; [done|]. intros (pre & post & H & Hne & _).
    symmetry in H. by apply app_eq_nil in H as [-> _].
  - rewrite record_all_snoc. pose proof (record_all_score e s evs) as Hsc.
    destruct (record_all e s evs) as [us s']. cbn [fst snd] in *.
    destruct IH as [IH1 IH2]. rewrite transitions_snoc, record_suspended_now, record_suspended, IH2, Hsc.
    split.
    + rewrite orb_true_iff, bool_decide_eq_true, IH1. split.
      * intros [(pre & post & -> & ? & ?)|Hle].
        -- exists pre, (post ++ [(ev, d)]). by rewrite (assoc_L (++)).
        -- exists (evs ++ [(ev, d)]), []. rewrite app_nil_r, total_weight_app, total_weight_one.
           split_and!; [done|by destruct evs|lia].
      * intros (pre & post & H & Hne & Hle). destruct post as [|x post] using rev_ind.
        -- rewrite app_nil_r in H. subst pre. rewrite total_weight_app, total_weight_one in Hle. right. lia.
        -- rewrite (assoc_L (++)) in H. apply app_inj_tail in H as [-> _]. left. eauto.
    + destruct (suspended s'); cbn; [done|]. by case_bool_decide.
Qed.

Lemma record_all_spec_witness :
  let e := RiskEngine_init [("blocked_tool", 50%Z)] 50 80 in
  let '(us, s') := record_all e (Session_new "s" "t") [(BLOCKED_TOOL, "a"); (BLOCKED_TOOL, "b"); (BLOCKED_TOOL, "c")] in
  suspended s' = true /\ transitions us = 1.
Proof.
  pose proof (record_all_spec (RiskEngine_init [("blocked_tool", 50%Z)] 50 80) (Session_new "s" "t")
    [(BLOCKED_TOOL, "a"); (BLOCKED_TOOL, "b"); (BLOCKED_TOOL, "c")] eq_refl) as [H1 H2].
  split; [|exact H2]. apply H1. exists [(BLOCKED_TOOL, "a"); (BLOCKED_TOOL, "b")], [(BLOCKED_TOOL, "c")].
  split; [reflexivity|]. split; [discriminate|]. vm_compute. discriminate.
Defined.

(** * Sequence policy *)
Definition forbidden (p : SequencePolicy) (tool : string) (s : Session) : Prop :=
  (tainted s = true /\ exists k, k ∈ taint_sinks p /\ fnmatch tool k = true) \/
  (exists r prev, r ∈ sequence_rules p /\ fnmatch tool (forbid r) = true /\
     prev ∈ history s /\ fnmatch prev (after r) = true).

Lemma matches_any_spec tool l : matches_any tool l = true <-> exists k, k ∈ l /\ fnmatch tool k = true.
Proof.
  unfold matches_any. rewrite existsb_exists. by setoid_rewrite list_elem_of_In.
Qed.

Lemma check_forbidden p tool s : is_Some (check p tool s) <-> forbidden p tool s.
Proof.
  unfold check, forbidden. rewrite <- matches_any_spec.
  destruct (tainted s && matches_any tool (taint_sinks p)) eqn:Ht.
  { apply andb_true_iff in Ht. split; [by left|]. intros _. by eexists. }
  assert (forall r, rule_fires tool (history s) r = true <->
    fnmatch tool (forbid r) = true /\ exists prev, prev ∈ history s /\ fnmatch prev (after r) = true) as Hr.
  { intros r. unfold rule_fires. rewrite andb_true_iff, existsb_exists. by setoid_rewrite list_elem_of_In. }
  destruct (List.find _ _) as [r|] eqn:Hf.
  - apply List.find_some in Hf as [Hin Hf]. split; [|by eexists]. intros _. right.
    apply Hr in Hf as (? & prev & ? & ?). exists r, prev. split_and!; try done. by apply list_elem_of_In.
  - split; [by intros [? [=]]|]. intros [[H1 H2]|(r & prev & Hin & Hfo & Hp & Ha)].
    + rewrite H1, H2 in Ht. done.
    + apply list_elem_of_In in Hin. pose proof (List.find_none _ _ Hf r Hin) as Hn.
      assert (rule_fires tool (history s) r = true) by (apply Hr; eauto). congruence.
Qed.

(** Session state only grows: what is forbidden stays forbidden. *)
Lemma forbidden_mono p tool s s' :
  (tainted s = true -> tainted s' = true) -> (forall x, x ∈ history s -> x ∈ history s') ->
  forbidden p tool s -> forbidden p tool s'.
Proof. intros Ht Hh [[? ?]|(r & prev & ? & ? & ? & ?)]; [left; auto|right; exists r, prev; auto]. Qed.

(** * Pending calls *)
Lemma pget_pset k p d : py_eqb k k = true -> pget k (pset k p d) = Some p.
Proof.
  intros Hk. induction d as [|[k' q] d IH]; cbn; [by rewrite Hk|].
  destruct (py_eqb k k') eqn:Hkk; cbn; by rewrite Hkk.
Qed.

(** What the patterns of a sequence policy mean. A tool matches a set of globs exactly when it
    belongs to the language of one of them: a star is any text, a question mark one character,
    a bracket one character of the set (or outside it), anything else itself; the
    backtracking of the matcher neither loses nor adds a match. *)
Theorem matches_any_denotes tool patterns :
  matches_any tool patterns = true <-> exists p, p ∈ patterns /\ denotes (glob_parse p) (chars tool).
Proof. rewrite matches_any_spec. unfold fnmatch. by setoid_rewrite tokens_match_denotes. Qed.
