(* ===== verification/Rules.v ===== *)
(** Argument rules of a policy: the constraint plugin of [policy/constraints/], the
    rewrites of [policy/actions/rewrite.py], and the vocabulary of [policy/actions/].
    Regular expressions are the class [Regex]: every theorem holds for any meaning of
    the patterns. *)
From S2P Require Import Prelude PyVal.

(** [re]: [re_compile pattern ignorecase] is the text of the [re.error], or [None] when
    the pattern compiles; [re_search] tells whether [search] finds a match. *)
Class Regex := {
  re_compile : string -> bool -> option string;
  re_search : string -> bool -> string -> bool;
}.

(** A concrete instance: patterns are literal texts, and an opening parenthesis is an error. *)
Definition literal_regex : Regex :=
  {| re_compile := fun p _ => if contains "(" p then Some "missing ), unterminated subpattern" else None;
     re_search := fun p i s => if i then contains (str_lower p) (str_lower s) else contains p s |}.

(** * The action vocabulary *)
Definition ACTION_VOCABULARY : list string :=
  ["allow"; "block"; "redact"; "rewrite"; "quarantine"; "require_approval"].

(** [v in a_frozenset_of_strings] *)
Definition in_frozenset (v : val) (l : list string) : result bool :=
  match v with
  | VStr s => Ok (bool_decide (s ∈ l))
  | _ => if hashable v then Ok false else raise TypeError "unhashable type"
  end.

(** [set(flags) - {"i"}] is empty *)
Definition only_i (s : string) : bool := forallb (fun a => Ascii.eqb a "i") (chars s).
Definition has_i (s : string) : bool := existsb (fun a => Ascii.eqb a "i") (chars s).

(** [type(v).__name__] *)
Definition type_name (v : val) : string :=
  match v with
  | VNone => "NoneType" | VBool _ => "bool" | VInt _ => "int" | VFloat _ => "float"
  | VStr _ => "str" | VList _ => "list" | VDict _ => "dict"
  end.

(** The value of a [flags] field, defaulting to the empty string *)
Definition flags_field (where_ : string) (config : pydict) : result string :=
  match dget_or "flags" (VStr "") config with
  | VStr s => if only_i s then Ok s
              else raise PolicyError (where_ +:+ ": 'flags' supports only 'i', got " +:+ str_repr s)
  | v => raise PolicyError (where_ +:+ ": 'flags' supports only 'i', got " +:+ py_repr v)
  end.

(** * [RegexConstraint] *)
Record RegexConstraint := {
  c_arg : string;
  must_match : option (string * bool);      (* pattern and IGNORECASE *)
  must_not_match : option (string * bool);
  c_reason : val;
}.

Section Constraints.
Context `{Regex}.

Definition compile_pattern (where_ : string) (config : pydict) (flags : bool) (k : string)
  : result (option (string * bool)) :=
  match opt_val (dget k config) with
  | VNone => Ok None
  | VStr raw =>
      match re_compile raw flags with
      | None => Ok (Some (raw, flags))
      | Some err => raise PolicyError (where_ +:+ ": invalid regex for " +:+ k +:+ ": " +:+ err)
      end
  | _ => raise PolicyError (where_ +:+ ": " +:+ k +:+ " must be a string")
  end.

Definition constraint_fields : list string :=
  ["type"; "arg"; "must_match"; "must_not_match"; "flags"; "reason"].

Definition RegexConstraint_from_config (config : pydict) (where_ : string) : result RegexConstraint :=
  _ ← check_unknown PolicyError (where_ +:+ ": unknown constraint field(s) ") constraint_fields config;
  arg ← match opt_val (dget "arg" config) with
        | VStr (String _ _ as s) => Ok s
        | _ => raise PolicyError (where_ +:+ ": constraint requires a non-empty 'arg'")
        end;
  _ ← require (dhas "must_match" config || dhas "must_not_match" config) PolicyError
        (where_ +:+ ": constraint requires 'must_match' and/or 'must_not_match'");
  flags_spec ← flags_field where_ config;
  mm ← compile_pattern where_ config (has_i flags_spec) "must_match";
  mn ← compile_pattern where_ config (has_i flags_spec) "must_not_match";
  Ok {| c_arg := arg; must_match := mm; must_not_match := mn; c_reason := opt_val (dget "reason" config) |}.

Definition build_constraint (config : val) (where_ : string) : result RegexConstraint :=
  match config with
  | VDict d =>
      let ty := dget_or "type" (VStr "regex") d in
      known ← in_frozenset ty ["regex"];
      if (known : bool) then RegexConstraint_from_config d where_
      else raise PolicyError (where_ +:+ ": unknown constraint type " +:+ py_repr ty
                              +:+ "; available: ['regex']")
  | _ => raise PolicyError (where_ +:+ ": constraint must be an object")
  end.

(** [str(arguments.get(arg, ''))] *)
Definition arg_text (arg : string) (arguments : pydict) : string :=
  py_str (dget_or arg (VStr "") arguments).

Definition or_default (reason : val) (msg : string) : val := if truthy reason then reason else VStr msg.

Definition constraint_check (c : RegexConstraint) (arguments : pydict) : option val :=
  let value := arg_text (c_arg c) arguments in
  let required := match must_match c with Some (p, i) => negb (re_search p i value) | None => false end in
  let forbidden := match must_not_match c with Some (p, i) => re_search p i value | None => false end in
  let shown o := match o with Some (p, _) => str_repr p | None => "" end in
  if required then
    Some (or_default (c_reason c) ("argument '" +:+ c_arg c +:+ "' does not satisfy required pattern "
                                   +:+ shown (must_match c)))
  else if forbidden then
    Some (or_default (c_reason c) ("argument '" +:+ c_arg c +:+ "' matches forbidden pattern "
                                   +:+ shown (must_not_match c)))
  else None.

Definition constraint_describe (c : RegexConstraint) : val :=
  VObj ([("type", VStr "regex"); ("arg", VStr (c_arg c))]
    ++ match must_match c with Some (p, _) => [("must_match", VStr p)] | None => [] end
    ++ match must_not_match c with Some (p, _) => [("must_not_match", VStr p)] | None => [] end
    ++ if truthy (c_reason c) then [("reason", c_reason c)] else []).

(** * Rewrites *)
Definition rewrite_fields : list string := ["arg"; "set"; "append"; "unless_match"; "flags"].

Definition validate_rewrite (config : val) (where_ : string) : result unit :=
  match config with
  | VDict d =>
      _ ← check_unknown PolicyError (where_ +:+ ": unknown rewrite field(s) ") rewrite_fields d;
      _ ← require (is_nonempty_str (opt_val (dget "arg" d))) PolicyError
            (where_ +:+ ": rewrite requires a non-empty 'arg'");
      let has_set := dhas "set" d in
      let has_append := dhas "append" d in
      _ ← require (negb (Bool.eqb has_set has_append)) PolicyError
            (where_ +:+ ": rewrite requires exactly one of 'set' or 'append'");
      _ ← match dget "unless_match" d with
          | None => Ok tt
          | Some g =>
              _ ← require has_append PolicyError (where_ +:+ ": 'unless_match' only applies to 'append'");
              match g with
              | VStr p => match re_compile p false with
                          | None => Ok tt
                          | Some err => raise PolicyError (where_ +:+ ": invalid unless_match regex: " +:+ err)
                          end
              | _ => raise TypeError "first argument must be string or compiled pattern"
              end
          end;
      _ ← flags_field where_ d;
      Ok tt
  | _ => raise PolicyError (where_ +:+ ": rewrite must be an object")
  end.

Definition change_set (arg : val) (to : val) : val := VObj [("arg", arg); ("op", VStr "set"); ("to", to)].
Definition change_append (arg : val) (added : val) : val :=
  VObj [("arg", arg); ("op", VStr "append"); ("added", added)].

(** One iteration of the loop of [apply_rewrites], on a rule that passed validation. *)
Definition rewrite_step (st : pydict * list val) (r : val) : result (pydict * list val) :=
  match r with
  | VDict d =>
      let '(new_args, changes) := st in
      argv ← of_option (dget "arg" d) (Exn KeyError "'arg'");
      arg ← of_option (as_str argv) (Exn OtherError "arg: untyped field");
      match dget "set" d with
      | Some v =>
          if py_eqb (opt_val (dget arg new_args)) v then Ok (new_args, changes)
          else Ok (dset arg v new_args, changes ++ [change_set argv v])
      | None =>
          let value := arg_text arg new_args in
          let flags := match dget_or "flags" (VStr "") d with VStr s => has_i s | _ => false end in
          let satisfied := match opt_val (dget "unless_match" d) with
                           | VStr g => nonempty g && re_search g flags value
                           | _ => false
                           end in
          if satisfied then Ok (new_args, changes)
          else
            appv ← of_option (dget "append" d) (Exn KeyError "'append'");
            match appv with
            | VStr a => Ok (dset arg (VStr (value +:+ a)) new_args, changes ++ [change_append argv appv])
            | _ => raise TypeError ("can only concatenate str (not " +:+ dquote +:+ type_name appv
                                    +:+ dquote +:+ ") to str")
            end
      end
  | _ => raise TypeError "string indices must be integers, not 'str'"
  end.

Definition apply_rewrites (arguments : pydict) (rewrites : list val) : result (pydict * list val) :=
  fold_res rewrite_step (arguments, []) rewrites.

(** * What the definitions promise *)

(** A constraint passes exactly when the argument (the empty text when it is missing)
    has the required pattern and lacks the forbidden one. *)
Definition satisfies (c : RegexConstraint) (arguments : pydict) : Prop :=
  let value := arg_text (c_arg c) arguments in
  (forall p i, must_match c = Some (p, i) -> re_search p i value = true) /\
  (forall p i, must_not_match c = Some (p, i) -> re_search p i value = false).

Lemma constraint_check_None c arguments : constraint_check c arguments = None <-> satisfies c arguments.
Proof.
  unfold constraint_check, satisfies. cbv zeta. split.
  - destruct (must_match c) as [[p i]|], (must_not_match c) as [[q j]|]; cbn;
      repeat match goal with |- context [re_search ?p ?i ?s] => destruct (re_search p i s) eqn:?; cbn; try done end;
      intros _; split; intros ? ? [= <- <-]; done.
  - intros [Hm Hn]. destruct (must_match c) as [[p i]|], (must_not_match c) as [[q j]|]; cbn;
      rewrite ?(Hm p i) by done; cbn; rewrite ?(Hn q j) by done; done.
Qed.

(** The names of the arguments a rewrite list writes. *)
Definition rewrite_targets (rewrites : list val) : list string :=
  omap (fun r => match r with VDict d => match dget "arg" d with Some (VStr s) => Some s | _ => None end
                 | _ => None end) rewrites.

Lemma rewrite_step_frame st r st' k :
  rewrite_step st r = Ok st' -> k ∉ (KStr <$> rewrite_targets [r]) -> aget k st'.1 = aget k st.1.
Proof.
  destruct r as [| | | | | |d], st as [args chg]; try discriminate. unfold rewrite_step, rewrite_targets.
  cbn [omap list_omap]. destruct (dget "arg" d) as [[]|] eqn:Ha; try discriminate. cbn.
  intros Hs Hk. assert (k <> KStr s) as Hne by set_solver.
  destruct (dget "set" d) as [v|].
  - destruct (py_eqb _ _); injection Hs as <-; cbn; [done|]. by apply aget_aset_ne.
  - case_match; [by injection Hs as <-|]. destruct (dget "append" d) as [[]|]; try discriminate.
    cbn in Hs. injection Hs as <-. cbn. by apply aget_aset_ne.
Qed.

Lemma rewrite_targets_cons r l : rewrite_targets (r :: l) = rewrite_targets [r] ++ rewrite_targets l.
Proof. unfold rewrite_targets. cbn. by destruct (match r with VDict _ => _ | _ => _ end). Qed.

Lemma apply_rewrites_frame l st st' k :
  fold_res rewrite_step st l = Ok st' -> k ∉ (KStr <$> rewrite_targets l) -> aget k st'.1 = aget k st.1.
Proof.
  revert st. induction l as [|r l IH]; intros st; [by intros [= <-]|].
  cbn [fold_res]. intros (st1 & Hs & Hf)%bind_ok Hk. rewrite rewrite_targets_cons, fmap_app in Hk.
  rewrite (IH st1 Hf) by set_solver. apply (rewrite_step_frame _ r); [done|set_solver].
Qed.

(** Every change is recorded: no entry of the change list means the arguments are intact. *)
Lemma apply_rewrites_changes l args chg args' chg' :
  fold_res rewrite_step (args, chg) l = Ok (args', chg') ->
  exists added, chg' = chg ++ added /\ (added = [] -> args' = args).
Proof.
  revert args chg. induction l as [|r l IH]; intros args chg; cbn [fold_res].
  - intros [= <- <-]. exists []. by rewrite app_nil_r.
  - intros ([args1 chg1] & Hs & Hf)%bind_ok. destruct (IH _ _ Hf) as (added & -> & Hadd).
    assert ((args1, chg1) = (args, chg) \/ exists c, chg1 = chg ++ [c]) as [[= -> ->]|[c ->]].
    { revert Hs. unfold rewrite_step. destruct r as [| | | | | |d]; try discriminate.
      destruct (dget "arg" d) as [[]|]; try discriminate. cbn.
      destruct (dget "set" d) as [v|].
      - destruct (py_eqb _ _); intros [= <- <-]; eauto.
      - case_match; [by intros [= <- <-]; left|]. destruct (dget "append" d) as [[]|]; try discriminate.
        cbn. intros [= <- <-]. eauto. }
    + eauto.
    + exists (c :: added). by rewrite <- (assoc_L (++)).
Qed.

(** After a list that ends with a [set] of [arg], the argument has (up to [==]) that value. *)
Lemma rewrite_set_value args chg d arg v args' chg' :
  dget "arg" d = Some (VStr arg) -> dget "set" d = Some v ->
  rewrite_step (args, chg) (VDict d) = Ok (args', chg') ->
  py_eqb (opt_val (dget arg args')) v = true \/ dget arg args' = Some v.
Proof.
  unfold rewrite_step. intros -> ->. cbn. destruct (py_eqb _ _) eqn:He; intros [= <- <-].
  - by left.
  - right. apply dget_dset_eq.
Qed.
End Constraints.

(** Rewriting touches what it declares and records what it touches. An argument that no rewrite
    names keeps its value; when the change list comes back empty the arguments are the
    original ones; and a final [set] leaves its argument equal to the value of the rule. *)
Theorem apply_rewrites_sound `{Regex} rewrites args args' chg :
  apply_rewrites args rewrites = Ok (args', chg) ->
  (forall f, f ∉ rewrite_targets rewrites -> dget f args' = dget f args) /\
  (chg = [] -> args' = args) /\
  (forall pre d arg v, rewrites = pre ++ [VDict d] -> dget "arg" d = Some (VStr arg) -> dget "set" d = Some v ->
     py_eqb (opt_val (dget arg args')) v = true \/ dget arg args' = Some v).
Proof.
  unfold apply_rewrites. intros Hr. split_and!.
  - intros f Hf. apply (apply_rewrites_frame _ _ _ (KStr f) Hr).
    intros (s & [= ->] & Hs)%list_elem_of_fmap. done.
  - intros ->. destruct (apply_rewrites_changes _ _ _ _ _ Hr) as (added & Ha & Hi). apply Hi.
    by symmetry in Ha; apply app_eq_nil in Ha as [_ ->].
  - intros pre d arg v -> Ha Hs. rewrite fold_res_app in Hr. apply bind_ok in Hr as ([a1 c1] & _ & Hr).
    cbn [fold_res] in Hr. apply bind_ok in Hr as ([a2 c2] & Hr & [= <- <-]).
    by apply (rewrite_set_value a1 c1 d arg v a2 c2).
Qed.

Lemma apply_rewrites_sound_witness :
  let rw := VObj [("arg", VStr "limit"); ("set", VInt 10)] in
  let args := fields [("limit", VInt 500); ("q", VStr "x")] in
  exists args' chg, @apply_rewrites literal_regex args [rw] = Ok (args', chg) /\
    dget "q" args' = dget "q" args /\ chg <> [].
Proof.
  eexists _, _. split; [vm_compute; reflexivity|]. split; [|discriminate].
  refine (proj1 (@apply_rewrites_sound literal_regex [VObj [("arg", VStr "limit"); ("set", VInt 10)]]
    (fields [("limit", VInt 500); ("q", VStr "x")]) _ _ _) "q" _); [vm_compute; reflexivity|].
  apply (bool_decide_unpack _). vm_compute. exact I.
Defined.
