(* ===== verification/Loader.v ===== *)
(** Policy documents: [policy/loader.py] and the profile names of [redaction/profiles.py]. *)
From S2P Require Import Prelude PyVal Json Rules.

Definition SCHEMA_VERSION : Z := 1.
Definition top_level_fields : list string :=
  ["schema_version"; "name"; "default_action"; "tools"; "taint_sources"; "taint_sinks";
   "sequence_rules"; "risk"; "on_failure"].
Definition risk_fields : list string := ["weights"; "elevated_at"; "suspend_at"].
Definition failure_fields : list string := ["default"; "pipeline"; "redaction"; "approval"].
Definition fail_modes : list string := ["open"; "closed"].
Definition rule_fields : list string :=
  ["action"; "reason"; "constraints"; "rewrites"; "redaction"; "roles"; "then"; "replace"].
Definition overlay_fields : list string :=
  ["action"; "reason"; "constraints"; "rewrites"; "redaction"; "then"].
Definition redaction_fields : list string :=
  ["profile"; "exclude_keys"; "allowlist"; "denylist"; "context_words"].
Definition list_profiles : list string := ["secrets-only"; "standard"; "strict"; "reversible"].

(** One validated policy document. A rule is its raw mapping of fields. *)
Record PolicyLayer := {
  l_name : string;
  l_source : string;
  l_default_action : option string;
  l_rules : list (string * pydict);
  l_taint_sources : list string;
  l_taint_sinks : list string;
  l_sequence_rules : list val;
  l_risk : option pydict;
  l_on_failure : val;
}.

Definition sorted_repr (l : list string) : string := strs_repr (isort str_leb l).

(** The repeated shape: the value must be a list of strings. *)
Definition validate_str_list (value : val) (source field_name : string) : result (list string) :=
  match value with
  | VNone => Ok []
  | VList l => if forallb is_str l then Ok (str_list value)
               else raise PolicyError (source +:+ ": '" +:+ field_name +:+ "' must be a list of strings")
  | _ => raise PolicyError (source +:+ ": '" +:+ field_name +:+ "' must be a list of strings")
  end.

Definition key_str (k : key) : string := match k with KStr s => s | k => key_repr k end.

Definition validate_mode (source : string) (kv : key * val) : result unit :=
  ok ← in_frozenset kv.2 fail_modes;
  require ok PolicyError (source +:+ ": on_failure." +:+ key_str kv.1
    +:+ " must be 'open' or 'closed', got " +:+ py_repr kv.2).

Definition validate_on_failure (value : val) (source : string) : result val :=
  match value with
  | VNone => Ok VNone
  | VStr s => _ ← require (bool_decide (s ∈ fail_modes)) PolicyError
                    (source +:+ ": on_failure must be 'open' or 'closed', got " +:+ str_repr s);
              Ok value
  | VDict d => _ ← check_unknown PolicyError (source +:+ ": unknown on_failure field(s) ") failure_fields d;
               _ ← iter_res (validate_mode source) d;
               Ok value
  | _ => raise PolicyError (source +:+ ": on_failure must be a string or a mapping")
  end.

Definition require_name (where_ : string) (d : pydict) (req : string) : result unit :=
  require (is_nonempty_str (opt_val (dget req d))) PolicyError
    (where_ +:+ ": '" +:+ req +:+ "' must be a non-empty string").

Definition validate_sequence_rule (source : string) (ir : nat * val) : result unit :=
  let where_ := source +:+ ": sequence_rules[" +:+ pretty ir.1 +:+ "]" in
  match ir.2 with
  | VDict d =>
      _ ← check_unknown PolicyError (where_ +:+ ": unknown field(s) ") ["after"; "forbid"; "reason"] d;
      iter_res (require_name where_ d) ["after"; "forbid"]
  | _ => raise PolicyError (where_ +:+ ": must be a mapping")
  end.

Definition validate_sequence_rules (value : val) (source : string) : result (list val) :=
  match value with
  | VNone => Ok []
  | VList l => _ ← iter_res (validate_sequence_rule source) (enumerate l); Ok l
  | _ => raise PolicyError (source +:+ ": 'sequence_rules' must be a list")
  end.

Definition weights_ok (w : val) : bool :=
  match w with
  | VNone => true
  | VDict d => forallb (fun kv => key_is_str kv.1 && is_int kv.2) d
  | _ => false
  end.

Definition validate_threshold (source : string) (d : pydict) (t : string) : result unit :=
  require (match dget t d with Some v => is_int v | None => true end) PolicyError
    (source +:+ ": risk." +:+ t +:+ " must be an integer").

Definition validate_risk (value : val) (source : string) : result (option pydict) :=
  match value with
  | VNone => Ok None
  | VDict d =>
      _ ← check_unknown PolicyError (source +:+ ": unknown risk field(s) ") risk_fields d;
      _ ← require (weights_ok (opt_val (dget "weights" d))) PolicyError
            (source +:+ ": risk.weights must map event names to integers");
      _ ← iter_res (validate_threshold source d) ["elevated_at"; "suspend_at"];
      Ok (Some d)
  | _ => raise PolicyError (source +:+ ": 'risk' must be a mapping")
  end.

Definition validate_redaction_list (where_ : string) (config : pydict) (f : string) : result unit :=
  require (match opt_val (dget f config) with VNone => true | v => is_str_list v end) PolicyError
    (where_ +:+ ": '" +:+ f +:+ "' must be a list of strings").

Definition validate_redaction (config : val) (where_ : string) : result unit :=
  profile ←
    match config with
    | VStr s => Ok s
    | VDict d =>
        _ ← check_unknown PolicyError (where_ +:+ ": unknown redaction field(s) ") redaction_fields d;
        match dget_or "profile" (VStr "standard") d with
        | VStr s => _ ← iter_res (validate_redaction_list where_ d)
                          ["exclude_keys"; "allowlist"; "denylist"; "context_words"];
                    Ok s
        | _ => raise PolicyError (where_ +:+ ": 'profile' must be a string")
        end
    | _ => raise PolicyError (where_ +:+ ": must be a profile name or a mapping")
    end;
  require (bool_decide (profile ∈ list_profiles)) PolicyError
    (where_ +:+ ": unknown redaction profile " +:+ str_repr profile +:+ "; available: "
     +:+ sorted_repr list_profiles).

Section Loader.
Context `{Regex}.

(** An action name of the vocabulary, or absent. *)
Definition validate_action (where_ label : string) (v : val) : result unit :=
  match v with
  | VNone => Ok tt
  | v => ok ← in_frozenset v ACTION_VOCABULARY;
         require ok PolicyError (where_ +:+ ": invalid " +:+ label +:+ " " +:+ py_repr v +:+ "; valid: "
                                 +:+ sorted_repr ACTION_VOCABULARY)
  end.

Definition indexed (where_ label : string) (i : nat) : string :=
  where_ +:+ "." +:+ label +:+ "[" +:+ pretty i +:+ "]".

(** The fields of a rule or of a role overlay, everything before the role map. *)
Definition validate_fields (rule : val) (where_ : string) (allowed : list string) : result pydict :=
  match rule with
  | VDict d =>
      _ ← check_unknown PolicyError (where_ +:+ ": unknown field(s) ") allowed d;
      _ ← validate_action where_ "action" (opt_val (dget "action" d));
      _ ← require (match dget "reason" d with Some v => is_str v | None => true end) PolicyError
            (where_ +:+ ": 'reason' must be a string");
      _ ← require (match dget "replace" d with Some v => is_bool v | None => true end) PolicyError
            (where_ +:+ ": 'replace' must be a boolean");
      _ ← validate_action where_ "'then' action" (opt_val (dget "then" d));
      _ ← match opt_val (dget "constraints" d) with
          | VNone => Ok tt
          | VList l => iter_res (fun ic => _ ← build_constraint ic.2 (indexed where_ "constraints" ic.1); Ok tt)
                         (enumerate l)
          | _ => raise PolicyError (where_ +:+ ": 'constraints' must be a list")
          end;
      _ ← match opt_val (dget "rewrites" d) with
          | VNone => Ok tt
          | VList l => iter_res (fun ic => validate_rewrite ic.2 (indexed where_ "rewrites" ic.1)) (enumerate l)
          | _ => raise PolicyError (where_ +:+ ": 'rewrites' must be a list")
          end;
      _ ← match dget "redaction" d with
          | Some r => validate_redaction r (where_ +:+ ".redaction")
          | None => Ok tt
          end;
      Ok d
  | _ => raise PolicyError (where_ +:+ ": rule must be a mapping")
  end.

Definition validate_role (where_ : string) (ro : key * val) : result unit :=
  match ro.1 with
  | KStr (String _ _ as s) =>
      _ ← validate_fields ro.2 (where_ +:+ ".roles[" +:+ str_repr s +:+ "]") overlay_fields; Ok tt
  | _ => raise PolicyError (where_ +:+ ": role names must be non-empty strings")
  end.

(** An overlay has no [roles] of its own, so the recursion is one level deep. *)
Definition validate_rule (rule : val) (where_ : string) (allowed : list string) : result pydict :=
  d ← validate_fields rule where_ allowed;
  _ ← match opt_val (dget "roles" d) with
      | VNone => Ok tt
      | VDict roles => iter_res (validate_role where_) roles
      | _ => raise PolicyError (where_ +:+ ": 'roles' must be a mapping")
      end;
  Ok d.

Definition parse_tool (source : string) (pr : key * val) : result (string * pydict) :=
  match pr.1 with
  | KStr (String _ _ as pattern) =>
      d ← validate_rule pr.2 (source +:+ ": tools[" +:+ str_repr pattern +:+ "]") rule_fields;
      Ok (pattern, d)
  | _ => raise PolicyError (source +:+ ": tool pattern must be a non-empty string")
  end.

Definition validate_default_action (source : string) (v : val) : result (option string) :=
  match v with
  | VNone => Ok None
  | VStr s => _ ← require (bool_decide (s ∈ ["allow"; "block"])) PolicyError
                    (source +:+ ": default_action must be 'allow' or 'block', got " +:+ str_repr s);
              Ok (Some s)
  | v => raise PolicyError (source +:+ ": default_action must be 'allow' or 'block', got " +:+ py_repr v)
  end.

Definition parse_document (document : val) (source fallback_name : string) : result PolicyLayer :=
  match document with
  | VDict doc =>
      _ ← match opt_val (dget "schema_version" doc) with
          | VNone => raise PolicyError (source +:+ ": missing schema_version (add `schema_version: 1`)")
          | v => require (py_eqb v (VInt SCHEMA_VERSION)) PolicyError
                   (source +:+ ": unsupported schema_version " +:+ py_repr v +:+ "; this build supports 1")
          end;
      _ ← check_unknown PolicyError (source +:+ ": unknown top-level field(s) ") top_level_fields doc;
      default_action ← validate_default_action source (opt_val (dget "default_action" doc));
      name ← match dget_or "name" (VStr fallback_name) doc with
             | VStr (String _ _ as s) => Ok s
             | _ => raise PolicyError (source +:+ ": 'name' must be a non-empty string")
             end;
      tools ← match dget_or "tools" (VDict []) doc with
              | VDict d => Ok d
              | _ => raise PolicyError (source +:+ ": 'tools' must be a mapping")
              end;
      rules ← map_res (parse_tool source) tools;
      ts ← validate_str_list (opt_val (dget "taint_sources" doc)) source "taint_sources";
      tk ← validate_str_list (opt_val (dget "taint_sinks" doc)) source "taint_sinks";
      sr ← validate_sequence_rules (opt_val (dget "sequence_rules" doc)) source;
      rk ← validate_risk (opt_val (dget "risk" doc)) source;
      onf ← validate_on_failure (opt_val (dget "on_failure" doc)) source;
      Ok {| l_name := name; l_source := source; l_default_action := default_action; l_rules := rules;
            l_taint_sources := ts; l_taint_sinks := tk; l_sequence_rules := sr; l_risk := rk;
            l_on_failure := onf |}
  | _ => raise PolicyError (source +:+ ": policy document must be a mapping")
  end.

(** [load_policy_file]: [read] is the file system, [yaml_load] is [yaml.safe_load]
    ([None] for a [YAMLError]); [.json] files get the JSON parser, whose integer limit
    escapes as a plain [ValueError]. *)
Section File.
Context (read : string -> option string) (yaml_load : string -> option val).

Definition base_name (path : string) : string :=
  of_chars (rev (take_while (fun a => negb (Ascii.eqb a "/")) (rev (chars path)))).

(** Stem and suffix: split at the last dot unless it is the first or the last character. *)
Definition split_suffix (name : string) : string * string :=
  let r := rev (chars name) in
  let ext := take_while (fun a => negb (Ascii.eqb a ".")) r in
  let rest := drop_while (fun a => negb (Ascii.eqb a ".")) r in
  match ext, rest with
  | _ :: _, _ :: ((_ :: _) as stem) => (of_chars (rev stem), "." +:+ of_chars (rev ext))
  | _, _ => (name, "")
  end.

Definition load_policy_file (path : string) : result PolicyLayer :=
  let '(stem, suffix) := split_suffix (base_name path) in
  text ← of_option (read path) (Exn PolicyError ("policy file not found: " +:+ path));
  document ←
    (if String.eqb suffix ".json" then
       match json_loads text with
       | Err (Exn JSONDecodeError msg) => raise PolicyError (path +:+ ": not valid JSON (" +:+ msg +:+ ")")
       | r => r
       end
     else of_option (yaml_load text) (Exn PolicyError (path +:+ ": not valid YAML")));
  parse_document document path stem.
End File.

(** * What a loaded layer guarantees *)

(** The well-formedness every accepted rule has; an explicit [null] counts as present
    where the code tests membership, and is let through where it tests [is not None]. *)
Record fields_wf (d : pydict) : Prop := {
  fw_action : match opt_val (dget "action" d) with
              | VNone => True | VStr a => a ∈ ACTION_VOCABULARY | _ => False end;
  fw_then : match opt_val (dget "then" d) with
            | VNone => True | VStr a => a ∈ ACTION_VOCABULARY | _ => False end;
  fw_reason : match dget "reason" d with Some v => is_str v = true | None => True end;
  fw_constraints : match opt_val (dget "constraints" d) with
      | VNone => True
      | VList l => forall i c, (i, c) ∈ enumerate l -> exists w r, build_constraint c w = Ok r
      | _ => False end;
  fw_rewrites : match opt_val (dget "rewrites" d) with
      | VNone => True
      | VList l => forall c, c ∈ l -> exists w, validate_rewrite c w = Ok tt
      | _ => False end;
}.

Lemma validate_action_ok where_ label v : validate_action where_ label v = Ok tt ->
  match v with VNone => True | VStr a => a ∈ ACTION_VOCABULARY | _ => False end.
Proof.
  unfold validate_action, in_frozenset. destruct v; try done; cbn; try discriminate.
  intros H1%require_ok. by apply bool_decide_eq_true in H1.
Qed.

Lemma elem_enumerate_snd {A} (l : list A) n x : x ∈ l -> exists i, (i, x) ∈ enumerate_from n l.
Proof.
  revert n. induction l as [|y l IH]; intros n; [set_solver|].
  intros [->|Hx]%elem_of_cons; [exists n; set_solver|].
  destruct (IH (S n) Hx) as [i Hi]. exists i. cbn. set_solver.
Qed.

Lemma validate_fields_wf rule where_ allowed d :
  validate_fields rule where_ allowed = Ok d ->
  rule = VDict d /\ fields_wf d /\ forall k, k ∈ akeys d -> exists s, k = KStr s /\ s ∈ allowed.
Proof.
  unfold validate_fields. destruct rule as [| | | | | |d0]; try discriminate.
  intros ([] & Hu & ([] & Ha & ([] & Hr & ([] & _ & ([] & Ht & ([] & Hc & ([] & Hw & ([] & _ &
    [= <-])%bind_ok)%bind_ok)%bind_ok)%bind_ok)%bind_ok)%bind_ok)%bind_ok)%bind_ok.
  apply require_ok in Hr. split; [done|]. split; [|by eapply check_unknown_ok]. constructor.
  - by eapply validate_action_ok.
  - by eapply validate_action_ok.
  - by destruct (dget "reason" d0).
  - revert Hc. destruct (opt_val (dget "constraints" d0)) as [| | | | |l|]; try done; intros Hc.
    apply iter_res_Forall in Hc. intros i c Hin. rewrite Forall_forall in Hc.
    specialize (Hc _ Hin) as (r & Hb & _)%bind_ok. eauto.
  - revert Hw. destruct (opt_val (dget "rewrites" d0)) as [| | | | |l|]; try done; intros Hw.
    apply iter_res_Forall in Hw. intros c Hin. rewrite Forall_forall in Hw.
    destruct (elem_enumerate_snd l 0 c Hin) as [i Hi]. specialize (Hw _ Hi). eauto.
Qed.

Record layer_wf (l : PolicyLayer) : Prop := {
  lw_name : l_name l <> "";
  lw_default : match l_default_action l with Some a => a = "allow" \/ a = "block" | None => True end;
  lw_rules : Forall (fun pr => pr.1 <> "" /\ fields_wf pr.2 /\
      match opt_val (dget "roles" pr.2) with
      | VNone => True
      | VDict roles => Forall (fun ro => exists s d, ro.1 = KStr s /\ s <> "" /\ ro.2 = VDict d /\
          fields_wf d /\ dget "roles" d = None) roles
      | _ => False end) (l_rules l);
  lw_seq : Forall (fun r => exists d a f, r = VDict d /\ dget "after" d = Some (VStr a) /\
      dget "forbid" d = Some (VStr f)) (l_sequence_rules l);
  lw_on_failure : match l_on_failure l with
      | VNone => True
      | VStr s => s ∈ fail_modes
      | VDict d => Forall (fun kv => exists s, kv.2 = VStr s /\ s ∈ fail_modes) d
      | _ => False end;
}.

Lemma require_name_ok where_ d req : require_name where_ d req = Ok tt ->
  exists s, dget req d = Some (VStr s) /\ s <> "".
Proof.
  intros Hn%require_ok. apply is_nonempty_str_spec in Hn as (s & Hs & ?).
  exists s. split; [|done]. destruct (dget req d); [by rewrite <- Hs|done].
Qed.

Lemma validate_sequence_rules_wf v source l : validate_sequence_rules v source = Ok l ->
  Forall (fun r => exists d a f, r = VDict d /\ dget "after" d = Some (VStr a) /\
      dget "forbid" d = Some (VStr f)) l.
Proof.
  unfold validate_sequence_rules. destruct v as [| | | | |l0|]; try discriminate; [intros [= <-]; constructor|].
  intros ([] & Hi & [= <-])%bind_ok. apply iter_res_Forall in Hi. apply Forall_forall. intros r Hr.
  destruct (elem_enumerate_snd l0 0 r Hr) as [i Hin]. rewrite Forall_forall in Hi.
  specialize (Hi _ Hin). unfold validate_sequence_rule in Hi. cbn [snd] in Hi.
  destruct r as [| | | | | |d]; try discriminate.
  apply bind_ok in Hi as ([] & _ & Hi). apply iter_res_Forall in Hi.
  apply Forall_cons in Hi as [Ha%require_name_ok Hf]. apply Forall_cons in Hf as [Hf%require_name_ok _].
  destruct Ha as (a & ? & _), Hf as (f & ? & _). by exists d, a, f.
Qed.

Lemma validate_on_failure_wf v source v' : validate_on_failure v source = Ok v' ->
  match v' with
  | VNone => True
  | VStr s => s ∈ fail_modes
  | VDict d => Forall (fun kv => exists s, kv.2 = VStr s /\ s ∈ fail_modes) d
  | _ => False end.
Proof.
  unfold validate_on_failure. destruct v as [| | | |s| |d]; try discriminate.
  - by intros [= <-].
  - intros ([] & Hr%require_ok & [= <-])%bind_ok. by apply bool_decide_eq_true in Hr.
  - intros ([] & _ & ([] & Hi & [= <-])%bind_ok)%bind_ok. apply iter_res_Forall in Hi.
    eapply Forall_impl; [exact Hi|]. intros [k x]. unfold validate_mode, in_frozenset. cbn.
    intros (ok & Hok & Hr%require_ok)%bind_ok. subst ok.
    destruct x as [| | | |s| |]; cbn in Hok; try discriminate Hok.
    exists s. split; [done|]. injection Hok as Hok. by apply bool_decide_eq_true in Hok.
Qed.

Lemma parse_tool_wf source pr pattern d : parse_tool source pr = Ok (pattern, d) ->
  pattern <> "" /\ fields_wf d /\
  match opt_val (dget "roles" d) with
  | VNone => True
  | VDict roles => Forall (fun ro => exists s d, ro.1 = KStr s /\ s <> "" /\ ro.2 = VDict d /\
      fields_wf d /\ dget "roles" d = None) roles
  | _ => False end.
Proof.
  unfold parse_tool, validate_rule. destruct pr as [[[|a s]| | |] rule]; try discriminate. cbn [fst snd].
  intros (d0 & (d1 & Hf & ([] & Hr & [= <-])%bind_ok)%bind_ok & [= <- <-])%bind_ok.
  apply validate_fields_wf in Hf as (_ & Hf & _). split_and!; [done..|].
  revert Hr. destruct (opt_val (dget "roles" d1)) as [| | | | | |roles]; try done; intros Hr.
  apply iter_res_Forall in Hr. eapply Forall_impl; [exact Hr|]. intros [k ov]. unfold validate_role. cbn.
  destruct k as [[|b t]| | |]; try discriminate. intros (d & Hv & _)%bind_ok.
  apply validate_fields_wf in Hv as (-> & Hwf & Hk). exists (String b t), d. split_and!; try done.
  apply aget_None. intros Hin. destruct (Hk _ Hin) as (s' & [= <-] & Hs).
  revert Hs. unfold overlay_fields. set_solver.
Qed.

Lemma parse_document_wf document source fallback l :
  parse_document document source fallback = Ok l -> layer_wf l.
Proof.
  unfold parse_document. destruct document as [| | | | | |doc]; try discriminate.
  intros ([] & _ & ([] & _ & (da & Hda & (name & Hn & (tools & _ & (rules & Hru & (ts & _ & (tk & _ &
    (sr & Hsr & (rk & _ & (onf & Hof & [= <-])%bind_ok)%bind_ok)%bind_ok)%bind_ok)%bind_ok)%bind_ok)%bind_ok)
    %bind_ok)%bind_ok)%bind_ok)%bind_ok.
  constructor; cbn.
  - destruct (dget_or "name" _ doc) as [| | | |[|a s]| |]; try discriminate. by injection Hn as <-.
  - unfold validate_default_action in Hda. destruct (opt_val _) as [| | | |s| |]; try discriminate.
    + by injection Hda as <-.
    + apply bind_ok in Hda as ([] & Hr%require_ok & [= <-]). apply bool_decide_eq_true in Hr. set_solver.
  - apply map_res_Forall2 in Hru. clear -Hru.
    induction Hru as [|pr [p d] prs rs Hp _ IH]; constructor; [|done]. by eapply parse_tool_wf.
  - by eapply validate_sequence_rules_wf.
  - by eapply validate_on_failure_wf.
Qed.
End Loader.

(** * Documents as parsed values *)

(** A value a YAML or JSON parser builds: the keys of every mapping are distinct. *)
Inductive dict_ok : val -> Prop :=
  | dok_dict d : NoDup (akeys d) -> Forall (fun kv => dict_ok kv.2) d -> dict_ok (VDict d)
  | dok_list l : Forall dict_ok l -> dict_ok (VList l)
  | dok_other v : match v with VDict _ | VList _ => False | _ => True end -> dict_ok v.

Lemma dict_ok_get d f v : dict_ok (VDict d) -> dget f d = Some v -> dict_ok v.
Proof.
  inversion 1 as [d' Hnd Hall| |v' Hv]; subst; [|done]. intros Hf%aget_Some_elem.
  rewrite Forall_forall in Hall. by apply (Hall _ Hf).
Qed.

(** [dict_ok] of a concrete value. *)
Ltac dict_ok_tac :=
  lazymatch goal with
  | |- dict_ok (VDict _) => apply dok_dict; [apply (bool_decide_unpack _); vm_compute; exact I|dict_ok_tac]
  | |- dict_ok (VList _) => apply dok_list; dict_ok_tac
  | |- dict_ok _ => apply dok_other; exact I
  | |- Forall _ [] => constructor
  | |- Forall _ (_ :: _) => constructor; [cbn [fst snd]; dict_ok_tac|dict_ok_tac]
  end.

Lemma dict_ok_nodup d : dict_ok (VDict d) -> NoDup (akeys d).
Proof. by inversion 1. Qed.

Section DocumentKeys.
Context `{Regex}.

Lemma parse_tool_raw source pr pattern d : parse_tool source pr = Ok (pattern, d) ->
  pr = (KStr pattern, VDict d).
Proof.
  unfold parse_tool. destruct pr as [[[|a s]| | |] v]; try discriminate. cbn [fst snd].
  intros (d' & Hr & [= <- <-])%bind_ok. unfold validate_rule in Hr.
  apply bind_ok in Hr as (d1 & Hf & (u & _ & [= <-])%bind_ok).
  by destruct (validate_fields_wf _ _ _ _ Hf) as [-> _].
Qed.

Lemma parse_tools_raw source tools rules : map_res (parse_tool source) tools = Ok rules ->
  tools = (fun pd => (KStr pd.1, VDict pd.2)) <$> rules.
Proof.
  intros Hm%map_res_Forall2. induction Hm as [|pr [p d] tools rules Hp _ IH]; [done|].
  cbn. by rewrite <- IH, (parse_tool_raw _ _ _ _ Hp).
Qed.

(** The rules of a layer are the [tools] of its document. *)
Lemma parse_document_tools doc source fb l : parse_document (VDict doc) source fb = Ok l ->
  exists tools, dget_or "tools" (VDict []) doc = VDict tools /\
    tools = (fun pd => (KStr pd.1, VDict pd.2)) <$> l_rules l.
Proof.
  unfold parse_document. intros (? & _ & (? & _ & (? & _ & (? & _ & (tools & Ht & (rules & Hr & Hl)
    %bind_ok)%bind_ok)%bind_ok)%bind_ok)%bind_ok)%bind_ok.
  exists tools. split.
  { destruct (dget_or "tools" (VDict []) doc); try discriminate. by injection Ht as ->. }
  repeat (apply bind_ok in Hl as (? & _ & Hl)). injection Hl as <-. by eapply parse_tools_raw.
Qed.

Lemma parse_document_rules document source fb l : dict_ok document ->
  parse_document document source fb = Ok l ->
  NoDup (akeys (l_rules l)) /\ Forall (fun pr => dict_ok (VDict pr.2)) (l_rules l).
Proof.
  intros Hok Hp. destruct document as [| | | | | |doc]; try discriminate.
  destruct (parse_document_tools _ _ _ _ Hp) as (tools & Ht & ->).
  assert (dict_ok (VDict ((fun pd => (KStr pd.1, VDict pd.2)) <$> l_rules l))) as Htools.
  { rewrite <- Ht. unfold dget_or, aget_or. fold (dget "tools" doc).
    destruct (dget "tools" doc) eqn:Hd; [by eapply dict_ok_get|apply dok_dict; constructor]. }
  inversion Htools as [d Hnd Hall| |]; [|done]. subst. split.
  - apply (NoDup_fmap_1 KStr). revert Hnd. unfold akeys. clear.
    enough (((fun pd => (KStr pd.1, VDict pd.2)) <$> l_rules l).*1 = KStr <$> (l_rules l).*1) as -> by done.
    induction (l_rules l) as [|x r IH]; cbn; congruence.
  - rewrite Forall_fmap in Hall. exact Hall.
Qed.
End DocumentKeys.

(** C20: The loader rejects everything else. A document it accepts gives a layer whose name is not
    empty, whose default action is allow or block, whose rules use only actions of the
    vocabulary, string reasons, constraints that build and rewrites that validate, also under
    every role overlay (which has no roles of its own), whose sequence rules name both tools, and whose failure
    modes are open or closed; and its rules are the document's [tools], in order. *)
Theorem accepted_document_wf `{Regex} document source fallback l :
  parse_document document source fallback = Ok l ->
  layer_wf l /\ exists doc, document = VDict doc /\
    dget_or "tools" (VDict []) doc = VDict ((fun pd => (KStr pd.1, VDict pd.2)) <$> l_rules l).
Proof.
  intros Hp. split; [by eapply parse_document_wf|]. destruct document as [| | | | | |doc]; try discriminate.
  exists doc. split; [done|]. by destruct (parse_document_tools _ _ _ _ Hp) as (tools & -> & ->).
Qed.

#[local] Existing Instance literal_regex.

Definition demo_document : val := VObj [("schema_version", VInt 1); ("name", VStr "base");
  ("tools", VObj [("db.*", VObj [("action", VStr "block"); ("reason", VStr "no")])]); ("on_failure", VStr "closed")].

Lemma accepted_document_wf_witness :
  exists l, parse_document demo_document "base.yaml" "base" = Ok l /\ layer_wf l.
Proof.
  destruct (parse_document demo_document "base.yaml" "base") as [l|e] eqn:Hp.
  - exists l. split; [reflexivity|]. exact (proj1 (accepted_document_wf demo_document "base.yaml" "base" l Hp)).
  - vm_compute in Hp. discriminate.
Defined.
