(* ===== verification/Merge.v ===== *)
(** Layered policy merge: [policy/merge.py]. The layers are values here; in the code a
    merged [roles] mapping is the first layer's own object and is updated in place, which
    this function does not show. *)
From S2P Require Import Prelude PyVal Rules Loader.

Record MergedPolicy := {
  mg_default_action : string;
  mg_rules : list (string * pydict);
  provenance : list (string * list string);
  mg_layer_names : list string;
  mg_taint_sources : list string;
  mg_taint_sinks : list string;
  mg_sequence_rules : list val;
  mg_risk : pydict;
  mg_on_failure : val;
}.

Definition merged_empty : MergedPolicy :=
  {| mg_default_action := "block"; mg_rules := []; provenance := []; mg_layer_names := [];
     mg_taint_sources := []; mg_taint_sinks := []; mg_sequence_rules := []; mg_risk := [];
     mg_on_failure := VNone |}.

(** [d.setdefault(s, None)] for each [s]: an ordered set *)
Definition union_list (acc l : list string) : list string :=
  fold_left (fun acc s => if bool_decide (s ∈ acc) then acc else acc ++ [s]) l acc.

(** [x.get("weights", {})] about to be unpacked *)
Definition risk_weights (risk : pydict) : result pydict :=
  match dget "weights" risk with
  | None => Ok []
  | Some (VDict d) => Ok d
  | Some v => raise TypeError ("'" +:+ type_name v +:+ "' object is not a mapping")
  end.

Definition merge_risk (merged : pydict) (layer : option pydict) : result pydict :=
  match layer with
  | None | Some [] => Ok merged
  | Some d =>
      w1 ← risk_weights merged;
      w2 ← risk_weights d;
      let ws := aupdate w1 w2 in
      let risk := aupdate merged d in
      Ok (match ws with [] => risk | _ => dset "weights" (VDict ws) risk end)
  end.

(** The second half of the loop body: fields, then roles, of a rule that exists already. *)
Definition merge_fields (existing incoming : pydict) : result pydict :=
  let roles := opt_val (dget "roles" incoming) in
  let updated := aupdate existing (adel (KStr "roles") incoming) in
  match roles with
  | VNone => Ok updated
  | _ =>
      match dget_or "roles" (VDict []) updated, roles with
      | VDict existing_roles, VDict rs => Ok (dset "roles" (VDict (aupdate existing_roles rs)) updated)
      | VDict _, v => raise TypeError ("'" +:+ type_name v +:+ "' object is not iterable")
      | v, _ => raise AttributeError ("'" +:+ type_name v +:+ "' object has no attribute 'update'")
      end
  end.

Definition without_replace (rule : pydict) : pydict :=
  afilter (fun k => negb (bool_decide (k = KStr "replace"))) rule.

Definition fresh_rule (rules : list (string * pydict)) (pattern : string) (rule : pydict) : bool :=
  match aget pattern rules with None => true | Some _ => truthy (opt_val (dget "replace" rule)) end.

Definition merge_rule (layer_name : string) (st : list (string * pydict) * list (string * list string))
  (pr : string * pydict) : result (list (string * pydict) * list (string * list string)) :=
  let '(rules, prov) := st in
  let '(pattern, rule) := pr in
  let incoming := without_replace rule in
  if fresh_rule rules pattern rule then
    Ok (aset pattern incoming rules, aset pattern [layer_name] prov)
  else
    merged ← merge_fields (aget_or pattern [] rules) incoming;
    Ok (aset pattern merged rules, aset pattern (aget_or pattern [] prov ++ [layer_name]) prov).

Definition merge_layer (m : MergedPolicy) (l : PolicyLayer) : result MergedPolicy :=
  risk ← merge_risk (mg_risk m) (l_risk l);
  '(rules, prov) ← fold_res (merge_rule (l_name l)) (mg_rules m, provenance m) (l_rules l);
  Ok {| mg_default_action := match l_default_action l with Some a => a | None => mg_default_action m end;
        mg_rules := rules; provenance := prov;
        mg_layer_names := mg_layer_names m ++ [l_name l];
        mg_taint_sources := union_list (mg_taint_sources m) (l_taint_sources l);
        mg_taint_sinks := union_list (mg_taint_sinks m) (l_taint_sinks l);
        mg_sequence_rules := mg_sequence_rules m ++ l_sequence_rules l;
        mg_risk := risk;
        mg_on_failure := match l_on_failure l with VNone => mg_on_failure m | v => v end |}.

Definition merge_layers (layers : list PolicyLayer) : result MergedPolicy :=
  fold_res merge_layer merged_empty layers.

(** * The merge, one field at a time *)

(** What the layers say about field [f] of the rule for [pattern]: each layer that has the
    rule overrides the field when it names it, and forgets the earlier layers' value when
    it replaces the rule. *)
Definition field_step (pattern f : string) (o : option val) (l : PolicyLayer) : option val :=
  match aget pattern (l_rules l) with
  | None => o
  | Some rule =>
      if truthy (opt_val (dget "replace" rule)) then dget f rule
      else match dget f rule with Some v => Some v | None => o end
  end.

Definition field_spec (pattern f : string) (layers : list PolicyLayer) : option val :=
  fold_left (field_step pattern f) layers None.

Definition merged_field (m : MergedPolicy) (pattern f : string) : option val :=
  aget pattern (mg_rules m) ≫= dget f.

(** A layer as a Python object: the keys of its mappings are distinct. *)
Definition layer_keys_ok (l : PolicyLayer) : Prop :=
  NoDup (akeys (l_rules l)) /\ Forall (fun pr => NoDup (akeys pr.2)) (l_rules l).

Lemma dget_without_replace f rule : f <> "replace" -> dget f (without_replace rule) = dget f rule.
Proof.
  intros Hf. unfold dget, without_replace. rewrite aget_afilter.
  rewrite bool_decide_eq_false_2 by congruence. done.
Qed.

Lemma merge_fields_get existing incoming merged f : NoDup (akeys incoming) -> f <> "roles" ->
  merge_fields existing incoming = Ok merged ->
  dget f merged = match dget f incoming with Some v => Some v | None => dget f existing end.
Proof.
  intros Hnd Hf. unfold merge_fields.
  assert (dget f (aupdate existing (adel (KStr "roles") incoming)) =
    match dget f incoming with Some v => Some v | None => dget f existing end) as Hu.
  { unfold dget. rewrite aget_aupdate by (by apply NoDup_adel). rewrite aget_adel_ne by congruence. done. }
  destruct (opt_val (dget "roles" incoming)); repeat (case_match; try discriminate); intros [= <-];
    try exact Hu; rewrite dget_dset_ne by done; exact Hu.
Qed.

(** One rule of one layer, then the rules of one layer, then the layers. *)
Definition rule_field (rules : list (string * pydict)) (pattern f : string) : option val :=
  aget pattern rules ≫= dget f.

Lemma merge_rule_field ln rules prov p rule rules' prov' pattern f :
  NoDup (akeys rule) -> f <> "roles" -> f <> "replace" ->
  merge_rule ln (rules, prov) (p, rule) = Ok (rules', prov') ->
  rule_field rules' pattern f =
    if decide (pattern = p) then
      if truthy (opt_val (dget "replace" rule)) then dget f rule
      else match dget f rule with Some v => Some v | None => rule_field rules pattern f end
    else rule_field rules pattern f.
Proof.
  intros Hnd Hf Hr. unfold merge_rule, rule_field. case_decide as Hp; [subst p|].
  - unfold fresh_rule. destruct (aget pattern rules) as [old|] eqn:Ho.
    + destruct (truthy (opt_val (dget "replace" rule))).
      * intros [= <- <-]. rewrite aget_aset_eq. by apply dget_without_replace.
      * intros (merged & Hm & [= <- <-])%bind_ok. rewrite aget_aset_eq. cbn.
        eapply merge_fields_get in Hm as ->; [|by apply NoDup_afilter|done].
        rewrite dget_without_replace by done. unfold aget_or. by rewrite Ho.
    + intros [= <- <-]. rewrite aget_aset_eq. cbn. rewrite dget_without_replace by done.
      destruct (truthy _); [done|]. by destruct (dget f rule).
  - destruct (fresh_rule rules p rule).
    + intros [= <- <-]. by rewrite aget_aset_ne.
    + intros (merged & Hm & [= <- <-])%bind_ok. by rewrite aget_aset_ne.
Qed.

Lemma merge_rules_field ln lrules rules prov rules' prov' pattern f :
  NoDup (akeys lrules) -> Forall (fun pr => NoDup (akeys pr.2)) lrules -> f <> "roles" -> f <> "replace" ->
  fold_res (merge_rule ln) (rules, prov) lrules = Ok (rules', prov') ->
  rule_field rules' pattern f =
    match aget pattern lrules with
    | None => rule_field rules pattern f
    | Some rule =>
        if truthy (opt_val (dget "replace" rule)) then dget f rule
        else match dget f rule with Some v => Some v | None => rule_field rules pattern f end
    end.
Proof.
  intros Hnd Hall Hf Hr. revert rules prov Hnd Hall.
  induction lrules as [|[p rule] lrules IH]; intros rules prov; [by intros _ _ [= <- <-]|].
  unfold akeys. cbn. intros [Hp Hnd]%NoDup_cons [Hrule Hall]%Forall_cons ([r1 p1] & Hm & Hfold)%bind_ok.
  rewrite (IH r1 p1 Hnd Hall Hfold), (merge_rule_field _ _ _ _ _ _ _ pattern f Hrule Hf Hr Hm).
  case_decide as Hd; [subst p|done]. by rewrite (proj2 (aget_None pattern lrules)).
Qed.

Lemma merge_layer_field m l m' pattern f :
  layer_keys_ok l -> f <> "roles" -> f <> "replace" -> merge_layer m l = Ok m' ->
  merged_field m' pattern f = field_step pattern f (merged_field m pattern f) l.
Proof.
  intros [Hnd Hall] Hf Hr. unfold merge_layer.
  intros (risk & _ & ([rules prov] & Hfold & [= <-])%bind_ok)%bind_ok.
  unfold merged_field, field_step. cbn. eapply merge_rules_field in Hfold; eauto.
Qed.

Lemma merge_layers_snoc ls l m : merge_layers (ls ++ [l]) = Ok m ->
  exists m0, merge_layers ls = Ok m0 /\ merge_layer m0 l = Ok m.
Proof.
  unfold merge_layers. rewrite fold_res_app. intros (m0 & ? & (m1 & ? & [= <-])%bind_ok)%bind_ok. eauto.
Qed.

Lemma merge_layers_field ls m pattern f :
  Forall layer_keys_ok ls -> f <> "roles" -> f <> "replace" -> merge_layers ls = Ok m ->
  merged_field m pattern f = field_spec pattern f ls.
Proof.
  intros Hall Hf Hr. revert m. induction ls as [|l ls IH] using rev_ind; intros m.
  { by intros [= <-]. }
  intros (m0 & H0 & Hl)%merge_layers_snoc. apply Forall_app in Hall as [Hall [Hk _]%Forall_cons].
  unfold field_spec. rewrite fold_left_app. cbn. rewrite (merge_layer_field _ _ _ _ _ Hk Hf Hr Hl).
  by rewrite (IH Hall _ H0).
Qed.

(** * The session-state lists *)
Lemma elem_union_list x acc l : x ∈ union_list acc l <-> x ∈ acc \/ x ∈ l.
Proof.
  unfold union_list. revert acc. induction l as [|y l IH]; intros acc; cbn; [set_solver|].
  rewrite IH. case_bool_decide; set_solver.
Qed.

Lemma NoDup_union_list acc l : NoDup acc -> NoDup (union_list acc l).
Proof.
  unfold union_list. revert acc. induction l as [|y l IH]; intros acc Hacc; cbn; [done|].
  apply IH. case_bool_decide; [done|]. apply NoDup_app. split_and!; [done|set_solver|apply NoDup_singleton].
Qed.

Definition last_some {A B} (f : A -> option B) (dflt : B) (l : list A) : B :=
  fold_left (fun b a => match f a with Some b' => b' | None => b end) l dflt.

Lemma merge_layers_session ls m : merge_layers ls = Ok m ->
  mg_layer_names m = l_name <$> ls /\
  mg_sequence_rules m = concat (l_sequence_rules <$> ls) /\
  mg_default_action m = last_some l_default_action "block" ls /\
  (forall x, x ∈ mg_taint_sources m <-> exists l, l ∈ ls /\ x ∈ l_taint_sources l) /\
  (forall x, x ∈ mg_taint_sinks m <-> exists l, l ∈ ls /\ x ∈ l_taint_sinks l).
Proof.
  revert m. induction ls as [|l ls IH] using rev_ind; intros m.
  { intros [= <-]. split_and!; try done; cbn; set_solver. }
  intros (m0 & H0 & Hl)%merge_layers_snoc. destruct (IH _ H0) as (Hn & Hs & Hd & Hts & Htk).
  unfold merge_layer in Hl. apply bind_ok in Hl as (risk & _ & Hl).
  apply bind_ok in Hl as ([rules prov] & _ & [= <-]). cbn.
  rewrite fmap_app, Hn, fmap_app, concat_app, Hs. cbn. rewrite app_nil_r. split_and!; [done|done|..].
  - unfold last_some in *. rewrite fold_left_app. cbn. by rewrite Hd.
  - intros x. rewrite elem_union_list, Hts. setoid_rewrite elem_of_app. set_solver.
  - intros x. rewrite elem_union_list, Htk. setoid_rewrite elem_of_app. set_solver.
Qed.

(** Every merged pattern comes from some layer, each once, in first-declaration order. *)
Lemma merge_layers_keys ls m : merge_layers ls = Ok m ->
  akeys (mg_rules m) = akeys (provenance m) /\
  akeys (mg_rules m) = fold_left union_list (akeys ∘ l_rules <$> ls) [].
Proof.
  assert (forall ln lrules rules prov rules' prov',
    fold_res (merge_rule ln) (rules, prov) lrules = Ok (rules', prov') -> akeys rules = akeys prov ->
    akeys rules' = akeys prov' /\ akeys rules' = union_list (akeys rules) (akeys lrules)) as Hrules.
  { intros ln lrules. unfold union_list. induction lrules as [|[p rule] lrules IH]; intros rules prov rules' prov'.
    { by intros [= <- <-]. }
    cbn. intros ([r1 p1] & Hm & Hfold)%bind_ok Heq.
    assert (akeys r1 = akeys p1 /\ akeys r1 = if bool_decide (p ∈ akeys rules) then akeys rules else akeys rules ++ [p])
      as [He1 He2].
    { unfold merge_rule in Hm. destruct (fresh_rule rules p rule).
      - injection Hm as <- <-. rewrite !akeys_aset, <- Heq. split; [done|]. by repeat case_decide.
      - apply bind_ok in Hm as (merged & _ & [= <- <-]). rewrite !akeys_aset, <- Heq. split; [done|].
        by repeat case_decide. }
    destruct (IH _ _ _ _ Hfold He1) as [H1 H2]. split; [done|]. rewrite H2, He2. done. }
  revert m. induction ls as [|l ls IH] using rev_ind; intros m; [by intros [= <-]|].
  intros (m0 & H0 & Hl)%merge_layers_snoc. destruct (IH _ H0) as [He Hk].
  unfold merge_layer in Hl. apply bind_ok in Hl as (risk & _ & Hl).
  apply bind_ok in Hl as ([rules prov] & Hf & [= <-]). cbn.
  rewrite fmap_app, fold_left_app. cbn. rewrite <- Hk. by eapply Hrules.
Qed.
