(* ===== verification/Engine.v ===== *)
(** The policy engine: [policy/engine.py], with the failure posture of [core/failure.py]
    and the [Decision] of [core/context.py]. *)
From S2P Require Import Prelude PyVal Glob Session Rules Loader Merge.

(** * [FailurePosture] *)
Inductive FailMode := CLOSED | OPEN.

#[export] Instance FailMode_eq_dec : EqDecision FailMode.
Proof. solve_decision. Defined.

Record FailurePosture := { p_pipeline : FailMode; p_redaction : FailMode; p_approval : FailMode }.

Definition mode_str (m : FailMode) : string := match m with CLOSED => "closed" | OPEN => "open" end.

(** [FailMode(v)] *)
Definition FailMode_of (v : val) : result FailMode :=
  match v with
  | VStr s => if bool_decide (s = "closed") then Ok CLOSED
              else if bool_decide (s = "open") then Ok OPEN
              else raise ValueError (str_repr s +:+ " is not a valid FailMode")
  | v => raise ValueError (py_repr v +:+ " is not a valid FailMode")
  end.

Definition categories (p : FailurePosture) : list (string * FailMode) :=
  [("pipeline", p_pipeline p); ("redaction", p_redaction p); ("approval", p_approval p)].

Definition any_open (p : FailurePosture) : bool :=
  existsb (fun cm => bool_decide (cm.2 = OPEN)) (categories p).

Definition open_categories (p : FailurePosture) : list string :=
  (List.filter (fun cm => bool_decide (cm.2 = OPEN)) (categories p)).*1.

Definition posture_default : FailurePosture := {| p_pipeline := CLOSED; p_redaction := CLOSED; p_approval := CLOSED |}.

Definition FailurePosture_from_config (config : val) : result FailurePosture :=
  match config with
  | VNone => Ok posture_default
  | VStr _ => m ← FailMode_of config; Ok {| p_pipeline := m; p_redaction := m; p_approval := m |}
  | VDict d =>
      default ← FailMode_of (dget_or "default" (VStr "closed") d);
      let get c := FailMode_of (dget_or c (VStr (mode_str default)) d) in
      p ← get "pipeline"; r ← get "redaction"; a ← get "approval";
      Ok {| p_pipeline := p; p_redaction := r; p_approval := a |}
  | v => raise AttributeError ("'" +:+ type_name v +:+ "' object has no attribute 'get'")
  end.

Definition posture_describe (p : FailurePosture) : val :=
  VObj ((fun cm => (cm.1, VStr (mode_str cm.2))) <$> categories p).

(** * Decisions and compiled rules *)
Record Decision := {
  d_action : val;
  d_tool : string;
  d_reason : string;
  d_rule : string;
  d_role : option string;
  d_constraints : list RegexConstraint;
  d_rewrites : list val;
  d_redaction : option RedactionSpec;
  then_action : val;
}.

Record EffectiveRule := {
  er_action : val;
  er_reason : string;
  er_source : string;
  er_constraints : list RegexConstraint;
  er_rewrites : list val;
  er_redaction : option RedactionSpec;
  er_then : val;
}.

Record CompiledRule := {
  cr_pattern : string;
  base : EffectiveRule;
  overlays : list (string * EffectiveRule);
}.

Definition for_role (c : CompiledRule) (role : option string) : EffectiveRule :=
  match role with
  | Some r => match aget r (overlays c) with Some e => e | None => base c end
  | None => base c
  end.

Record PolicyEngine := {
  default_action : string;
  layer_names : list string;
  e_taint_sources : list string;
  e_taint_sinks : list string;
  e_sequence_rules : list val;
  e_risk : pydict;
  posture : FailurePosture;
  rules : list (string * CompiledRule);
  matcher : RuleMatcher;
}.

(** [f"{where}.roles[{role!r}]"] and the like *)
Definition role_where (where_ : string) (role : string) : string :=
  where_ +:+ ".roles[" +:+ str_repr role +:+ "]".

(** [for x in v] where [v] was expected to be a list *)
Definition iterable (v : val) : result (list val) :=
  match v with
  | VList l => Ok l
  | v => raise TypeError ("'" +:+ type_name v +:+ "' object is not iterable")
  end.

Section Engine.
Context `{Regex}.

Definition compile_fields (fields_ : pydict) (source where_ : string) : result EffectiveRule :=
  redaction ←
    (if py_eqb (opt_val (dget "action" fields_)) (VStr "redact") || dhas "redaction" fields_
     then s ← RedactionSpec_from_config (opt_val (dget "redaction" fields_)); Ok (Some s)
     else Ok None);
  action ← of_option (dget "action" fields_) (Exn KeyError "'action'");
  reason ← str_field "reason" (dget_or "reason" (VStr "explicit tool rule") fields_);
  cs ← iterable (dget_or "constraints" (VList []) fields_);
  constraints ← map_res (fun ic => build_constraint ic.2 (indexed where_ "constraints" ic.1)) (enumerate cs);
  rewrites ← iterable (dget_or "rewrites" (VList []) fields_);
  Ok {| er_action := action; er_reason := reason; er_source := source; er_constraints := constraints;
        er_rewrites := rewrites; er_redaction := redaction;
        er_then := dget_or "then" (VStr "allow") fields_ |}.

(** The fields a role sees: the rule without its role map, updated by the overlay. *)
Definition overlay_fields_of (raw overlay : pydict) : pydict :=
  aupdate (afilter (fun k => negb (bool_decide (k = KStr "roles"))) raw) overlay.

Definition compile_overlay (raw : pydict) (source where_ : string) (ro : key * val)
  : result (string * EffectiveRule) :=
  role ← of_option (match ro.1 with KStr s => Some s | _ => None end) (Exn OtherError "role: untyped field");
  overlay ← of_option (as_dict ro.2) (Exn TypeError "object is not iterable");
  e ← compile_fields (overlay_fields_of raw overlay) (source +:+ "+role:" +:+ role) (role_where where_ role);
  Ok (role, e).

Definition compile (prov : list (string * list string)) (pattern : string) (raw : pydict) : result CompiledRule :=
  let provenance := join "+" (aget_or pattern ["?"] prov) in
  let where_ := provenance +:+ ": tools[" +:+ str_repr pattern +:+ "]" in
  let source := provenance +:+ ":" +:+ pattern in
  _ ← require (dhas "action" raw) PolicyError
        (where_ +:+ ": no 'action' after merging all layers — an override "
         +:+ "exists but nothing defines the rule's action");
  base ← compile_fields raw source where_;
  roles ← match dget_or "roles" (VDict []) raw with
          | VDict d => Ok d
          | v => raise AttributeError ("'" +:+ type_name v +:+ "' object has no attribute 'items'")
          end;
  overlays ← map_res (compile_overlay raw source where_) roles;
  Ok {| cr_pattern := pattern; base := base; overlays := overlays |}.

Definition compile_rule (prov : list (string * list string)) (pr : string * pydict)
  : result (string * CompiledRule) :=
  c ← compile prov pr.1 pr.2; Ok (pr.1, c).

Definition PolicyEngine_init (layers : list PolicyLayer) : result PolicyEngine :=
  _ ← require (match layers with [] => false | _ => true end) PolicyError "at least one policy layer is required";
  merged ← merge_layers layers;
  post ← FailurePosture_from_config (mg_on_failure merged);
  rs ← map_res (compile_rule (provenance merged)) (mg_rules merged);
  Ok {| default_action := mg_default_action merged; layer_names := mg_layer_names merged;
        e_taint_sources := mg_taint_sources merged; e_taint_sinks := mg_taint_sinks merged;
        e_sequence_rules := mg_sequence_rules merged; e_risk := mg_risk merged; posture := post;
        rules := rs; matcher := RuleMatcher_init (akeys rs) |}.

Definition from_documents (documents : list (val * string)) : result PolicyEngine :=
  layers ← map_res (fun dn => parse_document dn.1 dn.2 dn.2) documents;
  PolicyEngine_init layers.

(** * Evaluation *)
Definition evaluate (e : PolicyEngine) (tool : string) (role : option string) : result Decision :=
  match RuleMatcher_match (matcher e) tool with
  | None =>
      Ok {| d_action := VStr (default_action e); d_tool := tool;
            d_reason := "no rule for this tool; default policy applied"; d_rule := "default";
            d_role := role; d_constraints := []; d_rewrites := []; d_redaction := None;
            then_action := VStr "allow" |}
  | Some pattern =>
      c ← of_option (aget pattern (rules e)) (Exn KeyError (str_repr pattern));
      let eff := for_role c role in
      Ok {| d_action := er_action eff; d_tool := tool; d_reason := er_reason eff;
            d_rule := er_source eff; d_role := role; d_constraints := er_constraints eff;
            d_rewrites := er_rewrites eff; d_redaction := er_redaction eff;
            then_action := er_then eff |}
  end.

Definition build_sequence_policy (e : PolicyEngine) : result SequencePolicy :=
  SequencePolicy_init (e_taint_sources e) (e_taint_sinks e) (e_sequence_rules e).

Definition weight_entry (kv : key * val) : result (string * Z) :=
  k ← of_option (match kv.1 with KStr s => Some s | _ => None end) (Exn OtherError "weights: untyped field");
  w ← int_field "weights" kv.2; Ok (k, w).

Definition build_risk_engine (e : PolicyEngine) : result RiskEngine :=
  ws ← match opt_val (dget "weights" (e_risk e)) with
       | VNone => Ok []
       | VDict d => map_res weight_entry d
       | v => raise TypeError ("'" +:+ type_name v +:+ "' object is not a mapping")
       end;
  el ← int_field "elevated_at" (dget_or "elevated_at" (VInt DEFAULT_ELEVATED_AT) (e_risk e));
  su ← int_field "suspend_at" (dget_or "suspend_at" (VInt DEFAULT_SUSPEND_AT) (e_risk e));
  Ok (RiskEngine_init ws el su).

(** [denying] is the set of deny-only actions of the gateway that asks. *)
Definition is_visible (e : PolicyEngine) (tool : string) (role : option string) (denying : list string)
  : result bool :=
  d ← evaluate e tool role;
  b ← in_frozenset (d_action d) denying;
  Ok (negb b).

Definition describe_rule (pc : string * CompiledRule) : val :=
  let c := pc.2 in let b := base c in
  VObj ([("pattern", VStr pc.1); ("action", er_action b); ("reason", VStr (er_reason b));
         ("source", VStr (er_source b))]
    ++ match er_constraints b with [] => []
       | cs => [("constraints", VList (constraint_describe <$> cs))] end
    ++ match er_rewrites b with [] => [] | rs => [("rewrites", VList rs)] end
    ++ match er_redaction b with Some s => [("redaction", RedactionSpec_describe s)] | None => [] end
    ++ (if py_eqb (er_action b) (VStr "require_approval") then [("then", er_then b)] else [])
    ++ match overlays c with [] => []
       | os => [("roles", VObj ((fun re => (re.1, VObj [("action", er_action re.2);
                  ("reason", VStr (er_reason re.2))])) <$> os))] end).

Definition describe (e : PolicyEngine) : val :=
  VObj [("layers", strs (layer_names e)); ("default_action", VStr (default_action e));
        ("rules", VList (describe_rule <$> rules e))].

(** * What the engine decides *)

(** The raw fields that govern a call under a role. *)
Definition effective_fields (raw : pydict) (role : option string) : pydict :=
  match role, dget "roles" raw with
  | Some r, Some (VDict roles) =>
      match aget (KStr r) roles with Some (VDict o) => overlay_fields_of raw o | _ => raw end
  | _, _ => raw
  end.

Lemma compile_overlays_get raw source where_ roles ovs r :
  map_res (compile_overlay raw source where_) roles = Ok ovs ->
  match aget r ovs with
  | Some eff => exists o, aget (KStr r) roles = Some (VDict o) /\
      exists s w, compile_fields (overlay_fields_of raw o) s w = Ok eff
  | None => aget (KStr r) roles = None
  end.
Proof.
  intros Hm%map_res_Forall2. induction Hm as [|[k v] [r' e] roles ovs Hc _ IH]; [done|].
  unfold compile_overlay in Hc. apply bind_ok in Hc as (role & Hrole & Hc).
  apply bind_ok in Hc as (o & Ho & Hc). apply bind_ok in Hc as (e' & He & [= -> ->]).
  destruct k as [s| | |]; try discriminate. injection Hrole as ->.
  destruct v as [| | | | | |d]; try discriminate. injection Ho as ->. cbn.
  destruct (decide (r = r')) as [->|Hne].
  - rewrite decide_True by done. eauto.
  - rewrite decide_False by congruence. exact IH.
Qed.

Lemma compile_effective prov pattern raw c role : compile prov pattern raw = Ok c ->
  exists s w, compile_fields (effective_fields raw role) s w = Ok (for_role c role).
Proof.
  unfold compile. intros (u & _ & (b & Hb & (roles & Hr & (ovs & Ho & [= <-])%bind_ok)%bind_ok)%bind_ok)%bind_ok.
  unfold for_role, effective_fields. destruct role as [r|]; cbn [overlays base]; [|eauto].
  pose proof (compile_overlays_get _ _ _ _ _ r Ho) as Hg.
  unfold dget_or, aget_or in Hr. unfold dget. destruct (aget r ovs) as [eff|].
  - destruct Hg as (o & Hag & Hc). destruct (aget (KStr "roles") raw) as [v|].
    + destruct v as [| | | | | |d]; try discriminate. injection Hr as ->. by rewrite Hag.
    + by injection Hr as <-.
  - destruct (aget (KStr "roles") raw) as [[| | | | | |d]|]; try discriminate; eauto.
    injection Hr as ->. rewrite Hg. eauto.
Qed.

Lemma init_rules layers e : PolicyEngine_init layers = Ok e ->
  exists m, merge_layers layers = Ok m /\ default_action e = mg_default_action m /\
    matcher e = RuleMatcher_init (akeys (mg_rules m)) /\
    Forall2 (fun pr pc => compile_rule (provenance m) pr = Ok pc) (mg_rules m) (rules e) /\
    e_taint_sources e = mg_taint_sources m /\ e_taint_sinks e = mg_taint_sinks m /\
    e_sequence_rules e = mg_sequence_rules m.
Proof.
  unfold PolicyEngine_init.
  intros (? & _ & (m & Hm & (po & _ & (rs & Hrs & [= <-])%bind_ok)%bind_ok)%bind_ok)%bind_ok.
  exists m. cbn. apply map_res_Forall2 in Hrs. split_and!; try done. f_equal. clear Hm. unfold akeys.
  induction Hrs as [|[p raw] pc l l' Hc _ IH]; cbn; [done|].
  unfold compile_rule in Hc. apply bind_ok in Hc as (c & _ & [= <-]). cbn. by rewrite IH.
Qed.

Lemma rules_lookup prov l l' p : Forall2 (fun pr pc => compile_rule prov pr = Ok pc) l l' ->
  match aget p l with
  | Some raw => exists c, aget p l' = Some c /\ compile prov p raw = Ok c
  | None => aget p l' = None
  end.
Proof.
  induction 1 as [|[q raw] [q' c] l l' Hc _ IH]; [done|].
  unfold compile_rule in Hc. apply bind_ok in Hc as (c' & Hc & [= -> ->]). cbn in *.
  case_decide as Hd; [subst; eauto|done].
Qed.

Lemma match_in patterns tool p : RuleMatcher_match (RuleMatcher_init patterns) tool = Some p -> p ∈ patterns.
Proof.
  intros Hm. pose proof (match_cases patterns tool) as Hc. rewrite Hm in Hc.
  destruct Hc as [[[? _] ->]|[_ (i & Hi & _)]]; [done|]. apply list_elem_of_lookup. eauto.
Qed.

(** The whole path from layers to a decision. *)
Lemma evaluate_spec layers e tool role : PolicyEngine_init layers = Ok e ->
  exists m, merge_layers layers = Ok m /\
  match RuleMatcher_match (RuleMatcher_init (akeys (mg_rules m))) tool with
  | None => exists d, evaluate e tool role = Ok d /\ d_action d = VStr (mg_default_action m) /\
              d_rule d = "default" /\ d_constraints d = [] /\ then_action d = VStr "allow"
  | Some p => exists raw eff s w d, aget p (mg_rules m) = Some raw /\
      compile_fields (effective_fields raw role) s w = Ok eff /\ evaluate e tool role = Ok d /\
      d_action d = er_action eff /\ d_constraints d = er_constraints eff /\
      d_rewrites d = er_rewrites eff /\ d_redaction d = er_redaction eff /\ then_action d = er_then eff
  end.
Proof.
  intros (m & Hm & Hd & Hma & Hru & _)%init_rules. exists m. split; [done|].
  unfold evaluate. rewrite Hma. destruct (RuleMatcher_match _ tool) as [p|] eqn:Hp.
  - assert (is_Some (aget p (mg_rules m))) as [raw Hraw] by (by eapply aget_is_Some, match_in).
    pose proof (rules_lookup _ _ _ p Hru) as Hl. rewrite Hraw in Hl. destruct Hl as (c & Hc & Hcomp).
    destruct (compile_effective _ _ _ _ role Hcomp) as (s & w & Hcf).
    exists raw, (for_role c role), s, w. rewrite Hc. cbn. eexists. split_and!; try done.
  - eexists. split_and!; try done. cbn. by rewrite Hd.
Qed.

(** * Only actions of the vocabulary *)

(** An action field: a name of the vocabulary, or [null] (which the loader lets through
    and every dispatch refuses). *)
Definition action_ok (o : option val) : Prop :=
  match opt_val o with VNone => True | VStr a => a ∈ ACTION_VOCABULARY | _ => False end.

Definition actions_ok (d : pydict) : Prop := action_ok (dget "action" d) /\ action_ok (dget "then" d).

Definition roles_ok (o : option val) : Prop :=
  match opt_val o with
  | VNone => True
  | VDict roles => forall r v, aget r roles = Some v -> exists o, v = VDict o /\ actions_ok o /\ NoDup (akeys o)
  | _ => False end.

Definition rule_ok (d : pydict) : Prop := actions_ok d /\ roles_ok (dget "roles" d) /\ NoDup (akeys d).

(** The mappings of a layer, as Python objects, have distinct keys at every level. *)
Definition layer_ok (l : PolicyLayer) : Prop :=
  NoDup (akeys (l_rules l)) /\ Forall (fun pr => rule_ok pr.2) (l_rules l) /\
  Forall (fun pr => match dget "roles" pr.2 with Some (VDict rs) => NoDup (akeys rs) | _ => True end) (l_rules l).

Definition role_keys_ok (d : pydict) : Prop :=
  match dget "roles" d with Some (VDict rs) => NoDup (akeys rs) | _ => True end.

Lemma layer_wf_ok l : layer_wf l -> layer_keys_ok l ->
  Forall (fun pr => role_keys_ok pr.2 /\
    match dget "roles" pr.2 with
    | Some (VDict rs) => Forall (fun ro => match ro.2 with VDict o => NoDup (akeys o) | _ => True end) rs
    | _ => True end) (l_rules l) ->
  layer_ok l.
Proof.
  intros [_ _ Hr _ _] [Hnd Hk] Hroles. split; [done|].
  rewrite Forall_forall in Hr, Hk, Hroles. split; apply Forall_forall; intros [p d] Hin;
    specialize (Hr _ Hin) as (_ & [Ha Ht _ _ _] & Hro); specialize (Hk _ Hin); specialize (Hroles _ Hin) as [Hrk Hov];
    [|exact Hrk]. cbn [snd] in *. split_and!; [done..| |done].
  unfold roles_ok. destruct (dget "roles" d) as [[| | | | | |rs]|]; cbn in *; try done.
  intros r v Hrv. apply aget_Some_elem in Hrv. rewrite Forall_forall in Hro, Hov.
  specialize (Hro _ Hrv) as (s & o & _ & _ & Heq & [Ha' Ht' _ _ _] & _). cbn in Heq. subst v.
  specialize (Hov _ Hrv). exists o. done.
Qed.

Lemma dget_afilter_ne (p : key -> bool) f d : p (KStr f) = true -> dget f (afilter p d) = dget f d.
Proof. intros Hp. unfold dget. by rewrite aget_afilter, Hp. Qed.

Lemma without_replace_ok d : rule_ok d -> rule_ok (without_replace d).
Proof.
  intros ([Ha Ht] & Hr & Hnd). unfold rule_ok, actions_ok. rewrite !dget_without_replace by done.
  split_and!; try done. by apply NoDup_afilter.
Qed.

Lemma actions_ok_update d e : NoDup (akeys e) -> actions_ok d -> actions_ok e -> actions_ok (aupdate d e).
Proof.
  intros Hnd [Ha Ht] [Ha' Ht']. unfold actions_ok, dget in *. rewrite !aget_aupdate by done.
  split; [by destruct (aget (KStr "action") e)|by destruct (aget (KStr "then") e)].
Qed.

Lemma merge_fields_ok existing incoming merged : rule_ok existing -> rule_ok incoming ->
  role_keys_ok incoming -> merge_fields existing incoming = Ok merged -> rule_ok merged.
Proof.
  intros (He & Hre & Hne) (Hi & Hri & Hni) Hrk. unfold merge_fields.
  set (updated := aupdate existing (adel (KStr "roles") incoming)).
  assert (dget "roles" updated = dget "roles" existing) as Hru.
  { unfold updated, dget. rewrite aget_aupdate by (by apply NoDup_adel). by rewrite aget_adel_eq. }
  assert (actions_ok updated) as Hau.
  { apply actions_ok_update; [by apply NoDup_adel|done|]. destruct Hi. unfold actions_ok, dget in *.
    by rewrite !aget_adel_ne by done. }
  assert (NoDup (akeys updated)) as Hnu by (by apply NoDup_aupdate).
  assert (rule_ok updated) as Hu by (split; [done|by rewrite Hru]).
  destruct (opt_val (dget "roles" incoming)) as [| | | | | |rs] eqn:Hro; try (by intros [= <-]);
    unfold dget_or, aget_or; fold (dget "roles" updated); rewrite Hru;
    destruct (dget "roles" existing) as [[| | | | | |er]|] eqn:Her; try discriminate; intros [= <-].
  all: assert (NoDup (akeys rs)) as Hnr by (unfold role_keys_ok in Hrk; destruct (dget "roles" incoming); naive_solver).
  all: unfold roles_ok in Hri; rewrite Hro in Hri.
  all: destruct Hau; split_and!; [split; by rewrite dget_dset_ne|rewrite dget_dset_eq|by apply NoDup_aset].
  - cbn. intros r v. rewrite aget_aupdate by done. destruct (aget r rs) eqn:Hr; [intros [= <-]; eauto|].
    intros Hv. by eapply Hre.
  - cbn. intros r v. rewrite aget_aupdate by done. destruct (aget r rs) eqn:Hr; [intros [= <-]; eauto|done].
Qed.

Lemma merge_rule_ok ln st pr st' : rule_ok pr.2 -> role_keys_ok pr.2 ->
  Forall (fun x => rule_ok x.2) st.1 -> merge_rule ln st pr = Ok st' -> Forall (fun x => rule_ok x.2) st'.1.
Proof.
  destruct st as [rules prov], pr as [p rule]. cbn [fst snd]. intros Hr Hrk Hst. unfold merge_rule.
  assert (rule_ok (without_replace rule)) as Hw by (by apply without_replace_ok).
  unfold fresh_rule. destruct (aget p rules) as [old|] eqn:Hold.
  - destruct (truthy _); [intros [= <-]; by apply (Forall_aset (fun x => rule_ok x.2))|].
    intros (merged & Hm & [= <-])%bind_ok. apply (Forall_aset (fun x => rule_ok x.2)); [done|].
    eapply merge_fields_ok; [|exact Hw| |exact Hm].
    + unfold aget_or. rewrite Hold. apply aget_Some_elem in Hold. rewrite Forall_forall in Hst.
      by apply (Hst (p, old)).
    + unfold role_keys_ok. by rewrite dget_without_replace.
  - intros [= <-]. by apply (Forall_aset (fun x => rule_ok x.2)).
Qed.

Lemma merge_layers_ok ls m : Forall layer_ok ls -> merge_layers ls = Ok m ->
  Forall (fun x => rule_ok x.2) (mg_rules m).
Proof.
  revert m. induction ls as [|l ls IH] using rev_ind; intros m; [by intros _ [= <-]|].
  intros [Hls [(_ & Hr & Hrk) _]%Forall_cons]%Forall_app (m0 & H0 & Hl)%merge_layers_snoc.
  specialize (IH _ Hls H0). unfold merge_layer in Hl. apply bind_ok in Hl as (risk & _ & Hl).
  apply bind_ok in Hl as ([rs prov] & Hf & [= <-]). cbn.
  assert (forall lr st st', Forall (fun pr => rule_ok pr.2) lr -> Forall (fun pr => role_keys_ok pr.2) lr ->
    Forall (fun x => rule_ok x.2) st.1 -> fold_res (merge_rule (l_name l)) st lr = Ok st' ->
    Forall (fun x => rule_ok x.2) st'.1) as Hfold.
  { clear. induction lr as [|pr lr IH]; intros st st'; [by intros _ _ ? [= <-]|].
    intros [Hr Hlr]%Forall_cons [Hk Hlk]%Forall_cons Hst (st1 & Hm & Hf)%bind_ok.
    eapply IH; [done..| |exact Hf]. by eapply merge_rule_ok. }
  by apply (Hfold (l_rules l) (mg_rules m0, provenance m0) (rs, prov) Hr Hrk IH Hf).
Qed.

Lemma effective_fields_ok raw role : rule_ok raw -> actions_ok (effective_fields raw role).
Proof.
  intros (Ha & Hr & _). unfold effective_fields. destruct role as [r|]; [|done].
  unfold roles_ok in Hr. destruct (dget "roles" raw) as [[| | | | | |roles]|]; try done.
  destruct (aget (KStr r) roles) as [v|] eqn:Hv; [|done].
  destruct (Hr _ _ Hv) as (o & -> & Ho & Hnd). apply actions_ok_update; [done| |done].
  destruct Ha. unfold actions_ok. by rewrite !dget_afilter_ne.
Qed.

Lemma compile_fields_action d s w eff : compile_fields d s w = Ok eff -> actions_ok d ->
  action_ok (Some (er_action eff)) /\ action_ok (Some (er_then eff)).
Proof.
  unfold compile_fields. intros (r & _ & (a & Ha & (re & _ & (cs & _ & (c & _ & (rw & _ & [= <-])
    %bind_ok)%bind_ok)%bind_ok)%bind_ok)%bind_ok)%bind_ok [H1 H2]. cbn [er_action er_then].
  destruct (dget "action" d); [|discriminate]. injection Ha as ->. split; [done|].
  unfold dget_or, aget_or. fold (dget "then" d). destruct (dget "then" d); [done|].
  cbn. unfold ACTION_VOCABULARY. set_solver.
Qed.

Lemma evaluate_actions layers e tool role d :
  Forall layer_ok layers -> Forall layer_wf layers -> PolicyEngine_init layers = Ok e ->
  evaluate e tool role = Ok d -> action_ok (Some (d_action d)) /\ action_ok (Some (then_action d)).
Proof.
  intros Hok Hwf Hi Hev. destruct (evaluate_spec layers e tool role Hi) as (m & Hm & Hspec).
  destruct (RuleMatcher_match _ tool) as [p|].
  - destruct Hspec as (raw & eff & s & w & d' & Hraw & Hc & Hev' & Ha & _ & _ & _ & Ht).
    assert (d' = d) as -> by congruence. rewrite Ha, Ht. eapply compile_fields_action; [done|].
    apply effective_fields_ok. pose proof (merge_layers_ok _ _ Hok Hm) as Hall.
    rewrite Forall_forall in Hall. apply aget_Some_elem in Hraw. by apply (Hall _ Hraw).
  - destruct Hspec as (d' & Hev' & Ha & _ & _ & Ht). assert (d' = d) as -> by congruence. rewrite Ha, Ht.
    destruct (merge_layers_session _ _ Hm) as (_ & _ & Hda & _). rewrite Hda.
    split; [|unfold action_ok, ACTION_VOCABULARY; cbn; set_solver].
    assert (last_some l_default_action "block" layers ∈ ["allow"; "block"]) as Hin.
    { unfold last_some. assert ("block" ∈ ["allow"; "block"]) as Hb by set_solver. revert Hb.
      generalize "block" at 1 3. clear -Hwf. induction Hwf as [|l ls [_ Hl _ _ _] _ IH]; cbn; [done|].
      intros b Hb. apply IH. destruct (l_default_action l) as [a|]; [|done].
      destruct Hl as [-> | ->]; set_solver. }
    cbn. clear -Hin. unfold ACTION_VOCABULARY. set_solver.
Qed.
End Engine.

(** * From documents to decisions *)
Section Documents.
Context `{Regex}.

(** The patterns the layers declare, each once, in first-declaration order. *)
Definition declared (layers : list PolicyLayer) : list string :=
  fold_left union_list (akeys ∘ l_rules <$> layers) [].

Lemma dict_ok_layer document source fb l : dict_ok document -> parse_document document source fb = Ok l ->
  layer_ok l /\ layer_keys_ok l.
Proof.
  intros Hok Hp. pose proof (parse_document_wf _ _ _ _ Hp) as Hwf.
  destruct (parse_document_rules _ _ _ _ Hok Hp) as [Hnd Hall].
  assert (layer_keys_ok l) as Hk.
  { split; [done|]. eapply Forall_impl; [exact Hall|]. intros [p d]. apply dict_ok_nodup. }
  split; [|done]. apply layer_wf_ok; [done|done|]. eapply Forall_impl; [exact Hall|]. intros [p d] Hd. cbn [fst snd] in *.
  unfold role_keys_ok. destruct (dget "roles" d) as [v|] eqn:Hr; [|done].
  pose proof (dict_ok_get _ _ _ Hd Hr) as Hv. destruct v as [| | | | | |rs]; try done.
  split; [by apply dict_ok_nodup|]. inversion Hv as [d' _ Hrs| |]; [|done]. subst.
  eapply Forall_impl; [exact Hrs|]. intros [r o] Ho. cbn [fst snd] in *. destruct o; try done. by apply dict_ok_nodup.
Qed.

Lemma documents_layers documents layers : Forall (fun dn => dict_ok dn.1) documents ->
  map_res (fun dn : val * string => parse_document dn.1 dn.2 dn.2) documents = Ok layers ->
  Forall2 (fun dn l => parse_document dn.1 dn.2 dn.2 = Ok l) documents layers /\
  Forall layer_ok layers /\ Forall layer_keys_ok layers /\ Forall layer_wf layers.
Proof.
  intros Hok Hl%map_res_Forall2. split; [done|].
  induction Hl as [|[v n] l docs layers Hp _ IH]; [by repeat constructor|]. apply Forall_cons in Hok as [Hv Hok].
  destruct (IH Hok) as (H1 & H2 & H3). destruct (dict_ok_layer _ _ _ _ Hv Hp) as [H4 H5].
  split_and!; constructor; try done. by eapply parse_document_wf.
Qed.

Lemma from_documents_layers documents e : Forall (fun dn => dict_ok dn.1) documents ->
  from_documents documents = Ok e ->
  exists layers, Forall2 (fun dn l => parse_document dn.1 dn.2 dn.2 = Ok l) documents layers /\
    PolicyEngine_init layers = Ok e /\ Forall layer_ok layers /\ Forall layer_keys_ok layers /\ Forall layer_wf layers.
Proof.
  intros Hok (layers & Hl & Hi)%bind_ok. destruct (documents_layers _ _ Hok Hl) as (? & ? & ? & ?). by exists layers.
Qed.

Lemma compile_fields_get d s w eff : compile_fields d s w = Ok eff ->
  dget "action" d = Some (er_action eff) /\ er_then eff = dget_or "then" (VStr "allow") d.
Proof.
  unfold compile_fields. intros (r & _ & (a & Ha & (re & _ & (cs & _ & (c & _ & (rw & _ & [= <-])
    %bind_ok)%bind_ok)%bind_ok)%bind_ok)%bind_ok)%bind_ok. cbn [er_action er_then].
  destruct (dget "action" d); [|discriminate]. by injection Ha as ->.
Qed.

(** The overlay a rule has for a role. *)
Definition overlay_of (raw : pydict) (r : string) : option pydict :=
  match dget "roles" raw with
  | Some (VDict roles) => match aget (KStr r) roles with Some v => as_dict v | None => None end
  | _ => None
  end.

Lemma merged_declared layers m : merge_layers layers = Ok m -> akeys (mg_rules m) = declared layers.
Proof. intros Hm. apply (merge_layers_keys _ _ Hm). Qed.

Lemma evaluate_rule layers e tool role p : PolicyEngine_init layers = Ok e ->
  RuleMatcher_match (RuleMatcher_init (declared layers)) tool = Some p ->
  exists m raw d, merge_layers layers = Ok m /\ aget p (mg_rules m) = Some raw /\ evaluate e tool role = Ok d /\
    dget "action" (effective_fields raw role) = Some (d_action d) /\
    then_action d = dget_or "then" (VStr "allow") (effective_fields raw role).
Proof.
  intros Hi Hp. destruct (evaluate_spec layers e tool role Hi) as (m & Hm & Hspec).
  rewrite (merged_declared _ _ Hm), Hp in Hspec.
  destruct Hspec as (raw & eff & s & w & d & Hraw & Hc & Hev & Ha & _ & _ & _ & Ht).
  destruct (compile_fields_get _ _ _ _ Hc) as [Hg Ht']. exists m, raw, d. rewrite Ha, Ht, Ht'. done.
Qed.
(** An engine built from accepted documents decides every call, with actions of the vocabulary. *)
Lemma documents_evaluate documents e tool role :
  Forall (fun dn => dict_ok dn.1) documents -> from_documents documents = Ok e ->
  exists d, evaluate e tool role = Ok d /\ action_ok (Some (d_action d)) /\ action_ok (Some (then_action d)).
Proof.
  intros Hok He. destruct (from_documents_layers _ _ Hok He) as (layers & _ & Hi & Hlo & _ & Hwf).
  assert (exists d, evaluate e tool role = Ok d) as [d Hd].
  { destruct (evaluate_spec layers e tool role Hi) as (m & _ & Hspec).
    destruct (RuleMatcher_match _ tool); [destruct Hspec as (? & ? & ? & ? & d & _ & _ & ? & _)|destruct Hspec as (d & ? & _)];
      by exists d. }
  exists d. split; [done|]. by eapply evaluate_actions.
Qed.
End Documents.

#[local] Existing Instance literal_regex.

(** An organisation-wide layer, and a team's layer that refines one rule and adds a role. *)
Definition org_policy : val := VObj
  [("schema_version", VInt 1); ("name", VStr "org"); ("default_action", VStr "block");
   ("tools", VObj [("db.*", VObj [("action", VStr "block"); ("reason", VStr "no database")]);
                   ("web.fetch", VObj [("action", VStr "quarantine")])]);
   ("taint_sources", strs ["web.fetch"]); ("taint_sinks", strs ["mail.*"])].
Definition team_policy : val := VObj
  [("schema_version", VInt 1); ("name", VStr "team");
   ("tools", VObj [("db.*", VObj [("action", VStr "allow");
                     ("roles", VObj [("intern", VObj [("action", VStr "block")])])])]);
   ("sequence_rules", VList [VObj [("after", VStr "db.*"); ("forbid", VStr "web.*")]])].
Definition org_documents : list (val * string) := [(org_policy, "org.yaml"); (team_policy, "team.yaml")].
Definition org_layers : list PolicyLayer :=
  the (map_res (fun dn : val * string => parse_document dn.1 dn.2 dn.2) org_documents) I.
Definition org_engine : PolicyEngine := the (PolicyEngine_init org_layers) I.

Lemma org_documents_ok : Forall (fun dn => dict_ok dn.1) org_documents.
Proof. constructor; [|constructor; [|constructor]]; cbn [fst]; vm_compute; dict_ok_tac. Qed.

(** C17: Decisions follow the layers. An engine built from documents decides every tool. The governing
    pattern is the most specific one any layer declares; without a role the action is the one
    of the last layer that names it for that pattern, a layer that replaces the rule
    discarding what came before, and the same holds of the follow-up of an approval; a tool no pattern
    matches gets the last default action a layer sets, and [block] if none does. *)
Theorem decision_of_layers `{Regex} documents e tool :
  Forall (fun dn => dict_ok dn.1) documents -> from_documents documents = Ok e ->
  exists layers d, Forall2 (fun dn l => parse_document dn.1 dn.2 dn.2 = Ok l) documents layers /\
    evaluate e tool None = Ok d /\
    match RuleMatcher_match (RuleMatcher_init (declared layers)) tool with
    | Some p => Some (d_action d) = field_spec p "action" layers /\
                then_action d = default (VStr "allow") (field_spec p "then" layers)
    | None => d_action d = VStr (last_some l_default_action "block" layers)
    end.
Proof.
  intros Hok He. destruct (from_documents_layers _ _ Hok He) as (layers & Hl & Hi & _ & Hk & _).
  exists layers. destruct (RuleMatcher_match (RuleMatcher_init (declared layers)) tool) as [p|] eqn:Hp.
  - destruct (evaluate_rule _ _ _ None _ Hi Hp) as (m & raw & d & Hm & Hraw & Hev & Ha & Ht).
    exists d. split; [done|]. split; [done|].
    assert (forall f, f <> "roles" -> f <> "replace" -> dget f raw = field_spec p f layers) as Hf.
    { intros f H1 H2. rewrite <- (merge_layers_field _ _ p f Hk H1 H2 Hm). unfold merged_field. by rewrite Hraw. }
    rewrite <- !Hf by done. cbn [effective_fields] in *. split; [done|]. rewrite Ht. unfold dget_or, aget_or, dget.
    by destruct (aget (KStr "then") raw).
  - destruct (evaluate_spec layers e tool None Hi) as (m & Hm & Hspec).
    rewrite (merged_declared _ _ Hm), Hp in Hspec. destruct Hspec as (d & Hev & Ha & _). exists d.
    split; [done|]. split; [done|]. rewrite Ha. by destruct (merge_layers_session _ _ Hm) as (_ & _ & -> & _).
Qed.

Lemma decision_of_layers_witness :
  exists layers d, Forall2 (fun dn l => parse_document dn.1 dn.2 dn.2 = Ok l) org_documents layers /\
    evaluate org_engine "db.query" None = Ok d /\
    match RuleMatcher_match (RuleMatcher_init (declared layers)) "db.query" with
    | Some p => Some (d_action d) = field_spec p "action" layers /\
                then_action d = default (VStr "allow") (field_spec p "then" layers)
    | None => d_action d = VStr (last_some l_default_action "block" layers)
    end.
Proof. apply (decision_of_layers org_documents org_engine); [exact org_documents_ok|vm_compute; reflexivity]. Defined.

(** Every action is one the dispatch knows. Whatever documents the loader accepted, every decision
    for every tool and role has an action and a follow-up of the vocabulary ([null], which the
    loader lets through, is refused by the dispatch). *)
Theorem decisions_in_vocabulary `{Regex} documents e tool role :
  Forall (fun dn => dict_ok dn.1) documents -> from_documents documents = Ok e ->
  exists d, evaluate e tool role = Ok d /\ action_ok (Some (d_action d)) /\ action_ok (Some (then_action d)).
Proof.
  apply documents_evaluate.
Qed.

Lemma decisions_in_vocabulary_witness :
  exists d, evaluate org_engine "db.query" (Some "intern") = Ok d /\
    action_ok (Some (d_action d)) /\ action_ok (Some (then_action d)).
Proof. apply (decisions_in_vocabulary org_documents); [exact org_documents_ok|vm_compute; reflexivity]. Defined.

(** Role overlays take precedence, field by field. For a role that the governing rule overlays, the
    action is the overlay's where the overlay names one and the rule's where it does not; for
    a role the rule does not mention the decision is the one of the role-less call. *)
Theorem role_overlay_precedence `{Regex} layers e tool r p m raw :
  PolicyEngine_init layers = Ok e -> merge_layers layers = Ok m -> Forall layer_ok layers ->
  RuleMatcher_match (RuleMatcher_init (declared layers)) tool = Some p -> aget p (mg_rules m) = Some raw ->
  exists d d0, evaluate e tool (Some r) = Ok d /\ evaluate e tool None = Ok d0 /\
    match overlay_of raw r with
    | Some o => Some (d_action d) = match dget "action" o with Some a => Some a | None => Some (d_action d0) end
    | None => d_action d = d_action d0 /\ then_action d = then_action d0
    end.
Proof.
  intros Hi Hm Hlo Hp Hraw.
  destruct (evaluate_rule _ _ _ (Some r) _ Hi Hp) as (m1 & raw1 & d & Hm1 & Hraw1 & Hev & Ha & Ht).
  destruct (evaluate_rule _ _ _ None _ Hi Hp) as (m2 & raw2 & d0 & Hm2 & Hraw2 & Hev0 & Ha0 & Ht0).
  assert (m1 = m /\ m2 = m) as [-> ->] by (split; congruence).
  assert (raw1 = raw /\ raw2 = raw) as [-> ->] by (split; congruence).
  exists d, d0. split; [done|]. split; [done|].
  pose proof (merge_layers_ok _ _ Hlo Hm) as Hall. rewrite Forall_forall in Hall.
  pose proof (aget_Some_elem _ _ _ Hraw) as Hin. destruct (Hall _ Hin) as (_ & Hro & _). cbn [snd] in Hro.
  unfold effective_fields, overlay_of in *. unfold roles_ok in Hro.
  destruct (dget "roles" raw) as [[| | | | | |rs]|]; try (split; congruence).
  destruct (aget (KStr r) rs) as [v|] eqn:Hv; [|split; congruence].
  destruct (Hro _ _ Hv) as (o & -> & _ & Hnd). cbn [as_dict]. rewrite <- Ha.
  unfold overlay_fields_of, dget. rewrite aget_aupdate by done. unfold dget in Ha0.
  destruct (aget (KStr "action") o); [done|]. rewrite aget_afilter. by rewrite bool_decide_eq_false_2 by done.
Qed.

Definition org_merged : MergedPolicy := the (merge_layers org_layers) I.

Lemma org_layers_ok : Forall layer_ok org_layers.
Proof.
  apply (documents_layers org_documents); [exact org_documents_ok|vm_compute; reflexivity].
Qed.

Lemma role_overlay_precedence_witness :
  exists d, evaluate org_engine "db.query" (Some "intern") = Ok d /\ d_action d = VStr "block".
Proof.
  destruct (role_overlay_precedence org_layers org_engine "db.query" "intern" "db.*" org_merged
    (aget_or "db.*" [] (mg_rules org_merged))) as (d & d0 & Hd & _ & Ha);
    [vm_compute; reflexivity|vm_compute; reflexivity|exact org_layers_ok|vm_compute; reflexivity..|].
  exists d. split; [exact Hd|]. vm_compute in Ha. by injection Ha.
Defined.

(** The session gate of the layers. The sequence policy the engine builds stops a tool exactly
    when the session is tainted and some layer lists a sink pattern that matches the tool, or
    some layer forbids the tool after a tool that the session's history contains. *)
Theorem session_gate_of_layers `{Regex} layers e sp tool s :
  PolicyEngine_init layers = Ok e -> build_sequence_policy e = Ok sp ->
  is_Some (check sp tool s) <->
  (tainted s = true /\ exists l k, l ∈ layers /\ k ∈ l_taint_sinks l /\ fnmatch tool k = true) \/
  (exists l d a f prev, l ∈ layers /\ VDict d ∈ l_sequence_rules l /\ dget "after" d = Some (VStr a) /\
     dget "forbid" d = Some (VStr f) /\ fnmatch tool f = true /\ prev ∈ history s /\ fnmatch prev a = true).
Proof.
  intros (m & Hm & _ & _ & _ & _ & Htk & Hsr)%init_rules (rs & Hrs%map_res_Forall2 & [= <-])%bind_ok.
  destruct (merge_layers_session _ _ Hm) as (_ & Hseq & _ & _ & Hsinks).
  rewrite check_forbidden. unfold forbidden. cbn [Session.taint_sinks Session.sequence_rules].
  rewrite Htk. rewrite Hsr, Hseq in Hrs.
  assert (forall x, x ∈ concat (l_sequence_rules <$> layers) <-> exists l, l ∈ layers /\ x ∈ l_sequence_rules l) as Hcat.
  { intros x. rewrite list_elem_of_In, in_concat. setoid_rewrite <- list_elem_of_In.
    setoid_rewrite list_elem_of_fmap. naive_solver. }
  apply Morphisms_Prop.or_iff_morphism; [|split].
  - setoid_rewrite Hsinks. naive_solver.
  - intros (r & prev & Hr & Hf & Hp & Ha). apply list_elem_of_lookup in Hr as [i Hi].
    destruct (Forall2_lookup_r _ _ _ _ _ Hrs Hi) as (v & Hv & Hinit). apply list_elem_of_lookup_2, Hcat in Hv as (l & Hl & Hv).
    unfold SequenceRule_init in Hinit. destruct v as [| | | | | |d]; try discriminate.
    apply bind_ok in Hinit as (a & Ha' & (f & Hf' & (a' & Ha2 & (f' & Hf2 & [= <-])%bind_ok)%bind_ok)%bind_ok).
    destruct (dget "after" d) as [va|] eqn:Eva; [|discriminate]. injection Ha' as ->.
    destruct (dget "forbid" d) as [vf|] eqn:Evf; [|discriminate]. injection Hf' as ->.
    destruct a; try discriminate. destruct f; try discriminate. injection Ha2 as ->. injection Hf2 as ->.
    by exists l, d, a', f', prev.
  - intros (l & d & a & f & prev & Hl & Hd & Ha & Hf & Hm1 & Hp & Hm2).
    assert (VDict d ∈ concat (l_sequence_rules <$> layers)) as Hin by (apply Hcat; eauto).
    apply list_elem_of_lookup in Hin as [i Hi]. destruct (Forall2_lookup_l _ _ _ _ _ Hrs Hi) as (r & Hr & Hinit).
    unfold SequenceRule_init in Hinit. rewrite Ha, Hf in Hinit. injection Hinit as <-.
    eexists _, prev. split; [by eapply list_elem_of_lookup_2|done].
Qed.

Lemma session_gate_of_layers_witness :
  let s := record_call "db.query" (Session_new "s" "t") in
  let sp := the (build_sequence_policy org_engine) I in
  is_Some (check sp "web.fetch" s) <->
  (tainted s = true /\ exists l k, l ∈ org_layers /\ k ∈ l_taint_sinks l /\ fnmatch "web.fetch" k = true) \/
  (exists l d a f prev, l ∈ org_layers /\ VDict d ∈ l_sequence_rules l /\ dget "after" d = Some (VStr a) /\
     dget "forbid" d = Some (VStr f) /\ fnmatch "web.fetch" f = true /\ prev ∈ history s /\ fnmatch prev a = true).
Proof.
  apply (session_gate_of_layers org_layers org_engine); vm_compute; reflexivity.
Defined.
