(* ===== verification/Spans.v ===== *)
(** Detected spans and overlap resolution: [redaction/spans.py]. Also the key-name tests of
    [redaction/structured.py] and the validators of [redaction/detectors/validators.py].
    A confidence is a binary64 value; finite ones are compared through their exact value
    as a multiple of the smallest subnormal. *)
From Stdlib Require Import SpecFloat.
From S2P Require Import Prelude PyVal.

(** * Confidences *)
Definition sf_scaled (f : spec_float) : Z :=
  match f with
  | S754_finite s m e => let x := (Zpos m * 2 ^ (e + 1074))%Z in if s then (- x)%Z else x
  | _ => 0%Z
  end.
Definition sf_leb (x y : spec_float) : bool := (sf_scaled x <=? sf_scaled y)%Z.
(** the literal [n/10^k] *)
Definition flt (n k : Z) : spec_float := float_of_decimal false n (- k).

(** * [Span] *)
Record Span := {
  entity : string;
  start : nat;
  end_ : nat;
  confidence : spec_float;
  detector : string;
  stext : string;
}.

#[export] Instance Span_eq_dec : EqDecision Span.
Proof. solve_decision. Defined.

(** [Span(...)] with the checks of [__post_init__]; a start below zero is not representable. *)
Definition Span_new (entity : string) (start end_ : nat) (conf : spec_float) (det text : string) : result Span :=
  if end_ <? start then raise ValueError ("invalid span bounds: [" +:+ pretty start +:+ ", " +:+ pretty end_ +:+ ")")
  else if sf_leb (S754_zero false) conf && sf_leb conf (flt 1 0)
  then Ok {| entity := entity; start := start; end_ := end_; confidence := conf; detector := det; stext := text |}
  else raise ValueError ("confidence out of range: " +:+ float_repr conf).

Definition span_length (s : Span) : nat := end_ s - start s.
Definition overlaps (s t : Span) : bool := (start s <? end_ t) && (start t <? end_ s).

(** [(-confidence, -length, start)] *)
Definition span_key (s : Span) : Z * Z * Z :=
  (- sf_scaled (confidence s), - Z.of_nat (span_length s), Z.of_nat (start s))%Z.
Definition key3_leb (x y : Z * Z * Z) : bool :=
  let '(x1, x2, x3) := x in let '(y1, y2, y3) := y in
  (x1 <? y1)%Z || ((x1 =? y1)%Z && ((x2 <? y2)%Z || ((x2 =? y2)%Z && (x3 <=? y3)%Z))).
Definition prio_leb (s t : Span) : bool := key3_leb (span_key s) (span_key t).
Definition start_leb (s t : Span) : bool := start s <=? start t.

Definition choose (chosen : list Span) (span : Span) : list Span :=
  if existsb (overlaps span) chosen then chosen else chosen ++ [span].

Definition resolve_overlaps (spans : list Span) : list Span :=
  match spans with
  | [] | [_] => spans
  | _ => isort start_leb (fold_left choose (isort prio_leb spans) [])
  end.

(** ** What the resolution promises *)
Lemma overlaps_sym s t : overlaps s t = overlaps t s.
Proof. unfold overlaps. apply andb_comm. Qed.

Lemma prio_leb_total s t : prio_leb s t = true \/ prio_leb t s = true.
Proof.
  unfold prio_leb. destruct (span_key s) as [[x1 x2] x3], (span_key t) as [[y1 y2] y3]. cbn.
  rewrite !orb_true_iff, !andb_true_iff, !orb_true_iff, !andb_true_iff, !Z.ltb_lt, !Z.eqb_eq, !Z.leb_le. lia.
Qed.

Lemma prio_leb_trans s t u : prio_leb s t = true -> prio_leb t u = true -> prio_leb s u = true.
Proof.
  unfold prio_leb. destruct (span_key s) as [[x1 x2] x3], (span_key t) as [[y1 y2] y3], (span_key u) as [[z1 z2] z3].
  cbn. rewrite !orb_true_iff, !andb_true_iff, !orb_true_iff, !andb_true_iff, !Z.ltb_lt, !Z.eqb_eq, !Z.leb_le. lia.
Qed.

Lemma start_leb_total s t : start_leb s t = true \/ start_leb t s = true.
Proof. unfold start_leb. rewrite !Nat.leb_le. lia. Qed.
Lemma start_leb_trans s t u : start_leb s t = true -> start_leb t u = true -> start_leb s u = true.
Proof. unfold start_leb. rewrite !Nat.leb_le. lia. Qed.

(** Pairwise disjoint, as a list. *)
Fixpoint disjoint_spans (l : list Span) : Prop :=
  match l with [] => True | s :: l => Forall (fun t => overlaps s t = false) l /\ disjoint_spans l end.

Lemma disjoint_spans_snoc l s :
  disjoint_spans l -> existsb (overlaps s) l = false -> disjoint_spans (l ++ [s]).
Proof.
  induction l as [|t l IH]; cbn; [by repeat constructor|].
  intros [Ht Hl] [Hst Hs]%orb_false_iff. split; [|by apply IH].
  apply Forall_app. split; [done|]. constructor; [by rewrite overlaps_sym|done].
Qed.

Lemma disjoint_spans_perm l l' : l ≡ₚ l' -> disjoint_spans l -> disjoint_spans l'.
Proof.
  induction 1 as [|s l l' Hp IH|s t l|l1 l2 l3 _ IH1 _ IH2]; cbn; auto.
  - intros [Hs Hl]. split; [by rewrite <- Hp|auto].
  - intros [[Hts Hs]%Forall_cons [Ht Hl]]. split; [constructor; [by rewrite overlaps_sym|done]|done].
Qed.

Record resolution (spans chosen : list Span) : Prop := {
  res_subset : forall s, s ∈ chosen -> s ∈ spans;
  res_disjoint : disjoint_spans chosen;
  res_covers : forall s, s ∈ spans ->
    s ∈ chosen \/ exists k, k ∈ chosen /\ overlaps s k = true /\ prio_leb k s = true;
}.

Lemma choose_resolution l : Sorted.StronglySorted (fun s t => prio_leb s t = true) l ->
  resolution l (fold_left choose l []).
Proof.
  induction l as [|s l IH] using rev_ind; [intros _; split; [set_solver|done|set_solver]|].
  intros Hs. rewrite fold_left_app. cbn [fold_left]. revert IH.
  generalize (fold_left choose l []) as c. intros c IH. unfold choose.
  assert (Sorted.StronglySorted (fun s t => prio_leb s t = true) l /\ forall t, t ∈ l -> prio_leb t s = true) as [Hl Hle].
  { clear IH c. induction l as [|t l IHl]; [split; [constructor|set_solver]|].
    cbn in Hs. inversion Hs as [|? ? Hs' Hall]; subst. destruct (IHl Hs') as [? ?].
    apply Forall_app in Hall as [Hall [Hts _]%Forall_cons]. split; [by constructor|].
    intros u [->|Hu]%elem_of_cons; auto. }
  destruct (IH Hl) as [Hsub Hdis Hcov].
  destruct (existsb (overlaps s) _) eqn:He.
  - split; [set_solver|done|]. intros t [Ht| ->%list_elem_of_singleton]%elem_of_app; [auto|].
    right. apply existsb_exists in He as (k & Hk & Ho). apply list_elem_of_In in Hk.
    exists k. auto.
  - split; [set_solver|by apply disjoint_spans_snoc|].
    intros t [Ht| ->%list_elem_of_singleton]%elem_of_app; [|left; set_solver].
    destruct (Hcov t Ht) as [?|(k & ? & ? & ?)]; [left; set_solver|right; exists k; set_solver].
Qed.

Lemma resolution_perm spans spans' chosen chosen' :
  spans ≡ₚ spans' -> chosen ≡ₚ chosen' -> resolution spans chosen -> resolution spans' chosen'.
Proof.
  intros Hp Hc [Hs Hd Hv]. split.
  - intros s. rewrite <- Hp, <- Hc. auto.
  - by apply (disjoint_spans_perm chosen).
  - intros s. rewrite <- Hp. intros Hin. destruct (Hv s Hin) as [?|(k & Hk & ?)].
    + left. by rewrite <- Hc.
    + right. exists k. by rewrite <- Hc.
Qed.

Lemma resolve_resolution spans : resolution spans (resolve_overlaps spans).
Proof.
  destruct spans as [|s [|t l]]; [split; set_solver|split; [done|by repeat constructor|auto]|].
  unfold resolve_overlaps. remember (s :: t :: l) as spans.
  eapply (resolution_perm (isort prio_leb spans) spans); [apply isort_perm|symmetry; apply isort_perm|].
  apply choose_resolution, isort_sorted; [apply prio_leb_total|apply prio_leb_trans].
Qed.

Lemma resolve_sorted spans : Sorted.StronglySorted (fun s t => start_leb s t = true) (resolve_overlaps spans).
Proof.
  destruct spans as [|s [|t l]]; [constructor|by repeat constructor|].
  apply isort_sorted; [apply start_leb_total|apply start_leb_trans].
Qed.

(** * Key names *)
Definition default_sensitive_tokens : list string :=
  ["password"; "passwd"; "pwd"; "secret"; "apikey"; "credential"; "credentials"; "authorization"; "passphrase"].
Definition default_sensitive_joined : list string :=
  ["apikey"; "accesskey"; "secretkey"; "privatekey"; "clientsecret"; "accesstoken"; "refreshtoken";
   "sessiontoken"; "authtoken"; "secretaccesskey"].

(** [_SPLIT.split(key)]: runs of separators, and the seam between a lower-case letter or a
    digit and a capital. The accumulator is the current token, reversed. *)
Fixpoint split_key (cur l : list ascii) : list (list ascii) :=
  match l with
  | [] => [rev cur]
  | a :: l =>
      if is_alnum a then
        match cur with
        | b :: _ => if is_upper a && (is_lower b || is_digit b) then rev cur :: split_key [a] l
                    else split_key (a :: cur) l
        | [] => split_key [a] l
        end
      else rev cur :: split_key [] l
  end.

Definition tokens (key : string) : list string :=
  (fun t => str_lower (of_chars t)) <$>
  List.filter (fun t => match t with [] => false | _ => true end) (split_key [] (chars key)).

Record StructuredPolicy := {
  sp_exclude_keys : gset string;
  sensitive_tokens : list string;
  sensitive_joined : list string;
}.

Definition StructuredPolicy_new (exclude : gset string) : StructuredPolicy :=
  {| sp_exclude_keys := exclude; sensitive_tokens := default_sensitive_tokens;
     sensitive_joined := default_sensitive_joined |}.

Definition key_is_excluded (p : StructuredPolicy) (key : string) : bool :=
  existsb (fun k => String.eqb (str_lower k) (str_lower key)) (elements (sp_exclude_keys p)).

Definition key_is_sensitive (p : StructuredPolicy) (key : string) : bool :=
  let ts := tokens key in
  existsb (fun t => bool_decide (t ∈ sensitive_tokens p)) ts
  || bool_decide (join "" ts ∈ sensitive_joined p).

(** * Validators *)
Fixpoint luhn_sum (parity i : nat) (ds : list nat) : nat :=
  match ds with
  | [] => 0
  | d :: ds =>
      (if i mod 2 =? parity then (if 9 <? d * 2 then d * 2 - 9 else d * 2) else d)
      + luhn_sum parity (S i) ds
  end.

Definition digits_of (number : string) : list nat :=
  (fun a => nat_of_ascii a - 48) <$> List.filter is_digit (chars number).

Definition luhn_valid (number : string) : bool :=
  let digits := digits_of number in
  let n := List.length digits in
  if negb ((13 <=? n) && (n <=? 19)) then false
  else luhn_sum (n mod 2) 0 digits mod 10 =? 0.

Definition ssn_valid (area group serial : nat) : bool :=
  if (area =? 0) || (area =? 666) || (900 <=? area) then false
  else negb (group =? 0) && negb (serial =? 0).

Definition octet_valid (part : string) : bool :=
  let l := chars part in
  let leading_zero := match l with a :: _ :: _ => Ascii.eqb a "0" | _ => false end in
  forallb is_digit l && nonempty part && negb leading_zero &&
  (fold_left (fun n a => 10 * n + (nat_of_ascii a - 48)) l 0 <=? 255).

Definition ipv4_octets_valid (octets : list string) : bool :=
  (List.length octets =? 4) && forallb octet_valid octets.

(** The textbook Luhn sum: from the right, every second digit doubled and its decimal
    digits added. *)
Definition luhn_double (d : nat) : nat := (2 * d) / 10 + (2 * d) mod 10.
Fixpoint luhn_ref (double : bool) (rev_ds : list nat) : nat :=
  match rev_ds with
  | [] => 0
  | d :: ds => (if double then luhn_double d else d) + luhn_ref (negb double) ds
  end.

Lemma luhn_double_step d : d < 10 -> (if 9 <? d * 2 then d * 2 - 9 else d * 2) = luhn_double d.
Proof. intros Hd. do 10 (destruct d as [|d]; [reflexivity|]). lia. Qed.

Lemma luhn_ref_app b l1 l2 :
  luhn_ref b (l1 ++ l2) = luhn_ref b l1 + luhn_ref (xorb b (Nat.odd (List.length l1))) l2.
Proof.
  revert b. induction l1 as [|d l1 IH]; intros b; cbn [app luhn_ref List.length]; [by rewrite xorb_false_r|].
  rewrite IH, Nat.odd_succ, <- Nat.negb_odd. rewrite Nat.add_assoc. f_equal. f_equal. by destruct b, (Nat.odd _).
Qed.

Lemma mod2_odd n : n mod 2 = if Nat.odd n then 1 else 0.
Proof.
  pose proof (Nat.div2_odd n). rewrite Nat.div2_div in *. pose proof (Nat.div_mod_eq n 2).
  destruct (Nat.odd n); cbn in *; lia.
Qed.

Lemma luhn_sum_ref ds i n : Forall (fun d => d < 10) ds -> n = i + List.length ds ->
  luhn_sum (n mod 2) i ds = luhn_ref false (rev ds).
Proof.
  revert i. induction ds as [|d ds IH]; intros i Hds Hn; [done|].
  apply Forall_cons in Hds as [Hd Hds]. cbn [luhn_sum rev List.length] in *.
  rewrite luhn_ref_app, length_rev. cbn [luhn_ref]. rewrite luhn_double_step by done.
  rewrite (IH (S i) Hds) by lia. rewrite Hn, Nat.add_succ_r, !mod2_odd, Nat.odd_succ, <- Nat.negb_odd, Nat.odd_add.
  destruct (Nat.odd i), (Nat.odd (List.length ds)); cbn; lia.
Qed.

Lemma digits_of_small number : Forall (fun d => d < 10) (digits_of number).
Proof.
  unfold digits_of. apply Forall_fmap, Forall_forall. intros a Ha. cbn.
  apply list_elem_of_In, List.filter_In in Ha as [_ Ha]. unfold is_digit in Ha.
  apply andb_true_iff in Ha as [H1%Nat.leb_le H2%Nat.leb_le]. lia.
Qed.

(** The card check is the Luhn checksum: it accepts exactly the texts with 13 to 19 digits whose
    digits, the second, fourth and so on from the right doubled and reduced to their digit
    sum, add up to a multiple of ten. *)
Theorem luhn_valid_ref number : luhn_valid number = true <->
  13 <= List.length (digits_of number) <= 19 /\ luhn_ref false (rev (digits_of number)) mod 10 = 0.
Proof.
  unfold luhn_valid. rewrite (luhn_sum_ref _ 0) by (try apply digits_of_small; lia).
  destruct (_ && _) eqn:Hb; cbn [negb].
  - apply andb_true_iff in Hb as [H1%Nat.leb_le H2%Nat.leb_le]. rewrite Nat.eqb_eq. lia.
  - split; [done|]. intros [[H1 H2] _]. apply Nat.leb_le in H1, H2. by rewrite H1, H2 in Hb.
Qed.

(** Overlap resolution. The spans kept are detected ones, pairwise disjoint and in document order,
    and every detected span that was dropped overlaps a kept one that comes before it in the
    order of length, then confidence, then position. *)
Theorem resolve_overlaps_correct spans :
  resolution spans (resolve_overlaps spans) /\
  Sorted.StronglySorted (fun s t => start_leb s t = true) (resolve_overlaps spans).
Proof. split; [apply resolve_resolution|apply resolve_sorted]. Qed.
