(* ===== verification/Redaction.v ===== *)
(** The redaction subsystem: operators, vault, engine, profiles and service
    ([redaction/operators/], [vault.py], [report.py], [engine.py], [profiles.py],
    [service.py]). Detectors are functions of the text; keyed hashes are the class
    [Keyed]. The in-memory vault is threaded as state. *)
From Stdlib Require Import SpecFloat.
From S2P Require Import Prelude PyVal Session Spans.

(** Hexadecimal digests of the standard library under the process's keys: BLAKE2b for the
    vault, HMAC-SHA256 for the hash operator. *)
Class Keyed := { vault_mac : string -> string; hmac_hex : string -> string }.

Definition identity_keyed : Keyed := {| vault_mac := fun s => s; hmac_hex := fun s => s |}.

(** * Vault *)
Abbreviation vault := (list (string * string)).  (* token -> value *)

Definition token_string (entity mac_hex : string) : string :=
  "[" +:+ entity +:+ ":tok_" +:+ slice mac_hex 0 12 +:+ "]".

(** [d.setdefault(k, v)] *)
Definition setdefault {A} (k : string) (v : A) (d : list (string * A)) : list (string * A) :=
  if ahas k d then d else d ++ [(k, v)].

Definition vault_tokenize `{Keyed} (entity value : string) (v : vault) : string * vault :=
  let token := token_string entity (vault_mac value) in (token, setdefault token value v).
Definition vault_detokenize (token : string) (v : vault) : option string := aget token v.

(** * Operators *)
Inductive operator := OpMask | OpPartialMask (keep_last : nat) | OpHash (length : nat) | OpDrop | OpTokenize.

Definition op_name (o : operator) : string :=
  match o with
  | OpMask => "mask" | OpPartialMask _ => "partial_mask" | OpHash _ => "hash" | OpDrop => "drop"
  | OpTokenize => "tokenize"
  end.

Definition get_operator (name : string) : option operator :=
  if bool_decide (name = "mask") then Some OpMask
  else if bool_decide (name = "partial_mask") then Some (OpPartialMask 4)
  else if bool_decide (name = "hash") then Some (OpHash 8)
  else if bool_decide (name = "drop") then Some OpDrop
  else if bool_decide (name = "tokenize") then Some OpTokenize
  else None.

Definition mask (entity : string) : string := "[REDACTED:" +:+ entity +:+ "]".
Definition stars (n : nat) : string := of_chars (repeat "*"%char n).

Definition partial_mask (keep_last : nat) (entity value : string) : string :=
  let n := String.length value in
  if n <=? keep_last * 2 then mask entity
  else stars (n - keep_last) +:+ slice value (n - keep_last) n.

Definition op_apply `{Keyed} (o : operator) (s : Span) (v : vault) : string * vault :=
  match o with
  | OpMask => (mask (entity s), v)
  | OpPartialMask k => (partial_mask k (entity s) (stext s), v)
  | OpHash n => ("[" +:+ entity s +:+ ":" +:+ slice (hmac_hex (stext s)) 0 n +:+ "]", v)
  | OpDrop => ("███", v)
  | OpTokenize => vault_tokenize (entity s) (stext s) v
  end.

(** * Report *)
Record Finding := { f_entity : string; f_detector : string; f_operator : string; f_confidence : spec_float }.

Definition count_by (f : Finding -> string) (l : list Finding) : list (string * Z) :=
  fold_left (fun d x => aset (f x) (aget_or (f x) 0%Z d + 1)%Z d) l [].
Definition counts_by_entity : list Finding -> list (string * Z) := count_by f_entity.
Definition counts_by_detector : list Finding -> list (string * Z) := count_by f_detector.

Definition counts_val (d : list (string * Z)) : val := VObj ((fun kn => (kn.1, VInt kn.2)) <$> d).
Definition summary (l : list Finding) : val :=
  VObj [("total", VInt (Z.of_nat (List.length l))); ("by_entity", counts_val (counts_by_entity l));
        ("by_detector", counts_val (counts_by_detector l))].

(** * Detection *)
Record DetectionContext := {
  allowlist : gset string;
  denylist : gset string;
  context_words : gset string;
}.
Definition context_boost : spec_float := flt 3 1.
Definition context_window : nat := 40.

Record Detector := {
  det_name : string;
  available : bool;
  detect : string -> DetectionContext -> result (list Span);
}.

Record RedactionEngine := {
  detectors : list Detector;
  operator_by_entity : list (string * operator);
  default_operator : operator;
  min_confidence : spec_float;
  max_bytes : nat;
}.

Definition operator_for (e : RedactionEngine) (ent : string) : operator :=
  aget_or ent (default_operator e) (operator_by_entity e).

(** [min(1.0, confidence + boost)], kept when it is the same number *)
Definition apply_context_boost (text : string) (ctx : DetectionContext) (s : Span) : Span :=
  let window := str_lower (slice text (start s - context_window) (start s)) in
  if existsb (fun w => contains (str_lower w) window) (elements (context_words ctx)) then
    let sum := SFadd prec64 emax64 (confidence s) context_boost in
    let boosted := if sf_leb (flt 1 0) sum then flt 1 0 else sum in
    {| entity := entity s; start := start s; end_ := end_ s; confidence := boosted;
       detector := detector s; stext := stext s |}
  else s.

(** Non-overlapping occurrences of [term], left to right ([text.find] in a loop). *)
Fixpoint find_all (fuel : nat) (text term : string) (from : nat) : list nat :=
  match fuel with
  | 0 => []
  | S fuel => match String.index from term text with
              | None => []
              | Some i => i :: find_all fuel text term (i + String.length term)
              end
  end.

Definition denylist_spans (text : string) (denylist : gset string) : list Span :=
  concat ((fun term =>
    (fun i => {| entity := "CUSTOM_TERM"; start := i; end_ := i + String.length term;
                 confidence := flt 1 0; detector := "denylist"; stext := term |})
      <$> find_all (S (String.length text)) text term 0)
    <$> List.filter nonempty (elements denylist)).

Fixpoint run_detectors (ds : list Detector) (text : string) (ctx : DetectionContext) : result (list Span) :=
  match ds with
  | [] => Ok []
  | d :: ds =>
      s1 ← (if available d then detect d text ctx else Ok []);
      s2 ← run_detectors ds text ctx;
      Ok (s1 ++ s2)
  end.

Definition detect_spans (e : RedactionEngine) (text : string) (ctx : DetectionContext) : result (list Span) :=
  if String.eqb text "" then Ok []
  else if max_bytes e <? String.length text then
    raise RedactionBudgetExceeded ("text of " +:+ pretty (String.length text)
      +:+ " bytes exceeds redaction budget (" +:+ pretty (max_bytes e) +:+ "); refusing to scan")
  else
    spans ← run_detectors (detectors e) text ctx;
    let spans := if bool_decide (context_words ctx = ∅) then spans
                 else apply_context_boost text ctx <$> spans in
    let spans := List.filter (fun s => sf_leb (min_confidence e) (confidence s)) spans in
    Ok (resolve_overlaps (spans ++ denylist_spans text (denylist ctx))).

(** * Redaction of a text *)
Definition rstate : Type := list Finding * vault.

(** [out[:span.start] + operator.apply(span) + out[span.end:]] *)
Definition replace_span (out : string) (s : Span) (r : string) : string :=
  slice out 0 (start s) +:+ r +:+ slice out (end_ s) (String.length out).

Section Redact.
Context `{Keyed}.

Definition redact_step (e : RedactionEngine) (acc : string * rstate) (s : Span) : string * rstate :=
  let '(out, (fs, v)) := acc in
  let op := operator_for e (entity s) in
  let '(r, v') := op_apply op s v in
  (replace_span out s r,
   (fs ++ [{| f_entity := entity s; f_detector := detector s; f_operator := op_name op;
              f_confidence := confidence s |}], v')).

(** [sorted(chosen, key=start, reverse=True)] keeps the order of equal starts. *)
Definition start_geb (s t : Span) : bool := start t <=? start s.

Definition apply_spans (e : RedactionEngine) (text : string) (chosen : list Span) (v : vault) : string * rstate :=
  fold_left (redact_step e) (isort start_geb chosen) (text, ([], v)).

Definition redact_text (e : RedactionEngine) (text : string) (ctx : DetectionContext) (v : vault)
  : result (string * rstate) :=
  chosen ← detect_spans e text ctx;
  Ok (apply_spans e text chosen v).

(** * Redaction of a JSON value *)
Definition sensitive_span (value : string) : Span :=
  {| entity := "SENSITIVE_FIELD"; start := 0; end_ := String.length value; confidence := flt 1 0;
     detector := "structured"; stext := value |}.

(** What [_walk_field] does before descending: leave a protected field alone, or replace
    the whole text of a sensitive one. *)
Definition field_shortcut (e : RedactionEngine) (structured : option StructuredPolicy) (k : key) (value : val)
  (st : rstate) : option (val * rstate) :=
  match structured, k with
  | Some p, KStr name =>
      if key_is_excluded p name then Some (value, st)
      else match value with
           | VStr (String _ _ as s) =>
               if key_is_sensitive p name then
                 let op := operator_for e "SENSITIVE_FIELD" in
                 let '(r, v') := op_apply op (sensitive_span s) st.2 in
                 Some (VStr r, (st.1 ++ [{| f_entity := "SENSITIVE_FIELD"; f_detector := "structured";
                                            f_operator := op_name op; f_confidence := flt 1 0 |}], v'))
               else None
           | _ => None
           end
  | _, _ => None
  end.

Fixpoint walk (e : RedactionEngine) (ctx : DetectionContext) (structured : option StructuredPolicy)
  (value : val) (st : rstate) : result (val * rstate) :=
  match value with
  | VStr s =>
      '(out, (fs, v)) ← redact_text e s ctx st.2;
      Ok (VStr out, (st.1 ++ fs, v))
  | VList l =>
      '(l', st') ← (fix go (l : list val) (st : rstate) : result (list val * rstate) :=
        match l with
        | [] => Ok ([], st)
        | x :: l => '(y, st) ← walk e ctx structured x st; '(ys, st) ← go l st; Ok (y :: ys, st)
        end) l st;
      Ok (VList l', st')
  | VDict d =>
      '(d', st') ← (fix go (d : pydict) (st : rstate) : result (pydict * rstate) :=
        match d with
        | [] => Ok ([], st)
        | (k, x) :: d =>
            '(y, st) ← match field_shortcut e structured k x st with
                       | Some r => Ok r
                       | None => walk e ctx structured x st
                       end;
            '(ys, st) ← go d st; Ok ((k, y) :: ys, st)
        end) d st;
      Ok (VDict d', st')
  | v => Ok (v, st)
  end.

Definition redact_json (e : RedactionEngine) (value : val) (ctx : DetectionContext)
  (structured : option StructuredPolicy) (v : vault) : result (val * rstate) :=
  walk e ctx structured value ([], v).
End Redact.

(** * Profiles and the service *)
Record Profile := {
  prof_detectors : list string;
  prof_default_operator : string;
  prof_operators : list (string * string);
  prof_min_confidence : spec_float;
}.

Definition profiles : list (string * Profile) :=
  [("secrets-only", {| prof_detectors := ["secrets"]; prof_default_operator := "mask"; prof_operators := [];
                       prof_min_confidence := flt 6 1 |});
   ("standard", {| prof_detectors := ["regex_pii"; "secrets"]; prof_default_operator := "mask";
                   prof_operators := []; prof_min_confidence := flt 6 1 |});
   ("strict", {| prof_detectors := ["regex_pii"; "secrets"]; prof_default_operator := "mask";
                 prof_operators := [("CREDIT_CARD", "partial_mask")]; prof_min_confidence := flt 4 1 |});
   ("reversible", {| prof_detectors := ["regex_pii"; "secrets"]; prof_default_operator := "hash";
                     prof_operators := [("EMAIL", "tokenize"); ("PHONE", "tokenize"); ("SSN", "tokenize");
                                        ("CREDIT_CARD", "tokenize"); ("IP_ADDRESS", "tokenize")];
                     prof_min_confidence := flt 6 1 |})].

(** [RedactionEngine.__init__]; [operator_overrides] is the service's vault-backed
    [tokenize], the same constructor here. *)
Definition RedactionEngine_init (ds : list Detector) (by_entity : list (string * string)) (dflt : string)
  (min_conf : spec_float) (max_b : nat) : result RedactionEngine :=
  ops ← map_res (fun eo => match get_operator eo.2 with
                           | Some o => Ok (eo.1, o)
                           | None => raise ValueError ("unknown operator " +:+ str_repr eo.2 +:+ " for entity "
                                                       +:+ str_repr eo.1) end) by_entity;
  Ok {| detectors := ds; operator_by_entity := ops;
        default_operator := match get_operator dflt with Some o => o | None => OpMask end;
        min_confidence := min_conf; max_bytes := max_b |}.

Section Service.
Context `{Keyed}.
(** The detector registry and the custom recognizers' detector, if any. *)
Context (get_detector : string -> option Detector) (custom : option Detector).

Definition build_engine (max_b : nat) (profile : string) : result RedactionEngine :=
  match aget profile profiles with
  | None => raise ValueError ("unknown redaction profile " +:+ str_repr profile +:+ "; available: "
              +:+ strs_repr (isort str_leb (akeys profiles)))
  | Some spec =>
      let ds := omap get_detector (prof_detectors spec) in
      let presidio := if bool_decide (profile = "strict")
                      then List.filter available (option_list (get_detector "presidio")) else [] in
      RedactionEngine_init (ds ++ presidio ++ option_list custom) (prof_operators spec)
        (prof_default_operator spec) (prof_min_confidence spec) max_b
  end.

(** [RedactionService.redact]; the cache of engines is not part of the state: an engine is
    a function of its profile. *)
Definition service_redact (max_b : nat) (value : val) (spec : RedactionSpec) (v : vault)
  : result (val * rstate) :=
  e ← build_engine max_b (spec_profile spec);
  redact_json e value
    {| allowlist := spec_allowlist spec; denylist := spec_denylist spec;
       context_words := spec_context_words spec |}
    (Some (StructuredPolicy_new (exclude_keys spec))) v.
End Service.

(** * Slices *)
Lemma slice_app s i j k : i <= j -> j <= k -> slice s i j +:+ slice s j k = slice s i k.
Proof.
  intros Hij Hjk. apply chars_inj. rewrite chars_app, !chars_slice.
  replace (k - i) with ((j - i) + (k - j)) by lia.
  replace (drop j (chars s)) with (drop (j - i) (drop i (chars s))) by (rewrite drop_drop; f_equal; lia).
  by rewrite take_take_drop.
Qed.

Lemma slice_prefix s i n t : n <= String.length s -> i <= n -> slice (slice s 0 n +:+ t) 0 i = slice s 0 i.
Proof.
  intros Hn Hi. apply chars_inj. rewrite !chars_slice, chars_app, chars_slice, !Nat.sub_0_r, !drop_0.
  rewrite take_app_le by (rewrite length_take, length_chars; lia). rewrite take_take. f_equal. lia.
Qed.

Lemma slice_suffix s n t : n <= String.length s ->
  slice (slice s 0 n +:+ t) n (String.length (slice s 0 n +:+ t)) = t.
Proof.
  intros Hn. apply chars_inj. rewrite chars_slice, <- length_chars, chars_app, chars_slice, Nat.sub_0_r, drop_0.
  rewrite drop_app_length' by (rewrite length_take, length_chars; lia).
  rewrite length_app, length_take, length_chars. rewrite take_ge; [done|lia].
Qed.

(** * Right to left is left to right *)
Section Correct.
Context `{Keyed}.

(** An operator's text does not depend on the vault. *)
Definition op_text (o : operator) (s : Span) : string := (op_apply o s []).1.

Lemma op_apply_text o s v : (op_apply o s v).1 = op_text o s.
Proof. by destruct o. Qed.

(** The reference: copy the text up to each span, write the replacement, go on after it. *)
Fixpoint render (e : RedactionEngine) (text : string) (pos : nat) (l : list Span) : string :=
  match l with
  | [] => slice text pos (String.length text)
  | s :: l => slice text pos (start s) +:+ (op_text (operator_for e (entity s)) s +:+ render e text (end_ s) l)
  end.

(** Spans in document order, none empty, within the text. *)
Fixpoint ordered (pos n : nat) (l : list Span) : Prop :=
  match l with
  | [] => pos <= n
  | s :: l => pos <= start s /\ start s < end_ s /\ ordered (end_ s) n l
  end.

Lemma ordered_bounds pos n l : ordered pos n l -> pos <= n.
Proof. revert pos. induction l as [|s l IH]; cbn; [done|]. intros pos (? & ? & Ho). apply IH in Ho. lia. Qed.

Lemma ordered_starts pos n l : ordered pos n l -> forall s, s ∈ l -> pos <= start s.
Proof.
  revert pos. induction l as [|t l IH]; cbn; [set_solver|]. intros pos (? & ? & Ho) s [->|Hs]%elem_of_cons; [done|].
  specialize (IH _ Ho s Hs). lia.
Qed.

Lemma sort_insert_last s l : (forall t, t ∈ l -> start s < start t) -> sort_insert start_geb s l = l ++ [s].
Proof.
  induction l as [|t l IH]; intros Hl; cbn; [done|].
  unfold start_geb at 1. rewrite (proj2 (Nat.leb_gt _ _)) by (apply Hl; set_solver). rewrite IH; [done|set_solver].
Qed.

Lemma isort_ordered pos n l : ordered pos n l -> isort start_geb l = rev l.
Proof.
  revert pos. induction l as [|s l IH]; cbn; intros pos; [done|]. intros (? & ? & Ho).
  rewrite (IH _ Ho). apply sort_insert_last. intros t Ht. apply list_elem_of_In, in_rev, list_elem_of_In in Ht.
  pose proof (ordered_starts _ _ _ Ho t Ht). lia.
Qed.

Lemma redact_step_out e acc s : (redact_step e acc s).1 = replace_span acc.1 s (op_text (operator_for e (entity s)) s).
Proof.
  destruct acc as [out [fs v]]. unfold redact_step. rewrite <- (op_apply_text _ _ v).
  by destruct (op_apply _ _ _).
Qed.

Lemma fold_render e text l pos st : ordered pos (String.length text) l ->
  (fold_left (redact_step e) (rev l) (text, st)).1 = slice text 0 pos +:+ render e text pos l.
Proof.
  revert pos. induction l as [|s l IH]; intros pos; cbn [ordered rev render].
  - intros Hp. cbn. rewrite slice_app by lia. apply chars_inj. rewrite chars_slice.
    rewrite Nat.sub_0_r, drop_0, take_ge; [done|by rewrite length_chars].
  - intros (Hp & Hs & Ho). rewrite fold_left_app. cbn [fold_left]. rewrite redact_step_out, (IH _ Ho).
    pose proof (ordered_bounds _ _ _ Ho). unfold replace_span.
    rewrite slice_prefix, slice_suffix by lia. rewrite <- (slice_app text 0 pos (start s)) by lia.
    apply chars_inj. rewrite !chars_app. by rewrite <- !(assoc_L (++)).
Qed.

Lemma apply_spans_render e text l v : ordered 0 (String.length text) l ->
  (apply_spans e text l v).1 = render e text 0 l.
Proof.
  intros Ho. unfold apply_spans. rewrite (isort_ordered _ _ _ Ho), (fold_render _ _ _ 0) by done.
  apply chars_inj. by rewrite chars_app, chars_slice.
Qed.

(** What the detectors must respect: a match is not empty and lies inside the text. *)
Definition span_in (n : nat) (s : Span) : Prop := start s < end_ s /\ end_ s <= n.

Lemma resolved_ordered n l pos :
  Sorted.StronglySorted (fun s t => start_leb s t = true) l -> disjoint_spans l -> Forall (span_in n) l ->
  pos <= n -> (forall s, s ∈ l -> pos <= start s) -> ordered pos n l.
Proof.
  revert pos. induction l as [|s l IH]; intros pos Hs Hd Hin Hn Hpos; cbn; [done|].
  inversion Hs as [|? ? Hs' Hall]; subst. destruct Hd as [Hdis Hd].
  apply Forall_cons in Hin as [[Hlt Hle] Hin]. split_and!; [apply Hpos; set_solver|done|].
  apply IH; try done. intros t Ht. rewrite Forall_forall in Hdis, Hall, Hin.
  specialize (Hdis t Ht). specialize (Hall t Ht). destruct (Hin t Ht) as [? _].
  unfold overlaps in Hdis. unfold start_leb in Hall. apply Nat.leb_le in Hall.
  apply andb_false_iff in Hdis as [Hd1|Hd1]; apply Nat.ltb_ge in Hd1; lia.
Qed.

Lemma resolve_ordered n spans : Forall (span_in n) spans -> ordered 0 n (resolve_overlaps spans).
Proof.
  intros Hin. destruct (resolve_resolution spans) as [Hsub Hd _].
  apply resolved_ordered; [apply resolve_sorted|done| |lia|lia].
  rewrite Forall_forall in *. auto.
Qed.

(** ** The spans of a text stay inside it *)
Lemma index_bound from term text i : term <> "" -> String.index from term text = Some i ->
  i + String.length term <= String.length text.
Proof.
  intros Hne Hi. apply index_correct1 in Hi.
  assert (List.length (chars (substring i (String.length term) text)) = String.length term) as Hl
    by (by rewrite Hi, length_chars).
  rewrite chars_substring, length_take, length_drop, length_chars in Hl.
  assert (0 < String.length term) by (destruct term; [done|cbn; lia]). lia.
Qed.

Lemma find_all_bound fuel text term from i : term <> "" -> i ∈ find_all fuel text term from ->
  i + String.length term <= String.length text.
Proof.
  intros Hne. revert from. induction fuel as [|fuel IH]; intros from; cbn; [set_solver|].
  destruct (String.index from term text) as [j|] eqn:Hj; [|set_solver].
  intros [->|Hin]%elem_of_cons; [by eapply index_bound|eauto].
Qed.

Lemma denylist_spans_in text dl : Forall (span_in (String.length text)) (denylist_spans text dl).
Proof.
  unfold denylist_spans. apply Forall_forall. intros s Hs.
  apply list_elem_of_In, in_concat in Hs as (l & Hl & Hs). apply list_elem_of_In, list_elem_of_fmap in Hl as (term & -> & Hterm).
  apply list_elem_of_In, list_elem_of_fmap in Hs as (i & -> & Hi).
  apply list_elem_of_In, List.filter_In in Hterm as [_ Hne]. unfold nonempty in Hne.
  apply negb_true_iff, String.eqb_neq in Hne. split; cbn.
  - destruct term; [done|]. cbn. lia.
  - by eapply find_all_bound.
Qed.

Definition detector_ok (d : Detector) : Prop :=
  forall text ctx spans, detect d text ctx = Ok spans -> Forall (span_in (String.length text)) spans.

Lemma run_detectors_in ds text ctx spans : Forall detector_ok ds ->
  run_detectors ds text ctx = Ok spans -> Forall (span_in (String.length text)) spans.
Proof.
  revert spans. induction ds as [|d ds IH]; intros spans; [by intros _ [= <-]|].
  intros [Hd Hds]%Forall_cons (s1 & H1 & (s2 & H2 & [= <-])%bind_ok)%bind_ok.
  apply Forall_app. split; [|by apply IH]. destruct (available d); [by eapply Hd|by injection H1 as <-].
Qed.

Lemma detect_spans_ordered e text ctx chosen : Forall detector_ok (detectors e) ->
  detect_spans e text ctx = Ok chosen -> ordered 0 (String.length text) chosen.
Proof.
  intros Hd. unfold detect_spans. destruct (String.eqb_spec text "") as [->|]; [intros [= <-]; cbn; lia|].
  destruct (_ <? _); [discriminate|]. intros (spans & Hs & [= <-])%bind_ok.
  apply resolve_ordered, Forall_app. split; [|apply denylist_spans_in].
  pose proof (run_detectors_in _ _ _ _ Hd Hs) as Hin. rewrite Forall_forall in Hin.
  apply Forall_forall. intros s [Hs' _]%list_elem_of_In%List.filter_In. apply list_elem_of_In in Hs'.
  revert Hs'. case_bool_decide; [apply Hin|].
  intros (s0 & -> & Hs0)%list_elem_of_fmap. specialize (Hin _ Hs0). unfold apply_context_boost.
  by destruct (existsb _ _).
Qed.

(** Redaction by reference. When the detectors report non-empty spans inside the text, what
    [redact_text] returns is the left-to-right rendering of the spans it chose: every
    character outside them is kept in place and each span is replaced by its operator's text,
    although the code splices from the right. *)
Theorem redact_text_render e text ctx v out st : Forall detector_ok (detectors e) ->
  redact_text e text ctx v = Ok (out, st) ->
  exists chosen, detect_spans e text ctx = Ok chosen /\ ordered 0 (String.length text) chosen /\
    out = render e text 0 chosen.
Proof.
  intros Hd (chosen & Hc & Heq)%bind_ok. pose proof (detect_spans_ordered _ _ _ _ Hd Hc) as Ho.
  exists chosen. split_and!; try done. rewrite <- (apply_spans_render e text chosen v Ho). injection Heq as Heq.
  by rewrite Heq.
Qed.

(** * The walk keeps the shape of the value *)
Inductive same_shape : val -> val -> Prop :=
  | sh_str s t : same_shape (VStr s) (VStr t)
  | sh_list l m : Forall2 same_shape l m -> same_shape (VList l) (VList m)
  | sh_dict d f : Forall2 (fun kx ky => kx.1 = ky.1 /\ same_shape kx.2 ky.2) d f -> same_shape (VDict d) (VDict f)
  | sh_other v : match v with VStr _ | VList _ | VDict _ => False | _ => True end -> same_shape v v.

Lemma same_shape_refl v : same_shape v v.
Proof.
  induction v as [| | | | |l IH|d IH] using val_ind'; try by constructor.
  - constructor. by induction IH; constructor.
  - constructor. induction IH; constructor; auto.
Qed.

Lemma field_shortcut_shape e structured k x st y st' :
  field_shortcut e structured k x st = Some (y, st') -> same_shape x y.
Proof.
  unfold field_shortcut. destruct structured as [p|]; [|done]. destruct k as [name| | |]; try done.
  destruct (key_is_excluded p name); [intros [= <- <-]; apply same_shape_refl|].
  destruct x as [| | | |[|a s]| |]; try done. destruct (key_is_sensitive p name); [|done].
  destruct (op_apply _ _ _). intros [= <- <-]. constructor.
Qed.

(** Redaction keeps the shape of a value. The walk changes nothing but text: the result has the same
    lists, the same mappings with the same keys in the same order and the same numbers,
    booleans and nulls; only strings differ, and a string stays a string. *)
Theorem walk_shape e ctx structured v st w st' : walk e ctx structured v st = Ok (w, st') -> same_shape v w.
Proof.
  revert st w st'. induction v as [| | | |s|l IH|d IH] using val_ind'; intros st w st' Hw;
    try (injection Hw as <- <-; by constructor).
  - cbn in Hw. apply bind_ok in Hw as ([out [fs v]] & _ & [= <- <-]). constructor.
  - cbn in Hw. apply bind_ok in Hw as ([l' st1] & Hgo & [= <- <-]). constructor. revert st l' st1 Hgo.
    induction IH as [|x l Hx _ IHl]; intros st l' st1 Hgo; [by injection Hgo as <- <-|].
    apply bind_ok in Hgo as ([y st2] & Hy & Hgo). apply bind_ok in Hgo as ([ys st3] & Hys & [= <- <-]).
    constructor; eauto.
  - cbn in Hw. apply bind_ok in Hw as ([d' st1] & Hgo & [= <- <-]). constructor. revert st d' st1 Hgo.
    induction IH as [|[k x] d Hx _ IHd]; intros st d' st1 Hgo; [by injection Hgo as <- <-|].
    apply bind_ok in Hgo as ([y st2] & Hy & Hgo). apply bind_ok in Hgo as ([ys st3] & Hys & [= <- <-]).
    constructor; [|eauto]. split; [done|]. cbn. destruct (field_shortcut e structured k x st) as [[y' st4]|] eqn:Hf.
    + injection Hy as -> ->. by eapply field_shortcut_shape.
    + eauto.
Qed.

(** * The vault *)
Definition tokenize_all (l : list (string * string)) (v : vault) : vault :=
  fold_left (fun v ev => (vault_tokenize ev.1 ev.2 v).2) l v.

Lemma aget_setdefault {A} k k' (x : A) d :
  aget k (setdefault k' x d) = match aget k d with Some y => Some y | None => if decide (k = k') then Some x else None end.
Proof.
  unfold setdefault, ahas. destruct (aget k' d) as [y|] eqn:Hk'.
  - destruct (aget k d) eqn:Hk; [done|]. case_decide as Hd; [subst; congruence|done].
  - clear Hk'. induction d as [|[k2 z] d IH]; cbn; [done|]. by destruct (decide (k = k2)).
Qed.

Lemma tokenize_all_keep l v token value : aget token v = Some value -> aget token (tokenize_all l v) = Some value.
Proof.
  unfold tokenize_all. revert v. induction l as [|[e x] l IH]; intros v Hv; [done|]. cbn. apply IH.
  by rewrite aget_setdefault, Hv.
Qed.

(** The vault is faithful. After any sequence of tokenizations, a token gives back exactly the first
    value that was stored under it; a later value that collides with it never replaces it. *)
Theorem tokenize_all_first l token value :
  aget token (tokenize_all l []) = Some value <->
  exists pre e post, l = pre ++ (e, value) :: post /\ token_string e (vault_mac value) = token /\
    forall e' x, (e', x) ∈ pre -> token_string e' (vault_mac x) <> token.
Proof.
  assert (forall v, aget token (tokenize_all l v) = match aget token v with Some y => Some y | None =>
    (snd <$> List.find (fun ev => bool_decide (token_string ev.1 (vault_mac ev.2) = token)) l) end) as Heq.
  { unfold tokenize_all. induction l as [|[e x] l IH]; intros v; cbn; [by destruct (aget token v)|].
    rewrite IH, aget_setdefault. destruct (aget token v); [done|]. cbn.
    case_decide; case_bool_decide; try done; congruence. }
  rewrite Heq. cbn [aget]. clear Heq. induction l as [|[e x] l IH]; cbn.
  - split; [done|]. intros (pre & ? & ? & ? & _). by destruct pre.
  - case_bool_decide as Hb.
    + cbn. split.
      * intros [= ->]. exists [], e, l. split_and!; [done..|set_solver].
      * intros ([|[e0 x0] pre] & e' & post & Hl & Ht & Hn); simplify_list_eq; [done|].
        exfalso. eapply Hn; [apply list_elem_of_here|done].
    + rewrite IH. split.
      * intros (pre & e' & post & -> & Ht & Hn). exists ((e, x) :: pre), e', post. split_and!; [done..|].
        intros e2 x2 [[= -> ->]|?]%elem_of_cons; [done|eauto].
      * intros ([|[e0 x0] pre] & e' & post & Hl & Ht & Hn); simplify_list_eq.
        exists pre, e', post. split_and!; [done..|]. intros e2 x2 ?. apply Hn. set_solver.
Qed.
End Correct.

(** * A concrete engine *)
#[local] Existing Instance identity_keyed.

Definition mail_detector : Detector :=
  {| det_name := "demo"; available := true;
     detect := fun text _ => Ok (match String.index 0 "@" text with
       | Some i => if 0 <? i then [{| entity := "EMAIL"; start := i - 1; end_ := S i; confidence := flt 9 1;
                     detector := "demo"; stext := slice text (i - 1) (S i) |}] else []
       | None => [] end) |}.
Definition mail_engine : RedactionEngine :=
  {| detectors := [mail_detector]; operator_by_entity := []; default_operator := OpMask;
     min_confidence := flt 6 1; max_bytes := 1000 |}.
Definition no_context : DetectionContext := {| allowlist := ∅; denylist := ∅; context_words := ∅ |}.

Lemma mail_detector_ok : detector_ok mail_detector.
Proof.
  intros text ctx spans. cbn [detect mail_detector]. intros [= <-].
  destruct (String.index 0 "@" text) as [i|] eqn:Hi; [|constructor].
  destruct (0 <? i) eqn:Hz; [|constructor]. constructor; [|constructor]. unfold span_in. cbn [start end_].
  apply index_bound in Hi; [|done]. cbn [String.length] in Hi. lia.
Qed.

Lemma redact_text_render_witness :
  exists chosen, detect_spans mail_engine "to a@b" no_context = Ok chosen /\
    ordered 0 6 chosen /\ "to [REDACTED:EMAIL]b" = render mail_engine "to a@b" 0 chosen.
Proof.
  destruct (redact_text mail_engine "to a@b" no_context []) as [[out st]|e] eqn:Hr; [|vm_compute in Hr; discriminate].
  assert (out = "to [REDACTED:EMAIL]b") as <- by (vm_compute in Hr; by injection Hr).
  refine (redact_text_render mail_engine "to a@b" no_context [] out st _ Hr).
  constructor; [exact mail_detector_ok|constructor].
Defined.

Lemma walk_shape_witness :
  exists w, same_shape (VList [VStr "a@b"; VInt 3]) w /\ w <> VList [VStr "a@b"; VInt 3].
Proof.
  destruct (walk mail_engine no_context None (VList [VStr "a@b"; VInt 3]) ([], [])) as [[w st]|e] eqn:Hw;
    [|vm_compute in Hw; discriminate].
  exists w. split; [exact (walk_shape mail_engine no_context None _ _ w st Hw)|].
  vm_compute in Hw. injection Hw as <- _. discriminate.
Defined.
