(* ===== verification/Detectors.v ===== *)
(** The built-in detectors of [redaction/detectors/] and the entity registry of
    [redaction/entities.py]. What a compiled pattern finds in a text is the interface
    [Finditer], with the laws of [re] the detectors rely on; [log2] and the summation of
    floats are parameters. *)
From Stdlib Require Import SpecFloat.
From S2P Require Import Prelude PyVal Session Rules Spans Redaction.

(** * Matches *)

(** The module-level patterns, by name, and those a deployment configures. *)
Inductive pattern :=
  | EMAIL_RE | SSN_RE | CARD_RE | PHONE_RE | IPV4_RE
  | AWS_KEY_ID_RE | GITHUB_RE | GITHUB_PAT_RE | SLACK_RE | JWT_RE
  | PRIVATE_KEY_RE | AWS_SECRET_RE | LABELED_RE | ENTROPY_RE
  | Configured (source : string) (ignorecase : bool).

(** [m.span()], and [m.span(g)] of the groups that took part. *)
Record Match := { m_start : nat; m_end : nat; m_groups : list (string * (nat * nat)) }.
Definition group (text : string) (m : Match) : string := slice text (m_start m) (m_end m).
(** [m.span(g)], whose group the pattern always fills *)
Definition group_span (g : string) (m : Match) : nat * nat := aget_or g (m_start m, m_start m) (m_groups m).
Definition group_text (text : string) (g : string) (m : Match) : string :=
  slice text (group_span g m).1 (group_span g m).2.

Class Finditer := { finditer : pattern -> string -> list Match }.

(** [re.finditer]: matches lie in the text, and the group [value] of a pattern in its match. *)
Record finditer_laws `{Finditer} (p : pattern) : Prop := {
  fl_match : forall text m, m ∈ finditer p text -> m_start m < m_end m /\ m_end m <= String.length text;
  fl_value : forall text m, m ∈ finditer p text -> p = AWS_SECRET_RE \/ p = LABELED_RE ->
    (group_span "value" m).1 < (group_span "value" m).2 /\ (group_span "value" m).2 <= m_end m;
}.

(** * Entities ([redaction/entities.py]) *)
Inductive Category := PII | SECRET | CUSTOM.
#[export] Instance Category_eq_dec : EqDecision Category.
Proof. solve_decision. Defined.
Record Entity := { en_category : Category; en_description : string }.
Definition registry := list (string * Entity).

Definition register (name : string) (c : Category) (description : string) (r : registry) : registry :=
  aset name {| en_category := c; en_description := description |} r.
Definition names_in (c : Category) (r : registry) : list string :=
  akeys (List.filter (fun ne => bool_decide (en_category ne.2 = c)) r).
Definition builtin_entities : registry :=
  fold_left (fun r e => register e.1.1 e.1.2 e.2 r)
    [(("EMAIL", PII), "Email address"); (("PHONE", PII), "Telephone number");
     (("SSN", PII), "US Social Security Number"); (("CREDIT_CARD", PII), "Payment card number (Luhn-valid)");
     (("IP_ADDRESS", PII), "IPv4 address"); (("PERSON", PII), "Person name (NER)");
     (("LOCATION", PII), "Geographic location (NER)");
     (("NRP", PII), "Nationality, religion, or political group (NER)");
     (("AWS_ACCESS_KEY_ID", SECRET), "AWS access key id"); (("AWS_SECRET_ACCESS_KEY", SECRET), "AWS secret access key");
     (("GITHUB_TOKEN", SECRET), "GitHub personal/OAuth token"); (("SLACK_TOKEN", SECRET), "Slack API token");
     (("JWT", SECRET), "JSON Web Token"); (("PRIVATE_KEY", SECRET), "PEM private key block");
     (("GENERIC_SECRET", SECRET), "High-entropy token (heuristic)");
     (("SENSITIVE_FIELD", SECRET), "Value under a key whose NAME marks it sensitive (password, api_key, ...)");
     (("CUSTOM_TERM", CUSTOM), "Literal term from a deployment's denylist")] [].

(** * Entropy ([redaction/detectors/validators.py]) *)

(** [math.log2], and [sum] of floats, whose rounding depends on the interpreter. *)
Class FloatLib := { log2 : spec_float -> spec_float; float_sum : list spec_float -> spec_float }.

Definition sf_of_nat (n : nat) : spec_float := float_of_decimal false (Z.of_nat n) 0.
(** [Counter(text)] *)
Definition counter (text : string) : list (ascii * nat) :=
  fold_left (fun d a => aset a (aget_or a 0 d + 1) d) (chars text) [].
Definition shannon_entropy `{FloatLib} (text : string) : spec_float :=
  match text with
  | EmptyString => S754_zero false
  | _ =>
      let n := sf_of_nat (String.length text) in
      SFopp (float_sum ((fun c => let p := SFdiv prec64 emax64 (sf_of_nat c) n in SFmul prec64 emax64 p (log2 p))
                        <$> (snd <$> counter text)))
  end.

Section Detectors.
Context `{Regex} `{Finditer}.

Definition spans_of (p : pattern) (text : string) (f : Match -> result (option Span)) : result (list Span) :=
  ss ← map_res f (finditer p text); Ok (omap (M := list) id ss).

(** [[s for s in spans if s.text not in ctx.allowlist]] *)
Definition not_allowlisted (ctx : DetectionContext) (spans : list Span) : list Span :=
  List.filter (fun s => negb (bool_decide (stext s ∈ allowlist ctx))) spans.

(** * The PII detector ([redaction/detectors/regex_pii.py]) *)
Definition pii_span (ent : string) (conf : spec_float) (text : string) (m : Match) : result (option Span) :=
  s ← Span_new ent (m_start m) (m_end m) conf "regex_pii" (group text m); Ok (Some s).

(** [int(m[g])] *)
Definition int_group (text g : string) (m : Match) : result nat :=
  let l := chars (group_text text g m) in
  if forallb is_digit l && negb (List.length l =? 0)
  then Ok (fold_left (fun n a => 10 * n + (nat_of_ascii a - 48)) l 0)
  else raise ValueError "invalid literal for int() with base 10".

Definition ssn_span (text : string) (m : Match) : result (option Span) :=
  area ← int_group text "1" m; gr ← int_group text "2" m; serial ← int_group text "3" m;
  if ssn_valid area gr serial then pii_span "SSN" (flt 95 2) text m else Ok None.

Definition card_span (text : string) (m : Match) : result (option Span) :=
  if luhn_valid (group text m) then pii_span "CREDIT_CARD" (flt 95 2) text m else Ok None.

Definition ipv4_span (text : string) (m : Match) : result (option Span) :=
  if ipv4_octets_valid ((fun g => group_text text g m) <$> ["1"; "2"; "3"; "4"])
  then pii_span "IP_ADDRESS" (flt 95 2) text m else Ok None.

Definition regex_pii_detect (text : string) (ctx : DetectionContext) : result (list Span) :=
  emails ← spans_of EMAIL_RE text (pii_span "EMAIL" (flt 90 2) text);
  ssns ← spans_of SSN_RE text (ssn_span text);
  cards ← spans_of CARD_RE text (card_span text);
  phones ← spans_of PHONE_RE text (pii_span "PHONE" (flt 60 2) text);
  ips ← spans_of IPV4_RE text (ipv4_span text);
  Ok (not_allowlisted ctx (emails ++ ssns ++ cards ++ phones ++ ips)).

(** * The secrets detector ([redaction/detectors/secrets.py]) *)
Context `{FloatLib}.

Definition PROVIDER_PATTERNS : list (string * pattern * spec_float) :=
  [("AWS_ACCESS_KEY_ID", AWS_KEY_ID_RE, flt 98 2); ("GITHUB_TOKEN", GITHUB_RE, flt 98 2);
   ("GITHUB_TOKEN", GITHUB_PAT_RE, flt 98 2); ("SLACK_TOKEN", SLACK_RE, flt 97 2); ("JWT", JWT_RE, flt 90 2)].
Definition LABELED_CONFIDENCE : spec_float := flt 90 2.
Definition AWS_SECRET_CONFIDENCE : spec_float := flt 95 2.
Definition ENTROPY_MIN_BITS : spec_float := flt 40 1.
Definition ENTROPY_CONFIDENCE : spec_float := flt 55 2.

Definition secret_span (ent : string) (start end_ : nat) (text : string) (conf : spec_float) : result Span :=
  Span_new ent start end_ conf "secrets" (slice text start end_).

Definition whole_span (ent : string) (conf : spec_float) (text : string) (m : Match) : result (option Span) :=
  s ← secret_span ent (m_start m) (m_end m) text conf; Ok (Some s).
Definition value_span (ent : string) (conf : spec_float) (text : string) (m : Match) : result (option Span) :=
  let '(a, b) := group_span "value" m in s ← secret_span ent a b text conf; Ok (Some s).

Definition covered (start end_ : nat) (ranges : list (nat * nat)) : bool :=
  existsb (fun r => (start <? r.2) && (r.1 <? end_)) ranges.

Record SecretsDetector := { include_high_entropy : bool; include_labeled : bool; sd_structured : StructuredPolicy }.
Definition SecretsDetector_default : SecretsDetector :=
  {| include_high_entropy := true; include_labeled := true; sd_structured := StructuredPolicy_new ∅ |}.

Definition labeled_span (d : SecretsDetector) (text : string) (m : Match) : result (option Span) :=
  let key := group_text text "key" m in
  if negb (key_is_sensitive (sd_structured d) key) then Ok None
  else if key_is_excluded (sd_structured d) key then Ok None
  else value_span "SENSITIVE_FIELD" LABELED_CONFIDENCE text m.

Definition entropy_span (text : string) (claimed : list (nat * nat)) (m : Match) : result (option Span) :=
  if covered (m_start m) (m_end m) claimed then Ok None
  else if sf_leb ENTROPY_MIN_BITS (shannon_entropy (group text m))
  then whole_span "GENERIC_SECRET" ENTROPY_CONFIDENCE text m else Ok None.

(** The spans whose shape or label is known, before the entropy heuristic. *)
Definition shaped_spans (d : SecretsDetector) (text : string) : result (list Span) :=
  provider ← map_res (fun ep => spans_of ep.1.2 text (whole_span ep.1.1 ep.2 text)) PROVIDER_PATTERNS;
  keys ← spans_of PRIVATE_KEY_RE text (whole_span "PRIVATE_KEY" (flt 99 2) text);
  aws ← spans_of AWS_SECRET_RE text (value_span "AWS_SECRET_ACCESS_KEY" AWS_SECRET_CONFIDENCE text);
  labeled ← (if include_labeled d then spans_of LABELED_RE text (labeled_span d text) else Ok []);
  Ok (concat provider ++ keys ++ aws ++ labeled).

Definition secrets_detect (d : SecretsDetector) (text : string) (ctx : DetectionContext) : result (list Span) :=
  spans ← shaped_spans d text;
  generic ← (if include_high_entropy d
             then spans_of ENTROPY_RE text (entropy_span text ((fun s => (start s, end_ s)) <$> spans))
             else Ok []);
  Ok (not_allowlisted ctx (spans ++ generic)).

(** * Configured recognizers ([redaction/detectors/custom.py]) *)
Record Recognizer := { rec_entity : string; rec_pattern : pattern; rec_confidence : spec_float }.

(** [0.0 <= confidence <= 1.0] of a number *)
Definition unit_interval (v : val) : option spec_float :=
  match v with
  | VFloat (S754_nan | S754_infinity _) => None
  | VFloat f => if sf_leb (S754_zero false) f && sf_leb f (flt 1 0) then Some f else None
  | _ => match num_of v with
         | Some 0%Z => Some (S754_zero false)
         | Some 1%Z => Some (flt 1 0)
         | _ => None
         end
  end.

Definition load_recognizer (acc : registry * list Recognizer) (ic : nat * val) : result (registry * list Recognizer) :=
  let where_ := "recognizer[" +:+ pretty ic.1 +:+ "]" in
  config ← of_option (as_dict ic.2) (Exn ValueError (where_ +:+ ": must be a mapping"));
  _ ← check_unknown ValueError (where_ +:+ ": unknown field(s) ") ["entity"; "pattern"; "confidence"; "flags"] config;
  ent ← (match dget "entity" config with
         | Some (VStr (String _ _ as s)) => Ok s
         | _ => raise ValueError (where_ +:+ ": 'entity' must be a non-empty string") end);
  pat ← (match dget "pattern" config with
         | Some (VStr (String _ _ as s)) => Ok s
         | _ => raise ValueError (where_ +:+ ": 'pattern' must be a non-empty string") end);
  flags ← (match dget_or "flags" (VStr "") config with
           | VStr s => if only_i s then Ok (has_i s) else raise ValueError (where_ +:+ ": 'flags' supports only 'i'")
           | _ => raise ValueError (where_ +:+ ": 'flags' supports only 'i'") end);
  _ ← (match re_compile pat flags with
       | Some exc => raise ValueError (where_ +:+ ": invalid regex (" +:+ exc +:+ ")")
       | None => Ok tt end);
  conf ← of_option (unit_interval (dget_or "confidence" (VFloat (flt 9 1)) config))
           (Exn ValueError (where_ +:+ ": 'confidence' must be a number in [0,1]"));
  let r := if ahas ent acc.1 then acc.1 else register ent CUSTOM "Custom recognizer" acc.1 in
  Ok (r, acc.2 ++ [{| rec_entity := ent; rec_pattern := Configured pat flags; rec_confidence := conf |}]).

Definition load_recognizers (r : registry) (configs : list val) : result (registry * list Recognizer) :=
  fold_res load_recognizer (r, []) (enumerate configs).

Definition custom_span (ctx : DetectionContext) (rec : Recognizer) (text : string) (m : Match) : result (option Span) :=
  if bool_decide (group text m ∈ allowlist ctx) then Ok None
  else s ← Span_new (rec_entity rec) (m_start m) (m_end m) (rec_confidence rec) "custom" (group text m); Ok (Some s).

Definition custom_detect (recs : list Recognizer) (text : string) (ctx : DetectionContext) : result (list Span) :=
  ss ← map_res (fun rec => spans_of (rec_pattern rec) text (custom_span ctx rec text)) recs;
  Ok (concat ss).

(** * The registry of detectors ([redaction/detectors/__init__.py]) *)
Definition RegexPiiDetector : Detector := {| det_name := "regex_pii"; available := true; detect := regex_pii_detect |}.
Definition SecretsDetector_det (d : SecretsDetector) : Detector :=
  {| det_name := "secrets"; available := true; detect := secrets_detect d |}.
Definition CustomDetector (recs : list Recognizer) : Detector :=
  {| det_name := "custom"; available := true; detect := custom_detect recs |}.

(** [get_detector_type(name)()]; the presidio detector is a third party's. *)
Definition get_detector (presidio : Detector) (name : string) : option Detector :=
  aget name [("regex_pii", RegexPiiDetector); ("secrets", SecretsDetector_det SecretsDetector_default); ("presidio", presidio)].

(** [RedactionService(recognizers=recs).engine_for(profile)] *)
Definition engine_for (presidio : Detector) (recs : list Recognizer) (max_b : nat) (profile : string) : result RedactionEngine :=
  build_engine (get_detector presidio) (match recs with [] => None | _ => Some (CustomDetector recs) end) max_b profile.
End Detectors.

(** * What detectors report *)
Section Reports.
Context {re : Regex} {fi : Finditer} {fl : FloatLib}.


(** A non-empty span of the text that carries its own text. *)
Definition reported text s : Prop := span_in (String.length text) s /\ stext s = slice text (start s) (end_ s).

Definition builtin (p : pattern) : Prop := match p with Configured _ _ => False | _ => True end.

Lemma spans_of_elem p text f l s : spans_of p text f = Ok l -> s ∈ l -> exists m, m ∈ finditer p text /\ f m = Ok (Some s).
Proof.
  unfold spans_of. intros (ss & Hss & [= <-])%bind_ok Hs%elem_omap_id. apply map_res_ok in Hss.
  destruct (proj2 (Forall2_elem _ _ _ Hss) _ Hs) as (m & Hm & Hf). by exists m.
Qed.

Lemma Span_new_fields ent a b c d t s : Span_new ent a b c d t = Ok s ->
  entity s = ent /\ start s = a /\ end_ s = b /\ stext s = t.
Proof. unfold Span_new. destruct (b <? a); [done|]. destruct (_ && _); [|done]. by intros [= <-]. Qed.

Lemma whole_reported p text m ent c d s : finditer_laws p -> m ∈ finditer p text ->
  Span_new ent (m_start m) (m_end m) c d (group text m) = Ok s -> reported text s.
Proof.
  intros [Hl _] Hm (_ & Ha & Hb & Ht)%Span_new_fields. destruct (Hl _ _ Hm). unfold reported, span_in.
  rewrite Ha, Hb, Ht. done.
Qed.

Lemma value_reported p text m ent c s : finditer_laws p -> p = AWS_SECRET_RE \/ p = LABELED_RE -> m ∈ finditer p text ->
  value_span ent c text m = Ok (Some s) -> reported text s /\ entity s = ent.
Proof.
  intros [Hl Hv] Hp Hm. unfold value_span. destruct (Hl _ _ Hm). destruct (Hv _ _ Hm Hp) as [Hlt Hle].
  destruct (group_span "value" m) as [a b]. cbn in *. intros (s' & Hs & [= ->])%bind_ok.
  apply Span_new_fields in Hs as (He & Ha & Hb & Ht). unfold reported, span_in. rewrite Ha, Hb, Ht. split; [|done]. split; [|done]. lia.
Qed.

Lemma not_allowlisted_elem ctx l s : s ∈ not_allowlisted ctx l <-> s ∈ l /\ stext s ∉ allowlist ctx.
Proof.
  unfold not_allowlisted. rewrite list_elem_of_In, List.filter_In, <- list_elem_of_In.
  by rewrite negb_true_iff, bool_decide_eq_false.
Qed.

Context (laws : forall p, builtin p -> finditer_laws p).

Lemma pii_reported p ent c text m s : builtin p -> m ∈ finditer p text -> pii_span ent c text m = Ok (Some s) -> reported text s.
Proof. intros Hp Hm (s' & Hs & [= ->])%bind_ok. eapply whole_reported; [by apply laws|exact Hm|exact Hs]. Qed.

Lemma regex_pii_reports text ctx spans s : regex_pii_detect text ctx = Ok spans -> s ∈ spans ->
  reported text s /\ stext s ∉ allowlist ctx.
Proof.
  unfold regex_pii_detect.
  intros (l1 & H1 & (l2 & H2 & (l3 & H3 & (l4 & H4 & (l5 & H5 & [= <-])%bind_ok)%bind_ok)%bind_ok)%bind_ok)%bind_ok.
  rewrite not_allowlisted_elem, !elem_of_app. intros [Hs Ha]. split; [|done].
  destruct Hs as [Hs|[Hs|[Hs|[Hs|Hs]]]].
  - destruct (spans_of_elem _ _ _ _ _ H1 Hs) as (m & Hm & Hf). by eapply pii_reported; [|exact Hm|exact Hf].
  - destruct (spans_of_elem _ _ _ _ _ H2 Hs) as (m & Hm & Hf). unfold ssn_span in Hf.
    apply bind_ok in Hf as (a & _ & (b & _ & (c & _ & Hf)%bind_ok)%bind_ok). destruct (ssn_valid a b c); [|done].
    by eapply pii_reported; [|exact Hm|exact Hf].
  - destruct (spans_of_elem _ _ _ _ _ H3 Hs) as (m & Hm & Hf). unfold card_span in Hf. destruct (luhn_valid _); [|done].
    by eapply pii_reported; [|exact Hm|exact Hf].
  - destruct (spans_of_elem _ _ _ _ _ H4 Hs) as (m & Hm & Hf). by eapply pii_reported; [|exact Hm|exact Hf].
  - destruct (spans_of_elem _ _ _ _ _ H5 Hs) as (m & Hm & Hf). unfold ipv4_span in Hf. destruct (ipv4_octets_valid _); [|done].
    by eapply pii_reported; [|exact Hm|exact Hf].
Qed.

Lemma whole_span_reported p ent c text m s : builtin p -> m ∈ finditer p text ->
  whole_span ent c text m = Ok (Some s) -> reported text s /\ entity s = ent.
Proof.
  intros Hp Hm (s' & Hs & [= ->])%bind_ok. split; [eapply whole_reported; [by apply laws|exact Hm|exact Hs]|].
  by apply Span_new_fields in Hs as (He & _).
Qed.

Lemma provider_builtin ep : ep ∈ PROVIDER_PATTERNS -> builtin ep.1.2 /\ ep.1.1 <> "GENERIC_SECRET".
Proof.
  unfold PROVIDER_PATTERNS. intros Hin. repeat (apply elem_of_cons in Hin as [->|Hin]; [by split|]).
  by apply elem_of_nil in Hin.
Qed.

Lemma shaped_reported d text spans s : shaped_spans d text = Ok spans -> s ∈ spans ->
  reported text s /\ entity s <> "GENERIC_SECRET".
Proof.
  intros (l1 & H1 & (l2 & H2 & (l3 & H3 & (l4 & H4 & [= <-])%bind_ok)%bind_ok)%bind_ok)%bind_ok.
  rewrite !elem_of_app. intros [Hs|[Hs|[Hs|Hs]]].
  - apply elem_concat in Hs as (l & Hl & Hs). apply map_res_ok in H1.
    destruct (proj2 (Forall2_elem _ _ _ H1) _ Hl) as (ep & Hep & Hf). destruct (provider_builtin ep Hep) as [Hb Hne].
    destruct (spans_of_elem _ _ _ _ _ Hf Hs) as (m & Hm & Hw). by destruct (whole_span_reported _ _ _ _ _ _ Hb Hm Hw) as [? ->].
  - destruct (spans_of_elem _ _ _ _ _ H2 Hs) as (m & Hm & Hf).
    by destruct (whole_span_reported PRIVATE_KEY_RE _ _ _ _ _ I Hm Hf) as [? ->].
  - destruct (spans_of_elem _ _ _ _ _ H3 Hs) as (m & Hm & Hf).
    by destruct (value_reported _ _ _ _ _ _ (laws AWS_SECRET_RE I) (or_introl eq_refl) Hm Hf) as [? ->].
  - destruct (include_labeled d); [|by injection H4 as <-; apply elem_of_nil in Hs].
    destruct (spans_of_elem _ _ _ _ _ H4 Hs) as (m & Hm & Hf). unfold labeled_span in Hf.
    destruct (negb _); [done|]. destruct (key_is_excluded _ _); [done|].
    by destruct (value_reported _ _ _ _ _ _ (laws LABELED_RE I) (or_intror eq_refl) Hm Hf) as [? ->].
Qed.

Lemma secrets_reports d text ctx spans s : secrets_detect d text ctx = Ok spans -> s ∈ spans ->
  reported text s /\ stext s ∉ allowlist ctx /\
  exists shaped, shaped_spans d text = Ok shaped /\
    (s ∈ shaped \/ entity s = "GENERIC_SECRET" /\ forall t, t ∈ shaped -> overlaps s t = false).
Proof.
  intros (shaped & Hsh & (generic & Hg & [= <-])%bind_ok)%bind_ok.
  rewrite not_allowlisted_elem, elem_of_app. intros [[Hs|Hs] Ha].
  - split; [by eapply shaped_reported|]. split; [done|]. exists shaped. auto.
  - destruct (include_high_entropy d); [|by injection Hg as <-; apply elem_of_nil in Hs].
    destruct (spans_of_elem _ _ _ _ _ Hg Hs) as (m & Hm & Hf). unfold entropy_span in Hf.
    destruct (covered _ _ _) eqn:Hc; [done|]. destruct (sf_leb _ _); [|done].
    destruct (whole_span_reported ENTROPY_RE _ _ _ _ _ I Hm Hf) as [Hr He]. split; [done|]. split; [done|].
    exists shaped. split; [done|]. right. split; [done|]. intros t Ht.
    apply bind_ok in Hf as (s' & Hs' & [= ->]). apply Span_new_fields in Hs' as (_ & Ha' & Hb' & _).
    unfold covered in Hc. unfold overlaps. rewrite Ha', Hb'.
    destruct (_ && _) eqn:Ho; [|done]. exfalso. apply not_true_iff_false in Hc. apply Hc, existsb_exists.
    exists (start t, end_ t). split; [|done]. apply list_elem_of_In, list_elem_of_fmap. by exists t.
Qed.

Lemma custom_reports recs text ctx spans s : Forall (fun rec => finditer_laws (rec_pattern rec)) recs ->
  custom_detect recs text ctx = Ok spans -> s ∈ spans -> reported text s /\ stext s ∉ allowlist ctx.
Proof.
  intros Hl (ss & Hss & [= <-])%bind_ok (l & Hin & Hs)%elem_concat. apply map_res_ok in Hss.
  destruct (proj2 (Forall2_elem _ _ _ Hss) _ Hin) as (rec & Hrec & Hf). eapply Forall_forall in Hl; [|exact Hrec].
  destruct (spans_of_elem _ _ _ _ _ Hf Hs) as (m & Hm & Hc). unfold custom_span in Hc.
  case_bool_decide as Ha; [done|]. apply bind_ok in Hc as (s' & Hs' & [= ->]). split.
  - eapply whole_reported; [exact Hl|exact Hm|exact Hs'].
  - by apply Span_new_fields in Hs' as (_ & _ & _ & ->).
Qed.

Lemma get_detector_ok presidio name d : detector_ok presidio -> get_detector presidio name = Some d -> detector_ok d.
Proof.
  intros Hp Hd. apply aget_Some_elem in Hd.
  repeat (apply elem_of_cons in Hd as [[= -> ->]|Hd]); [| |done|by apply elem_of_nil in Hd];
    intros text ctx spans Hs; apply Forall_forall; intros s Hin.
  - by destruct (regex_pii_reports text ctx spans s Hs Hin) as [[? _] _].
  - by destruct (secrets_reports _ text ctx spans s Hs Hin) as [[? _] _].
Qed.

Lemma custom_ok recs : Forall (fun rec => finditer_laws (rec_pattern rec)) recs -> detector_ok (CustomDetector recs).
Proof.
  intros Hl text ctx spans Hs. apply Forall_forall. intros s Hin.
  by destruct (custom_reports recs text ctx spans s Hl Hs Hin) as [[? _] _].
Qed.

(** The detectors of a profile are the registered ones it names, presidio under [strict], and
    the configured recognizers. *)
Lemma build_engine_detectors {k : Keyed} presidio custom max_b profile e :
  build_engine (get_detector presidio) custom max_b profile = Ok e ->
  forall d, d ∈ detectors e -> (exists name, get_detector presidio name = Some d) \/ custom = Some d.
Proof.
  unfold build_engine. destruct (aget profile profiles) as [spec|]; [|done].
  unfold RedactionEngine_init. intros (ops & _ & [= <-])%bind_ok d. cbn [detectors].
  rewrite !elem_of_app. intros [Hd|[Hd|Hd]].
  - apply list_elem_of_omap in Hd as (name & _ & Hd). left. by exists name.
  - left. exists "presidio". case_bool_decide; [|by apply elem_of_nil in Hd]. cbn in Hd.
    destruct (available presidio); [by apply list_elem_of_singleton in Hd as ->|by apply elem_of_nil in Hd].
  - right. destruct custom as [c|]; [|by apply elem_of_nil in Hd]. by apply list_elem_of_singleton in Hd as ->.
Qed.
End Reports.

(** C21: The shipped redaction engines rewrite by reference. Whatever profile is chosen and
    whatever patterns a deployment configured, as long as [re] keeps its promises (matches lie
    in the text, and none is empty) and presidio reports non-empty spans in the text, the
    redaction of a text is the rendering of the spans the engine chose: every character outside
    them stays in place and each span is replaced by its operator's text. *)
Theorem profile_engines_render {re : Regex} {fi : Finditer} {fl : FloatLib} {k : Keyed} presidio recs max_b profile e text ctx v out st :
  (forall p, builtin p -> finditer_laws p) -> Forall (fun rec => finditer_laws (rec_pattern rec)) recs ->
  detector_ok presidio -> engine_for presidio recs max_b profile = Ok e ->
  redact_text e text ctx v = Ok (out, st) ->
  exists chosen, detect_spans e text ctx = Ok chosen /\ ordered 0 (String.length text) chosen /\
    out = render e text 0 chosen.
Proof.
  intros Hlaws Hrecs Hp He. apply redact_text_render. apply Forall_forall. intros d Hd.
  destruct (build_engine_detectors _ _ _ _ _ He d Hd) as [[name Hname]|Hc].
  - by eapply get_detector_ok.
  - destruct recs as [|r recs]; [done|]. injection Hc as <-. by apply custom_ok.
Qed.

(** Detectors report what is there. Every span of the PII, the secrets and the configured
    detectors is a non-empty part of the text and carries exactly that part, none of them is on
    the allowlist, and the entropy heuristic never claims text that a known shape or a
    sensitive label has claimed. *)
Theorem detectors_report_text {re : Regex} {fi : Finditer} {fl : FloatLib} recs sd text ctx pii secrets custom :
  (forall p, builtin p -> finditer_laws p) -> Forall (fun rec => finditer_laws (rec_pattern rec)) recs ->
  regex_pii_detect text ctx = Ok pii -> secrets_detect sd text ctx = Ok secrets -> custom_detect recs text ctx = Ok custom ->
  (forall s, s ∈ pii ++ secrets ++ custom -> reported text s /\ stext s ∉ allowlist ctx) /\
  (forall s, s ∈ secrets -> exists shaped, shaped_spans sd text = Ok shaped /\
     (s ∈ shaped \/ entity s = "GENERIC_SECRET" /\ forall t, t ∈ shaped -> overlaps s t = false)).
Proof.
  intros Hlaws Hrecs Hpii Hsec Hcus. split.
  - intros s. rewrite !elem_of_app. intros [Hs|[Hs|Hs]].
    + by eapply regex_pii_reports.
    + by destruct (secrets_reports Hlaws _ _ _ _ _ Hsec Hs) as (? & ? & _).
    + by eapply custom_reports.
  - intros s Hs. by destruct (secrets_reports Hlaws _ _ _ _ _ Hsec Hs) as (_ & _ & ?).
Qed.

(** * A concrete matcher *)
#[local] Existing Instance literal_regex.
#[local] Existing Instance identity_keyed.
#[local] Instance zero_floats : FloatLib := {| log2 := fun _ => S754_zero false; float_sum := fun _ => S754_zero false |}.
(** A mail address is an at sign with the character before it, a configured pattern is a literal
    text, and [x*] matches the empty text at the start. *)
#[local] Instance demo_finditer : Finditer := {| finditer := fun p text =>
  match p with
  | EMAIL_RE => match String.index 0 "@" text with
                | Some (S i) => [{| m_start := i; m_end := S (S i); m_groups := [] |}] | _ => [] end
  | Configured lit _ =>
      if String.eqb lit "x*" then [{| m_start := 0; m_end := 0; m_groups := [] |}]
      else (fun i => {| m_start := i; m_end := i + String.length lit; m_groups := [] |})
             <$> find_all (S (String.length text)) text lit 0
  | _ => []
  end |}.

Lemma demo_laws p : builtin p -> finditer_laws p.
Proof.
  intros Hp. destruct p; try done; split; intros text m Hm; cbn in Hm; try (by apply elem_of_nil in Hm); try (by intros [?|?]).
  destruct (String.index 0 "@" text) as [[|i]|] eqn:Hi; try (by apply elem_of_nil in Hm).
  apply list_elem_of_singleton in Hm as ->. apply index_bound in Hi; [|done]. cbn in *. lia.
Qed.

Lemma literal_laws lit ic : lit <> "" -> lit <> "x*" -> finditer_laws (Configured lit ic).
Proof.
  intros Hne Hx. split; intros text m Hm; [|by intros [?|?]]. cbn [finditer demo_finditer] in Hm.
  rewrite (proj2 (String.eqb_neq lit "x*") Hx) in Hm. apply list_elem_of_fmap in Hm as (i & -> & Hi). cbn.
  apply find_all_bound in Hi; [|done]. destruct lit; [done|]. cbn in *. lia.
Qed.

Definition no_presidio : Detector := {| det_name := "presidio"; available := false; detect := fun _ _ => Ok [] |}.
Definition demo_configs : list val :=
  [VObj [("entity", VStr "EMPLOYEE_ID"); ("pattern", VStr "EMP-1"); ("confidence", VInt 1)]].
Definition demo_recognizers : list Recognizer := Eval vm_compute in (the (load_recognizers builtin_entities demo_configs) I).2.
Definition demo_standard : RedactionEngine := the (engine_for no_presidio demo_recognizers 1000 "standard") I.

Lemma demo_recognizers_laws : Forall (fun rec => finditer_laws (rec_pattern rec)) demo_recognizers.
Proof. constructor; [by apply literal_laws|constructor]. Qed.

Lemma profile_engines_render_witness :
  exists chosen, detect_spans demo_standard "EMP-1 is a@b" no_context = Ok chosen /\ ordered 0 12 chosen /\
    "[REDACTED:EMPLOYEE_ID] is [REDACTED:EMAIL]b" = render demo_standard "EMP-1 is a@b" 0 chosen.
Proof.
  destruct (redact_text demo_standard "EMP-1 is a@b" no_context []) as [[out st]|e] eqn:Hr; [|vm_compute in Hr; discriminate].
  assert (out = "[REDACTED:EMPLOYEE_ID] is [REDACTED:EMAIL]b") as <- by (vm_compute in Hr; by injection Hr).
  refine (profile_engines_render no_presidio demo_recognizers 1000 "standard" demo_standard "EMP-1 is a@b" no_context [] out st
    demo_laws demo_recognizers_laws _ eq_refl Hr).
  intros text ctx spans. by intros [= <-].
Defined.

Lemma detectors_report_text_witness :
  exists pii secrets custom, regex_pii_detect "EMP-1 is a@b" no_context = Ok pii /\
    secrets_detect SecretsDetector_default "EMP-1 is a@b" no_context = Ok secrets /\
    custom_detect demo_recognizers "EMP-1 is a@b" no_context = Ok custom /\
    stext <$> pii ++ secrets ++ custom = ["a@"; "EMP-1"] /\
    forall s, s ∈ pii ++ secrets ++ custom -> reported "EMP-1 is a@b" s /\ stext s ∉ allowlist no_context.
Proof.
  eexists _, _, _. split; [vm_compute; reflexivity|]. split; [vm_compute; reflexivity|]. split; [vm_compute; reflexivity|].
  split; [vm_compute; reflexivity|].
  refine (proj1 (detectors_report_text demo_recognizers SecretsDetector_default "EMP-1 is a@b" no_context _ _ _
    demo_laws demo_recognizers_laws _ _ _)); vm_compute; reflexivity.
Defined.

(** * Observations *)

(** A configured pattern that can match the empty text is accepted. Its empty span at the start
    of a sensitive one does not overlap it, is spliced first when its confidence is not lower,
    and shifts the text under the other splice: here a whole employee id comes out in clear. *)
Definition greedy_configs : list val :=
  [VObj [("entity", VStr "NOTE"); ("pattern", VStr "x*"); ("confidence", VInt 1)];
   VObj [("entity", VStr "EMPLOYEE_ID"); ("pattern", VStr "EMP-1")]].
Definition greedy_recognizers : list Recognizer := Eval vm_compute in (the (load_recognizers builtin_entities greedy_configs) I).2.
Definition greedy_standard : RedactionEngine := the (engine_for no_presidio greedy_recognizers 1000 "standard") I.
Lemma empty_match_leaks :
  rec_entity <$> greedy_recognizers = ["NOTE"; "EMPLOYEE_ID"] /\
  match redact_text greedy_standard "EMP-1" no_context [] with
  | Ok (out, (findings, _)) => out = "[REDACTED:EMPLOYEE_ID]CTED:NOTE]EMP-1" /\ List.length findings = 2
  | Err _ => False
  end.
Proof. split; [reflexivity|]. vm_compute. split; reflexivity. Qed.
