(* ===== verification/Vault.v ===== *)
(** The persistent token vault: [EncryptedSqliteVault] and the key loading of
    [redaction/vault.py]. The cipher, the key derivation and the MAC are the interface
    [VaultCrypto]; the system's entropy is a function of the draws made so far. The SQLite
    file is its two tables; each operation commits before it returns. *)
From S2P Require Import Prelude Base64 PyVal Redaction.

(** [AESGCM(key).encrypt/decrypt] ([None] is [InvalidTag]), [HKDF(...).derive] with the info
    string of the vault, and [hmac.new(key, value, sha256).hexdigest()]. *)
Class VaultCrypto := {
  aes_encrypt : string -> string -> string -> string -> string;         (* key, nonce, data, aad *)
  aes_decrypt : string -> string -> string -> string -> option string;
  hkdf_mac_key : string -> string;
  hmac_sha256 : string -> string -> string;                             (* key, value *)
  urandom : nat -> nat -> string;                                       (* draw number, size *)
}.

(** * The key-encryption key *)
Definition KEK_ENV_VAR : string := "MCP_GATEWAY_VAULT_KEK".

(** [load_kek_from_env]; the argument is the variable's value. *)
Definition load_kek_from_env (raw : option string) : result (option string) :=
  match raw with
  | None => Ok None
  | Some raw =>
      if nonempty raw then
        kek ← of_option (b64decode raw) (Exn ValueError (KEK_ENV_VAR +:+ " is not valid base64"));
        _ ← require (32 <=? String.length kek) ValueError (KEK_ENV_VAR +:+ " must decode to at least 32 bytes");
        Ok (Some kek)
      else Ok None
  end.

(** * The store *)

(** The [meta] row of the wrapped key, the [tokens] table, and the entropy drawn so far. *)
Record VaultDb := { wrapped_dek : option string; token_rows : list (string * (string * string)); draws : nat }.
Definition VaultDb_new : VaultDb := {| wrapped_dek := None; token_rows := []; draws := 0 |}.

Record EncryptedSqliteVault := { v_kek : string; mac_key : string; dek : string }.

Abbreviation V := (M VaultDb).

Section Vault.
Context `{VaultCrypto}.

Definition draw (size : nat) : V string := fun db =>
  (Ok (urandom (draws db) size),
   {| wrapped_dek := wrapped_dek db; token_rows := token_rows db; draws := S (draws db) |}).

Definition invalid_tag {A} : result A := raise OtherError "InvalidTag".
Definition decrypt (key nonce ct aad : string) : result string :=
  match aes_decrypt key nonce ct aad with Some v => Ok v | None => invalid_tag end.

Definition load_or_create_dek (kek : string) : V string :=
  db ← get;
  match wrapped_dek db with
  | Some blob => lift (decrypt kek (slice blob 0 12) (slice blob 12 (String.length blob)) "dek")
  | None =>
      new_dek ← draw 32;
      nonce ← draw 12;
      _ ← modify (fun db => {| wrapped_dek := Some (nonce +:+ aes_encrypt kek nonce new_dek "dek");
                               token_rows := token_rows db; draws := draws db |});
      mret new_dek
  end.

(** [EncryptedSqliteVault.__init__] *)
Definition open_vault (kek : string) : V EncryptedSqliteVault :=
  _ ← lift (require (32 <=? String.length kek) ValueError "KEK must be at least 32 bytes");
  k ← load_or_create_dek kek;
  mret {| v_kek := kek; mac_key := hkdf_mac_key kek; dek := k |}.

Definition vault_token (v : EncryptedSqliteVault) (entity value : string) : string :=
  token_string entity (hmac_sha256 (mac_key v) value).

Definition tokenize (v : EncryptedSqliteVault) (entity value : string) : V string :=
  let token := vault_token v entity value in
  db ← get;
  if ahas token (token_rows db) then mret token
  else
    nonce ← draw 12;
    _ ← modify (fun db => {| wrapped_dek := wrapped_dek db;
                             token_rows := token_rows db ++ [(token, (nonce, aes_encrypt (dek v) nonce value "val"))];
                             draws := draws db |});
    mret token.

Definition detokenize (v : EncryptedSqliteVault) (token : string) : V (option string) :=
  db ← get;
  match aget token (token_rows db) with
  | None => mret None
  | Some (nonce, ct) => value ← lift (decrypt (dek v) nonce ct "val"); mret (Some value)
  end.

(** * Histories *)

(** What happens to a vault file after it is created under a key: values are tokenized, and
    the process restarts with the same key. *)
Inductive vault_op := Tokenize (entity value : string) | Reopen.

Definition vault_op_step (v : EncryptedSqliteVault) (o : vault_op) : V EncryptedSqliteVault :=
  match o with Tokenize e x => _ ← tokenize v e x; mret v | Reopen => open_vault (v_kek v) end.

Fixpoint vault_run (v : EncryptedSqliteVault) (ops : list vault_op) : V EncryptedSqliteVault :=
  match ops with [] => mret v | o :: ops => v' ← vault_op_step v o; vault_run v' ops end.

Definition tokenized (ops : list vault_op) : list (string * string) :=
  omap (fun o => match o with Tokenize e x => Some (e, x) | Reopen => None end) ops.

(** What the cipher and the entropy source document. *)
Class CryptoLaws := {
  decrypt_encrypt key nonce data aad : aes_decrypt key nonce (aes_encrypt key nonce data aad) aad = Some data;
  urandom_size n size : String.length (urandom n size) = size;
}.
End Vault.

Arguments CryptoLaws : clear implicits.
Arguments CryptoLaws _ : assert.

(** * The vault gives back what it was given *)
Section Correct.
Context `{HC : VaultCrypto} `{HL : !CryptoLaws HC}.

(** The value a token stands for: the first one of the history that has it. *)
Definition token_of (kek : string) (ev : string * string) : string :=
  token_string ev.1 (hmac_sha256 (hkdf_mac_key kek) ev.2).
Definition first_value (kek : string) (history : list (string * string)) (token : string) : option string :=
  snd <$> List.find (fun ev => bool_decide (token_of kek ev = token)) history.

Lemma first_value_snoc kek history ev token : first_value kek (history ++ [ev]) token =
  match first_value kek history token with
  | Some x => Some x
  | None => if decide (token_of kek ev = token) then Some ev.2 else None
  end.
Proof.
  unfold first_value. induction history as [|ev' history IH]; cbn; [by case_bool_decide; case_decide|].
  case_bool_decide; [done|exact IH].
Qed.

Lemma slice_app_nonce nonce rest : String.length nonce = 12 ->
  slice (nonce +:+ rest) 0 12 = nonce /\ slice (nonce +:+ rest) 12 (String.length (nonce +:+ rest)) = rest.
Proof.
  intros Hn. rewrite <- (of_chars_chars (slice _ 0 12)), <- (of_chars_chars (slice _ 12 _)), !chars_slice, drop_0.
  rewrite <- length_chars, chars_app in *. rewrite take_app_length', drop_app_length' by lia.
  by rewrite take_ge, !of_chars_chars by (rewrite length_app; lia).
Qed.

Record vault_ok (kek : string) (history : list (string * string)) (v : EncryptedSqliteVault) (db : VaultDb) : Prop := {
  ok_kek : v_kek v = kek;
  ok_mac : mac_key v = hkdf_mac_key kek;
  ok_meta : exists nonce, String.length nonce = 12 /\ wrapped_dek db = Some (nonce +:+ aes_encrypt kek nonce (dek v) "dek");
  ok_rows token : match aget token (token_rows db) with
    | Some (nonce, ct) => exists value, first_value kek history token = Some value /\ aes_decrypt (dek v) nonce ct "val" = Some value
    | None => first_value kek history token = None
    end;
}.

Lemma open_new kek : 32 <= String.length kek ->
  exists v db, open_vault kek VaultDb_new = (Ok v, db) /\ vault_ok kek [] v db.
Proof.
  intros Hk. unfold open_vault. rewrite (proj2 (Nat.leb_le _ _) Hk). eexists _, _. split; [reflexivity|].
  constructor; cbn; try done. exists (urandom 1 12). by rewrite urandom_size.
Qed.

Lemma reopen_ok kek history v db : 32 <= String.length kek -> vault_ok kek history v db ->
  exists v', open_vault kek db = (Ok v', db) /\ vault_ok kek history v' db.
Proof.
  intros Hk [Hkek Hmac (nonce & Hn & Hmeta) Hrows]. destruct (slice_app_nonce _ (aes_encrypt kek nonce (dek v) "dek") Hn) as [H1 H2].
  exists {| v_kek := kek; mac_key := hkdf_mac_key kek; dek := dek v |}. split.
  - unfold open_vault, load_or_create_dek, mbind, M_bind, lift, get. rewrite (proj2 (Nat.leb_le _ _) Hk). cbn [require].
    rewrite Hmeta, H1, H2. unfold decrypt. by rewrite decrypt_encrypt.
  - constructor; cbn; eauto.
Qed.

Lemma aget_snoc {A} (k k' : string) (x : A) d :
  aget k (d ++ [(k', x)]) = match aget k d with Some y => Some y | None => if decide (k = k') then Some x else None end.
Proof. induction d as [|[k2 z] d IH]; cbn; [done|]. by destruct (decide (k = k2)). Qed.

Lemma tokenize_ok kek history v db e x : vault_ok kek history v db ->
  exists db', tokenize v e x db = (Ok (token_of kek (e, x)), db') /\ vault_ok kek (history ++ [(e, x)]) v db'.
Proof.
  intros [Hkek Hmac Hmeta Hrows]. unfold tokenize, vault_token, mbind, M_bind, get. rewrite Hmac.
  change (token_string e _) with (token_of kek (e, x)). unfold ahas. pose proof (Hrows (token_of kek (e, x))) as Ht.
  destruct (aget (token_of kek (e, x)) (token_rows db)) as [[n ct]|] eqn:Hg.
  - exists db. split; [done|]. constructor; try done. intros token. specialize (Hrows token). rewrite first_value_snoc.
    destruct (aget token _) as [[n' ct']|] eqn:Hg'; [destruct Hrows as (value & -> & ?); eauto|].
    rewrite Hrows, decide_False; [done|]. intros <-. congruence.
  - eexists. split; [reflexivity|]. constructor; try done. intros token. cbn [token_rows]. specialize (Hrows token).
    rewrite aget_snoc, first_value_snoc. destruct (aget token (token_rows db)) as [[n' ct']|];
      [destruct Hrows as (value & -> & ?); eauto|]. rewrite Hrows.
    destruct (decide (token = token_of kek (e, x))) as [->|Hne]; [rewrite decide_True by done|by rewrite decide_False by congruence].
    eexists. split; [done|]. apply decrypt_encrypt.
Qed.

Lemma run_vault_ok kek history v db ops : 32 <= String.length kek -> vault_ok kek history v db ->
  exists v' db', vault_run v ops db = (Ok v', db') /\ vault_ok kek (history ++ tokenized ops) v' db'.
Proof.
  intros Hk. revert history v db. induction ops as [|[e x|] ops IH]; intros history v db Hok.
  - exists v, db. cbn. by rewrite app_nil_r.
  - destruct (tokenize_ok _ _ _ _ e x Hok) as (db' & Ht & Hok'). destruct (IH _ _ _ Hok') as (v2 & db2 & Hr & Hok2).
    exists v2, db2. cbn [vault_run vault_op_step]. unfold mbind, M_bind at 1 2. rewrite Ht. split; [exact Hr|].
    by rewrite <- (assoc_L (++)) in Hok2.
  - destruct (reopen_ok _ _ _ _ Hk Hok) as (v' & Ho & Hok'). destruct (IH _ _ _ Hok') as (v2 & db2 & Hr & Hok2).
    exists v2, db2. cbn [vault_run vault_op_step]. unfold mbind, M_bind. rewrite (ok_kek _ _ _ _ Hok), Ho. by split.
Qed.
End Correct.


(** A vault opened under a key that does not unwrap its data key is not opened, and
    nothing is written. *)
Lemma wrong_kek_refused `{VaultCrypto} kek db blob : 32 <= String.length kek -> wrapped_dek db = Some blob ->
  aes_decrypt kek (slice blob 0 12) (slice blob 12 (String.length blob)) "dek" = None ->
  open_vault kek db = (invalid_tag, db).
Proof.
  intros Hk Hm Hd. unfold open_vault, load_or_create_dek, mbind, M_bind, lift, get. rewrite (proj2 (Nat.leb_le _ _) Hk). cbn [require].
  rewrite Hm. unfold decrypt. by rewrite Hd.
Qed.

(** * A concrete cipher *)

(** A cipher that prefixes the key, and a key-dependent MAC: enough to evaluate the vault on. *)
Definition toy_crypto : VaultCrypto :=
  {| aes_encrypt := fun key _ data _ => key +:+ data;
     aes_decrypt := fun key _ ct _ =>
       if startswith key ct then Some (slice ct (String.length key) (String.length ct)) else None;
     hkdf_mac_key := fun kek => slice kek 0 4;
     hmac_sha256 := fun key value => key +:+ value;
     urandom := fun n size => of_chars (repeat "r"%char size) |}.

Lemma toy_laws : CryptoLaws toy_crypto.
Proof.
  split.
  - intros key nonce data aad. cbn [aes_decrypt aes_encrypt toy_crypto]. unfold startswith. rewrite prefix_app_true. f_equal.
    rewrite <- (of_chars_chars (slice _ _ _)), chars_slice, chars_app, <- !length_chars, chars_app, drop_app_length, length_app.
    rewrite take_ge by lia. apply of_chars_chars.
  - intros n size. cbn [urandom toy_crypto]. rewrite <- length_chars, chars_of_chars. apply repeat_length.
Qed.

Definition demo_kek : string := "0123456789abcdef0123456789abcdef".
Definition demo_ops : list vault_op := [Tokenize "EMAIL" "a@b"; Reopen; Tokenize "SSN" "078-05-1120"; Tokenize "EMAIL" "a@b"].


(** * Observations *)
#[local] Existing Instance toy_crypto.

(** The stored MAC is cut to twelve digits and nothing compares the values: a value whose cut
    MAC is taken gets the token of another value, and that value back. *)
Lemma colliding_values_share_token :
  let go := (v ← open_vault demo_kek; t1 ← tokenize v "NAME" "customer-1001"; t2 ← tokenize v "NAME" "customer-1002";
             back ← detokenize v t2; mret (bool_decide (t1 = t2), back)) in
  (go VaultDb_new).1 = Ok (true, Some "customer-1001").
Proof. vm_compute. reflexivity. Qed.

(** Re-wrapping the data key under a new key keeps every row readable and every old token
    reversible, but the MAC key follows the new key: the same value gets a second token. *)
Definition rewrap (old new : string) (db : VaultDb) : VaultDb :=
  match wrapped_dek db with
  | Some blob => match aes_decrypt old (slice blob 0 12) (slice blob 12 (String.length blob)) "dek" with
                 | Some k => {| wrapped_dek := Some (slice blob 0 12 +:+ aes_encrypt new (slice blob 0 12) k "dek");
                                token_rows := token_rows db; draws := draws db |}
                 | None => db
                 end
  | None => db
  end.

Lemma rotation_splits_tokens :
  let new_kek := "fedcba9876543210fedcba9876543210" in
  let '(r1, db1) := (v ← open_vault demo_kek; tokenize v "EMAIL" "a@b") VaultDb_new in
  let '(r2, db2) := (v ← open_vault new_kek; tokenize v "EMAIL" "a@b") (rewrap demo_kek new_kek db1) in
  exists t1 t2, r1 = Ok t1 /\ r2 = Ok t2 /\ t1 <> t2 /\ List.length (token_rows db2) = 2.
Proof. eexists _, _. split; [reflexivity|]. split; [reflexivity|]. split; [discriminate|reflexivity]. Qed.
