(* ===== verification/Presidio.v ===== *)
(** The NER detector: [redaction/detectors/presidio.py]. The analyzer is third-party code, a
    function of the chunk it is given; what the detector adds (the chunking, the offsets,
    the entity map and the allowlist) is modelled. Text is counted in characters. *)
From Stdlib Require Import SpecFloat.
From S2P Require Import Prelude PyVal Session Rules Spans Redaction Detectors.

Definition ENTITY_MAP : list (string * string) := [("PERSON", "PERSON"); ("LOCATION", "LOCATION"); ("NRP", "NRP")].
Definition MODELS : list string := ["en_core_web_lg"; "en_core_web_sm"].
Definition CHUNK_BYTES : nat := N.to_nat 100000.

(** * Chunks *)

(** [text.rfind(" ", start, end)] *)
Fixpoint rfind_space (l : list ascii) (pos : nat) (found : option nat) : option nat :=
  match l with
  | [] => found
  | a :: l => rfind_space l (S pos) (if Ascii.eqb a " "%char then Some pos else found)
  end.

Definition chunk_end (limit : nat) (text : string) (start : nat) : nat :=
  let n := String.length text in
  let e := Nat.min (start + limit) n in
  if e <? n then
    match rfind_space (chars (slice text start e)) start None with
    | Some ws => if start <? ws then ws else e
    | None => e
    end
  else e.

(** The loop of [_chunks]; the text's length is fuel enough, as each chunk is not empty. *)
Fixpoint chunk_loop (fuel : nat) (limit : nat) (text : string) (start : nat) : list (nat * string) :=
  match fuel with
  | 0 => []
  | S fuel =>
      if start <? String.length text then
        let e := chunk_end limit text start in (start, slice text start e) :: chunk_loop fuel limit text e
      else []
  end.

Definition chunks_of (limit : nat) (text : string) : list (nat * string) :=
  if String.length text <=? limit then [(0, text)] else chunk_loop (String.length text) limit text 0.

Definition chunks : string -> list (nat * string) := chunks_of CHUNK_BYTES.

(** * The detector *)

(** [RecognizerResult] of the analyzer *)
Record NerResult := { entity_type : string; r_start : nat; r_stop : nat; score : spec_float }.

(** [_load_analyzer]: the installed packages decide, any failure means unavailable. *)
Definition load_analyzer {A} (is_package : string -> bool) (build : string -> option A) : option A :=
  model ← List.find is_package MODELS; build model.

Section Detector.
Context (analyzer : option (string -> list NerResult)).

Definition ner_span (ctx : DetectionContext) (offset : nat) (chunk : string) (r : NerResult) : result (option Span) :=
  match aget (entity_type r) ENTITY_MAP with
  | None => Ok None
  | Some ent =>
      let matched := slice chunk (r_start r) (r_stop r) in
      if decide (matched ∈ allowlist ctx) then Ok None
      else s ← Span_new ent (offset + r_start r) (offset + r_stop r) (score r) "presidio" matched; Ok (Some s)
  end.

Definition chunk_spans (analyze : string -> list NerResult) (ctx : DetectionContext) (oc : nat * string) : result (list Span) :=
  ls ← map_res (ner_span ctx oc.1 oc.2) (analyze oc.2); Ok (omap id (ls : list (option Span))).

Definition presidio_detect (text : string) (ctx : DetectionContext) : result (list Span) :=
  match analyzer with
  | None => Ok []
  | Some analyze => ls ← map_res (chunk_spans analyze ctx) (chunks text); Ok (concat ls)
  end.

Definition PresidioDetector : Detector :=
  {| det_name := "presidio"; available := match analyzer with Some _ => true | None => false end; detect := presidio_detect |}.
End Detector.

(** * Chunking loses nothing *)
Lemma rfind_space_bound l pos found i : rfind_space l pos found = Some i ->
  found = Some i \/ (pos <= i < pos + List.length l).
Proof.
  revert pos found. induction l as [|a l IH]; cbn; intros pos found Hr; [by left|].
  apply IH in Hr as [Hr|Hr]; [|right; lia]. destruct (Ascii.eqb a " "); [|by left]. right. injection Hr as <-. lia.
Qed.

Lemma chunk_end_bound limit text start : 0 < limit -> start < String.length text ->
  start < chunk_end limit text start <= Nat.min (start + limit) (String.length text).
Proof.
  intros Hl Hs. unfold chunk_end. set (e := Nat.min (start + limit) (String.length text)).
  assert (start < e) as He by (unfold e; lia). destruct (Nat.ltb_spec e (String.length text)); [|lia].
  destruct (rfind_space _ _ _) as [ws|] eqn:Hr; [|lia]. destruct (Nat.ltb_spec start ws); [|lia].
  apply rfind_space_bound in Hr as [?|Hr]; [done|]. rewrite chars_slice, length_take, length_drop, length_chars in Hr. lia.
Qed.

(** The chunks from a position tile the rest of the text. *)
Definition tiles (limit : nat) (text : string) (from : nat) (cs : list (nat * string)) : Prop :=
  Forall (fun oc => from <= oc.1 /\ oc.1 + String.length oc.2 <= String.length text /\ String.length oc.2 <= limit /\
    oc.2 = slice text oc.1 (oc.1 + String.length oc.2)) cs /\
  concat (chars <$> (snd <$> cs)) = drop from (chars text).

Lemma length_slice s i j : i <= j -> j <= String.length s -> String.length (slice s i j) = j - i.
Proof. intros Hi Hj. rewrite <- length_chars, chars_slice, length_take, length_drop, length_chars. lia. Qed.

Lemma chunk_loop_tiles fuel limit text start : 0 < limit -> String.length text <= fuel + start -> start <= String.length text ->
  tiles limit text start (chunk_loop fuel limit text start) /\
  Forall (fun oc => 0 < String.length oc.2) (chunk_loop fuel limit text start).
Proof.
  intros Hl. revert start. induction fuel as [|fuel IH]; intros start Hf Hs; cbn [chunk_loop].
  - split; [|constructor]. split; [constructor|]. cbn. by rewrite drop_ge by (rewrite length_chars; lia).
  - destruct (Nat.ltb_spec start (String.length text)) as [Hlt|Hge].
    + pose proof (chunk_end_bound limit text start Hl Hlt) as He. set (e := chunk_end limit text start) in *.
      destruct (IH e) as [[Hall Hcat] Hne]; [lia|lia|]. unfold tiles. cbn [fmap list_fmap concat snd].
      assert (String.length (slice text start e) = e - start) as Hlen by (apply length_slice; lia).
      split; [split|]; [apply Forall_cons; split| |apply Forall_cons; split; [cbn; lia|done]].
      * cbn [fst snd]. rewrite Hlen. split_and!; [lia|lia|lia|f_equal; lia].
      * eapply Forall_impl; [exact Hall|]. intros oc (? & ? & ? & ?). split_and!; [lia|done..].
      * rewrite Hcat, chars_slice.
        replace (drop e (chars text)) with (drop (e - start) (drop start (chars text))) by (rewrite drop_drop; f_equal; lia).
        apply take_drop.
    + split; [|constructor]. split; [constructor|]. cbn. by rewrite drop_ge by (rewrite length_chars; lia).
Qed.

Lemma slice_whole s : slice s 0 (String.length s) = s.
Proof. apply chars_inj. rewrite chars_slice, drop_0, Nat.sub_0_r, <- length_chars. by apply take_ge. Qed.

(** For a positive limit the chunks of a text tile it; a text over the limit is cut into
    non-empty chunks. *)
Lemma chunks_tile limit text : 0 < limit ->
  tiles limit text 0 (chunks_of limit text) /\
  (limit < String.length text -> Forall (fun oc => 0 < String.length oc.2) (chunks_of limit text)).
Proof.
  intros Hl. unfold chunks_of. destruct (Nat.leb_spec (String.length text) limit) as [Hle|Hgt].
  - split; [|lia]. split; [|cbn; by rewrite app_nil_r, drop_0]. constructor; [|constructor]. cbn [fst snd].
    split_and!; [lia|lia|lia|by rewrite slice_whole].
  - destruct (chunk_loop_tiles (String.length text) limit text 0 Hl) as [Ht Hn]; [lia|lia|]. by split.
Qed.

Lemma chunk_loop_fuel f g limit text start : 0 < limit -> String.length text <= f + start -> String.length text <= g + start ->
  chunk_loop f limit text start = chunk_loop g limit text start.
Proof.
  intros Hl. revert g start. induction f as [|f IH]; intros [|g] start Hf Hg; cbn [chunk_loop]; try done;
    destruct (Nat.ltb_spec start (String.length text)) as [Hlt|Hge]; try done; try lia.
  pose proof (chunk_end_bound limit text start Hl Hlt). f_equal. apply IH; lia.
Qed.

(** C40: Chunking ends and loses nothing. For a positive limit the loop over a text stops within
    as many rounds as the text has characters, whatever more it is given; each chunk is at its
    offset, none is longer than the limit, none of a text over the limit is empty; and one
    after the other they are the text. *)
Theorem chunking_ends limit text : 0 < limit ->
  (forall fuel, String.length text <= fuel -> chunk_loop fuel limit text 0 = chunk_loop (String.length text) limit text 0) /\
  List.length (chunk_loop (String.length text) limit text 0) <= String.length text /\
  Forall (fun oc => String.length oc.2 <= limit /\ oc.2 = slice text oc.1 (oc.1 + String.length oc.2)) (chunks_of limit text) /\
  (limit < String.length text -> Forall (fun oc => 0 < String.length oc.2) (chunks_of limit text)) /\
  concat (chars <$> (snd <$> chunks_of limit text)) = chars text.
Proof.
  intros Hl. destruct (chunks_tile limit text Hl) as [[Ht Hc] Hn]. split_and!; [| | |exact Hn|exact Hc].
  - intros fuel Hf. by apply chunk_loop_fuel; lia.
  - assert (forall f start, List.length (chunk_loop f limit text start) <= f) as Hlen; [|apply Hlen].
    induction f as [|f IH]; intros start; cbn [chunk_loop]; [done|]. destruct (_ <? _); cbn; [specialize (IH (chunk_end limit text start))|]; lia.
  - eapply Forall_impl; [exact Ht|]. by intros oc (_ & _ & ? & ?).
Qed.

Lemma chunking_ends_witness :
  0 < 8 /\ concat (chars <$> (snd <$> chunks_of 8 "Ada Lovelace, London")) = chars "Ada Lovelace, London" /\
  (snd <$> chunks_of 8 "Ada Lovelace, London") = ["Ada"; " Lovelac"; "e,"; " London"].
Proof.
  assert (0 < 8) as Hl by (apply Nat.ltb_lt; reflexivity).
  destruct (chunking_ends 8 "Ada Lovelace, London" Hl) as (_ & _ & _ & _ & Hc).
  split; [exact Hl|]. split; [exact Hc|]. vm_compute. reflexivity.
Defined.

(** * Spans refer to the whole text *)
Lemma slice_slice s i j a b : i <= j -> j <= String.length s -> a <= b -> b <= j - i ->
  slice (slice s i j) a b = slice s (i + a) (i + b).
Proof.
  intros Hi Hj Ha Hb. apply chars_inj. rewrite !chars_slice. rewrite skipn_firstn_comm, drop_drop, take_take. f_equal. lia.
Qed.

(** The analyzer's results are non-empty parts of the chunk it was given. *)
Definition analyzer_ok (analyze : string -> list NerResult) : Prop :=
  forall chunk r, r ∈ analyze chunk -> r_start r < r_stop r <= String.length chunk.

(** The detector keeps what the engine needs: every span it reports is a non-empty part of the
    whole text, carries that part, is one of the three entities, and is not on the allowlist. *)
Theorem presidio_reports analyze text ctx spans s : analyzer_ok analyze ->
  presidio_detect (Some analyze) text ctx = Ok spans -> s ∈ spans ->
  reported text s /\ entity s ∈ ENTITY_MAP.*2 /\ stext s ∉ allowlist ctx.
Proof.
  intros Ha. unfold presidio_detect. intros (ls & Hls & [= <-])%bind_ok Hs. apply elem_concat in Hs as (l & Hl & Hs).
  apply map_res_ok, Forall2_elem in Hls as [_ Hls]. destruct (Hls _ Hl) as ([o chunk] & Hoc & Hsp). clear Hls Hl.
  apply bind_ok in Hsp as (ls' & Hls' & [= <-]). apply elem_omap_id in Hs.
  apply map_res_ok, Forall2_elem in Hls' as [_ Hls']. destruct (Hls' _ Hs) as (r & Hr & Hsp). cbn [fst snd] in *.
  destruct (chunks_tile CHUNK_BYTES text) as [[Ht _] _]; [apply Nat.ltb_lt; vm_compute; reflexivity|].
  rewrite Forall_forall in Ht. destruct (Ht _ Hoc) as (_ & Hb & _ & Hc). cbn [fst snd] in *.
  destruct (Ha _ _ Hr) as [H1 H2]. unfold ner_span in Hsp. destruct (aget (entity_type r) ENTITY_MAP) as [ent|] eqn:He; [|done].
  case_decide as Hal; [done|]. apply bind_ok in Hsp as (s' & Hn & [= ->]).
  destruct (Span_new_fields _ _ _ _ _ _ _ Hn) as (Hen & Hst & Hend & Htx). unfold reported, span_in. rewrite Hst, Hend, Htx, Hen.
  split_and!; [lia|lia| |by apply aget_Some_elem, (list_elem_of_fmap_2 snd) in He|done].
  rewrite Hc at 1. rewrite slice_slice by lia. done.
Qed.

Lemma presidio_ok analyze : (forall f, analyze = Some f -> analyzer_ok f) -> detector_ok (PresidioDetector analyze).
Proof.
  intros Ha text ctx spans Hs. apply Forall_forall. intros s Hin. destruct analyze as [f|].
  - by destruct (presidio_reports f text ctx spans s (Ha f eq_refl) Hs Hin) as [[? _] _].
  - injection Hs as <-. by apply elem_of_nil in Hin.
Qed.
