(* ===== verification/Protocol.v ===== *)
(** The wire codec: [protocol/jsonrpc.py] and [protocol/mcp.py]. A message is the raw
    dictionary, kept verbatim. *)
From S2P Require Import Prelude PyVal Json.

Definition JSONRPC_VERSION : string := "2.0".
Definition ERROR_POLICY_DENIED : Z := (-32001)%Z.

Definition msg_id (raw : pydict) : val := opt_val (dget "id" raw).
Definition method (raw : pydict) : option string :=
  match dget "method" raw with Some (VStr m) => Some m | _ => None end.
Definition params (raw : pydict) : pydict :=
  match dget "params" raw with Some (VDict p) => p | _ => [] end.

Definition has_method (raw : pydict) : bool := match method raw with Some _ => true | None => false end.
Definition is_request (raw : pydict) : bool := has_method raw && negb (is_none (msg_id raw)).
Definition is_notification (raw : pydict) : bool := has_method raw && is_none (msg_id raw).
Definition is_response (raw : pydict) : bool :=
  negb (has_method raw) && (dhas "result" raw || dhas "error" raw).

(** [None] for anything that is not a JSON object; only [JSONDecodeError] is caught. *)
Definition decode_line (line : string) : result (option pydict) :=
  match json_loads line with
  | Err (Exn JSONDecodeError _) => Ok None
  | Err e => Err e
  | Ok (VDict raw) => Ok (Some raw)
  | Ok _ => Ok None
  end.

Definition encode (payload : val) : string := json_dumps payload.
Definition encode_msg (raw : pydict) : string := encode (VDict raw).

Definition error_response (request_id : val) (code : Z) (message : string) : pydict := fields
  [("jsonrpc", VStr JSONRPC_VERSION); ("id", request_id);
   ("error", VObj [("code", VInt code); ("message", VStr message)])].

Definition denied_response (request_id : val) (tool reason : string) : pydict :=
  error_response request_id ERROR_POLICY_DENIED
    ("Tool call '" +:+ tool +:+ "' denied by security gateway policy (" +:+ reason
     +:+ "). The request never reached the upstream server.").

Definition METHOD_TOOLS_LIST : string := "tools/list".
Definition METHOD_TOOLS_CALL : string := "tools/call".

Definition is_tool_call (raw : pydict) : bool :=
  bool_decide (method raw = Some METHOD_TOOLS_CALL) && is_request raw.

Definition tool_call_parts (raw : pydict) : string * pydict :=
  (match dget "name" (params raw) with Some (VStr (String _ _ as s)) => s | _ => "<unknown>" end,
   match dget "arguments" (params raw) with Some (VDict a) => a | _ => [] end).

Definition result_is_error (raw : pydict) : bool :=
  if dhas "error" raw then true
  else match dget "result" raw with
       | Some (VDict r) => match dget "isError" r with Some (VBool true) => true | _ => false end
       | _ => false
       end.

(** [len(s.encode("utf-8"))] for code points below 256 *)
Definition utf8_len (s : string) : Z :=
  fold_right (fun a n => ((if (nat_of_ascii a <? 128)%nat then 1 else 2) + n)%Z) 0%Z (chars s).

Definition result_size_bytes (raw : pydict) : Z :=
  match dget_or "result" (opt_val (dget "error" raw)) raw with
  | VNone => 0%Z
  | body => utf8_len (encode body)
  end.

(** * What the codec promises *)

(** Classification is a partition. A message that is not a request, a notification or a response
    has neither a method nor a result nor an error, and no message is two of the three. *)
Theorem message_kinds raw :
  is_request raw || is_notification raw || is_response raw
    || (negb (has_method raw) && negb (dhas "result" raw || dhas "error" raw)) = true /\
  is_request raw && is_notification raw = false /\ is_request raw && is_response raw = false /\
  is_notification raw && is_response raw = false.
Proof.
  unfold is_request, is_notification, is_response.
  destruct (has_method raw), (is_none (msg_id raw)), (dhas "result" raw || dhas "error" raw); done.
Qed.

Lemma decode_encode raw : plain (VDict raw) -> decode_line (encode_msg raw) = Ok (Some raw).
Proof. intros Hp. unfold decode_line, encode_msg, encode. by rewrite loads_dumps. Qed.

(** ** Framing: an encoded message is one line *)
Lemma pretty_N_go_no_newline n s : no_newline s = true -> no_newline (pretty_N_go n s) = true.
Proof.
  intros Hs. destruct (decide (n = 0)%N) as [->|Hn]; [by rewrite pretty_N_go_0|].
  destruct (pretty_N_go_digits n s) as (a & ds & Heq & Hall & _); [lia|].
  unfold no_newline in *. rewrite Heq, forallb_app, Hs, andb_true_r.
  apply forallb_forall. intros b Hb. rewrite forallb_forall in Hall. specialize (Hall b Hb).
  unfold is_digit in Hall. apply andb_true_iff in Hall as [H1%Nat.leb_le _].
  apply negb_true_iff, Nat.eqb_neq. lia.
Qed.

Lemma pretty_N_no_newline (n : N) : no_newline (pretty n) = true.
Proof. unfold pretty, pretty_N. case_decide; [done|by apply pretty_N_go_no_newline]. Qed.

Lemma pretty_Z_no_newline (z : Z) : no_newline (pretty z) = true.
Proof.
  destruct z as [|p|p]; [done|apply (pretty_N_no_newline (N.pos p))|].
  change (pretty (Z.neg p)) with ("-" +:+ pretty (N.pos p)).
  by rewrite no_newline_app, pretty_N_no_newline.
Qed.

Lemma slice_no_newline s i j : no_newline s = true -> no_newline (slice s i j) = true.
Proof.
  unfold no_newline. rewrite chars_slice. intros Hs. rewrite <- (take_drop i (chars s)), forallb_app in Hs.
  apply andb_true_iff in Hs as [_ Hs]. rewrite <- (take_drop (j - i) (drop i (chars s))), forallb_app in Hs.
  by apply andb_true_iff in Hs as [Hs _].
Qed.

Lemma zeros_no_newline n : no_newline (zeros n) = true.
Proof. unfold zeros, no_newline. rewrite chars_of_chars. by induction (Z.to_nat n). Qed.

Lemma float_digits_no_newline ds k : no_newline ds = true -> no_newline (float_digits ds k) = true.
Proof.
  intros Hd. unfold float_digits. repeat case_match; rewrite ?no_newline_app, ?zeros_no_newline, ?Hd, ?slice_no_newline, ?pretty_Z_no_newline by done;
    try done; repeat case_match; rewrite ?no_newline_app, ?slice_no_newline by done; done.
Qed.

Lemma dump_float_no_newline f : no_newline (dump_float f) = true.
Proof.
  destruct f as [[]|[]| |[] m e]; try done; unfold dump_float, float_repr; destruct (ratio_of m e) as [num den];
    destruct (shortest _ _ _ _ _ _) as [d x]; destruct (strip_zeros _ _ _) as [d' x'];
    by rewrite no_newline_app, float_digits_no_newline by apply pretty_Z_no_newline.
Qed.

Lemma dumped_no_newline sp v : no_newline sp = true -> no_newline (dumped sp v) = true.
Proof.
  intros Hsp. assert (no_newline (isep sp) = true) as Hi by (unfold isep; by rewrite no_newline_app, Hsp).
  assert (no_newline (ksep sp) = true) as Hks by (unfold ksep; by rewrite no_newline_app, Hsp).
  induction v as [|[]|z|f|s|l IH|d IH] using val_ind'; try done.
  - apply pretty_Z_no_newline.
  - apply dump_float_no_newline.
  - apply dump_str_no_newline.
  - change (dumped sp (VList l)) with ("[" +:+ (join (isep sp) (dumped sp <$> l) +:+ "]")).
    rewrite !no_newline_app. rewrite join_no_newline; [done|done|]. by apply Forall_fmap.
  - change (dumped sp (VDict d)) with ("{" +:+ (join (isep sp) ((fun '(k, x) => dump_key k +:+ ksep sp +:+ dumped sp x) <$> d) +:+ "}")).
    rewrite !no_newline_app. rewrite join_no_newline; [done|done|].
    apply Forall_fmap. eapply Forall_impl; [exact IH|]. intros [k x] Hx. cbn [snd compose] in *.
    change (no_newline (dump_key k +:+ (ksep sp +:+ dumped sp x)) = true).
    rewrite !no_newline_app, Hx, Hks, andb_true_r. unfold dump_key. by rewrite dump_str_no_newline.
Qed.

(** The compact encoding of a value is one line. *)
Lemma dumps_no_newline v : no_newline (json_dumps v) = true.
Proof. exact (dumped_no_newline "" v eq_refl). Qed.

(** The codec is a framing. A message built of JSON values encodes to one line, which holds no
    newline and decodes to the message itself. *)
Theorem framing_roundtrip raw : plain (VDict raw) ->
  decode_line (encode_msg raw) = Ok (Some raw) /\ no_newline (encode_msg raw) = true.
Proof. intros Hp. split; [by apply decode_encode|apply dumps_no_newline]. Qed.

Lemma framing_roundtrip_witness :
  let raw := denied_response (VInt 7) "db.drop" (of_chars [ascii_of_nat 10; ascii_of_nat 34; ascii_of_nat 92]) in
  decode_line (encode_msg raw) = Ok (Some raw) /\ no_newline (encode_msg raw) = true.
Proof.
  apply framing_roundtrip. unfold denied_response, error_response, fields. cbn.
  repeat split; try reflexivity; try (apply (bool_decide_unpack _); vm_compute; exact I).
Defined.
