(* ===== verification/Approvals.v ===== *)
(** Human approval and behavioural monitoring: [approvals/] and [anomaly/]. An approval
    channel and a monitor backend are functions of how often they were asked and of the
    question, so that the same question may be answered differently later. *)
From S2P Require Import Prelude PyVal Session.

(** * Approvals *)
Record ApprovalRequest := {
  ar_request_id : val;
  ar_session_id : string;
  ar_tool : string;
  ar_arguments : pydict;
  ar_principal : string;
  ar_reason : string;
}.

Definition to_wire (r : ApprovalRequest) : val := VObj
  [("request_id", ar_request_id r); ("session_id", VStr (ar_session_id r)); ("tool", VStr (ar_tool r));
   ("arguments", VDict (ar_arguments r)); ("principal", VStr (ar_principal r)); ("reason", VStr (ar_reason r))].

Record Resolution := { approved : bool; approver : string; note : string }.

Definition fail_closed (n : string) : Resolution :=
  {| approved := false; approver := "system"; note := "fail-closed: " +:+ n |}.

(** What awaiting a channel under a deadline can give: an answer, the deadline, or an
    exception (its class name). *)
Inductive channel_answer := Answer (r : Resolution) | TimedOut | Failed (type_name : string).

Record ApprovalChannel := {
  ch_name : string;
  can_approve : bool;
  ch_request : nat -> ApprovalRequest -> channel_answer;
}.

(** [approvals/channels/local.py] *)
Definition DenyChannel : ApprovalChannel :=
  {| ch_name := "deny"; can_approve := false;
     ch_request := fun _ _ => Answer {| approved := false; approver := "policy"; note := "no approver configured; fail-closed deny" |} |}.
Definition AllowChannel : ApprovalChannel :=
  {| ch_name := "allow"; can_approve := true;
     ch_request := fun _ _ => Answer {| approved := true; approver := "auto"; note := "auto-approved (dev mode)" |} |}.

Record ApprovalBroker := { channel : ApprovalChannel; deadline : nat; fail_open : bool }.

Definition on_error (b : ApprovalBroker) (n : string) : Resolution :=
  if fail_open b then
    {| approved := true; approver := "system"; note := "fail-open: " +:+ n +:+ " (posture=open)" |}
  else fail_closed n.

Definition broker_request (b : ApprovalBroker) (asked : nat) (req : ApprovalRequest) : Resolution :=
  match ch_request (channel b) asked req with
  | Answer r => r
  | TimedOut => on_error b ("no decision within " +:+ pretty (deadline b) +:+ "s")
  | Failed ty => on_error b ("approver unavailable (" +:+ ty +:+ ")")
  end.

Definition build_broker (mode : string) (http : option ApprovalChannel) (deadline : nat) (open : bool)
  : result ApprovalBroker :=
  if bool_decide (mode = "deny") then Ok {| channel := DenyChannel; deadline := deadline; fail_open := open |}
  else if bool_decide (mode = "allow") then Ok {| channel := AllowChannel; deadline := deadline; fail_open := open |}
  else if bool_decide (mode = "http") then
    match http with
    | None => raise ValueError "--approvals http requires --approvals-url"
    | Some c => Ok {| channel := c; deadline := deadline; fail_open := open |}
    end
  else raise ValueError ("unknown approvals mode " +:+ str_repr mode +:+ "; use deny|allow|http").

(** Approvals fail closed. Under the closed posture a call is approved only when the channel
    answered before the deadline and its answer approves; a timeout and every exception deny. *)
Theorem broker_closed b n req : fail_open b = false -> approved (broker_request b n req) = true ->
  exists r, ch_request (channel b) n req = Answer r /\ approved r = true.
Proof.
  unfold broker_request, on_error. intros ->. destruct (ch_request (channel b) n req); cbn; eauto; discriminate.
Qed.

Lemma broker_closed_witness :
  exists r, ch_request AllowChannel 0 {| ar_request_id := VInt 1; ar_session_id := "s"; ar_tool := "t";
    ar_arguments := []; ar_principal := "p"; ar_reason := "r" |} = Answer r /\ approved r = true.
Proof.
  apply (broker_closed {| channel := AllowChannel; deadline := 30; fail_open := false |}); reflexivity.
Defined.

(** * Anomaly monitor *)
Record SessionTrace := { tr_history : list string; last_tool : string; tr_tainted : bool; blocked_count : Z }.
Record Verdict := { anomalous : bool; severity : string; rationale : string }.

Record AnomalyMonitor := {
  backend_name : string;
  debounce : nat;
  assess : nat -> SessionTrace -> option Verdict;
}.

Definition AnomalyMonitor_init (name : string) (debounce : Z) (assess : nat -> SessionTrace -> option Verdict)
  : AnomalyMonitor :=
  {| backend_name := name; debounce := Z.to_nat (Z.max 1 debounce); assess := assess |}.

(** [observe]: the counter of calls since the last assessment, and the number of
    assessments so far. *)
Definition observe (m : AnomalyMonitor) (since n : nat) (trace : SessionTrace) (force : bool)
  : option Verdict * (nat * nat) :=
  if negb force && (S since <? debounce m) then (None, (S since, n))
  else (assess m n trace, (0, S n)).

(** [HeuristicBackend.assess] *)
Definition sensitive_reads : list string :=
  ["crm.get_customer"; "db.execute_sql"; "secrets.dump"; "files.read_any"; "logs.tail"; "vault.read";
   "get_file_contents"].
Definition outbound_tools : list string :=
  ["http.post"; "email.send"; "web.fetch"; "create_gist"; "push_files"].

Definition heuristic_assess (t : SessionTrace) : option Verdict :=
  let read_sensitive := existsb (fun x => bool_decide (x ∈ sensitive_reads)) (tr_history t) in
  if read_sensitive && bool_decide (last_tool t ∈ outbound_tools) then
    Some {| anomalous := true; severity := if tr_tainted t then "high" else "medium";
            rationale := "sensitive data was read earlier this session and the agent is now calling '"
              +:+ last_tool t +:+ "', an outbound tool — classic exfiltration shape" |}
  else if (2 <=? blocked_count t)%Z && (3 <=? List.length (remove_dups (tr_history t))) then
    Some {| anomalous := true; severity := "medium";
            rationale := "the agent is touching many distinct tools and accumulating blocks ("
              +:+ pretty (blocked_count t) +:+ ") — looks like it is probing for what it can reach" |}
  else None.

Definition HeuristicBackend (d : Z) : AnomalyMonitor := AnomalyMonitor_init "heuristic" d (fun _ => heuristic_assess).

(** Without force, at most one assessment in [debounce] observations. *)
Fixpoint observe_many (m : AnomalyMonitor) (since n : nat) (ts : list SessionTrace) : nat * nat :=
  match ts with
  | [] => (since, n)
  | t :: ts => let '(since', n') := (observe m since n t false).2 in observe_many m since' n' ts
  end.

(** Debouncing. Over any sequence of unforced observations the monitor assesses exactly once in
    every [debounce] of them: assessments times [debounce] plus the counter is the number of
    observations. *)
Theorem observe_many_bound m since n ts : 0 < debounce m -> since < debounce m ->
  let '(since', n') := observe_many m since n ts in
  since' < debounce m /\ n' * debounce m + since' = n * debounce m + since + List.length ts.
Proof.
  intros Hd. revert since n. induction ts as [|t ts IH]; intros since n Hs; [cbn [observe_many List.length]; lia|].
  cbn [observe_many List.length]. unfold observe. cbn [negb andb].
  destruct (Nat.ltb_spec (S since) (debounce m)) as [Hlt|Hge]; cbn [snd].
  - specialize (IH (S since) n Hlt). destruct (observe_many m (S since) n ts). lia.
  - specialize (IH 0 (S n) Hd). destruct (observe_many m 0 (S n) ts). lia.
Qed.

Lemma observe_many_bound_witness :
  let t := {| tr_history := []; last_tool := "t"; tr_tainted := false; blocked_count := 0 |} in
  let '(since, n) := observe_many (HeuristicBackend 3) 0 0 (repeat t 7) in n * 3 + since = 7.
Proof.
  exact (proj2 (observe_many_bound (HeuristicBackend 3) 0 0
    (repeat {| tr_history := []; last_tool := "t"; tr_tainted := false; blocked_count := 0 |} 7)
    (Nat.lt_0_succ 2) (Nat.lt_0_succ 2))).
Defined.
