(* ===== verification/Pipeline.v ===== *)
(** The enforcement pipeline: [core/pipeline.py], [core/outcome.py], the call context of
    [core/context.py] and the action handlers of [policy/actions/]. A call's handling is
    one atomic computation: what other traffic does while a human is deciding is not
    interleaved here. Stage timings are left out. *)
From S2P Require Import Prelude PyVal Session Rules Engine Redaction Approvals Protocol.

(** * Outcomes and contexts *)
Record StageOutcome := {
  denied : bool;
  o_reason : val;
  o_stage : string;
  o_risk_event : string;
  internal_error : bool;
}.

Definition proceed : StageOutcome :=
  {| denied := false; o_reason := VStr ""; o_stage := ""; o_risk_event := ""; internal_error := false |}.
Definition deny_with (reason : val) (risk_event : string) : StageOutcome :=
  {| denied := true; o_reason := reason; o_stage := ""; o_risk_event := risk_event; internal_error := false |}.
Definition deny (reason : string) : StageOutcome := deny_with (VStr reason) "".

Definition set_stage (n : string) (o : StageOutcome) : StageOutcome :=
  {| denied := denied o; o_reason := o_reason o; o_stage := n; o_risk_event := o_risk_event o;
     internal_error := internal_error o |}.
Definition set_risk_event (n : string) (o : StageOutcome) : StageOutcome :=
  {| denied := denied o; o_reason := o_reason o; o_stage := o_stage o; o_risk_event := n;
     internal_error := internal_error o |}.
Definition set_internal (o : StageOutcome) : StageOutcome :=
  {| denied := denied o; o_reason := o_reason o; o_stage := o_stage o; o_risk_event := o_risk_event o;
     internal_error := true |}.

Record Principal := { principal_id : string; roles : list string }.

(** What never changes during a call. *)
Record CallInfo := {
  ci_session : Session;
  ci_message : pydict;
  ci_tool : string;
  ci_arguments : pydict;
  ci_principal : Principal;
}.

(** What the stages annotate, with the vault and the number of approvals asked so far. *)
Record CallContext := {
  decision : option Decision;
  effective_arguments : option val;
  argument_changes : list val;
  argument_redactions : option val;
  cx_disposition : disposition;
  redaction_spec : option RedactionSpec;
  approval : option Resolution;
  cx_vault : vault;
  cx_asked : nat;
}.

Definition CallContext_new (v : vault) (asked : nat) : CallContext :=
  {| decision := None; effective_arguments := None; argument_changes := []; argument_redactions := None;
     cx_disposition := DispNone; redaction_spec := None; approval := None; cx_vault := v; cx_asked := asked |}.

Definition set_decision d c := {| decision := Some d; effective_arguments := effective_arguments c;
  argument_changes := argument_changes c; argument_redactions := argument_redactions c;
  cx_disposition := cx_disposition c; redaction_spec := redaction_spec c; approval := approval c;
  cx_vault := cx_vault c; cx_asked := cx_asked c |}.
Definition set_rewritten a ch c := {| decision := decision c; effective_arguments := Some a;
  argument_changes := ch; argument_redactions := argument_redactions c;
  cx_disposition := cx_disposition c; redaction_spec := redaction_spec c; approval := approval c;
  cx_vault := cx_vault c; cx_asked := cx_asked c |}.
Definition set_scrubbed a r c := {| decision := decision c; effective_arguments := Some a;
  argument_changes := argument_changes c; argument_redactions := Some r;
  cx_disposition := cx_disposition c; redaction_spec := redaction_spec c; approval := approval c;
  cx_vault := cx_vault c; cx_asked := cx_asked c |}.
Definition set_disposition d s c := {| decision := decision c; effective_arguments := effective_arguments c;
  argument_changes := argument_changes c; argument_redactions := argument_redactions c;
  cx_disposition := d; redaction_spec := s; approval := approval c;
  cx_vault := cx_vault c; cx_asked := cx_asked c |}.
Definition set_approval a c := {| decision := decision c; effective_arguments := effective_arguments c;
  argument_changes := argument_changes c; argument_redactions := argument_redactions c;
  cx_disposition := cx_disposition c; redaction_spec := redaction_spec c; approval := Some a;
  cx_vault := cx_vault c; cx_asked := S (cx_asked c) |}.
Definition set_vault v c := {| decision := decision c; effective_arguments := effective_arguments c;
  argument_changes := argument_changes c; argument_redactions := argument_redactions c;
  cx_disposition := cx_disposition c; redaction_spec := redaction_spec c; approval := approval c;
  cx_vault := v; cx_asked := cx_asked c |}.

Abbreviation stage := (M CallContext StageOutcome).

(** The interface the pipeline uses of a redaction service: [redact(value, spec)] over the
    vault, which may raise. *)
Class RedactionService := {
  svc_redact : val -> RedactionSpec -> vault -> result (val * (list Finding * vault)) }.

(** * Action handlers *)
Inductive handler :=
  | AllowHandler
  | BlockHandler
  | RedactHandler (service : option RedactionService)
  | RewriteHandler
  | QuarantineHandler
  | RequireApprovalHandler (broker : option ApprovalBroker).

Definition terminal_deny (h : handler) : bool :=
  match h with
  | BlockHandler => true
  | RedactHandler s => match s with None => true | Some _ => false end
  | RequireApprovalHandler b => match b with None => true | Some b => negb (can_approve (channel b)) end
  | _ => false
  end.

(** [handlers.get(v)] *)
Definition handler_for (hs : list (string * handler)) (v : val) : result (option handler) :=
  match v with
  | VStr s => Ok (aget s hs)
  | _ => if hashable v then Ok None else raise TypeError "unhashable type"
  end.

Section Handlers.
Context `{Regex} (ci : CallInfo).

Definition redact_on_request (svc : option RedactionService) (d : Decision) : stage :=
  match svc with
  | None => mret (deny "action 'redact' requires the redaction engine to be enabled; failing closed")
  | Some s =>
      let spec := match d_redaction d with Some s => s | None => RedactionSpec_default end in
      c ← get;
      match @svc_redact s (VDict (ci_arguments ci)) spec (cx_vault c) with
      | Err e => mret (deny ("argument redaction failed (" +:+ exn_msg e +:+ "); failing closed"))
      | Ok (scrubbed, (findings, v)) =>
          _ ← modify (set_vault v);
          _ ← when (negb (List.length findings =? 0)) (modify (set_scrubbed scrubbed (summary findings)));
          _ ← modify (set_disposition DispRedact (Some spec));
          mret proceed
      end
  end.

Definition rewrite_on_request (d : Decision) : stage :=
  '(new_args, changes) ← lift (apply_rewrites (ci_arguments ci) (d_rewrites d));
  _ ← when (negb (List.length changes =? 0)) (modify (set_rewritten (VDict new_args) changes));
  mret proceed.

Definition approval_request (d : Decision) : ApprovalRequest :=
  {| ar_request_id := msg_id (ci_message ci); ar_session_id := s_id (ci_session ci); ar_tool := ci_tool ci;
     ar_arguments := ci_arguments ci; ar_principal := principal_id (ci_principal ci); ar_reason := d_reason d |}.

(** [then] may not be [require_approval], so one nested dispatch is enough fuel. *)
Fixpoint on_request (fuel : nat) (hs : list (string * handler)) (h : handler) (d : Decision) : stage :=
  match fuel with
  | 0 => throw (Exn OtherError "nested approval handlers")
  | S fuel =>
      match h with
      | AllowHandler => mret proceed
      | BlockHandler => mret (deny (d_reason d))
      | RedactHandler svc => redact_on_request svc d
      | RewriteHandler => rewrite_on_request d
      | QuarantineHandler =>
          c ← get;
          _ ← modify (set_disposition DispQuarantine (redaction_spec c));
          mret proceed
      | RequireApprovalHandler None =>
          mret (deny "action 'require_approval' requires an approval broker; failing closed")
      | RequireApprovalHandler (Some b) =>
          c ← get;
          let resolution := broker_request b (cx_asked c) (approval_request d) in
          _ ← modify (set_approval resolution);
          if negb (approved resolution) then
            mret (deny_with (VStr ("human approval denied (" +:+ note resolution +:+ ")")) APPROVAL_DENIED)
          else if bool_decide (then_action d = VStr "require_approval") then
            mret (deny "misconfigured rule: then=require_approval; failing closed")
          else
            h' ← lift (handler_for hs (then_action d));
            match h' with
            | None => mret (deny ("no handler for then action " +:+ py_repr (then_action d) +:+ "; failing closed"))
            | Some h' => on_request fuel hs h' d
            end
      end
  end.

(** * Stages *)
Definition SessionGateStage : stage :=
  if suspended (ci_session ci) then
    mret (deny "session suspended by risk engine; all tool calls refused")
  else mret proceed.

Definition first_role (p : Principal) : option string := head (roles p).

Definition PolicyStage (e : PolicyEngine) : stage :=
  d ← lift (evaluate e (ci_tool ci) (first_role (ci_principal ci)));
  _ ← modify (set_decision d);
  mret proceed.

Fixpoint first_violation (cs : list RegexConstraint) (arguments : pydict) : option val :=
  match cs with
  | [] => None
  | c :: cs => match constraint_check c arguments with Some v => Some v | None => first_violation cs arguments end
  end.

Definition ConstraintsStage : stage :=
  c ← get;
  match decision c with
  | None => throw (Exn AssertionError "constraints stage requires a decision")
  | Some d =>
      match first_violation (d_constraints d) (ci_arguments ci) with
      | Some v => mret (deny_with v CONSTRAINT_VIOLATION)
      | None => mret proceed
      end
  end.

Definition SequenceGateStage (sp : SequencePolicy) : stage :=
  match check sp (ci_tool ci) (ci_session ci) with
  | Some reason => mret (deny_with reason SEQUENCE_VIOLATION)
  | None => mret proceed
  end.

Definition ActionStage (hs : list (string * handler)) : stage :=
  c ← get;
  match decision c with
  | None => throw (Exn AssertionError "action stage requires a decision")
  | Some d =>
      h ← lift (handler_for hs (d_action d));
      match h with
      | None => mret (deny_with (VStr ("no handler registered for action " +:+ py_repr (d_action d))) BLOCKED_TOOL)
      | Some h =>
          o ← on_request 2 hs h d;
          mret (if denied o && negb (nonempty (o_risk_event o)) then set_risk_event BLOCKED_TOOL o else o)
      end
  end.

(** * The runner *)
Definition run_stage (ns : string * stage) : stage :=
  try_catch ns.2 (fun e => mret (set_internal
    (deny ("internal error in stage '" +:+ ns.1 +:+ "': " +:+ exn_msg e)))).

Fixpoint run (stages : list (string * stage)) : stage :=
  match stages with
  | [] => mret proceed
  | ns :: stages =>
      o ← run_stage ns;
      if denied o then mret (set_stage ns.1 o) else run stages
  end.
End Handlers.

Record RequestPipeline := {
  rp_engine : PolicyEngine;
  rp_sequence : SequencePolicy;
  rp_handlers : list (string * handler);
}.

Definition build_action_handlers (svc : option RedactionService) (broker : option ApprovalBroker)
  : list (string * handler) :=
  [("allow", AllowHandler); ("block", BlockHandler); ("redact", RedactHandler svc);
   ("rewrite", RewriteHandler); ("quarantine", QuarantineHandler);
   ("require_approval", RequireApprovalHandler broker)].

Definition default_pipeline (e : PolicyEngine) (svc : option RedactionService) (broker : option ApprovalBroker)
  : result RequestPipeline :=
  sp ← build_sequence_policy e;
  Ok {| rp_engine := e; rp_sequence := sp; rp_handlers := build_action_handlers svc broker |}.

Definition denying_actions (p : RequestPipeline) : list string :=
  (List.filter (fun nh => terminal_deny nh.2) (rp_handlers p)).*1.

(** The canonical stage order. *)
Definition pipeline_stages `{Regex} (p : RequestPipeline) (ci : CallInfo) : list (string * stage) :=
  [("session_gate", SessionGateStage ci); ("policy", PolicyStage ci (rp_engine p));
   ("constraints", ConstraintsStage ci); ("sequence", SequenceGateStage ci (rp_sequence p));
   ("action", ActionStage ci (rp_handlers p))].

Definition pipeline_run `{Regex} (p : RequestPipeline) (ci : CallInfo) : stage := run (pipeline_stages p ci).

(** * What the pipeline guarantees *)
Section Guarantees.
Context `{Regex}.
Implicit Types (p : RequestPipeline) (ci : CallInfo) (c : CallContext) (d : Decision).

Definition evaluate_call (p : RequestPipeline) (ci : CallInfo) : result Decision :=
  evaluate (rp_engine p) (ci_tool ci) (first_role (ci_principal ci)).

Definition crash (n : string) (e : exn) : StageOutcome :=
  set_stage n (set_internal (deny ("internal error in stage '" +:+ n +:+ "': " +:+ exn_msg e))).

Lemma run_cons n st stages c : run ((n, st) :: stages) c =
  match st c with
  | (Ok o, c') => if denied o then (Ok (set_stage n o), c') else run stages c'
  | (Err e, c') => (Ok (crash n e), c')
  end.
Proof.
  cbn [run]. unfold run_stage, try_catch, mbind, M_bind. cbn [fst snd].
  destruct (st c) as [[o|e] c']; [|done]. by destruct (denied o).
Qed.

Lemma policy_stage_eq ci e c : PolicyStage ci e c =
  match evaluate e (ci_tool ci) (first_role (ci_principal ci)) with
  | Ok d => (Ok proceed, set_decision d c) | Err x => (Err x, c) end.
Proof. unfold PolicyStage, lift, modify, mret, M_ret, mbind, M_bind. by destruct (evaluate _ _ _). Qed.

Lemma constraints_stage_eq ci d c : decision c = Some d -> ConstraintsStage ci c =
  (Ok match first_violation (d_constraints d) (ci_arguments ci) with
      | Some v => deny_with v CONSTRAINT_VIOLATION | None => proceed end, c).
Proof.
  intros Hd. unfold ConstraintsStage, get, mret, M_ret, mbind, M_bind. rewrite Hd. by destruct (first_violation _ _).
Qed.

Lemma sequence_stage_eq ci sp c : SequenceGateStage ci sp c =
  (Ok match check sp (ci_tool ci) (ci_session ci) with
      | Some r => deny_with r SEQUENCE_VIOLATION | None => proceed end, c).
Proof. unfold SequenceGateStage. by destruct (check _ _ _). Qed.

(** The five stages, unfolded: each denial keeps the context of the moment. *)
Lemma pipeline_run_eq p ci c :
  pipeline_run p ci c =
  if suspended (ci_session ci) then
    (Ok (set_stage "session_gate" (deny "session suspended by risk engine; all tool calls refused")), c)
  else match evaluate_call p ci with
  | Err e => (Ok (crash "policy" e), c)
  | Ok d =>
      match first_violation (d_constraints d) (ci_arguments ci) with
      | Some v => (Ok (set_stage "constraints" (deny_with v CONSTRAINT_VIOLATION)), set_decision d c)
      | None =>
          match check (rp_sequence p) (ci_tool ci) (ci_session ci) with
          | Some r => (Ok (set_stage "sequence" (deny_with r SEQUENCE_VIOLATION)), set_decision d c)
          | None => run [("action", ActionStage ci (rp_handlers p))] (set_decision d c)
          end
      end
  end.
Proof.
  unfold pipeline_run, pipeline_stages, evaluate_call. rewrite run_cons. unfold SessionGateStage at 1.
  destruct (suspended (ci_session ci)); [done|]. cbn [mret M_ret denied proceed].
  rewrite run_cons, policy_stage_eq. destruct (evaluate _ _ _) as [d|e]; [|done]. cbn [denied proceed].
  rewrite run_cons, (constraints_stage_eq _ d) by done. destruct (first_violation _ _); [done|]. cbn [denied proceed].
  rewrite run_cons, sequence_stage_eq. by destruct (check _ _ _).
Qed.

(** Running the pipeline never raises: every crash of a stage became an outcome. *)
Lemma run_total stages c : exists o c', run stages c = (Ok o, c').
Proof.
  revert c. induction stages as [|[n st] stages IH]; intros c; [by eexists _, _|]. rewrite run_cons.
  destruct (st c) as [[o|e] c']; [|by eexists _, _]. destruct (denied o); [by eexists _, _|apply IH].
Qed.

Lemma set_stage_denied n o : denied (set_stage n o) = denied o. Proof. done. Qed.

Lemma first_violation_None cs args : first_violation cs args = None <-> Forall (fun k => satisfies k args) cs.
Proof.
  induction cs as [|k cs IH]; cbn; [by repeat constructor|]. rewrite Forall_cons, <- IH, <- constraint_check_None.
  destruct (constraint_check k args); naive_solver.
Qed.

(** What a call that the action stage lets through looks like. *)
Record action_permits (p : RequestPipeline) (ci : CallInfo) (d : Decision) (c : CallContext) : Prop := {
  ap_action : exists a, d_action d = VStr a /\ a <> "block" /\ a ∈ akeys (rp_handlers p);
  ap_approved : d_action d = VStr "require_approval" ->
    exists r, approval c = Some r /\ approved r = true;
}.

Definition plain_handlers (hs : list (string * handler)) : Prop :=
  forall n h, aget n hs = Some h ->
    (forall b, h = RequireApprovalHandler b -> n = "require_approval") /\
    (n = "require_approval" -> exists b, h = RequireApprovalHandler b) /\ (n = "block" -> h = BlockHandler).

Lemma build_handlers_plain svc b : plain_handlers (build_action_handlers svc b).
Proof.
  intros n h Hn. apply aget_Some_elem in Hn. unfold build_action_handlers in Hn.
  repeat (apply elem_of_cons in Hn as [[= -> ->]|Hn]; [split_and!; naive_solver|]). by apply elem_of_nil in Hn.
Qed.

(** Dispatching a handler keeps the decision, and the fuel never runs out. *)
Lemma on_request_approval ci hs fuel b d c o c' :
  on_request ci (S fuel) hs (RequireApprovalHandler b) d c = (Ok o, c') -> denied o = false ->
  exists b' c1, b = Some b' /\
    let r := broker_request b' (cx_asked c) (approval_request ci d) in
    approved r = true /\ then_action d <> VStr "require_approval" /\ approval c1 = Some r /\
    exists h, handler_for hs (then_action d) = Ok (Some h) /\ on_request ci fuel hs h d c1 = (Ok o, c').
Proof.
  destruct b as [b|]; [|by intros [= <- <-]].
  cbn [on_request]. unfold mbind, M_bind, get, modify, mret, M_ret, lift.
  set (r := broker_request b (cx_asked c) (approval_request ci d)).
  destruct (approved r) eqn:Ha; cbn [negb]; [|by intros [= <- <-]].
  case_bool_decide as Ht; [by intros [= <- <-]|].
  destruct (handler_for hs (then_action d)) as [[h|]|e] eqn:Hh; [|by intros [= <- <-]|by intros [=]].
  intros Hr Hd. exists b, (set_approval r c). split; [done|]. split_and!; [done..|]. exists h. done.
Qed.

Definition is_approval (h : handler) : bool := match h with RequireApprovalHandler _ => true | _ => false end.

Lemma on_request_simple_approval ci hs fuel h d c o c' : is_approval h = false ->
  on_request ci (S fuel) hs h d c = (Ok o, c') -> approval c' = approval c.
Proof.
  intros Hh. destruct h as [| |svc| | |b]; try discriminate Hh; cbn [on_request].
  - by intros [= <- <-].
  - by intros [= <- <-].
  - unfold redact_on_request. destruct svc as [s|]; [|by intros [= <- <-]].
    unfold mbind, M_bind, get, modify, mret, M_ret, when.
    destruct (svc_redact _ _ _) as [[scrubbed [fs v]]|e]; [|by intros [= <- <-]].
    destruct (negb _); by intros [= <- <-].
  - unfold rewrite_on_request, lift, mbind, M_bind, modify, mret, M_ret, when.
    destruct (apply_rewrites _ _) as [[args ch]|e]; [|by intros [=]]. destruct (negb _); by intros [= <- <-].
  - unfold get, mbind, M_bind, modify, mret, M_ret. by intros [= <- <-].
Qed.

(** No handler changes the decision it was given. *)
Definition same_decision (c c' : CallContext) : Prop := decision c' = decision c.
#[local] Instance same_decision_preorder : PreOrder same_decision.
Proof. split; [done|]. intros c1 c2 c3 H1 H2. unfold same_decision in *. congruence. Qed.

Lemma modify_decision f : (forall c, decision (f c) = decision c) -> keeps same_decision (modify f).
Proof. intros Hf c. apply Hf. Qed.

Lemma on_request_decision ci hs fuel h d : keeps same_decision (on_request ci fuel hs h d).
Proof.
  revert h. induction fuel as [|fuel IH]; intros h; cbn [on_request]; [apply (keeps_throw _)|].
  destruct h as [| |[s|]| | |[b|]]; try apply (keeps_ret _).
  - unfold redact_on_request. apply (keeps_bind _); [apply (keeps_get _)|intros c].
    destruct (svc_redact _ _ _) as [[x [fs v]]|e]; [|apply (keeps_ret _)].
    repeat (apply (keeps_bind _); [|intros ?]); try apply (keeps_ret _);
      try (apply (keeps_when _)); by apply modify_decision.
  - unfold rewrite_on_request. apply (keeps_bind _); [apply (keeps_lift _)|intros [args ch]].
    apply (keeps_bind _); [apply (keeps_when _); by apply modify_decision|intros ?; apply (keeps_ret _)].
  - apply (keeps_bind _); [apply (keeps_get _)|intros c].
    apply (keeps_bind _); [by apply modify_decision|intros ?; apply (keeps_ret _)].
  - apply (keeps_bind _); [apply (keeps_get _)|intros c].
    apply (keeps_bind _); [by apply modify_decision|intros ?].
    destruct (negb _); [apply (keeps_ret _)|]. case_bool_decide; [apply (keeps_ret _)|].
    apply (keeps_bind _); [apply (keeps_lift _)|intros [h'|]; [apply IH|apply (keeps_ret _)]].
Qed.

(** The whole chain: what must hold when a call is let through. *)
Lemma pipeline_continue p ci c o c' : plain_handlers (rp_handlers p) ->
  pipeline_run p ci c = (Ok o, c') -> denied o = false ->
  suspended (ci_session ci) = false /\
  exists d, evaluate_call p ci = Ok d /\ decision c' = Some d /\
    Forall (fun k => satisfies k (ci_arguments ci)) (d_constraints d) /\
    ~ forbidden (rp_sequence p) (ci_tool ci) (ci_session ci) /\
    action_permits p ci d c' /\
    exists h, handler_for (rp_handlers p) (d_action d) = Ok (Some h) /\
      exists o', on_request ci 2 (rp_handlers p) h d (set_decision d c) = (Ok o', c') /\ denied o' = false.
Proof.
  intros Hplain. rewrite pipeline_run_eq. destruct (suspended _); [by intros [= <- <-]|].
  destruct (evaluate_call p ci) as [d|e]; [|by intros [= <- <-]].
  destruct (first_violation _ _) eqn:Hv; [by intros [= <- <-]|].
  destruct (check _ _ _) eqn:Hc; [by intros [= <- <-]|].
  rewrite run_cons. unfold ActionStage, get, lift, mbind, M_bind. cbn [decision set_decision].
  destruct (handler_for (rp_handlers p) (d_action d)) as [[h|]|e] eqn:Hh; [|by intros [= <- <-]|by intros [= <- <-]].
  destruct (on_request ci 2 (rp_handlers p) h d (set_decision d c)) as [[o'|e] c1] eqn:Hr; [|by intros [= <- <-]].
  cbv beta iota delta [mret M_ret].
  assert (forall b : bool, denied (if b then set_risk_event BLOCKED_TOOL o' else o') = denied o') as Hden by (by intros []).
  rewrite Hden. destruct (denied o') eqn:Hd'.
  { intros [= <- <-]. rewrite set_stage_denied, Hden. done. }
  cbn [run]. intros [= <- <-] _. split; [done|]. exists d. split; [done|].
  split; [pose proof (on_request_decision ci (rp_handlers p) 2 h d (set_decision d c)) as Hk;
          rewrite Hr in Hk; exact Hk|].
  split; [by apply first_violation_None|]. split.
  { intros Hf. apply check_forbidden in Hf as [? Hf]. congruence. }
  split; [|eauto]. unfold handler_for in Hh. destruct (d_action d) as [| | | |a| |] eqn:Ha; try discriminate.
  injection Hh as Hh. destruct (Hplain _ _ Hh) as (H1 & H2 & H3). split.
  - exists a. split; [done|]. split; [|apply aget_is_Some; eauto]. intros ->. rewrite (H3 eq_refl) in Hr.
    by injection Hr as <- <-.
  - rewrite Ha. intros [= ->]. destruct (H2 eq_refl) as [b ->].
    apply on_request_approval in Hr as (b' & c2 & -> & Hap & Ht & Hc2 & h' & Hh' & Hr'); [|done].
    eexists. split; [|exact Hap]. rewrite <- Hc2.
    apply on_request_simple_approval in Hr'; [done|].
    unfold handler_for in Hh'. destruct (then_action d) as [| | | |t| |]; try discriminate.
    injection Hh' as Hh'. destruct (Hplain _ _ Hh') as (Hq & _). destruct h'; try done.
    exfalso. apply Ht. by rewrite (Hq _ eq_refl).
Qed.
End Guarantees.
