(* ===== verification/Gateway.v ===== *)
(** The orchestrator: [core/gateway.py] with the event names of [audit/events.py]. A
    handler is a computation over the gateway's state that appends to a trace what it
    sends, audits and persists; one handler call is one atomic step. Wall-clock fields
    (durations, stage timings) are left out of audit events. *)
From S2P Require Import Prelude PyVal Session Rules Engine Redaction Approvals Protocol Pipeline.

Inductive event :=
  | Audit (name : string) (fs : pydict)
  | ToClient (line : string)
  | ToUpstream (line : string)
  | Saved (snapshot : pydict).

Record World := {
  session : Session;
  w_vault : vault;
  asked : nat;                     (* approvals requested so far *)
  since_last : nat;                (* the monitor's debounce counter *)
  assessed : nat;
  pending_tools_list : list val;   (* a set of request ids *)
  trace : list event;
}.

Definition set_session s w := {| session := s; w_vault := w_vault w; asked := asked w;
  since_last := since_last w; assessed := assessed w; pending_tools_list := pending_tools_list w; trace := trace w |}.
Definition set_services v a w := {| session := session w; w_vault := v; asked := a;
  since_last := since_last w; assessed := assessed w; pending_tools_list := pending_tools_list w; trace := trace w |}.
Definition set_monitor s n w := {| session := session w; w_vault := w_vault w; asked := asked w;
  since_last := s; assessed := n; pending_tools_list := pending_tools_list w; trace := trace w |}.
Definition set_tools_list l w := {| session := session w; w_vault := w_vault w; asked := asked w;
  since_last := since_last w; assessed := assessed w; pending_tools_list := l; trace := trace w |}.
Definition add_event e w := {| session := session w; w_vault := w_vault w; asked := asked w;
  since_last := since_last w; assessed := assessed w; pending_tools_list := pending_tools_list w;
  trace := trace w ++ [e] |}.

Abbreviation G := (M World).

Definition emit (name : string) (fs : list (string * val)) : G unit := modify (add_event (Audit name (fields fs))).
Definition emit_dict (name : string) (fs : pydict) : G unit := modify (add_event (Audit name fs)).
Definition send_client (line : string) : G unit := modify (add_event (ToClient line)).
Definition send_upstream (line : string) : G unit := modify (add_event (ToUpstream line)).

Record SecurityGateway := {
  pipeline : RequestPipeline;
  principal : Principal;
  redaction : option RedactionService;
  policy : option PolicyEngine;
  risk : RiskEngine;
  sequence : SequencePolicy;
  g_posture : FailurePosture;
  anomaly : option AnomalyMonitor;
}.

Definition SecurityGateway_init (p : RequestPipeline) (pr : Principal) (redaction : option RedactionService)
  (policy : option PolicyEngine) (anomaly : option AnomalyMonitor) : result SecurityGateway :=
  match policy with
  | Some e =>
      r ← build_risk_engine e;
      s ← build_sequence_policy e;
      Ok {| pipeline := p; principal := pr; redaction := redaction; policy := policy; risk := r; sequence := s;
            g_posture := posture e; anomaly := anomaly |}
  | None =>
      Ok {| pipeline := p; principal := pr; redaction := redaction; policy := None;
            risk := RiskEngine_init [] DEFAULT_ELEVATED_AT DEFAULT_SUSPEND_AT;
            sequence := {| taint_sources := []; taint_sinks := []; sequence_rules := [] |};
            g_posture := posture_default; anomaly := anomaly |}
  end.

Definition quarantine_notice (tool : string) : string :=
  "[QUARANTINED by security gateway] The result of '" +:+ tool +:+
  "' was withheld from the model and flagged for human review.".
Definition redaction_failed_notice (tool : string) : string :=
  "[WITHHELD by security gateway] The result of '" +:+ tool +:+
  "' could not be safely redacted and was withheld from the model (fail-closed).".

(** [{**raw, "result": {"content": [{"type": "text", "text": text}]}}] *)
Definition notice_content (text : string) : val :=
  VObj [("content", VList [VObj [("type", VStr "text"); ("text", VStr text)]])].
Definition with_notice (raw : pydict) (text : string) : pydict := dset "result" (notice_content text) raw.

Section Gateway.
Context `{Regex} (g : SecurityGateway).

Definition persist : G unit := w ← get; modify (add_event (Saved (to_dict (session w)))).

Definition event_is (names : list string) (e : val) : bool :=
  match e with VDict d => match dget "event" d with Some (VStr n) => bool_decide (n ∈ names) | _ => false end
  | _ => false end.

Definition gw_blocked_count (s : Session) : Z :=
  Z.of_nat (List.length (List.filter
    (event_is [BLOCKED_TOOL; CONSTRAINT_VIOLATION; SEQUENCE_VIOLATION; APPROVAL_DENIED]) (risk_events s))).

Definition audit_suspended : G unit :=
  w ← get;
  emit "session_suspended" [("session_score", VInt (risk_score (session w)));
                            ("events", VList (risk_events (session w)))].

(** [self.risk.record(self.session, event, detail)] *)
Definition record_risk (ev detail : string) : G RiskUpdate :=
  w ← get;
  let '(u, s) := record (risk g) (session w) ev detail in
  _ ← modify (set_session s);
  mret u.

Definition run_anomaly (last : string) (force : bool) : G unit :=
  match anomaly g with
  | None => mret tt
  | Some m =>
      w ← get;
      let tr := {| tr_history := history (session w); last_tool := last; tr_tainted := tainted (session w);
                   blocked_count := gw_blocked_count (session w) |} in
      let '(verdict, (since, n)) := observe m (since_last w) (assessed w) tr force in
      _ ← modify (set_monitor since n);
      match verdict with
      | None => mret tt
      | Some v =>
          if negb (anomalous v) then mret tt
          else
            u ← record_risk ("anomaly_" +:+ severity v) last;
            _ ← emit_dict "anomaly_detected"
                  (aupdate (fields [("tool", VStr last); ("severity", VStr (severity v));
                     ("rationale", VStr (rationale v)); ("backend", VStr (backend_name m))]) (audit_fields u));
            when (suspended_now u) audit_suspended
      end
  end.

(** [self.session.track_pending(...)] *)
Definition track (id : val) (tool action : string) (disp : disposition) (spec : option RedactionSpec) : G unit :=
  w ← get;
  s ← lift (track_pending id tool action disp spec (session w));
  modify (set_session s).

Definition str_or_null (o : option string) : val := match o with Some s => VStr s | None => VNone end.

(** The audit and the score of a denial, before the reply. *)
Definition score_denial (raw : pydict) (tool : string) (o : StageOutcome) (d : option Decision) : G unit :=
  if bool_decide (o_stage o = "session_gate") then
    w ← get;
    emit "tool_call_denied_session_suspended"
      [("tool", VStr tool); ("id", msg_id raw); ("reason", o_reason o); ("session_score", VInt (risk_score (session w)))]
  else
    let base := fields [("tool", VStr tool); ("id", msg_id raw); ("reason", o_reason o); ("stage", VStr (o_stage o));
                        ("rule", str_or_null (d_rule <$> d))] in
    if nonempty (o_risk_event o) then
      u ← record_risk (o_risk_event o) tool;
      w ← get;
      let taint := if bool_decide (o_stage o = "sequence") then
                     fields [("tainted", VBool (tainted (session w))); ("taint_origin", opt_str (taint_origin (session w)))]
                   else [] in
      _ ← emit_dict "tool_call_blocked" (aupdate (aupdate base (audit_fields u)) taint);
      when (suspended_now u) audit_suspended
    else emit_dict "tool_call_blocked" base.

Definition handle_denial (raw : pydict) (tool : string) (o : StageOutcome) (d : option Decision) : G unit :=
  if internal_error o && bool_decide (p_pipeline (g_posture g) = OPEN) then
    _ ← emit "stage_error_fail_open" [("tool", VStr tool); ("id", msg_id raw); ("stage", VStr (o_stage o));
                                      ("reason", o_reason o)];
    _ ← track (msg_id raw) tool "fail_open" DispNone None;
    send_upstream (encode_msg raw)
  else
    _ ← score_denial raw tool o d;
    _ ← send_client (encode_msg (denied_response (msg_id raw) tool (py_str (o_reason o))));
    run_anomaly tool true.

(** Running the pipeline on the gateway's session, vault and approval counter. *)
Definition run_pipeline (raw : pydict) (tool : string) (arguments : pydict) : G (StageOutcome * CallContext) := fun w =>
  let ci := {| ci_session := session w; ci_message := raw; ci_tool := tool; ci_arguments := arguments;
               ci_principal := principal g |} in
  match pipeline_run (pipeline g) ci (CallContext_new (w_vault w) (asked w)) with
  | (Ok o, c) => (Ok (o, c), set_services (cx_vault c) (cx_asked c) w)
  | (Err e, c) => (Err e, set_services (cx_vault c) (cx_asked c) w)
  end.

Definition taint_if_source (raw : pydict) (tool : string) : G unit :=
  if is_taint_source (sequence g) tool then
    w ← get;
    let '(first, s) := mark_tainted tool (session w) in
    _ ← modify (set_session s);
    when first (emit "session_tainted" [("tool", VStr tool); ("id", msg_id raw);
      ("note", VStr "untrusted content ingested; taint sinks now blocked")])
  else mret tt.

Definition disp_str (d : disposition) : string :=
  match d with DispNone => "none" | DispQuarantine => "quarantine" | DispRedact => "redact" end.

Definition allowed_fields (raw : pydict) (tool : string) (d : Decision) (c : CallContext) : list (string * val) :=
  [("tool", VStr tool); ("id", msg_id raw); ("action", d_action d); ("rule", VStr (d_rule d))]
  ++ match d_role d with Some r => [("role", VStr r)] | None => [] end
  ++ match argument_changes c with [] => [] | ch => [("rewrites", VList ch)] end
  ++ match argument_redactions c with Some r => [("arg_redactions", r)] | None => [] end
  ++ match cx_disposition c with DispNone => [] | x => [("disposition", VStr (disp_str x))] end.

(** The message that leaves: the original, or the original with the rewritten arguments. *)
Definition outbound_msg (raw : pydict) (c : CallContext) : pydict :=
  match effective_arguments c with
  | None => raw
  | Some a => dset "params" (VDict (dset "arguments" a (params raw))) raw
  end.

Definition forward_allowed (raw : pydict) (tool : string) (d : Decision) (c : CallContext) : G unit :=
  _ ← modify (fun w => set_session (record_call tool (session w)) w);
  _ ← taint_if_source raw tool;
  _ ← track (msg_id raw) tool (py_str (d_action d)) (cx_disposition c) (redaction_spec c);
  _ ← emit "tool_call_allowed" (allowed_fields raw tool d c);
  _ ← send_upstream (encode_msg (outbound_msg raw c));
  run_anomaly tool false.

Definition handle_tool_call (raw : pydict) : G unit :=
  let '(tool, arguments) := tool_call_parts raw in
  '(o, c) ← run_pipeline raw tool arguments;
  _ ← match approval c with
      | Some r => emit "approval_requested" [("tool", VStr tool); ("id", msg_id raw); ("approved", VBool (approved r));
                    ("approver", VStr (approver r)); ("note", VStr (note r))]
      | None => mret tt
      end;
  if denied o then handle_denial raw tool o (decision c)
  else match decision c with
       | None => throw (Exn AssertionError "pipeline allowed a call without a decision")
       | Some d => forward_allowed raw tool d c
       end.

Definition in_set (v : val) (l : list val) : result bool :=
  if hashable v then Ok (existsb (py_eqb v) l) else raise TypeError "unhashable type".

Definition dispatch_client_line (line : string) : G unit :=
  msg ← lift (decode_line line);
  match msg with
  | None =>
      _ ← emit "passthrough_opaque" [("direction", VStr "client_to_upstream"); ("bytes", VInt (utf8_len line))];
      send_upstream line
  | Some raw =>
      if is_tool_call raw then handle_tool_call raw
      else
        _ ← (if bool_decide (method raw = Some METHOD_TOOLS_LIST) && is_request raw
                && match policy g with Some _ => true | None => false end then
               w ← get;
               known ← lift (in_set (msg_id raw) (pending_tools_list w));
               when (negb known) (modify (fun w => set_tools_list (pending_tools_list w ++ [msg_id raw]) w))
             else mret tt);
        _ ← emit "passthrough_request" [("method", str_or_null (method raw)); ("id", msg_id raw)];
        send_upstream (encode_msg raw)
  end.

Definition on_client_line (line : string) : G unit := _ ← dispatch_client_line line; persist.

(** * Upstream to client *)
Definition deliver_quarantined (raw : pydict) (p : PendingCall) (result_bytes : Z) : G unit :=
  _ ← emit "tool_result_quarantined" [("tool", VStr (pc_tool p)); ("id", msg_id raw); ("withheld_bytes", VInt result_bytes)];
  send_client (encode_msg (with_notice raw (quarantine_notice (pc_tool p)))).

Definition withhold_unredactable (raw : pydict) (p : PendingCall) (result_bytes : Z) (reason : string) : G unit :=
  _ ← emit "tool_result_redaction_failed" [("tool", VStr (pc_tool p)); ("id", msg_id raw);
        ("withheld_bytes", VInt result_bytes); ("reason", VStr reason)];
  send_client (encode_msg (with_notice raw (redaction_failed_notice (pc_tool p)))).

Definition deliver_redacted (raw : pydict) (p : PendingCall) (result_bytes : Z) : G unit :=
  match redaction g, pc_redaction p with
  | Some svc, Some spec =>
      w ← get;
      match @svc_redact svc (opt_val (dget "result" raw)) spec (w_vault w) with
      | Err e =>
          if bool_decide (p_redaction (g_posture g) = OPEN) then
            _ ← emit "redaction_error_fail_open" [("tool", VStr (pc_tool p)); ("id", msg_id raw);
                  ("reason", VStr (exn_msg e)); ("result_bytes", VInt result_bytes)];
            send_client (encode_msg raw)
          else withhold_unredactable raw p result_bytes (exn_msg e)
      | Ok (redacted, (findings, v)) =>
          _ ← modify (fun w => set_services v (asked w) w);
          let base := fields [("tool", VStr (pc_tool p)); ("id", msg_id raw); ("result_bytes", VInt result_bytes);
                              ("profile", VStr (spec_profile spec)); ("redactions", summary findings)] in
          fs ← (if 3 <=? List.length findings then
                  u ← record_risk HEAVY_REDACTION (pc_tool p);
                  _ ← when (suspended_now u) audit_suspended;
                  mret (aupdate base (audit_fields u))
                else mret base);
          _ ← emit_dict "tool_result_redacted" fs;
          send_client (encode_msg (dset "result" redacted raw))
      end
  | _, _ => withhold_unredactable raw p result_bytes "redaction service unavailable"
  end.

Definition deliver_tool_result (raw : pydict) (p : PendingCall) : G unit :=
  let result_bytes := result_size_bytes raw in
  let is_error := result_is_error raw in
  if negb is_error && bool_decide (pc_disposition p = DispQuarantine) then deliver_quarantined raw p result_bytes
  else if negb is_error && bool_decide (pc_disposition p = DispRedact) then deliver_redacted raw p result_bytes
  else
    _ ← emit "tool_result" [("tool", VStr (pc_tool p)); ("id", msg_id raw); ("action", VStr (pc_action p));
          ("is_error", VBool is_error); ("result_bytes", VInt result_bytes)];
    send_client (encode_msg raw).

(** [_filter_tools_list]: the message to send, the hidden names and the total. *)
Definition tool_hidden (e : PolicyEngine) (entry : val) : result (option string) :=
  match entry with
  | VDict d =>
      match dget "name" d with
      | Some (VStr name) =>
          visible ← is_visible e name (first_role (principal g)) (denying_actions (pipeline g));
          Ok (if (visible : bool) then None else Some name)
      | _ => Ok None
      end
  | _ => Ok None
  end.

Fixpoint split_tools (e : PolicyEngine) (tools : list val) : result (list val * list string) :=
  match tools with
  | [] => Ok ([], [])
  | x :: tools =>
      h ← tool_hidden e x;
      '(shown, hidden) ← split_tools e tools;
      Ok (match h with Some name => (shown, name :: hidden) | None => (x :: shown, hidden) end)
  end.

Definition filter_tools_list (raw : pydict) : result (pydict * list string * nat) :=
  match policy g with
  | None => raise AssertionError ""
  | Some e =>
      match dget "result" raw with
      | Some (VDict result) =>
          match dget "tools" result with
          | Some (VList tools) =>
              '(shown, hidden) ← split_tools e tools;
              Ok (match hidden with
                  | [] => (raw, [], List.length tools)
                  | _ => (dset "result" (VDict (dset "tools" (VList shown) result)) raw, hidden, List.length tools)
                  end)
          | _ => Ok (raw, [], 0)
          end
      | _ => Ok (raw, [], 0)
      end
  end.

Definition resolve (id : val) : G (option PendingCall) :=
  w ← get;
  '(p, s) ← lift (resolve_pending id (session w));
  _ ← modify (set_session s);
  mret p.

Definition deliver_tools_list (raw : pydict) : G unit :=
  _ ← modify (fun w => set_tools_list (List.filter (fun v => negb (py_eqb (msg_id raw) v)) (pending_tools_list w)) w);
  '(outbound, hidden, total) ← lift (filter_tools_list raw);
  _ ← match hidden with
      | [] => mret tt
      | _ => emit "tools_list_filtered" [("id", msg_id raw); ("total", VInt (Z.of_nat total));
               ("shown", VInt (Z.of_nat total - Z.of_nat (List.length hidden))%Z); ("hidden", strs hidden)]
      end;
  send_client (encode_msg outbound).

Definition dispatch_upstream_line (line : string) : G unit :=
  msg ← lift (decode_line line);
  match msg with
  | None =>
      _ ← emit "passthrough_opaque" [("direction", VStr "upstream_to_client"); ("bytes", VInt (utf8_len line))];
      send_client line
  | Some raw =>
      if is_response raw then
        p ← resolve (msg_id raw);
        match p with
        | Some p => deliver_tool_result raw p
        | None =>
            w ← get;
            listed ← lift (in_set (msg_id raw) (pending_tools_list w));
            if (listed : bool) then deliver_tools_list raw else send_client (encode_msg raw)
        end
      else
        _ ← when (is_request raw)
              (emit "upstream_request" [("method", str_or_null (method raw)); ("id", msg_id raw)]);
        send_client (encode_msg raw)
  end.

Definition on_upstream_line (line : string) : G unit := _ ← dispatch_upstream_line line; persist.

(** Lifecycle. *)
Definition on_start (upstream_cmd : list string) : G unit :=
  _ ← emit "gateway_start" [("upstream", VStr (join " " upstream_cmd)); ("principal", VStr (principal_id (principal g)));
        ("roles", strs (roles (principal g))); ("failure_posture", posture_describe (g_posture g))];
  when (any_open (g_posture g))
    (emit "fail_open_enabled" [("categories", VStr (join ", " (open_categories (g_posture g))))]).

Definition on_upstream_exit (returncode : option Z) : G unit :=
  emit "upstream_exit" [("returncode", match returncode with Some z => VInt z | None => VNone end)].

Definition on_stop : G unit := emit "gateway_stop" [].
End Gateway.

(** The state a connection starts in. *)
Definition World_new (s : Session) : World :=
  {| session := s; w_vault := []; asked := 0; since_last := 0; assessed := 0; pending_tools_list := []; trace := [] |}.
