(* ===== verification/GatewayProofs.v ===== *)
(** What the gateway guarantees: monotone session state, complete mediation of tool
    calls, and what can reach the client. *)
From S2P Require Import Prelude PyVal Json Session Rules Engine Redaction Approvals Protocol Pipeline Gateway.

(** * The session only moves forward *)
(** The shape of a risk event the engine appends. *)
Definition recorded (e : val) : Prop :=
  exists ev weight detail, e = VObj [("event", VStr ev); ("weight", VInt weight); ("detail", VStr detail)].

Record grows (w w' : World) : Prop := {
  gr_id : s_id (session w') = s_id (session w);
  gr_suspended : suspended (session w) = true -> suspended (session w') = true;
  gr_tainted : tainted (session w) = true ->
    tainted (session w') = true /\ taint_origin (session w') = taint_origin (session w);
  gr_history : exists l, history (session w') = history (session w) ++ l;
  gr_events : exists l, risk_events (session w') = risk_events (session w) ++ l /\ Forall recorded l;
  gr_trace : exists l, trace w' = trace w ++ l;
}.

#[export] Instance grows_preorder : PreOrder grows.
Proof.
  split.
  - intros w. split; auto; exists []; by rewrite ?app_nil_r.
  - intros w1 w2 w3 [I1 S1 T1 [h1 H1] (e1 & E1 & P1) [t1 R1]] [I2 S2 T2 [h2 H2] (e2 & E2 & P2) [t2 R2]]. split.
    + congruence.
    + auto.
    + intros Ht. destruct (T1 Ht) as [Ht' Ho]. destruct (T2 Ht') as [? Ho']. split; congruence.
    + exists (h1 ++ h2). by rewrite H2, H1, (assoc_L (++)).
    + exists (e1 ++ e2). split; [by rewrite E2, E1, (assoc_L (++))|by apply Forall_app].
    + exists (t1 ++ t2). by rewrite R2, R1, (assoc_L (++)).
Qed.

(** A state change that leaves the session alone and only appends to the trace. *)
Lemma grows_frame w w' : session w' = session w -> (exists l, trace w' = trace w ++ l) -> grows w w'.
Proof. intros Hs Ht. split; rewrite ?Hs; auto; exists []; by rewrite app_nil_r. Qed.

(** A change of the session that keeps the trace. *)
Record session_grows (s s' : Session) : Prop := {
  sg_id : s_id s' = s_id s;
  sg_suspended : suspended s = true -> suspended s' = true;
  sg_tainted : tainted s = true -> tainted s' = true /\ taint_origin s' = taint_origin s;
  sg_history : exists l, history s' = history s ++ l;
  sg_events : exists l, risk_events s' = risk_events s ++ l /\ Forall recorded l;
}.

Lemma grows_session w s : session_grows (session w) s -> grows w (set_session s w).
Proof. intros [? ? ? ? ?]. split; try done. exists []. by rewrite app_nil_r. Qed.

Lemma sg_frame s s' : s_id s' = s_id s -> suspended s' = suspended s -> tainted s' = tainted s ->
  taint_origin s' = taint_origin s -> history s' = history s -> risk_events s' = risk_events s -> session_grows s s'.
Proof. intros ? Hs Ht Ho Hh He. split; rewrite ?Hs, ?Ht, ?Ho, ?Hh, ?He; auto; exists []; by rewrite app_nil_r. Qed.

Lemma record_grows e s ev d : session_grows s (record e s ev d).2.
Proof.
  unfold record. cbn. split; cbn; try done.
  - by intros ->.
  - exists []. by rewrite app_nil_r.
  - eexists. split; [done|]. repeat constructor. by eexists _, _, _.
Qed.

Lemma track_pending_grows id tool action disp spec s s' :
  track_pending id tool action disp spec s = Ok s' -> session_grows s s'.
Proof. unfold track_pending. destruct (hashable id); [|done]. intros [= <-]. by apply sg_frame. Qed.

Lemma resolve_pending_grows id s p s' : resolve_pending id s = Ok (p, s') -> session_grows s s'.
Proof.
  unfold resolve_pending. destruct (pending s) eqn:Hp; [intros [= _ <-]; by apply sg_frame|].
  destruct (hashable id); [|done]. intros [= _ <-]. by apply sg_frame.
Qed.

Lemma record_call_grows tool s : session_grows s (record_call tool s).
Proof. split; cbn; eauto. exists []. by rewrite app_nil_r. Qed.

Lemma mark_tainted_grows origin s : session_grows s (mark_tainted origin s).2.
Proof.
  unfold mark_tainted. destruct (tainted s) eqn:Ht; [by apply sg_frame|].
  split; cbn; try done; [congruence|..]; exists []; by rewrite app_nil_r.
Qed.

Section Grows.
Context `{Regex} (g : SecurityGateway).

Lemma grows_add e : forall w, grows w (add_event e w).
Proof. intros w. apply grows_frame; [done|]. by eexists. Qed.

Lemma emit_grows n fs : keeps grows (emit n fs).
Proof. apply keeps_modify. intros w. apply grows_add. Qed.
Lemma emit_dict_grows n fs : keeps grows (emit_dict n fs).
Proof. apply keeps_modify. intros w. apply grows_add. Qed.
Lemma send_client_grows l : keeps grows (send_client l).
Proof. apply keeps_modify. intros w. apply grows_add. Qed.
Lemma send_upstream_grows l : keeps grows (send_upstream l).
Proof. apply keeps_modify. intros w. apply grows_add. Qed.
Lemma persist_grows : keeps grows persist.
Proof. intros w. apply grows_add. Qed.
Lemma audit_suspended_grows : keeps grows audit_suspended.
Proof. intros w. apply grows_add. Qed.

Lemma record_risk_grows ev d : keeps grows (record_risk g ev d).
Proof.
  intros w. unfold record_risk, get, modify, mret, M_ret, mbind, M_bind.
  pose proof (record_grows (risk g) (session w) ev d) as Hr. destruct (record _ _ _ _) as [u s]. by apply grows_session.
Qed.

Lemma set_monitor_grows s n : keeps grows (modify (set_monitor s n)).
Proof. intros w. apply grows_frame; [done|]. exists []. by rewrite app_nil_r. Qed.
Lemma set_tools_list_grows f : keeps grows (modify (fun w => set_tools_list (f w) w)).
Proof. intros w. apply grows_frame; [done|]. exists []. by rewrite app_nil_r. Qed.
Lemma set_services_grows f h : keeps grows (modify (fun w => set_services (f w) (h w) w)).
Proof. intros w. apply grows_frame; [done|]. exists []. by rewrite app_nil_r. Qed.

Lemma track_grows id tool action disp spec : keeps grows (track id tool action disp spec).
Proof.
  intros w. unfold track, get, lift, modify, mbind, M_bind.
  destruct (track_pending _ _ _ _ _ _) as [s|e] eqn:Ht; [|reflexivity].
  by eapply grows_session, track_pending_grows.
Qed.

Lemma resolve_grows id : keeps grows (resolve id).
Proof.
  intros w. unfold resolve, get, lift, modify, mret, M_ret, mbind, M_bind.
  destruct (resolve_pending _ _) as [[p s]|e] eqn:Ht; [|reflexivity].
  by eapply grows_session, resolve_pending_grows.
Qed.

Lemma run_pipeline_grows raw tool args : keeps grows (run_pipeline g raw tool args).
Proof.
  intros w. unfold run_pipeline. destruct (pipeline_run _ _ _) as [[o|e] c];
    (apply grows_frame; [done|exists []; by rewrite app_nil_r]).
Qed.

Lemma record_call_keeps tool : keeps grows (modify (fun w => set_session (record_call tool (session w)) w)).
Proof. intros w. apply grows_session, record_call_grows. Qed.

#[local] Hint Resolve emit_grows emit_dict_grows send_client_grows send_upstream_grows persist_grows
  audit_suspended_grows record_risk_grows set_monitor_grows set_tools_list_grows set_services_grows
  track_grows resolve_grows run_pipeline_grows record_call_keeps : keeps.

Lemma taint_grows raw tool : keeps grows (taint_if_source g raw tool).
Proof.
  unfold taint_if_source. destruct (is_taint_source _ _); [|keep_tac].
  intros w. unfold get, mbind at 1, M_bind at 1. pose proof (mark_tainted_grows tool (session w)) as Hm.
  destruct (mark_tainted tool (session w)) as [first s]. unfold modify, mbind, M_bind.
  etrans; [apply grows_session, Hm|]. apply (keeps_when grows), emit_grows.
Qed.

Lemma anomaly_grows last force : keeps grows (run_anomaly g last force).
Proof. unfold run_anomaly. keep_tac. Qed.
#[local] Hint Resolve taint_grows anomaly_grows : keeps.

Lemma score_denial_grows raw tool o d : keeps grows (score_denial g raw tool o d).
Proof. unfold score_denial. keep_tac. Qed.
#[local] Hint Resolve score_denial_grows : keeps.

Lemma handle_denial_grows raw tool o d : keeps grows (handle_denial g raw tool o d).
Proof. unfold handle_denial. keep_tac. Qed.
Lemma forward_grows raw tool d c : keeps grows (forward_allowed g raw tool d c).
Proof. unfold forward_allowed. keep_tac. Qed.
#[local] Hint Resolve handle_denial_grows forward_grows : keeps.

Lemma handle_tool_call_grows raw : keeps grows (handle_tool_call g raw).
Proof. unfold handle_tool_call. keep_tac. Qed.
Lemma deliver_tools_list_grows raw : keeps grows (deliver_tools_list g raw).
Proof. unfold deliver_tools_list. keep_tac. Qed.
Lemma withhold_grows raw p n r : keeps grows (withhold_unredactable raw p n r).
Proof. unfold withhold_unredactable. keep_tac. Qed.
#[local] Hint Resolve withhold_grows handle_tool_call_grows deliver_tools_list_grows : keeps.
Lemma deliver_redacted_grows raw p n : keeps grows (deliver_redacted g raw p n).
Proof. unfold deliver_redacted. keep_tac. Qed.
#[local] Hint Resolve deliver_redacted_grows : keeps.
Lemma deliver_tool_result_grows raw p : keeps grows (deliver_tool_result g raw p).
Proof. unfold deliver_tool_result, deliver_quarantined. keep_tac. Qed.
#[local] Hint Resolve deliver_tool_result_grows : keeps.

Lemma client_line_grows line : keeps grows (on_client_line g line).
Proof. unfold on_client_line, dispatch_client_line. keep_tac. Qed.
Lemma upstream_line_grows line : keeps grows (on_upstream_line g line).
Proof. unfold on_upstream_line, dispatch_upstream_line. keep_tac. Qed.

(** * Runs *)
Inductive input := ClientLine (line : string) | UpstreamLine (line : string).

Definition step (w : World) (i : input) : World :=
  match i with ClientLine l => (on_client_line g l w).2 | UpstreamLine l => (on_upstream_line g l w).2 end.

Lemma run_grows w ins : grows w (fold_left step ins w).
Proof.
  revert w. induction ins as [|i ins IH]; intros w; cbn; [reflexivity|].
  etrans; [|apply IH]. destruct i; [apply client_line_grows|apply upstream_line_grows].
Qed.
End Grows.

(** * What a handler sends *)

(** The handler only appends events that satisfy [P]. *)
Definition emits (P : event -> Prop) (w w' : World) : Prop :=
  exists evs, trace w' = trace w ++ evs /\ Forall P evs.

#[export] Instance emits_preorder P : PreOrder (emits P).
Proof.
  split.
  - intros w. exists []. by rewrite app_nil_r.
  - intros w1 w2 w3 (l1 & H1 & F1) (l2 & H2 & F2). exists (l1 ++ l2).
    split; [by rewrite H2, H1, (assoc_L (++))|by apply Forall_app].
Qed.

Lemma emits_same P w w' : trace w' = trace w -> emits P w w'.
Proof. intros Ht. exists []. by rewrite app_nil_r. Qed.

Lemma emits_one (P : event -> Prop) w e : P e -> emits P w (add_event e w).
Proof. intros He. exists [e]. split; [done|by constructor]. Qed.

Lemma emits_weaken (P Q : event -> Prop) w w' : (forall e, P e -> Q e) -> emits P w w' -> emits Q w w'.
Proof. intros HPQ (evs & ? & Hall). exists evs. split; [done|]. by eapply Forall_impl. Qed.

(** Nothing but audit and persistence. *)
Definition quiet (e : event) : Prop := match e with Audit _ _ | Saved _ => True | _ => False end.
(** What may be sent to the upstream. *)
Definition upstream_only (P : string -> Prop) (e : event) : Prop := match e with ToUpstream l => P l | _ => True end.
Definition client_only (P : string -> Prop) (e : event) : Prop :=
  match e with ToClient l => P l | ToUpstream _ => False | _ => True end.

Section Emits.
Context `{Regex} (g : SecurityGateway).
Implicit Types (raw : pydict) (w : World).

Lemma emit_quiet n fs : keeps (emits quiet) (emit n fs).
Proof. intros w. apply emits_one. exact I. Qed.
Lemma emit_dict_quiet n fs : keeps (emits quiet) (emit_dict n fs).
Proof. intros w. apply emits_one. exact I. Qed.
Lemma persist_quiet : keeps (emits quiet) persist.
Proof. intros w. apply emits_one. exact I. Qed.
Lemma audit_suspended_quiet : keeps (emits quiet) audit_suspended.
Proof. intros w. apply emits_one. exact I. Qed.
Lemma modify_quiet f : (forall w, trace (f w) = trace w) -> keeps (emits quiet) (modify f).
Proof. intros Hf w. apply emits_same, Hf. Qed.
Lemma set_session_quiet s : keeps (emits quiet) (modify (set_session s)).
Proof. by apply modify_quiet. Qed.
Lemma set_monitor_quiet s n : keeps (emits quiet) (modify (set_monitor s n)).
Proof. by apply modify_quiet. Qed.
Lemma set_tools_list_quiet f : keeps (emits quiet) (modify (fun w => set_tools_list (f w) w)).
Proof. by apply modify_quiet. Qed.
Lemma set_services_quiet f h : keeps (emits quiet) (modify (fun w => set_services (f w) (h w) w)).
Proof. by apply modify_quiet. Qed.
Lemma record_call_quiet tool : keeps (emits quiet) (modify (fun w => set_session (record_call tool (session w)) w)).
Proof. by apply modify_quiet. Qed.
Lemma run_pipeline_quiet raw tool args : keeps (emits quiet) (run_pipeline g raw tool args).
Proof. intros w. apply emits_same. unfold run_pipeline. by destruct (pipeline_run _ _ _) as [[o|e] c]. Qed.

#[local] Hint Resolve emit_quiet emit_dict_quiet persist_quiet audit_suspended_quiet set_session_quiet
  set_monitor_quiet set_tools_list_quiet set_services_quiet record_call_quiet run_pipeline_quiet : keeps.

Lemma record_risk_quiet ev d : keeps (emits quiet) (record_risk g ev d).
Proof. unfold record_risk. keep_tac. Qed.
Lemma track_quiet id tool action disp spec : keeps (emits quiet) (track id tool action disp spec).
Proof. unfold track. keep_tac. Qed.
Lemma resolve_quiet id : keeps (emits quiet) (resolve id).
Proof. unfold resolve. keep_tac. Qed.
Lemma taint_quiet raw tool : keeps (emits quiet) (taint_if_source g raw tool).
Proof. unfold taint_if_source. keep_tac. Qed.
#[local] Hint Resolve record_risk_quiet track_quiet resolve_quiet taint_quiet : keeps.
Lemma anomaly_quiet last force : keeps (emits quiet) (run_anomaly g last force).
Proof. unfold run_anomaly. keep_tac. Qed.
Lemma score_denial_quiet raw tool o d : keeps (emits quiet) (score_denial g raw tool o d).
Proof. unfold score_denial. keep_tac. Qed.
End Emits.

#[export] Hint Resolve emit_quiet emit_dict_quiet persist_quiet audit_suspended_quiet set_session_quiet
  set_monitor_quiet set_tools_list_quiet set_services_quiet record_call_quiet run_pipeline_quiet
  record_risk_quiet track_quiet resolve_quiet taint_quiet anomaly_quiet score_denial_quiet : keeps.

Lemma keeps_weaken {S A} (R1 R2 : S -> S -> Prop) (m : M S A) :
  (forall s s', R1 s s' -> R2 s s') -> keeps R1 m -> keeps R2 m.
Proof. intros HR Hm s. apply HR, Hm. Qed.

Lemma quiet_upstream {A} P (m : G A) : keeps (emits quiet) m -> keeps (emits (upstream_only P)) m.
Proof. apply keeps_weaken. intros ? ?. apply emits_weaken. by intros []. Qed.
Lemma quiet_client {A} P (m : G A) : keeps (emits quiet) m -> keeps (emits (client_only P)) m.
Proof. apply keeps_weaken. intros ? ?. apply emits_weaken. by intros []. Qed.
Lemma send_upstream_only (P : string -> Prop) l : P l -> keeps (emits (upstream_only P)) (send_upstream l).
Proof. intros Hl w. apply emits_one. exact Hl. Qed.
Lemma send_client_upstream P l : keeps (emits (upstream_only P)) (send_client l).
Proof. intros w. apply emits_one. exact I. Qed.
Lemma send_client_only (P : string -> Prop) l : P l -> keeps (emits (client_only P)) (send_client l).
Proof. intros Hl w. apply emits_one. exact Hl. Qed.

#[export] Hint Resolve send_client_upstream : keeps.
#[export] Hint Extern 3 (keeps (emits (upstream_only _)) _) => apply quiet_upstream : keeps.
#[export] Hint Extern 3 (keeps (emits (client_only _)) _) => apply quiet_client : keeps.

Section Answers.
Context `{Regex} (g : SecurityGateway).
Implicit Types (raw : pydict) (w : World).

Lemma record_risk_returns ev d : no_raise (record_risk g ev d).
Proof. unfold record_risk. no_raise_tac. Qed.
#[local] Hint Resolve record_risk_returns : keeps.
Lemma score_denial_returns raw tool o d : no_raise (score_denial g raw tool o d).
Proof. unfold score_denial, emit, emit_dict, audit_suspended, emit. no_raise_tac. Qed.
Lemma taint_returns raw tool : no_raise (taint_if_source g raw tool).
Proof. unfold taint_if_source, emit. no_raise_tac. Qed.
Lemma track_returns id tool action disp spec : hashable id = true -> no_raise (track id tool action disp spec).
Proof.
  intros Hid w. unfold track, get, lift, modify, mbind, M_bind, track_pending. rewrite Hid. by eexists.
Qed.

Lemma track_raises id tool action disp spec w : hashable id = false ->
  exists e, track id tool action disp spec w = (Err e, w).
Proof.
  intros Hid. unfold track, get, lift, mbind, M_bind, track_pending. rewrite Hid. by eexists.
Qed.

(** The lines a trace holds, in order. *)
Definition is_line (e : event) : bool := match e with ToClient _ | ToUpstream _ => true | _ => false end.
Definition sent (w : World) : list event := List.filter is_line (trace w).

Lemma quiet_sent {A} (m : G A) w : keeps (emits quiet) m -> sent (m w).2 = sent w.
Proof.
  intros Hm. destruct (Hm w) as (evs & Ht & Hall). unfold sent. rewrite Ht, List.filter_app.
  assert (List.filter is_line evs = []) as ->; [|by rewrite app_nil_r].
  clear Ht. induction Hall as [|e evs He _ IH]; [done|]. by destruct e.
Qed.

(** Sequencing: a quiet returning prefix does not change what is sent next. *)
Lemma sent_bind {A B} (P : World -> Prop) (m : G A) (f : A -> G B) w :
  keeps (emits quiet) m -> no_raise m ->
  (forall a w', sent w' = sent w -> P (f a w').2) -> P ((m ≫= f) w).2.
Proof.
  intros Hq Hr Hf. destruct (Hr w) as [a Ha]. pose proof (quiet_sent m w Hq) as Hs.
  unfold mbind, M_bind. destruct (m w) as [r w'] eqn:Hm. cbn in *. subst r. auto.
Qed.

(** A quiet step that raises: nothing more is sent. *)
Lemma sent_stop {A B} (m : G A) (f : A -> G B) w w1 e :
  m w1 = (Err e, w1) -> sent w1 = sent w -> sent ((m ≫= f) w1).2 = sent w.
Proof. intros Hm Hs. unfold mbind, M_bind. by rewrite Hm. Qed.

Lemma sent_add e w : is_line e = true -> sent (add_event e w) = sent w ++ [e].
Proof. intros He. unfold sent. cbn. rewrite List.filter_app. cbn. by rewrite He. Qed.

Lemma sent_last_quiet {A} e (m : G A) w : is_line e = true -> keeps (emits quiet) m ->
  sent ((modify (add_event e) ≫= fun _ => m) w).2 = sent w ++ [e].
Proof. intros He Hm. unfold mbind, M_bind, modify. rewrite quiet_sent by done. by apply sent_add. Qed.

Definition reply (raw : pydict) (tool : string) (reason : val) : event :=
  ToClient (encode_msg (denied_response (msg_id raw) tool (py_str reason))).

(** What a denied and an allowed call make the gateway send. An id that cannot be a
    dictionary key makes the tracking raise before the message leaves. *)
Definition denial_lines (raw : pydict) (tool : string) (o : StageOutcome) : list event :=
  if internal_error o && bool_decide (p_pipeline (g_posture g) = OPEN)
  then if hashable (msg_id raw) then [ToUpstream (encode_msg raw)] else []
  else [reply raw tool (o_reason o)].
Definition forward_lines (raw : pydict) (c : CallContext) : list event :=
  if hashable (msg_id raw) then [ToUpstream (encode_msg (outbound_msg raw c))] else [].

Lemma handle_denial_sent raw tool o d w :
  sent (handle_denial g raw tool o d w).2 = sent w ++ denial_lines raw tool o.
Proof.
  unfold handle_denial, denial_lines. destruct (internal_error o && _).
  - apply sent_bind; [apply emit_quiet|apply no_raise_modify|intros _ w1 H1].
    destruct (hashable (msg_id raw)) eqn:Hid.
    + apply sent_bind; [apply track_quiet|by apply track_returns|intros _ w2 H2].
      unfold send_upstream, modify. cbn [snd]. by rewrite sent_add, H2, H1.
    + destruct (track_raises (msg_id raw) tool "fail_open" DispNone None w1 Hid) as [e He].
      rewrite app_nil_r. by eapply sent_stop.
  - apply sent_bind; [apply score_denial_quiet|apply score_denial_returns|intros _ w1 H1].
    unfold send_client. rewrite sent_last_quiet by (done || apply anomaly_quiet). by rewrite H1.
Qed.

Lemma forward_sent raw tool d c w :
  sent (forward_allowed g raw tool d c w).2 = sent w ++ forward_lines raw c.
Proof.
  unfold forward_allowed, forward_lines.
  apply sent_bind; [apply record_call_quiet|apply no_raise_modify|intros _ w1 H1].
  apply sent_bind; [apply taint_quiet|apply taint_returns|intros _ w2 H2].
  destruct (hashable (msg_id raw)) eqn:Hid.
  - apply sent_bind; [apply track_quiet|by apply track_returns|intros _ w3 H3].
    apply sent_bind; [apply emit_quiet|apply no_raise_modify|intros _ w4 H4].
    unfold send_upstream. rewrite sent_last_quiet by (done || apply anomaly_quiet). by rewrite H4, H3, H2, H1.
  - destruct (track_raises (msg_id raw) tool (py_str (d_action d)) (cx_disposition c) (redaction_spec c) w2 Hid)
      as [e He].
    rewrite app_nil_r. eapply sent_stop; [exact He|]. by rewrite H2.
Qed.

(** The information the pipeline sees for a message in a state. *)
Definition call_info (w : World) (raw : pydict) : CallInfo :=
  let '(tool, arguments) := tool_call_parts raw in
  {| ci_session := session w; ci_message := raw; ci_tool := tool; ci_arguments := arguments;
     ci_principal := principal g |}.
Definition pipeline_result (w : World) (raw : pydict) : result StageOutcome * CallContext :=
  pipeline_run (pipeline g) (call_info w raw) (CallContext_new (w_vault w) (asked w)).

(** Why a line may go upstream: every gate passed, and it carries the rewritten arguments. *)
Definition permitted (w : World) (raw : pydict) (line : string) : Prop :=
  exists d o c, pipeline_result w raw = (Ok o, c) /\ denied o = false /\
    suspended (session w) = false /\ evaluate_call (pipeline g) (call_info w raw) = Ok d /\
    Forall (fun k => satisfies k (tool_call_parts raw).2) (d_constraints d) /\
    ~ forbidden (rp_sequence (pipeline g)) (tool_call_parts raw).1 (session w) /\
    action_permits (pipeline g) (call_info w raw) d c /\ line = encode_msg (outbound_msg raw c).

(** The opt-in exception: a crashed stage under the fail-open posture. *)
Definition failed_open (w : World) (raw : pydict) (line : string) : Prop :=
  p_pipeline (g_posture g) = OPEN /\ line = encode_msg raw /\
  exists o c, pipeline_result w raw = (Ok o, c) /\ denied o = true /\ internal_error o = true.

(** A tool call is answered by the outcome of the pipeline on the state it arrived in. *)
Definition answer (raw : pydict) (o : StageOutcome) (c : CallContext) : list event :=
  if denied o then denial_lines raw (tool_call_parts raw).1 o else forward_lines raw c.

Lemma handle_tool_call_sent raw w : plain_handlers (rp_handlers (pipeline g)) ->
  exists o c, pipeline_result w raw = (Ok o, c) /\ sent (handle_tool_call g raw w).2 = sent w ++ answer raw o c.
Proof.
  intros Hplain. unfold handle_tool_call, pipeline_result, call_info, answer.
  pose proof (pipeline_continue (pipeline g)) as Hcont.
  destruct (tool_call_parts raw) as [tool arguments] eqn:Hparts. cbn [fst].
  set (ci := {| ci_session := session w; ci_message := raw; ci_tool := tool; ci_arguments := arguments;
                ci_principal := principal g |}).
  destruct (run_total (pipeline_stages (pipeline g) ci) (CallContext_new (w_vault w) (asked w))) as (o & c & Hrun).
  fold (pipeline_run (pipeline g) ci) in Hrun. exists o, c. split; [done|].
  assert (exists w1, sent w1 = sent w /\ run_pipeline g raw tool arguments w = (Ok (o, c), w1)) as (w1 & Hw1 & Hrp).
  { unfold run_pipeline. fold ci. rewrite Hrun. eexists. split; [|done]. done. }
  unfold mbind at 1, M_bind at 1. rewrite Hrp.
  apply sent_bind.
  { destruct (approval c); [apply emit_quiet|apply (keeps_ret _)]. }
  { destruct (approval c); [apply no_raise_modify|apply no_raise_ret]. }
  intros _ w2 Hw2.
  destruct (denied o) eqn:Hd; [by rewrite handle_denial_sent, Hw2, Hw1|].
  destruct (Hcont _ _ _ _ Hplain Hrun Hd) as (_ & d & _ & Hdec & _). rewrite Hdec.
  by rewrite forward_sent, Hw2, Hw1.
Qed.

(** What an upstream line in the answer means. *)
Lemma answer_upstream w raw o c line : plain_handlers (rp_handlers (pipeline g)) ->
  pipeline_result w raw = (Ok o, c) -> ToUpstream line ∈ answer raw o c ->
  permitted w raw line \/ failed_open w raw line.
Proof.
  intros Hplain Hrun. unfold answer, denial_lines, forward_lines. destruct (denied o) eqn:Hd.
  - destruct (internal_error o && _) eqn:Hopen.
    + apply andb_true_iff in Hopen as [Hi Ho%bool_decide_eq_true]. destruct (hashable _); [|set_solver].
      intros [= ->]%list_elem_of_singleton. right. split_and!; [done..|]. exists o, c. done.
    + intros [=]%list_elem_of_singleton.
  - destruct (hashable _); [|set_solver]. intros [= ->]%list_elem_of_singleton. left.
    unfold pipeline_result in Hrun.
    destruct (pipeline_continue _ _ _ _ _ Hplain Hrun Hd) as (Hs & d & Hev & Hdec & Hcs & Hf & Hap & _).
    assert (ci_session (call_info w raw) = session w /\ ci_tool (call_info w raw) = (tool_call_parts raw).1 /\      ci_arguments (call_info w raw) = (tool_call_parts raw).2) as (E1 & E2 & E3).
    { unfold call_info. by destruct (tool_call_parts raw). }
    rewrite E1 in Hs. rewrite E1, E2 in Hf. rewrite E3 in Hcs.
    exists d, o, c. unfold pipeline_result. split_and!; done.
Qed.

(** A line that holds a tool call is handled as one. *)
Lemma client_line_sent line raw w : decode_line line = Ok (Some raw) -> is_tool_call raw = true ->
  sent (on_client_line g line w).2 = sent (handle_tool_call g raw w).2.
Proof.
  intros Hd Ht. unfold on_client_line, dispatch_client_line, lift, mbind, M_bind. rewrite Hd, Ht.
  destruct (handle_tool_call g raw w) as [[u|e] w1]; [|done]. apply (quiet_sent persist), persist_quiet.
Qed.
End Answers.

(** * The response path *)
Lemma aset_aset {K A} `{EqDecision K} (k : K) (v v' : A) d : aset k v (aset k v' d) = aset k v d.
Proof.
  induction d as [|[k' w] d IH]; cbn; [by rewrite decide_True|].
  destruct (decide (k = k')); cbn; [by rewrite decide_True|by rewrite decide_False, IH].
Qed.

(** A notice hides the result: it is the same for every result the message could carry. *)
Lemma with_notice_result raw r text : with_notice (dset "result" r raw) text = with_notice raw text.
Proof. apply aset_aset. Qed.

Section Results.
Context `{Regex} (g : SecurityGateway).
Implicit Types (raw : pydict) (w : World).

Lemma get_bind {A} (f : World -> G A) w : (get ≫= f) w = f w w.
Proof. done. Qed.

Lemma sent_emit_send n fs l w :
  sent ((emit n fs ≫= fun _ => send_client l) w).2 = sent w ++ [ToClient l].
Proof.
  apply sent_bind; [apply emit_quiet|apply no_raise_modify|]. intros _ w' Hw.
  unfold send_client, modify. cbn [snd]. by rewrite sent_add, Hw.
Qed.

(** What the client may be sent for a result under [redact]: the scrubbed result, a notice,
    or, only under the fail-open posture after a failure, the original. *)
Definition redacted_line (raw : pydict) (p : PendingCall) (line : string) : Prop :=
  (exists svc spec v x fs v', redaction g = Some svc /\ pc_redaction p = Some spec /\
     @svc_redact svc (opt_val (dget "result" raw)) spec v = Ok (x, (fs, v')) /\
     line = encode_msg (dset "result" x raw)) \/
  line = encode_msg (with_notice raw (redaction_failed_notice (pc_tool p))) \/
  (p_redaction (g_posture g) = OPEN /\ line = encode_msg raw /\
   exists svc spec v e, redaction g = Some svc /\ pc_redaction p = Some spec /\
     @svc_redact svc (opt_val (dget "result" raw)) spec v = Err e).

Lemma deliver_redacted_sent raw p n w : exists line,
  sent (deliver_redacted g raw p n w).2 = sent w ++ [ToClient line] /\ redacted_line raw p line.
Proof.
  assert (forall r, exists line, sent (withhold_unredactable raw p n r w).2 = sent w ++ [ToClient line] /\
    redacted_line raw p line) as Hwith.
  { intros r. eexists. split; [apply sent_emit_send|by right; left]. }
  unfold deliver_redacted. destruct (redaction g) as [svc|] eqn:Hsvc; [|apply Hwith].
  destruct (pc_redaction p) as [spec|] eqn:Hspec; [|apply Hwith].
  rewrite get_bind.
  destruct (svc_redact _ _ _) as [[x [fs v']]|e] eqn:Hr.
  - eexists. split; [|left; exists svc, spec, (w_vault w), x, fs, v'; split_and!; try done; reflexivity].
    apply sent_bind; [by apply modify_quiet|apply no_raise_modify|intros _ w1 H1].
    apply sent_bind; [| |intros fields w2 H2].
    + destruct (3 <=? _); keep_tac.
    + destruct (3 <=? _); [|apply no_raise_ret]. apply no_raise_bind; [apply record_risk_returns|intros u].
      apply no_raise_bind; [|intros _; apply no_raise_ret]. apply no_raise_when. intros s. by eexists.
    + apply sent_bind; [apply emit_dict_quiet|apply no_raise_modify|intros _ w3 H3].
      unfold send_client, modify. cbn [snd]. rewrite sent_add, H3, H2, H1 by done. done.
  - case_bool_decide as Ho; [|apply Hwith].
    eexists. split; [apply sent_emit_send|]. right. right. split_and!; [done..|].
    exists svc, spec, (w_vault w), e. done.
Qed.

Lemma on_upstream_pending line raw p w :
  decode_line line = Ok (Some raw) -> is_response raw = true -> hashable (msg_id raw) = true ->
  pget (msg_id raw) (pending (session w)) = Some p ->
  exists w', sent w' = sent w /\ sent (on_upstream_line g line w).2 = sent (deliver_tool_result g raw p w').2.
Proof.
  intros Hdec Hresp Hid Hp. unfold on_upstream_line.
  set (w1 := set_session (set_pending (pdel (msg_id raw) (pending (session w))) (session w)) w).
  assert (dispatch_upstream_line g line w = deliver_tool_result g raw p w1) as Heq.
  { unfold dispatch_upstream_line, lift. unfold mbind at 1, M_bind at 1. rewrite Hdec, Hresp.
    unfold resolve, get, lift, modify, mret, M_ret, mbind, M_bind, resolve_pending.
    unfold w1. destruct (pending (session w)) as [|kp l]; [done|]. by rewrite Hid, Hp. }
  exists w1. split; [done|]. unfold mbind, M_bind. rewrite Heq.
  destruct (deliver_tool_result g raw p w1) as [[u|e] w2]; [|done].
  apply (quiet_sent persist), persist_quiet.
Qed.

(** The only entries hidden from a tools list are the ones whose action can only deny. *)
Lemma split_tools_spec e tools shown hidden : split_tools g e tools = Ok (shown, hidden) ->
  (forall x, x ∈ shown <-> x ∈ tools /\ tool_hidden g e x = Ok None) /\
  (forall n, n ∈ hidden <-> exists x, x ∈ tools /\ tool_hidden g e x = Ok (Some n)) /\
  List.length shown + List.length hidden = List.length tools.
Proof.
  revert shown hidden. induction tools as [|x tools IH]; intros shown hidden.
  { intros [= <- <-]. split_and!; set_solver. }
  cbn [split_tools]. intros (h & Hh & ([s hd] & Hs & [=])%bind_ok)%bind_ok.
  destruct (IH _ _ Hs) as (I1 & I2 & I3). destruct h as [n|]; simplify_eq; split_and!.
  - intros y. rewrite I1, elem_of_cons. split; [naive_solver|]. intros [[->|?] ?]; [congruence|done].
  - intros m. rewrite elem_of_cons, I2. setoid_rewrite elem_of_cons. split.
    + intros [->|(y & ? & ?)]; eauto.
    + intros (y & [->|Hy] & Hm); [left; congruence|right; eauto].
  - cbn. lia.
  - intros y. rewrite !elem_of_cons, I1. naive_solver.
  - intros m. rewrite I2. setoid_rewrite elem_of_cons. split; [naive_solver|].
    intros (y & [->|Hy] & Hm); [congruence|eauto].
  - cbn. lia.
Qed.
End Results.
