(* ===== verification/Safety.v ===== *)
(** The gateway's guarantees, end to end: what a run may forward, what reaches the client,
    and a small deployment on which the theorems are evaluated. *)
From S2P Require Import Prelude PyVal Json Glob Session Rules Loader Engine Redaction Approvals Protocol Pipeline.
From S2P Require Import Gateway GatewayProofs.

(** * A deployment *)
#[local] Existing Instance literal_regex.

(** A policy with one rule per kind of gate. *)
Definition demo_policy : val := VObj
  [("schema_version", VInt 1); ("name", VStr "demo");
   ("tools", VObj
      [("mail.*", VObj [("action", VStr "allow")]);
       ("db.read", VObj [("action", VStr "quarantine")]);
       ("crm.get", VObj [("action", VStr "redact")]);
       ("db.drop", VObj [("action", VStr "block"); ("reason", VStr "never")])]);
   ("taint_sources", strs ["db.read"]); ("taint_sinks", strs ["mail.*"])].

(** A redaction service that replaces every value. *)
Definition demo_redaction : RedactionService :=
  {| svc_redact := fun _ _ v => Ok (VStr "[scrubbed]", ([], v)) |}.

Definition demo_deployment : result SecurityGateway :=
  e ← from_documents [(demo_policy, "demo.yaml")];
  p ← default_pipeline e (Some demo_redaction) None;
  SecurityGateway_init p {| principal_id := "dev"; roles := [] |} (Some demo_redaction) (Some e) None.

Definition demo_gateway : SecurityGateway := the demo_deployment I.
Definition demo_engine : PolicyEngine := the (from_documents [(demo_policy, "demo.yaml")]) I.

Definition tool_call (id : Z) (tool : string) : pydict :=
  fields [("jsonrpc", VStr "2.0"); ("id", VInt id); ("method", VStr "tools/call");
          ("params", VObj [("name", VStr tool); ("arguments", VObj [])])].
Definition tool_reply (id : Z) (v : val) : pydict :=
  fields [("jsonrpc", VStr "2.0"); ("id", VInt id); ("result", v)].

Definition demo_start : World := World_new (Session_new "s1" "2024-01-01T00:00:00Z").
(** The session after a read of untrusted data. *)
Definition demo_tainted : World :=
  (on_client_line demo_gateway (encode_msg (tool_call 1 "db.read")) demo_start).2.
Definition demo_suspended : World :=
  set_session (set_risk true 90 [] (session demo_start)) demo_start.

Section Lemmas.
Context `{Regex}.
Implicit Types (g : SecurityGateway) (raw : pydict) (w : World).

Lemma default_plain e svc b p : default_pipeline e svc b = Ok p -> plain_handlers (rp_handlers p).
Proof. unfold default_pipeline. intros (sp & _ & [= <-])%bind_ok. apply build_handlers_plain. Qed.

Lemma handlers_nodup svc b : NoDup (akeys (build_action_handlers svc b)).
Proof. apply (bool_decide_unpack _). vm_compute. exact I. Qed.

(** The deny-only actions are the ones whose handler can only deny. *)
Lemma denying_terminal p a h : NoDup (akeys (rp_handlers p)) -> a ∈ denying_actions p ->
  aget a (rp_handlers p) = Some h -> terminal_deny h = true.
Proof.
  intros Hnd Hin Hh. unfold denying_actions in Hin.
  apply list_elem_of_fmap in Hin as ([n k] & -> & [Hk Ht]%elem_filter). cbn in *.
  rewrite (elem_aget _ _ _ Hnd Hk) in Hh. by injection Hh as <-.
Qed.

Lemma answer_length g raw o c :
  List.length (answer g raw o c) <= 1 /\ (hashable (msg_id raw) = true -> List.length (answer g raw o c) = 1).
Proof.
  unfold answer, denial_lines, forward_lines.
  destruct (denied o), (internal_error o && bool_decide (p_pipeline (g_posture g) = OPEN)), (hashable (msg_id raw));
    split; cbn; done || lia.
Qed.

Lemma run_suspended g w ins : suspended (session w) = true -> suspended (session (fold_left (step g) ins w)) = true.
Proof. apply (gr_suspended _ _ (run_grows g w ins)). Qed.

Lemma run_forbidden g p tool w ins : forbidden p tool (session w) ->
  forbidden p tool (session (fold_left (step g) ins w)).
Proof.
  destruct (run_grows g w ins) as [_ _ Ht [h Hh] _ _]. apply forbidden_mono; [by intros ?; apply Ht|].
  rewrite Hh. set_solver.
Qed.

Lemma call_info_session g w raw : ci_session (call_info g w raw) = session w.
Proof. unfold call_info. by destruct (tool_call_parts raw). Qed.

Lemma call_info_tool g w raw : ci_tool (call_info g w raw) = (tool_call_parts raw).1.
Proof. unfold call_info. by destruct (tool_call_parts raw). Qed.

(** A tool call in a suspended session is refused with a reply. *)
Lemma suspended_answer g w raw : suspended (session w) = true ->
  exists o c, pipeline_result g w raw = (Ok o, c) /\ answer g raw o c =
    [reply raw (tool_call_parts raw).1 (VStr "session suspended by risk engine; all tool calls refused")].
Proof.
  intros Hs. unfold pipeline_result. rewrite pipeline_run_eq, call_info_session, Hs. by eexists _, _.
Qed.

Lemma suspended_refused g e svc b line raw w :
  default_pipeline e svc b = Ok (pipeline g) -> suspended (session w) = true ->
  decode_line line = Ok (Some raw) -> is_tool_call raw = true ->
  sent (on_client_line g line w).2 = sent w ++
    [reply raw (tool_call_parts raw).1 (VStr "session suspended by risk engine; all tool calls refused")].
Proof.
  intros Hp%default_plain Hs Hd Ht. rewrite (client_line_sent g line raw) by done.
  destruct (handle_tool_call_sent g raw w Hp) as (o & c & Hrun & ->).
  destruct (suspended_answer g w raw Hs) as (o' & c' & Hrun' & Ha).
  rewrite Hrun in Hrun'. injection Hrun' as <- <-. by rewrite Ha.
Qed.

Lemma response_line_sent g line raw p w :
  decode_line line = Ok (Some raw) -> is_response raw = true -> hashable (msg_id raw) = true ->
  pget (msg_id raw) (pending (session w)) = Some p -> pc_disposition p = DispQuarantine -> result_is_error raw = false ->
  sent (on_upstream_line g line w).2 = sent w ++ [ToClient (encode_msg (with_notice raw (quarantine_notice (pc_tool p))))].
Proof.
  intros Hd Hr Hid Hp Hq He. destruct (on_upstream_pending g line raw p w Hd Hr Hid Hp) as (w' & Hw' & ->).
  unfold deliver_tool_result. rewrite He, Hq. cbn [negb andb]. rewrite bool_decide_eq_true_2 by done.
  unfold deliver_quarantined. by rewrite sent_emit_send, Hw'.
Qed.
End Lemmas.

(** * The properties *)

(** C1: Complete mediation. Under the pipeline the gateway is built with, a client line that holds a
    tool call is answered from the outcome of the whole pipeline on the state it arrived in: at
    most one line leaves (exactly one when the id is a legal JSON-RPC id), and a line goes to
    the upstream only if the session is not suspended, the policy's decision for the tool and
    role was computed, every constraint of that decision holds of the arguments, no taint or
    ordering rule forbids the tool, and the action stage let it through (approved by a human
    where the action asks for it), or a stage crashed under the opt-in fail-open posture. *)
Theorem tool_calls_mediated `{Regex} g e svc b line raw w :
  default_pipeline e svc b = Ok (pipeline g) ->
  decode_line line = Ok (Some raw) -> is_tool_call raw = true ->
  exists o c, pipeline_result g w raw = (Ok o, c) /\
    sent (on_client_line g line w).2 = sent w ++ answer g raw o c /\
    (forall l, ToUpstream l ∈ answer g raw o c -> permitted g w raw l \/ failed_open g w raw l) /\
    List.length (answer g raw o c) <= 1 /\
    (hashable (msg_id raw) = true -> List.length (answer g raw o c) = 1).
Proof.
  intros Hp%default_plain Hd Ht. destruct (handle_tool_call_sent g raw w Hp) as (o & c & Hrun & Hs).
  exists o, c. rewrite (client_line_sent g line raw) by done.
  destruct (answer_length g raw o c). split_and!; try done. intros l. by apply answer_upstream.
Qed.

Lemma tool_calls_mediated_witness :
  let raw := tool_call 1 "mail.send" in
  is_tool_call raw = true /\
  exists o c, pipeline_result demo_gateway demo_start raw = (Ok o, c) /\
    sent (on_client_line demo_gateway (encode_msg raw) demo_start).2 = [] ++ answer demo_gateway raw o c /\
    (forall l, ToUpstream l ∈ answer demo_gateway raw o c ->
       permitted demo_gateway demo_start raw l \/ failed_open demo_gateway demo_start raw l) /\
    List.length (answer demo_gateway raw o c) <= 1 /\
    (hashable (msg_id raw) = true -> List.length (answer demo_gateway raw o c) = 1).
Proof.
  split; [reflexivity|].
  apply (tool_calls_mediated demo_gateway demo_engine (Some demo_redaction) None); vm_compute; reflexivity.
Defined.

(** C2: Suspension is final. Once the risk engine has suspended a session, then after any further
    traffic in either direction every tool call is answered with the suspension denial and
    nothing is forwarded, whatever the policy and the failure posture. *)
Theorem suspension_is_final `{Regex} g e svc b w ins line raw :
  default_pipeline e svc b = Ok (pipeline g) -> suspended (session w) = true ->
  decode_line line = Ok (Some raw) -> is_tool_call raw = true ->
  let w' := fold_left (step g) ins w in
  sent (on_client_line g line w').2 = sent w' ++
    [reply raw (tool_call_parts raw).1 (VStr "session suspended by risk engine; all tool calls refused")].
Proof.
  intros Hp Hs Hd Ht w'. apply (suspended_refused g e svc b); [done|by apply run_suspended|done..].
Qed.

Lemma suspension_is_final_witness :
  let w' := fold_left (step demo_gateway) [UpstreamLine "{}"; ClientLine "[]"] demo_suspended in
  let raw := tool_call 7 "mail.send" in
  sent (on_client_line demo_gateway (encode_msg raw) w').2 = sent w' ++
    [reply raw (tool_call_parts raw).1 (VStr "session suspended by risk engine; all tool calls refused")].
Proof.
  apply (suspension_is_final demo_gateway demo_engine (Some demo_redaction) None); vm_compute; reflexivity.
Defined.

(** C3: Session gates are permanent. A tool that a taint sink or an ordering rule forbids in some
    state of the session is forwarded in no later state, after any traffic: the only line a
    call to it produces is a denial to the client, unless a stage crashes under the
    fail-open posture. *)
Theorem forbidden_never_forwarded `{Regex} g e svc b w ins line raw :
  default_pipeline e svc b = Ok (pipeline g) ->
  forbidden (rp_sequence (pipeline g)) (tool_call_parts raw).1 (session w) ->
  decode_line line = Ok (Some raw) -> is_tool_call raw = true ->
  let w' := fold_left (step g) ins w in
  (exists reason, sent (on_client_line g line w').2 = sent w' ++ [reply raw (tool_call_parts raw).1 reason]) \/
  (p_pipeline (g_posture g) = OPEN /\ exists o c, pipeline_result g w' raw = (Ok o, c) /\ internal_error o = true).
Proof.
  intros Hp%default_plain Hf Hd Ht w'. rewrite (client_line_sent g line raw) by done.
  destruct (handle_tool_call_sent g raw w' Hp) as (o & c & Hrun & ->). unfold answer.
  destruct (denied o) eqn:Hden.
  - unfold denial_lines. destruct (internal_error o && _) eqn:Ho; [right|left; eauto].
    apply andb_true_iff in Ho as [Hi Ho%bool_decide_eq_true]. eauto.
  - exfalso. unfold pipeline_result in Hrun.
    destruct (pipeline_continue _ _ _ _ _ Hp Hrun Hden) as (_ & d & _ & _ & _ & Hnf & _).
    apply Hnf. rewrite call_info_session, call_info_tool. by apply run_forbidden.
Qed.

(** The read of untrusted data has tainted the session; sending mail is forbidden after it. *)
Lemma demo_forbidden : forbidden (rp_sequence (pipeline demo_gateway)) "mail.send" (session demo_tainted).
Proof. apply check_forbidden. vm_compute. eauto. Qed.

Lemma forbidden_never_forwarded_witness :
  let w' := fold_left (step demo_gateway) [ClientLine "[]"] demo_tainted in
  let raw := tool_call 7 "mail.send" in
  (exists reason, sent (on_client_line demo_gateway (encode_msg raw) w').2 =
     sent w' ++ [reply raw (tool_call_parts raw).1 reason]) \/
  (p_pipeline (g_posture demo_gateway) = OPEN /\
   exists o c, pipeline_result demo_gateway w' raw = (Ok o, c) /\ internal_error o = true).
Proof.
  apply (forbidden_never_forwarded demo_gateway demo_engine (Some demo_redaction) None);
    [vm_compute; reflexivity|exact demo_forbidden|vm_compute; reflexivity|reflexivity].
Defined.

(** C9: Quarantine hides the result. Two upstream responses to a quarantined call that differ only in
    a non-error result put the same line on the client's side: the message with a notice in
    place of the result. *)
Theorem quarantine_noninterference `{Regex} g w line1 line2 raw r p :
  decode_line line1 = Ok (Some raw) -> decode_line line2 = Ok (Some (dset "result" r raw)) ->
  is_response raw = true -> is_response (dset "result" r raw) = true -> hashable (msg_id raw) = true ->
  pget (msg_id raw) (pending (session w)) = Some p -> pc_disposition p = DispQuarantine ->
  result_is_error raw = false -> result_is_error (dset "result" r raw) = false ->
  sent (on_upstream_line g line1 w).2 = sent (on_upstream_line g line2 w).2 /\
  sent (on_upstream_line g line1 w).2 =
    sent w ++ [ToClient (encode_msg (with_notice raw (quarantine_notice (pc_tool p))))].
Proof.
  intros Hd1 Hd2 Hr1 Hr2 Hid Hp Hq He1 He2.
  assert (msg_id (dset "result" r raw) = msg_id raw) as Hi by (unfold msg_id, dget, dset; by rewrite aget_aset_ne).
  rewrite (response_line_sent g line1 raw p), (response_line_sent g line2 (dset "result" r raw) p) by (rewrite ?Hi; done).
  by rewrite with_notice_result.
Qed.

Lemma quarantine_noninterference_witness :
  let raw := tool_reply 1 (VStr "secret") in
  let raw' := dset "result" (VStr "other") raw in
  exists p, pget (msg_id raw) (pending (session demo_tainted)) = Some p /\
  sent (on_upstream_line demo_gateway (encode_msg raw) demo_tainted).2 =
    sent (on_upstream_line demo_gateway (encode_msg raw') demo_tainted).2 /\
  sent (on_upstream_line demo_gateway (encode_msg raw) demo_tainted).2 =
    sent demo_tainted ++ [ToClient (encode_msg (with_notice raw (quarantine_notice (pc_tool p))))].
Proof.
  eexists. split; [vm_compute; reflexivity|].
  apply (quarantine_noninterference demo_gateway demo_tainted _ _ _ (VStr "other")); vm_compute; reflexivity.
Defined.



(** The session only moves forward. Over any traffic the session keeps its id, stays suspended
    and stays tainted with the first origin once it is, and the call history, the risk events
    and the trace of everything sent, audited and persisted only grow at their ends. *)
Theorem session_monotone `{Regex} g w ins : grows w (fold_left (step g) ins w).
Proof. apply run_grows. Qed.

(** Every line handled to completion ends by persisting the session, and what is persisted
    restores it: parsing the last snapshot gives the live session without its pending calls. *)
Theorem snapshot_restores `{Regex} g w i : 
  is_ok (match i with ClientLine l => on_client_line g l w | UpstreamLine l => on_upstream_line g l w end).1 = true ->
  exists d, last (trace (step g w i)) = Some (Saved d) /\
    from_dict d = Ok (set_pending [] (session (step g w i))).
Proof.
  assert (forall (m : G unit), is_ok ((m ≫= fun _ => persist) w).1 = true ->
    exists d, last (trace ((m ≫= fun _ => persist) w).2) = Some (Saved d) /\
      from_dict d = Ok (set_pending [] (session ((m ≫= fun _ => persist) w).2))) as Hall.
  { intros m. unfold persist, get, modify, mbind, M_bind. destruct (m w) as [[u|e] w1]; [|done]. intros _.
    exists (to_dict (session w1)). cbn [snd trace add_event session]. by rewrite last_snoc, from_dict_to_dict. }
  destruct i as [l|l]; apply Hall.
Qed.

Lemma snapshot_restores_witness :
  let i := ClientLine (encode_msg (tool_call 1 "db.read")) in
  exists d, last (trace (step demo_gateway demo_start i)) = Some (Saved d) /\
    from_dict d = Ok (set_pending [] (session (step demo_gateway demo_start i))).
Proof.
  apply (snapshot_restores demo_gateway demo_start (ClientLine (encode_msg (tool_call 1 "db.read")))).
  vm_compute. reflexivity.
Defined.

(** The filter of a tools list drops entries and nothing else: what remains of the list is
    exactly the entries that are not hidden, and shown plus hidden is the total. *)
Theorem tools_list_filtered `{Regex} g e raw r tools out hidden total :
  policy g = Some e -> dget "result" raw = Some (VDict r) -> dget "tools" r = Some (VList tools) ->
  filter_tools_list g raw = Ok (out, hidden, total) ->
  exists r' shown, dget "result" out = Some (VDict r') /\ dget "tools" r' = Some (VList shown) /\
    (forall x, x ∈ shown <-> x ∈ tools /\ tool_hidden g e x = Ok None) /\
    (forall n, n ∈ hidden <-> exists x, x ∈ tools /\ tool_hidden g e x = Ok (Some n)) /\
    List.length shown + List.length hidden = total /\ total = List.length tools /\
    (forall f, f <> "result" -> dget f out = dget f raw) /\ (forall f, f <> "tools" -> dget f r' = dget f r).
Proof.
  intros Hpol Hres Htools. unfold filter_tools_list. rewrite Hpol, Hres, Htools.
  intros ([shown hd] & Hs & Hout)%bind_ok. destruct (split_tools_spec _ _ _ _ _ Hs) as (I1 & I2 & I3).
  destruct hd as [|h hd]; injection Hout as <- <- <-.
  - exists r, tools. split_and!; try done; try (cbn; lia).
    intros x. split; [|naive_solver]. intros Hx. split; [done|].
    assert (exists o, tool_hidden g e x = Ok o) as [[n|] Hn]; [|by destruct (not_elem_of_nil n); apply I2; eauto|done].
    clear -Hs Hx. revert shown Hs. generalize (@nil string). induction tools as [|y tools IH]; [set_solver|].
    intros hd shown. cbn [split_tools]. intros (o & Ho & ([s' h'] & Hs & _)%bind_ok)%bind_ok.
    apply elem_of_cons in Hx as [->|Hx]; eauto.
  - exists (dset "tools" (VList shown) r), shown.
    split_and!; try done; try (by intros f Hf; unfold dget, dset; rewrite aget_aset_ne by congruence);
      unfold dget, dset; by rewrite aget_aset_eq.
Qed.

Definition demo_entry (n : string) : val := VObj [("name", VStr n)].
Definition demo_listing : pydict := fields [("tools", VList [demo_entry "db.drop"; demo_entry "mail.send"])].

Lemma tools_list_filtered_witness :
  let raw := tool_reply 1 (VDict demo_listing) in
  let f := the (filter_tools_list demo_gateway raw) I in
  f.1.2 = ["db.drop"] /\ exists r' shown, dget "result" f.1.1 = Some (VDict r') /\
    dget "tools" r' = Some (VList shown) /\ List.length shown + 1 = f.2.
Proof.
  intros raw f. split; [vm_compute; reflexivity|].
  destruct (tools_list_filtered demo_gateway demo_engine raw demo_listing [demo_entry "db.drop"; demo_entry "mail.send"]
    f.1.1 f.1.2 f.2) as (r' & shown & H1 & H2 & _ & _ & H5 & _); [vm_compute; reflexivity..|].
  exists r', shown. split_and!; [exact H1|exact H2|exact H5].
Defined.

(** Hiding is sound. A tool that the tools list hides from a role is one that role cannot call:
    the pipeline denies every call to it, with any arguments and in any session, provided the
    approval channel that declares it cannot approve indeed never approves. *)
Theorem hidden_tools_denied `{Regex} e svc b p tool ci c o c' :
  default_pipeline e svc b = Ok p ->
  (forall br, b = Some br -> can_approve (channel br) = false -> forall n r, approved (broker_request br n r) = false) ->
  ci_tool ci = tool -> is_visible e tool (first_role (ci_principal ci)) (denying_actions p) = Ok false ->
  pipeline_run p ci c = (Ok o, c') -> denied o = true.
Proof.
  intros Hp Hbr <- Hv Hrun. destruct (denied o) eqn:Hd; [done|exfalso].
  pose proof (default_plain _ _ _ _ Hp) as Hplain. unfold default_pipeline in Hp. apply bind_ok in Hp as (sp & _ & [= <-]).
  destruct (pipeline_continue _ _ _ _ _ Hplain Hrun Hd) as (_ & d & Hev & _ & _ & _ & _ & h & Hh & o' & Ho & Hd').
  unfold is_visible in Hv. unfold evaluate_call in Hev. cbn [rp_engine] in Hev. rewrite Hev in Hv.
  apply bind_ok in Hv as (d1 & [= <-] & (bb & Hb & [= ->%negb_false_iff])%bind_ok).
  destruct (d_action d) as [| | | |a| |]; try discriminate. injection Hb as Hin%bool_decide_eq_true.
  injection Hh as Hh. cbn [rp_handlers] in Hh, Ho.
  assert (terminal_deny h = true) as Ht by (eapply denying_terminal; [|exact Hin|exact Hh]; apply handlers_nodup).
  destruct h as [| |[s|]| | |[br|]]; try discriminate; cbn [on_request] in Ho.
  - by injection Ho as <- <-.
  - by injection Ho as <- <-.
  - assert (b = Some br) as ->.
    { revert Hh. clear. cbn. repeat case_decide; by intros [=]. }
    apply negb_true_iff in Ht. unfold get, modify, mret, M_ret, mbind, M_bind in Ho.
    rewrite (Hbr br eq_refl Ht) in Ho. cbn in Ho. by injection Ho as <- <-.
  - by injection Ho as <- <-.
Qed.

Definition demo_drop_call : CallInfo :=
  {| ci_session := session demo_start; ci_message := tool_call 1 "db.drop"; ci_tool := "db.drop";
     ci_arguments := []; ci_principal := principal demo_gateway |}.

Lemma hidden_tools_denied_witness :
  match pipeline_run (pipeline demo_gateway) demo_drop_call (CallContext_new [] 0) with
  | (Ok o, _) => denied o = true
  | _ => False
  end.
Proof.
  destruct (pipeline_run (pipeline demo_gateway) demo_drop_call (CallContext_new [] 0)) as [[o|e] c'] eqn:Hr.
  - apply (hidden_tools_denied demo_engine (Some demo_redaction) None (pipeline demo_gateway) "db.drop"
      demo_drop_call (CallContext_new [] 0) o c');
      [vm_compute; reflexivity|discriminate|reflexivity|vm_compute; reflexivity|exact Hr].
  - vm_compute in Hr. discriminate.
Defined.

(** * Observations *)

(** A [tools/call] without an id is a notification, not a request: it is forwarded without
    policy, here for a tool the policy blocks. *)
Definition call_notification (tool : string) : pydict := dset "id" VNone (tool_call 1 tool).

Lemma notification_not_policed :
  sent (on_client_line demo_gateway (encode_msg (call_notification "db.drop")) demo_start).2 =
  [ToUpstream (encode_msg (call_notification "db.drop"))].
Proof. vm_compute. reflexivity. Qed.

(** A JSON array of requests is opaque to the codec and forwarded as it is. *)
Lemma batch_not_policed :
  let batch := encode (VList [VDict (tool_call 1 "db.drop")]) in
  sent (on_client_line demo_gateway batch demo_start).2 = [ToUpstream batch].
Proof. vm_compute. reflexivity. Qed.

(** An id reused while its first call is in flight replaces the first call's disposition:
    the result of the redacted call then reaches the client as the upstream sent it. *)
Lemma reused_id_releases_result :
  let calls := [ClientLine (encode_msg (tool_call 1 "crm.get")); ClientLine (encode_msg (tool_call 1 "mail.send"))] in
  let w := fold_left (step demo_gateway) calls demo_start in
  let reply := encode_msg (tool_reply 1 (VStr "secret")) in
  sent (on_upstream_line demo_gateway reply w).2 = sent w ++ [ToClient reply].
Proof. vm_compute. reflexivity. Qed.
