(* ===== verification/Spool.v ===== *)
(** The audit spool and its readers: [audit/spool.py], [audit/reader.py],
    [audit/forwarder.py]. The file is a list of bytes; a line's text is decoded byte by
    byte, which differs from UTF-8 only inside strings. The watermark file, the endless loop
    and the sinks are in [Forwarder]. *)
From S2P Require Import Prelude PyVal Json.

Abbreviation bytes := (list ascii).
Definition nl : ascii := ascii_of_nat 10.
Definition is_nl (a : ascii) : bool := Ascii.eqb a nl.

(** * Writing *)
(** [JsonlSpool.emit]: one compact JSON object and a newline, appended. *)
Definition spool_line (event : pydict) : bytes := chars (json_dumps (VDict event)) ++ [nl].
Definition spool_emit (content : bytes) (event : pydict) : bytes := content ++ spool_line event.

(** * Reading *)
Record SpoolRecord := { r_offset : nat; r_end : nat; r_event : pydict }.
Record ReadResult := { records : list SpoolRecord; next_offset : nat; bad_lines : nat; torn_tail : bool }.

(** The complete lines, without their newline, and the fragment after the last one. *)
Fixpoint split_lines (l : bytes) : list bytes * bytes :=
  match l with
  | [] => ([], [])
  | a :: l =>
      let '(ls, t) := split_lines l in
      if is_nl a then ([] :: ls, t)
      else match ls with
           | [] => ([], a :: t)
           | x :: ls => ((a :: x) :: ls, t)
           end
  end.

Inductive parsed := PEvent (e : pydict) | PBad | PBlank.

(** [bytes.strip]: the six ASCII white-space bytes *)
Definition is_bspace (a : ascii) : bool :=
  let n := nat_of_ascii a in ((9 <=? n) && (n <=? 13)) || (n =? 32).

(** One complete line. Only decoding errors are caught: the [ValueError] of an integer
    beyond the digit limit is not one of them. *)
Definition parse_line (line : bytes) : result parsed :=
  let text := rstrip_by (fun a => Ascii.eqb a (ascii_of_nat 13)) (of_chars line) in
  if nonempty (strip_by is_bspace text) then
    match json_loads text with
    | Ok (VDict e) => Ok (PEvent e)
    | Ok _ => Ok PBad
    | Err (Exn JSONDecodeError _) => Ok PBad
    | Err e => Err e
    end
  else Ok PBlank.

Fixpoint read_lines (offset : nat) (ls : list bytes) : result (list SpoolRecord * nat) :=
  match ls with
  | [] => Ok ([], 0)
  | x :: ls =>
      let end_offset := offset + S (List.length x) in
      p ← parse_line x;
      '(rs, bad) ← read_lines end_offset ls;
      Ok match p with
         | PEvent e => ({| r_offset := offset; r_end := end_offset; r_event := e |} :: rs, bad)
         | PBad => (rs, S bad)
         | PBlank => (rs, bad)
         end
  end.

Definition last_end (start : nat) (rs : list SpoolRecord) : nat :=
  match last rs with Some r => r_end r | None => start end.

(** [read_spool]; [None] is a missing file. *)
Definition read_spool (file : option bytes) (start : nat) : result ReadResult :=
  match file with
  | None => Ok {| records := []; next_offset := start; bad_lines := 0; torn_tail := false |}
  | Some content =>
      let '(ls, tail) := split_lines (drop start content) in
      '(rs, bad) ← read_lines start ls;
      Ok {| records := rs; next_offset := last_end start rs; bad_lines := bad;
            torn_tail := match tail with [] => false | _ => true end |}
  end.

(** * Forwarding *)
Record ForwardResult := {
  fw_ok : bool; fw_delivered : nat; fw_watermark : nat; fw_lag : nat; fw_bad : nat; fw_error : option string }.

(** A forwarder's durable state and what its sink has accepted so far. *)
Record Fwd := { watermark : nat; accepted : list pydict; alarms : list nat }.
Definition Fwd_new : Fwd := {| watermark := 0; accepted := []; alarms := [] |}.

(** [Forwarder.__init__]; [on_alarm] says whether an alarm callback was given. *)
Record ForwarderConfig := {
  batch_size : nat; mapper : option (pydict -> option pydict); alarm_lag_bytes : Z; on_alarm : bool }.
Definition Forwarder_init (batch : Z) (m : option (pydict -> option pydict)) (lag : Z) (alarm : bool) : ForwarderConfig :=
  {| batch_size := Z.to_nat (Z.max 1 batch); mapper := m; alarm_lag_bytes := lag; on_alarm := alarm |}.
Definition DEFAULT_ALARM_LAG_BYTES : Z := (8 * 1024 * 1024)%Z.

(** [_maybe_alarm]: the alarms raised so far after a pump that left [lag] bytes unread. *)
Definition maybe_alarm (c : ForwarderConfig) (lag : nat) (raised : list nat) : list nat :=
  if (alarm_lag_bytes c <=? Z.of_nat lag)%Z && on_alarm c then raised ++ [lag] else raised.

Definition mapped (c : ForwarderConfig) (e : pydict) : option pydict :=
  match mapper c with Some f => f e | None => Some e end.

(** [pump_once]; [deliver] is the sink's: of what it raises only a [SinkError] is caught. *)
Definition pump_once (c : ForwarderConfig) (file : option bytes) (deliver : list pydict -> result unit) (s : Fwd)
  : result (ForwardResult * Fwd) :=
  let start := watermark s in
  let tail := match file with Some b => List.length b | None => 0 end in
  r ← read_spool file start;
  match records r with
  | [] => Ok ({| fw_ok := true; fw_delivered := 0; fw_watermark := next_offset r; fw_lag := tail - next_offset r;
                 fw_bad := bad_lines r; fw_error := None |},
              {| watermark := next_offset r; accepted := accepted s; alarms := alarms s |})
  | rs =>
      let chunk := take (Nat.max 1 (batch_size c)) rs in
      let new_watermark := last_end start chunk in
      let batch := omap (fun r => mapped c (r_event r)) chunk in
      let ok := Ok ({| fw_ok := true; fw_delivered := List.length batch; fw_watermark := new_watermark;
                       fw_lag := tail - new_watermark; fw_bad := bad_lines r; fw_error := None |},
                    {| watermark := new_watermark; accepted := accepted s ++ batch;
                       alarms := maybe_alarm c (tail - new_watermark) (alarms s) |}) in
      match batch with
      | [] => ok
      | _ => match deliver batch with
             | Ok _ => ok
             | Err (Exn SinkError err) =>
                 Ok ({| fw_ok := false; fw_delivered := 0; fw_watermark := start; fw_lag := tail - start;
                        fw_bad := bad_lines r; fw_error := Some err |},
                     {| watermark := start; accepted := accepted s; alarms := maybe_alarm c (tail - start) (alarms s) |})
             | Err e => Err e
             end
      end
  end.

(** [drain]: pump until a failure or an empty delivery. *)
Fixpoint drain (fuel : nat) (c : ForwarderConfig) (file : option bytes) (deliver : list pydict -> result unit)
  (total : nat) (s : Fwd) : result (ForwardResult * Fwd) :=
  match fuel with
  | 0 => raise OtherError "fuel"
  | S fuel =>
      '(last, s) ← pump_once c file deliver s;
      if negb (fw_ok last) || (fw_delivered last =? 0) then
        Ok ({| fw_ok := fw_ok last; fw_delivered := if fw_ok last then total else 0; fw_watermark := fw_watermark last;
               fw_lag := fw_lag last; fw_bad := fw_bad last; fw_error := fw_error last |}, s)
      else drain fuel c file deliver (total + fw_delivered last) s
  end.

(** * Reading composes *)
Definition join_lines (ls : list bytes) : bytes := concat ((fun l => l ++ [nl]) <$> ls).

Lemma split_lines_spec l : let '(ls, t) := split_lines l in
  l = join_lines ls ++ t /\ Forall (fun x => Forall (fun a => is_nl a = false) x) ls /\
  Forall (fun a => is_nl a = false) t.
Proof.
  unfold join_lines. induction l as [|a l IH]; [by repeat constructor|]. cbn [split_lines].
  destruct (split_lines l) as [ls t]. destruct IH as (-> & Hls & Ht).
  destruct (is_nl a) eqn:Ha.
  - apply Ascii.eqb_eq in Ha as ->. split_and!; [done| |done]. constructor; [constructor|done].
  - destruct ls as [|x ls]; [split_and!; [done|done|by constructor]|].
    split_and!; [done| |done]. apply Forall_cons in Hls as [? ?]. constructor; [by constructor|done].
Qed.

Lemma split_lines_tail t : Forall (fun a => is_nl a = false) t -> split_lines t = ([], t).
Proof. induction 1 as [|a t Ha _ IH]; [done|]. cbn. by rewrite IH, Ha. Qed.

Lemma split_lines_cons x l : Forall (fun a => is_nl a = false) x ->
  split_lines ((x ++ [nl]) ++ l) = (x :: (split_lines l).1, (split_lines l).2).
Proof.
  induction 1 as [|a x Ha _ IH]; cbn [app split_lines].
  - by destruct (split_lines l).
  - rewrite IH. by rewrite Ha.
Qed.

Lemma split_lines_join ls l : Forall (fun x => Forall (fun a => is_nl a = false) x) ls ->
  split_lines (join_lines ls ++ l) = (ls ++ (split_lines l).1, (split_lines l).2).
Proof.
  unfold join_lines. induction 1 as [|x ls Hx _ IH]; cbn [fmap list_fmap concat app]; [by destruct (split_lines l)|].
  rewrite <- (assoc_L (++)), split_lines_cons by done. by rewrite IH.
Qed.

Definition lines_size (ls : list bytes) : nat := List.length (join_lines ls).

Lemma lines_size_cons x ls : lines_size (x :: ls) = S (List.length x) + lines_size ls.
Proof. unfold lines_size, join_lines. cbn. rewrite !length_app. cbn. lia. Qed.

Lemma join_lines_app l1 l2 : join_lines (l1 ++ l2) = join_lines l1 ++ join_lines l2.
Proof. unfold join_lines. by rewrite fmap_app, concat_app. Qed.

Lemma lines_size_app l1 l2 : lines_size (l1 ++ l2) = lines_size l1 + lines_size l2.
Proof. unfold lines_size. by rewrite join_lines_app, length_app. Qed.

Lemma read_lines_app offset l1 l2 : read_lines offset (l1 ++ l2) =
  ('(r1, b1) ← read_lines offset l1; '(r2, b2) ← read_lines (offset + lines_size l1) l2; Ok (r1 ++ r2, b1 + b2)).
Proof.
  revert offset. induction l1 as [|x l1 IH]; intros offset.
  - cbn. rewrite Nat.add_0_r. by destruct (read_lines offset l2) as [[? ?]|].
  - cbn [app read_lines]. rewrite lines_size_cons. destruct (parse_line x) as [p|]; [|done]. cbn.
    rewrite IH. replace (offset + S (List.length x) + lines_size l1) with (offset + S (List.length x + lines_size l1)) by lia.
    destruct (read_lines (offset + S (List.length x)) l1) as [[r1 b1]|]; [|done]. cbn.
    cbn. destruct (read_lines (offset + S (List.length x + lines_size l1)) l2) as [[ra ba]|e]; by destruct p.
Qed.

(** Where the last record of a scan ends, the lines split: what follows yields no record. *)
Lemma last_end_split offset ls rs bad : read_lines offset ls = Ok (rs, bad) ->
  exists l1 l2, ls = l1 ++ l2 /\ last_end offset rs = offset + lines_size l1 /\
    (exists b1, read_lines offset l1 = Ok (rs, b1)) /\
    (exists b2, read_lines (offset + lines_size l1) l2 = Ok ([], b2)).
Proof.
  revert rs bad. induction ls as [|x ls IH] using rev_ind; intros rs bad.
  - intros [= <- <-]. exists [], []. cbn. rewrite Nat.add_0_r. split_and!; eauto.
  - rewrite read_lines_app. intros ([r1 b1] & H1 & ([r2 b2] & H2 & [= <- <-])%bind_ok)%bind_ok.
    cbn [read_lines] in H2. apply bind_ok in H2 as (p & Hp & H2).
    assert (forall rs', rs' = [] -> r2 = rs' -> exists l1 l2, ls ++ [x] = l1 ++ l2 /\
      last_end offset (r1 ++ r2) = offset + lines_size l1 /\ (exists b, read_lines offset l1 = Ok (r1 ++ r2, b)) /\
      (exists b, read_lines (offset + lines_size l1) l2 = Ok ([], b))) as Hskip.
    { intros rs' -> ->. rewrite app_nil_r. destruct (IH _ _ H1) as (l1 & l2 & -> & Hl & Hr & b' & Hn).
      exists l1, (l2 ++ [x]). rewrite (assoc_L (++)). split_and!; [done..|].
      rewrite read_lines_app, Hn. cbn. rewrite Hp. cbn. destruct p; [|eauto..]. discriminate H2. }
    cbn in H2. destruct p as [e| |]; injection H2 as <- _; [|by apply (Hskip [])..]. clear Hskip.
    exists (ls ++ [x]), []. rewrite app_nil_r. split_and!; [done| | |by eexists].
    + unfold last_end. rewrite last_snoc. cbn [r_end].
      rewrite lines_size_app, lines_size_cons. change (lines_size []) with 0. lia.
    + rewrite read_lines_app, H1. cbn. rewrite Hp. cbn. eauto.
Qed.

(** The records a whole file holds. *)
Definition all_records (content : bytes) : result (list SpoolRecord) :=
  r ← read_spool (Some content) 0; Ok (records r).

(** A resume point: the scan up to it found the records [rs]. *)
Definition resume_point (content : bytes) (n : nat) (rs : list SpoolRecord) : Prop :=
  exists ls b, Forall (fun x => Forall (fun a => is_nl a = false) x) ls /\
    take n content = join_lines ls /\ lines_size ls = n /\ read_lines 0 ls = Ok (rs, b).

Lemma resume_point_0 content : resume_point content 0 [].
Proof. exists [], 0. split_and!; [constructor|by rewrite take_0|done|done]. Qed.

Lemma resume_point_app content more n rs : resume_point content n rs -> resume_point (content ++ more) n rs.
Proof.
  intros (ls & b & Hf & Ht & Hn & Hr). exists ls, b. split_and!; try done.
  assert (n <= List.length content) as Hle.
  { unfold lines_size in Hn. rewrite <- Ht in Hn. rewrite length_take in Hn. lia. }
  by rewrite take_app_le.
Qed.

(** Reading from a resume point continues the scan from the beginning of the file. *)
Lemma read_resume content n rs r : resume_point content n rs -> read_spool (Some content) n = Ok r ->
  all_records content = Ok (rs ++ records r) /\
  forall k, k <= List.length (records r) ->
    resume_point content (last_end n (take k (records r))) (rs ++ take k (records r)).
Proof.
  intros (ls & b & Hf & Ht & Hn & Hr). unfold all_records, read_spool.
  pose proof (split_lines_spec (drop n content)) as Hs. destruct (split_lines (drop n content)) as [ls2 t] eqn:Hsp.
  destruct Hs as (Hd & Hf2 & Hft). intros ([r2 b2] & Hr2 & [= <-])%bind_ok. cbn [records].
  assert (content = join_lines ls ++ drop n content) as Hc by (by rewrite <- Ht, take_drop).
  rewrite drop_0. rewrite Hc, split_lines_join, Hsp by done. cbn [fst snd].
  rewrite read_lines_app, Hr. cbn. rewrite Hn, Hr2. cbn. split; [done|].
  rewrite <- Hc. intros k Hk.
  assert (exists l1 l2 b1, ls2 = l1 ++ l2 /\ last_end n (take k r2) = n + lines_size l1 /\
    read_lines n l1 = Ok (take k r2, b1)) as (l1 & l2 & b1 & Hl & He & Hl1).
  { clear Hsp Hd Hf2 Hc. revert r2 b2 Hr2 Hk. induction ls2 as [|x ls2 IH] using rev_ind; intros r2 b2 Hr2 Hk.
    - injection Hr2 as <- <-. exists [], [], 0. rewrite take_nil. cbn. split_and!; [done|lia|done].
    - pose proof Hr2 as Hall. rewrite read_lines_app in Hr2.
      apply bind_ok in Hr2 as ([ra ba] & Ha & Hr2). apply bind_ok in Hr2 as ([rb bb] & Hb & [= <- <-]).
      destruct (decide (k <= List.length ra)) as [Hle|Hgt].
      + destruct (IH _ _ Ha Hle) as (l1 & l2 & b1 & -> & He & Hl1). exists l1, (l2 ++ [x]), b1.
        rewrite take_app_le by done. split_and!; [by rewrite (assoc_L (++))|done|done].
      + assert (List.length rb <= 1) as Hrb.
        { cbn [read_lines] in Hb. apply bind_ok in Hb as (p & _ & Hb). cbn in Hb.
          destruct p; injection Hb as <- _; cbn; lia. }
        rewrite length_app in Hk. rewrite take_ge by (rewrite length_app; lia).
        destruct (last_end_split _ _ _ _ Hall) as (l1 & l2 & -> & He & (b1 & Hb1) & _). by exists l1, l2, b1. }
  exists (ls ++ l1), (b + b1). assert (Forall (fun x => Forall (fun a => is_nl a = false) x) l1) as Hfl.
  { rewrite Hl in Hf2. by apply Forall_app in Hf2 as [? _]. }
  pose proof (join_lines_app ls l1) as Hj.
  split_and!.
  - by apply Forall_app.
  - rewrite Hj, He. rewrite Hc at 1. rewrite Hd, Hl.
    rewrite join_lines_app, <- (assoc_L (++) (join_lines l1)), (assoc_L (++) (join_lines ls)).
    apply take_app_length'. rewrite length_app. unfold lines_size in *. lia.
  - unfold lines_size. rewrite Hj, length_app, He. unfold lines_size in Hn. by rewrite Hn.
  - rewrite read_lines_app, Hr. cbn. rewrite Hn, Hl1. cbn. done.
Qed.

(** * The forwarder loses nothing *)
Definition all_mapped (c : ForwarderConfig) (rs : list SpoolRecord) : list pydict :=
  omap (fun r => mapped c (r_event r)) rs.

Lemma all_mapped_app c r1 r2 : all_mapped c (r1 ++ r2) = all_mapped c r1 ++ all_mapped c r2.
Proof. apply omap_app. Qed.

(** One pump from a resume point: it takes some next records, and either the sink has
    accepted exactly what they map to and the watermark stands after them, or nothing moved. *)
Lemma pump_once_spec c content deliver s rs res s' :
  resume_point content (watermark s) rs -> pump_once c (Some content) deliver s = Ok (res, s') ->
  exists chunk, resume_point content (watermark s') (rs ++ chunk) /\
    accepted s' = accepted s ++ all_mapped c chunk /\
    fw_watermark res = watermark s' /\
    (fw_ok res = true -> fw_delivered res = List.length (all_mapped c chunk) /\
       exists rest, all_records content = Ok (rs ++ rest) /\ chunk = take (Nat.max 1 (batch_size c)) rest) /\
    (fw_ok res = false -> watermark s' = watermark s /\ accepted s' = accepted s /\ chunk = []).
Proof.
  intros Hrp. unfold pump_once. intros (r & Hr & H)%bind_ok. destruct (read_resume _ _ _ _ Hrp Hr) as [Hall Hk].
  destruct (records r) as [|r0 rest] eqn:Hrecs.
  - injection H as <- <-. exists []. specialize (Hk 0 (le_n 0)). cbn in *.
    assert (next_offset r = watermark s) as Hno.
    { unfold read_spool in Hr. destruct (split_lines _) as [ls t]. apply bind_ok in Hr as ([r2 b2] & _ & [= <-]).
      cbn in *. by subst r2. }
    rewrite Hno, !app_nil_r in *. split_and!; try done.
    intros _. split; [done|]. exists []. by rewrite app_nil_r, take_nil.
  - set (chunk := take (Nat.max 1 (batch_size c)) (r0 :: rest)) in *.
    assert (chunk <> []) as Hne by (unfold chunk; destruct (Nat.max 1 (batch_size c)) eqn:Hm; [lia|done]).
    assert (exists k, k <= List.length (r0 :: rest) /\ chunk = take k (r0 :: rest)) as (k & Hkl & Hck).
    { exists (Nat.min (Nat.max 1 (batch_size c)) (List.length (r0 :: rest))). split; [lia|]. unfold chunk.
      destruct (Nat.min_spec (Nat.max 1 (batch_size c)) (List.length (r0 :: rest))) as [[? ->]|[? ->]]; [done|].
      by rewrite !take_ge by lia. }
    specialize (Hk k Hkl). rewrite <- Hck in Hk. fold (all_mapped c chunk) in H.
    destruct (all_mapped c chunk) as [|b bs] eqn:Hb; [|destruct (deliver (b :: bs)) as [u|[[] err]]; try discriminate H].
    + injection H as <- <-. exists chunk. rewrite Hb. cbn. split_and!; try done. intros _. split; [done|eauto].
    + injection H as <- <-. exists chunk. rewrite Hb. cbn. split_and!; try done. intros _. split; [done|eauto].
    + injection H as <- <-. exists []. rewrite !app_nil_r. cbn. split_and!; try done.
Qed.

(** What can happen to a spool and its forwarder: the gateway appends, a pump runs, or the
    process dies after the sink accepted a batch and before the watermark is written. *)
Inductive fstep (c : ForwarderConfig) : bytes * Fwd -> bytes * Fwd -> Prop :=
  | fs_append content more s : fstep c (content, s) (content ++ more, s)
  | fs_pump content deliver s res s' :
      pump_once c (Some content) deliver s = Ok (res, s') -> fstep c (content, s) (content, s')
  | fs_crash content deliver s res s' :
      pump_once c (Some content) deliver s = Ok (res, s') ->
      fstep c (content, s) (content, {| watermark := watermark s; accepted := accepted s'; alarms := alarms s' |}).

Definition covered (c : ForwarderConfig) (st : bytes * Fwd) : Prop :=
  exists rs, resume_point st.1 (watermark st.2) rs /\ forall e, e ∈ all_mapped c rs -> e ∈ accepted st.2.

Lemma fstep_covered c st st' : fstep c st st' -> covered c st -> covered c st'.
Proof.
  intros Hs (rs & Hrp & Hin). destruct Hs as [content more s|content d s res s' Hp|content d s res s' Hp]; cbn in *.
  - exists rs. split; [by apply resume_point_app|done].
  - destruct (pump_once_spec _ _ _ _ _ _ _ Hrp Hp) as (chunk & Hrp' & Ha & _). exists (rs ++ chunk). split; [done|].
    cbn. rewrite all_mapped_app, Ha. set_solver.
  - destruct (pump_once_spec _ _ _ _ _ _ _ Hrp Hp) as (chunk & _ & Ha & _). exists rs. split; [done|].
    cbn. rewrite Ha. set_solver.
Qed.

(** At-least-once delivery. However the gateway's appends, the forwarder's pumps (over any sink
    that may refuse any batch) and crashes between a delivery and its watermark interleave,
    the watermark always stands at a boundary between lines, and the sink has accepted the image of every
    event that a scan of the file up to it finds. *)
Theorem run_covered c st : rtc (fstep c) ([], Fwd_new) st -> covered c st.
Proof.
  intros Hrun. assert (covered c ([], Fwd_new)) as H0.
  { exists []. split; [apply resume_point_0|done]. }
  revert H0. induction Hrun as [|st1 st2 st3 Hs _ IH]; [done|]. intros H0. by apply IH, (fstep_covered c st1).
Qed.

(** ** Draining *)
Lemma drain_spec c content deliver fuel total s rs res s' :
  (forall b, deliver b = Ok tt) -> (forall e, mapped c e <> None) ->
  resume_point content (watermark s) rs -> accepted s = all_mapped c rs ->
  drain fuel c (Some content) deliver total s = Ok (res, s') ->
  exists all, all_records content = Ok all /\ accepted s' = all_mapped c all /\ fw_ok res = true.
Proof.
  intros Hd Hm. revert total s rs. induction fuel as [|fuel IH]; intros total s rs Hrp Ha; [discriminate|].
  cbn [drain]. intros ([last s1] & Hp & H)%bind_ok.
  destruct (pump_once_spec _ _ _ _ _ _ _ Hrp Hp) as (chunk & Hrp' & Ha' & _ & Hok & Hko).
  assert (fw_ok last = true) as Hlast.
  { unfold pump_once in Hp. apply bind_ok in Hp as (r & _ & Hp). destruct (records r); [by injection Hp as <- _|].
    destruct (omap _ _); [by injection Hp as <- _|]. rewrite Hd in Hp. by injection Hp as <- _. }
  destruct (Hok Hlast) as [Hn (rest & Hend & Hchunk)]. rewrite Hlast in H. cbn [negb orb] in H.
  destruct (Nat.eqb_spec (fw_delivered last) 0) as [Hz|Hnz].
  - injection H as <- <-. rewrite Hn in Hz. assert (chunk = []) as ->.
    { destruct chunk as [|r chunk]; [done|]. exfalso. unfold all_mapped in Hz. cbn in Hz.
      destruct (mapped c (r_event r)) eqn:He; [done|by apply (Hm (r_event r))]. }
    assert (rest = []) as -> by (destruct rest; [done|]; destruct (Nat.max 1 (batch_size c)) eqn:Hm1; [lia|discriminate]).
    rewrite app_nil_r in Hend. exists rs. split_and!; [done| |done]. rewrite Ha', Ha. by rewrite app_nil_r.
  - eapply IH; [exact Hrp'| |exact H]. by rewrite Ha', Ha, all_mapped_app.
Qed.

(** A scan of the whole file is the scan up to a resume point and the scan from it. *)
Lemma resume_equation content n rs : resume_point content n rs ->
  all_records content = (r ← read_spool (Some content) n; Ok (rs ++ records r)).
Proof.
  intros (ls & b & Hfl & Ht & Hn & Hr). unfold all_records, read_spool. rewrite drop_0.
  assert (content = join_lines ls ++ drop n content) as Hc by (by rewrite <- Ht, take_drop).
  rewrite Hc at 1. rewrite split_lines_join by done. destruct (split_lines (drop n content)) as [l2 t2].
  cbn [fst snd]. rewrite read_lines_app, Hr. cbn. rewrite Hn. by destruct (read_lines n l2) as [[rs' b']|].
Qed.

(** A readable file can be read on from any resume point. *)
Lemma resume_reads content n rs all : resume_point content n rs -> all_records content = Ok all ->
  exists r, read_spool (Some content) n = Ok r /\ all = rs ++ records r.
Proof. intros Hrp. rewrite (resume_equation _ _ _ Hrp). intros (r & Hr & [= <-])%bind_ok. eauto. Qed.

(** A pump over a readable file returns when the sink accepts or refuses: only another
    exception of the sink would escape it. *)
Definition answers (deliver : list pydict -> result unit) : Prop :=
  forall b, deliver b = Ok tt \/ exists msg, deliver b = Err (Exn SinkError msg).

Lemma pump_returns c content deliver s rs all : answers deliver ->
  resume_point content (watermark s) rs -> all_records content = Ok all ->
  exists res s', pump_once c (Some content) deliver s = Ok (res, s').
Proof.
  intros Hd Hrp Hall. destruct (resume_reads _ _ _ _ Hrp Hall) as (r & Hr & _). unfold pump_once. rewrite Hr. cbn.
  destruct (records r); [eauto|]. destruct (omap _ _) as [|b bs]; [eauto|].
  destruct (Hd (b :: bs)) as [->|[msg ->]]; eauto.
Qed.

(** Enough fuel: each productive round consumes at least one record. *)
Lemma drain_returns c content deliver fuel total s rs all : (forall b, deliver b = Ok tt) ->
  resume_point content (watermark s) rs -> all_records content = Ok all -> List.length all < fuel + List.length rs ->
  exists res s', drain fuel c (Some content) deliver total s = Ok (res, s').
Proof.
  intros Hd. revert total s rs. induction fuel as [|fuel IH]; intros total s rs Hrp Hall Hf.
  - exfalso. destruct (resume_reads _ _ _ _ Hrp Hall) as (r & _ & ->). rewrite length_app in Hf. lia.
  - cbn [drain]. destruct (pump_returns c content deliver s rs all) as (res & s1 & Hp); [by left|done..|].
    rewrite Hp. cbn. destruct (pump_once_spec _ _ _ _ _ _ _ Hrp Hp) as (chunk & Hrp' & _ & _ & Hok & Hko).
    destruct (fw_ok res) eqn:Ho; cbn; [|eauto]. destruct (Nat.eqb_spec (fw_delivered res) 0); [eauto|].
    destruct (Hok eq_refl) as [Hn _]. apply (IH _ s1 (rs ++ chunk)); [done..|]. rewrite length_app.
    destruct chunk; [cbn in *; lia|]. cbn. lia.
Qed.

Lemma next_offset_last_end content n r : read_spool (Some content) n = Ok r -> next_offset r = last_end n (records r).
Proof. unfold read_spool. destruct (split_lines _). by intros ([? ?] & _ & [= <-])%bind_ok. Qed.

(** What one read finds, a later read continues from. *)
Lemma read_resume_point content r : read_spool (Some content) 0 = Ok r ->
  resume_point content (next_offset r) (records r).
Proof.
  intros Hr. destruct (read_resume _ _ _ _ (resume_point_0 content) Hr) as [_ Hk]. cbn [app] in Hk.
  specialize (Hk _ (le_n _)). rewrite take_ge in Hk by done. by rewrite (next_offset_last_end _ _ _ Hr).
Qed.

(** Every record begins a line: a scan may resume at any of them. *)
Lemma read_lines_at offset ls rs1 r rs2 b : read_lines offset ls = Ok (rs1 ++ r :: rs2, b) ->
  exists l1 l2 b1, ls = l1 ++ l2 /\ read_lines offset l1 = Ok (rs1, b1) /\ r_offset r = offset + lines_size l1.
Proof.
  revert offset rs1 b. induction ls as [|x ls IH]; intros offset rs1 b; cbn [read_lines]; [by destruct rs1|].
  intros (p & Hp & ([rs b'] & Hrs & Hr)%bind_ok)%bind_ok.
  assert (forall rs1', rs = rs1' ++ r :: rs2 -> rs1 = match p with PEvent e => {| r_offset := offset; r_end := offset + S (List.length x); r_event := e |} :: rs1' | _ => rs1' end ->
    exists l1 l2 b1, x :: ls = l1 ++ l2 /\ read_lines offset l1 = Ok (rs1, b1) /\ r_offset r = offset + lines_size l1) as Hgo.
  { intros rs1' Hs ->. rewrite Hs in Hrs. destruct (IH _ _ _ Hrs) as (l1 & l2 & b1 & -> & H1 & H2).
    destruct p; eexists (x :: l1), l2, _; (split; [done|]); cbn [read_lines]; rewrite Hp; cbn [mbind result_bind]; rewrite H1;
      cbn [mbind result_bind]; (split; [done|]); rewrite lines_size_cons; lia. }
  destruct p as [e| |]; [|injection Hr as -> _; by apply (Hgo rs1)..].
  destruct rs1 as [|r1 rs1]; [|injection Hr as <- -> _; by apply (Hgo rs1)].
  injection Hr as <- _ _. exists [], (x :: ls), 0. split_and!; [done|done|]. unfold lines_size. cbn. lia.
Qed.

Lemma resume_at_record content rs1 r rs2 : all_records content = Ok (rs1 ++ r :: rs2) -> resume_point content (r_offset r) rs1.
Proof.
  unfold all_records, read_spool. rewrite drop_0. pose proof (split_lines_spec content) as Hs. destruct (split_lines content) as [ls t].
  destruct Hs as (Hc & Hf & _). intros (rr & ([rs b] & Hr & [= <-])%bind_ok & [= Heq])%bind_ok. cbn [records] in Heq. subst rs.
  destruct (read_lines_at _ _ _ _ _ _ Hr) as (l1 & l2 & b1 & -> & Hr1 & Ho). exists l1, b1. apply Forall_app in Hf as [Hf _].
  split_and!; [done| |lia|done]. rewrite Ho, Hc, join_lines_app, <- (assoc_L (++)). by apply take_app_length'.
Qed.

(** Records are in the order of their offsets. *)
Lemma read_lines_sorted offset ls rs b : read_lines offset ls = Ok (rs, b) ->
  Forall (fun r => offset <= r_offset r) rs /\ StronglySorted (fun r r' => r_offset r < r_offset r') rs.
Proof.
  revert offset rs b. induction ls as [|x ls IH]; intros offset rs b; cbn [read_lines]; [intros [= <- _]; split; constructor|].
  intros (p & _ & ([rs' b'] & Hrs & Hr)%bind_ok)%bind_ok. destruct (IH _ _ _ Hrs) as [Hlo Hso].
  assert (Forall (fun r => offset < r_offset r) rs') as Hlt by (eapply Forall_impl; [exact Hlo|]; cbn; lia).
  destruct p; injection Hr as <- _; (split; [try constructor; try eapply Forall_impl; eauto; cbn; lia|]); try done. by constructor.
Qed.

Lemma all_records_sorted content all : all_records content = Ok all -> StronglySorted (fun r r' => r_offset r < r_offset r') all.
Proof.
  unfold all_records, read_spool. rewrite drop_0. destruct (split_lines content) as [ls t].
  intros (rr & ([rs b] & Hr & [= <-])%bind_ok & [= <-])%bind_ok. by apply read_lines_sorted in Hr as [_ ?].
Qed.

(** What can be read of a spool can be read of any earlier state of it. *)
Lemma all_records_prefix content more all : all_records (content ++ more) = Ok all ->
  exists rs rest, all_records content = Ok rs /\ all = rs ++ rest.
Proof.
  unfold all_records, read_spool. rewrite !drop_0. pose proof (split_lines_spec content) as Hs. destruct (split_lines content) as [ls t].
  destruct Hs as (-> & Hf & _). rewrite <- (assoc_L (++)), split_lines_join by done. destruct (split_lines (t ++ more)) as [ls2 t2].
  cbn [fst snd]. rewrite read_lines_app. intros (rr & ([rs b] & ([r1 b1] & H1 & ([r2 b2] & _ & [= <- _])%bind_ok)%bind_ok & [= <-])%bind_ok & [= <-])%bind_ok.
  rewrite H1. cbn. by exists r1, r2.
Qed.

(** Incremental reading. Reading a spool, letting it grow by any bytes (the rest of a torn line
    included), and reading on from the returned offset finds exactly the records that one
    read of the grown file finds, each once and in order. *)
Theorem incremental_read content more r1 r2 :
  read_spool (Some content) 0 = Ok r1 -> read_spool (Some (content ++ more)) (next_offset r1) = Ok r2 ->
  all_records (content ++ more) = Ok (records r1 ++ records r2).
Proof.
  intros Hr1%read_resume_point Hr2. pose proof (resume_point_app _ more _ _ Hr1) as Hrp.
  by destruct (read_resume _ _ _ _ Hrp Hr2) as [Hall _].
Qed.

Definition demo_config (batch : Z) (m : option (pydict -> option pydict)) : ForwarderConfig :=
  Forwarder_init batch m DEFAULT_ALARM_LAG_BYTES false.
Definition demo_event (s : string) : pydict := fields [("event", VStr s)].
(** Two events, the second one torn. *)
Definition torn_spool : bytes := take 27 (spool_emit (spool_emit [] (demo_event "a")) (demo_event "b")).
Definition torn_rest : bytes := drop 27 (spool_emit (spool_emit [] (demo_event "a")) (demo_event "b")).

Lemma incremental_read_witness :
  let r1 := the (read_spool (Some torn_spool) 0) I in
  let r2 := the (read_spool (Some (torn_spool ++ torn_rest)) (next_offset r1)) I in
  torn_tail r1 = true /\ all_records (torn_spool ++ torn_rest) = Ok (records r1 ++ records r2).
Proof.
  intros r1 r2. split; [reflexivity|].
  apply (incremental_read torn_spool torn_rest r1 r2); vm_compute; reflexivity.
Defined.

(** Draining delivers everything and stops. With a sink that accepts and a mapper that keeps every
    event, draining a readable file from a fresh watermark, with one more round than there
    are records, returns; then it reports success and the sink has accepted the image of
    every record of the file, each once and in order. *)
Theorem drain_delivers_all c content deliver all :
  (forall b, deliver b = Ok tt) -> (forall e, mapped c e <> None) -> all_records content = Ok all ->
  exists res s', drain (S (List.length all)) c (Some content) deliver 0 Fwd_new = Ok (res, s') /\
    fw_ok res = true /\ accepted s' = all_mapped c all.
Proof.
  intros Hd Hm Hall.
  destruct (drain_returns c content deliver (S (List.length all)) 0 Fwd_new [] all
    Hd (resume_point_0 content) Hall) as (res & s' & Hdr); [cbn; lia|].
  exists res, s'. split; [done|].
  destruct (drain_spec c content deliver _ 0 Fwd_new [] res s' Hd Hm (resume_point_0 content)
    eq_refl Hdr) as (all' & Hall' & Ha & Hok).
  assert (all' = all) as -> by congruence. done.
Qed.

Lemma drain_delivers_all_witness :
  let content := spool_emit (spool_emit [] (demo_event "a")) (demo_event "b") in
  let c := (demo_config 1 None) in
  exists res s', drain 3 c (Some content) (fun _ => Ok tt) 0 Fwd_new = Ok (res, s') /\
    fw_ok res = true /\ accepted s' = [demo_event "a"; demo_event "b"].
Proof.
  apply (drain_delivers_all (demo_config 1 None) (spool_emit (spool_emit [] (demo_event "a")) (demo_event "b"))
    (fun _ => Ok tt) (the (all_records (spool_emit (spool_emit [] (demo_event "a")) (demo_event "b"))) I));
    [reflexivity|discriminate|vm_compute; reflexivity].
Defined.

Lemma run_covered_witness :
  let c := (demo_config 10 None) in
  let s0 := Fwd_new in
  let content := spool_emit [] (demo_event "a") in
  let s1 := (the (pump_once c (Some content) (fun _ => Ok tt) s0) I).2 in
  covered c (content, s1).
Proof.
  intros c s0 content s1. apply run_covered. apply (rtc_l _ _ (content, s0)); [exact (fs_append c [] content s0)|].
  apply rtc_once. apply (fs_pump c content (fun _ => Ok tt) s0 (the (pump_once c (Some content) (fun _ => Ok tt) s0) I).1).
  vm_compute. reflexivity.
Defined.

(** * Observations *)

(** A batch that the mapper drops whole ends a drain before the records that follow it. *)
Lemma drain_stops_on_dropped_batch :
  let content := spool_emit (spool_emit [] (demo_event "skip")) (demo_event "keep") in
  let c := demo_config 1 (Some (fun e => if bool_decide (dget "event" e = Some (VStr "skip")) then None else Some e)) in
  exists res s', drain 5 c (Some content) (fun _ => Ok tt) 0 Fwd_new = Ok (res, s') /\
    fw_ok res = true /\ accepted s' = [] /\ 0 < fw_lag res.
Proof. eexists _, _. split; [vm_compute; reflexivity|]. split_and!; [reflexivity|reflexivity|apply Nat.ltb_lt; vm_compute; reflexivity]. Qed.

(** Bad lines at the end of the file are counted and never passed: the offset to resume
    from stays before them. *)
Lemma trailing_bad_line_kept :
  let content := spool_emit [] (demo_event "a") ++ chars "garbage" ++ [nl] in
  exists r, read_spool (Some content) 0 = Ok r /\ bad_lines r = 1 /\
    next_offset r = List.length (spool_emit [] (demo_event "a")) /\ next_offset r < List.length content.
Proof. eexists. split; [vm_compute; reflexivity|]. split_and!; [reflexivity|reflexivity|apply Nat.ltb_lt; vm_compute; reflexivity]. Qed.
