(* ===== verification/Forwarder.v ===== *)
(** The audit forwarder around [Spool]: its watermark file and its endless loop
    ([audit/forwarder.py]), and the sinks it feeds ([audit/sinks/]). A run is folded over the
    ticks its environment grants it: what the spool holds and how the sink answers each time.
    Delays are whole multiples of an arbitrary unit. *)
From Stdlib Require Import SpecFloat.
From S2P Require Import Prelude PyVal Json Protocol Spool.

(** * The watermark file *)

(** [int(text)]: blanks around, a sign, digits with single underscores between them. *)
Fixpoint int_digits (after_digit : bool) (l : list ascii) : option (list ascii) :=
  match l with
  | [] => if after_digit then Some [] else None
  | a :: l =>
      if is_digit a then cons a <$> int_digits true l
      else if Ascii.eqb a "_"%char && after_digit then int_digits false l
      else None
  end.

Definition int_of_str (s : string) : option Z :=
  let l := chars (strip s) in
  let '(neg, l) := match l with
                   | "-"%char :: l => (true, l) | "+"%char :: l => (false, l) | _ => (false, l)
                   end in
  ds ← int_digits false l;
  if List.length ds <=? 4300 then Some (if neg then - digits_val ds else digits_val ds)%Z else None.

(** [int(v)] *)
Definition py_int (v : val) : result Z :=
  match v with
  | VInt z => Ok z
  | VBool b => Ok (if b then 1 else 0)%Z
  | VStr s => of_option (int_of_str s) (Exn ValueError ("invalid literal for int() with base 10: " +:+ str_repr s))
  | VFloat (S754_zero _) => Ok 0%Z
  | VFloat (S754_finite neg m e) =>
      let z := if (0 <=? e)%Z then (Z.pos m * 2 ^ e)%Z else (Z.pos m / 2 ^ (- e))%Z in Ok (if neg then - z else z)%Z
  | VFloat (S754_infinity _) => raise OtherError "cannot convert float infinity to integer"
  | VFloat S754_nan => raise ValueError "cannot convert float NaN to integer"
  | _ => raise TypeError "int() argument must be a string, a bytes-like object or a real number"
  end.

(** [Watermark.load]; [None] is a file that cannot be read. A document that is not a
    mapping has no [get], and that exception is not among the caught ones. *)
Definition watermark_load (file : option string) : result Z :=
  match file with
  | None => Ok 0%Z
  | Some text =>
      match (doc ← json_loads text;
             d ← of_option (as_dict doc) (Exn AttributeError "object has no attribute 'get'");
             py_int (dget_or "offset" (VInt 0) d)) with
      | Ok offset => Ok (if (0 <=? offset)%Z then offset else 0%Z)
      | Err (Exn (JSONDecodeError | ValueError | TypeError) _) => Ok 0%Z
      | Err e => Err e
      end
  end.

(** [Watermark.store]: what the replaced file holds. *)
Definition watermark_store (offset : Z) : string := json_dumps_default (VObj [("offset", VInt offset)]).

(** * Sinks *)

(** [audit/sinks/base.py]: a name, and a delivery that returns or raises as a whole. *)
Record Sink := { sink_name : string; deliver : list pydict -> result unit }.

(** What [urllib.request.urlopen] does with a POST of these headers and this body. *)
Inductive urlopen_outcome :=
  | Responded (status : Z)        (* an answer, or an [HTTPError] with its code *)
  | Unreachable (exc : string)    (* [URLError], [OSError] or [ValueError] *)
  | Crashed (e : exn).            (* anything else *)

Definition Poster : Type := string -> list (string * string) -> string -> result Z.

Definition urllib_post (urlopen : string -> list (string * string) -> string -> urlopen_outcome) : Poster :=
  fun url headers body =>
    if startswith "http://" (str_lower url) || startswith "https://" (str_lower url) then
      match urlopen url headers body with
      | Responded status => Ok status
      | Unreachable exc => raise SinkError ("webhook POST to " +:+ url +:+ " failed: " +:+ exc)
      | Crashed e => Err e
      end
    else raise SinkError ("webhook url must be http(s): " +:+ str_repr url).

Definition accepted_status (status : Z) : bool := (200 <=? status)%Z && (status <? 300)%Z.

(** One JSON document per line. *)
Definition ndjson (docs : list val) : string := join newline (json_dumps_default <$> docs) +:+ newline.

(** ** [WebhookSink] *)
Record WebhookSink := { wh_url : string; wh_headers : list (string * string); as_array : bool }.

Definition webhook_encode (w : WebhookSink) (batch : list pydict) : string * string :=
  if as_array w then (json_dumps_default (VList (VDict <$> batch)), "application/json")
  else (ndjson (VDict <$> batch), "application/x-ndjson").

Definition webhook_deliver (w : WebhookSink) (post : Poster) (batch : list pydict) : result unit :=
  let '(body, content_type) := webhook_encode w batch in
  status ← post (wh_url w) (aupdate [("Content-Type", content_type)] (wh_headers w)) body;
  require (accepted_status status) SinkError
    ("webhook returned HTTP " +:+ pretty status +:+ " for " +:+ pretty (List.length batch) +:+ " event(s)").

Definition webhook_sink (w : WebhookSink) (post : Poster) : Sink :=
  {| sink_name := "webhook"; deliver := webhook_deliver w post |}.

(** ** [SplunkHecSink] *)
Record SplunkHecSink := { hec_url : string; hec_token : string; sourcetype : string; hec_index : option string }.

Definition is_slash (a : ascii) : bool := Ascii.eqb a "/"%char.

Definition SplunkHecSink_init (base_url token sourcetype : string) (index : option string) : result SplunkHecSink :=
  _ ← require (nonempty token) SinkError "Splunk HEC needs a token";
  Ok {| hec_url := rstrip_by is_slash base_url +:+ "/services/collector/event"; hec_token := token;
        sourcetype := sourcetype; hec_index := index |}.

(** [event.get(k1) or event.get(k2)] *)
Definition get_or (k1 k2 : string) (e : pydict) : val :=
  let v := opt_val (dget k1 e) in if truthy v then v else opt_val (dget k2 e).

Definition envelope_time (event : pydict) : val :=
  let ts := get_or "ts" "time" event in
  match dget "unmapped" event with
  | Some (VDict u) => if truthy ts then ts else opt_val (dget "ts" u)
  | _ => ts
  end.

Definition splunk_envelope (s : SplunkHecSink) (event : pydict) : val :=
  let ts := envelope_time event in
  VObj ([("event", VDict event); ("sourcetype", VStr (sourcetype s))]
        ++ (if truthy ts then [("time", ts)] else [])
        ++ (match hec_index s with Some i => if nonempty i then [("index", VStr i)] else [] | None => [] end)).

Definition splunk_deliver (s : SplunkHecSink) (post : Poster) (batch : list pydict) : result unit :=
  let body := join newline (json_dumps_default <$> (splunk_envelope s <$> batch)) in
  status ← post (hec_url s)
    [("Authorization", "Splunk " +:+ hec_token s); ("Content-Type", "application/json")] (body +:+ newline);
  require (accepted_status status) SinkError
    ("Splunk HEC returned HTTP " +:+ pretty status +:+ " for " +:+ pretty (List.length batch) +:+ " event(s)").

Definition splunk_sink (s : SplunkHecSink) (post : Poster) : Sink :=
  {| sink_name := "splunk"; deliver := splunk_deliver s post |}.

(** ** [S3Sink] *)
Record S3Sink := { bucket : string; s3_prefix : string }.

Definition S3Sink_init (bkt prefix : string) : result S3Sink :=
  _ ← require (nonempty bkt) SinkError "the S3 sink needs a bucket";
  Ok {| bucket := bkt; s3_prefix := strip_by is_slash prefix |}.

(** [ts.replace] of the letter Z by +00:00 *)
Fixpoint replace_zulu (s : string) : string :=
  match s with
  | EmptyString => EmptyString
  | String a s => if Ascii.eqb a "Z"%char then "+00:00" +:+ replace_zulu s else String a (replace_zulu s)
  end.

Section S3.
(** [datetime.fromisoformat(s).astimezone(UTC)] as its date and hour, [gzip.compress], and
    the bucket's answer to [put_object]: [Some] is the text of what it raised. *)
Context (utc_partition : string -> option (string * string)) (gzip : string -> string)
        (put_object : string -> string -> string -> option string).

(** [_partition_time]; [now] is the wall clock's date and hour. *)
Fixpoint partition_time (now : string * string) (batch : list pydict) : string * string :=
  match batch with
  | [] => now
  | event :: batch =>
      match get_or "ts" "time" event with
      | VStr ts => match utc_partition (replace_zulu ts) with Some when => when | None => partition_time now batch end
      | _ => partition_time now batch
      end
  end.

Definition s3_key (s : S3Sink) (now : string * string) (now_ms : Z) (batch : list pydict) : string :=
  let '(day, hour) := partition_time now batch in
  s3_prefix s +:+ "/dt=" +:+ day +:+ "/hour=" +:+ hour +:+ "/" +:+ pretty now_ms +:+ "-"
  +:+ pretty (List.length batch) +:+ ".ndjson.gz".

Definition s3_deliver (s : S3Sink) (now : string * string) (now_ms : Z) (batch : list pydict) : result unit :=
  match put_object (bucket s) (s3_key s now now_ms batch) (gzip (ndjson (VDict <$> batch))) with
  | None => Ok tt
  | Some exc => raise SinkError ("S3 put_object to s3://" +:+ bucket s +:+ " failed: " +:+ exc)
  end.
Definition s3_sink (s : S3Sink) (now : string * string) (now_ms : Z) : Sink :=
  {| sink_name := "s3"; deliver := s3_deliver s now now_ms |}.
End S3.

(** * The loop *)

(** One round of the loop finds this spool and this sink. *)
Record Tick := { tk_file : option bytes; tk_deliver : list pydict -> result unit }.

Record RunState := { rs_fwd : Fwd; backoff : Z; slept : list Z }.

Section Run.
Context (c : ForwarderConfig) (poll_seconds max_backoff : Z).

Definition run_tick (st : RunState) (t : Tick) : result RunState :=
  '(res, f) ← pump_once c (tk_file t) (tk_deliver t) (rs_fwd st);
  Ok (if negb (fw_ok res) then
        {| rs_fwd := f; backoff := Z.min (backoff st * 2) max_backoff;
           slept := slept st ++ [Z.min (backoff st) max_backoff] |}
      else
        {| rs_fwd := f; backoff := poll_seconds;
           slept := if fw_delivered res =? 0 then slept st ++ [poll_seconds] else slept st |}).

(** [Forwarder.run] until [should_stop] answers true, after the given rounds. *)
Definition run (f : Fwd) (ticks : list Tick) : result RunState :=
  fold_res run_tick {| rs_fwd := f; backoff := poll_seconds; slept := [] |} ticks.
End Run.

(** * The watermark survives its file *)
Lemma watermark_roundtrip n : int_ok n = true -> (0 <= n)%Z -> watermark_load (Some (watermark_store n)) = Ok n.
Proof.
  intros Hn Hp. unfold watermark_load, watermark_store. rewrite loads_dumps_default.
  - change (Ok (if (0 <=? n)%Z then n else 0%Z) = Ok n). by rewrite (proj2 (Z.leb_le 0 n) Hp).
  - unfold VObj. apply plain_dict_intro; cbn; repeat constructor; [set_solver|done].
Qed.

(** * Delivery is all or nothing *)
Lemma webhook_accepts w post batch : webhook_deliver w post batch = Ok tt <->
  exists status, post (wh_url w) (aupdate [("Content-Type", (webhook_encode w batch).2)] (wh_headers w))
    (webhook_encode w batch).1 = Ok status /\ (200 <= status < 300)%Z.
Proof.
  unfold webhook_deliver. destruct (webhook_encode w batch) as [body ct]. cbn [fst snd]. rewrite bind_ok.
  apply exist_proper. intros status. unfold accepted_status. rewrite require_ok.
  rewrite andb_true_iff, Z.leb_le, Z.ltb_lt. done.
Qed.

(** A poster that returns a status or raises a [SinkError], as [_urllib_post] does unless
    [urlopen] raises something unforeseen. *)
Definition poster_answers (post : Poster) : Prop :=
  forall url headers body, (exists status, post url headers body = Ok status) \/
    exists msg, post url headers body = Err (Exn SinkError msg).

Lemma urllib_answers urlopen : (forall u h b e, urlopen u h b <> Crashed e) -> poster_answers (urllib_post urlopen).
Proof.
  intros Hu url headers body. unfold urllib_post. destruct (startswith _ _ || _); [|right; by eexists].
  specialize (Hu url headers body). destruct (urlopen url headers body); [eauto|right; by eexists|by destruct (Hu e)].
Qed.

Lemma require_answers b msg : require b SinkError msg = Ok tt \/ exists m, require b SinkError msg = Err (Exn SinkError m).
Proof. destruct b; [by left|right; by eexists]. Qed.

Lemma sinks_answer post w s : poster_answers post -> answers (webhook_deliver w post) /\ answers (splunk_deliver s post).
Proof.
  intros Hp. split; intros batch; unfold webhook_deliver, splunk_deliver; [destruct (webhook_encode w batch)|];
    match goal with |- context [post ?u ?h ?b] => destruct (Hp u h b) as [[status ->]|[msg ->]] end;
    first [apply require_answers|right; by eexists].
Qed.

(** * What a collector receives *)
Lemma no_newline_chars s : no_newline s = true -> Forall (fun a => is_nl a = false) (chars s).
Proof.
  unfold no_newline. rewrite forallb_forall, Forall_forall. intros Hs a Ha%list_elem_of_In%Hs.
  unfold is_nl. apply Ascii.eqb_neq. intros ->. by vm_compute in Ha.
Qed.

Lemma chars_ndjson docs : docs <> [] ->
  chars (ndjson docs) = join_lines ((fun v => chars (json_dumps_default v)) <$> docs).
Proof.
  intros Hne. unfold ndjson, join_lines. rewrite chars_app. destruct docs as [|v docs]; [done|]. clear Hne.
  revert v. induction docs as [|u docs IH]; intros v; [cbn; by rewrite app_nil_r|].
  change (join newline (json_dumps_default <$> v :: u :: docs))
    with (json_dumps_default v +:+ (newline +:+ join newline (json_dumps_default <$> u :: docs))).
  rewrite !chars_app, <- !(assoc_L (++)), IH. cbn [fmap list_fmap concat]. by rewrite <- !(assoc_L (++)).
Qed.

(** What a collector receives. The default webhook body holds one line per event of the batch
    and nothing after the last newline, and decoding the lines gives back the events of the
    batch, in order. *)
Theorem ndjson_roundtrip w batch : as_array w = false -> batch <> [] -> Forall (fun e => plain (VDict e)) batch ->
  exists lines, split_lines (chars (webhook_encode w batch).1) = (lines, []) /\
    (fun l => json_loads (of_chars l)) <$> lines = (fun e => Ok (VDict e)) <$> batch.
Proof.
  intros Ha Hne Hp. unfold webhook_encode. rewrite Ha. cbn [fst].
  exists ((fun v => chars (json_dumps_default v)) <$> (VDict <$> batch)). rewrite chars_ndjson by (by destruct batch).
  rewrite <- (app_nil_r (join_lines _)), split_lines_join; cbn [split_lines fst snd]; [rewrite app_nil_r; split; [done|]|].
  - rewrite <- !list_fmap_compose. apply Forall_fmap_ext_1. apply (Forall_impl _ _ _ Hp). intros e He.
    change (json_loads (of_chars (chars (json_dumps_default (VDict e)))) = Ok (VDict e)).
    rewrite of_chars_chars. by apply loads_dumps_default.
  - rewrite !Forall_fmap. apply (Forall_impl _ _ _ Hp). intros e He.
    apply (no_newline_chars (json_dumps_default (VDict e))). by apply (dumped_no_newline " ").
Qed.

(** * Outages end *)

(** An environment: the spool only grows, stays readable, and the sink always accepts or
    refuses. *)
Fixpoint growing (content : bytes) (ticks : list Tick) : Prop :=
  match ticks with
  | [] => True
  | t :: ticks => exists more all, tk_file t = Some (content ++ more) /\ all_records (content ++ more) = Ok all /\
      answers (tk_deliver t) /\ growing (content ++ more) ticks
  end.

(** At least [n] of the rounds find the sink up. *)
Inductive up_ticks : nat -> list Tick -> Prop :=
  | up_none ticks : up_ticks 0 ticks
  | up_yes n t ticks : (forall b, tk_deliver t b = Ok tt) -> up_ticks n ticks -> up_ticks (S n) (t :: ticks)
  | up_skip n t ticks : up_ticks n ticks -> up_ticks n (t :: ticks).

(** Growth keeps what was read. *)
Lemma records_grow content more all all' : all_records content = Ok all -> all_records (content ++ more) = Ok all' ->
  all `prefix_of` all'.
Proof.
  intros (r1 & Hr1 & [= <-])%bind_ok Hall'. pose proof (resume_point_app _ more _ _ (read_resume_point _ _ Hr1)) as Hrp.
  destruct (resume_reads _ _ _ _ Hrp Hall') as (r2 & _ & ->). by exists (records r2).
Qed.

(** A pump whose sink accepts takes the next whole batch. *)
Lemma pump_up_ok c content deliver s res s' : (forall b, deliver b = Ok tt) ->
  pump_once c (Some content) deliver s = Ok (res, s') -> fw_ok res = true.
Proof.
  intros Hd. unfold pump_once. intros (r & _ & Hp)%bind_ok. destruct (records r); [by injection Hp as <- _|].
  destruct (omap _ _); [by injection Hp as <- _|]. rewrite Hd in Hp. by injection Hp as <- _.
Qed.

Section Liveness.
Context (c : ForwarderConfig) (poll_seconds max_backoff : Z).

(** Between rounds: the watermark stands at a resume point, and the sink has the image of the
    records before it, in order. *)
Definition on_track (content : bytes) (f : Fwd) (rs : list SpoolRecord) : Prop :=
  resume_point content (watermark f) rs /\ accepted f = all_mapped c rs.

Definition waits (st : RunState) : Prop :=
  Forall (fun d => d <= Z.max poll_seconds max_backoff)%Z (slept st).

Lemma tick_progress content all f bo sl rs t : all_records content = Ok all -> tk_file t = Some content ->
  answers (tk_deliver t) -> on_track content f rs ->
  exists st' chunk, run_tick c poll_seconds max_backoff {| rs_fwd := f; backoff := bo; slept := sl |} t = Ok st' /\
    on_track content (rs_fwd st') (rs ++ chunk) /\
    ((forall b, tk_deliver t b = Ok tt) ->
       Nat.min (List.length all) (List.length rs + Nat.max 1 (batch_size c)) <= List.length (rs ++ chunk)) /\
    (Forall (fun d => d <= Z.max poll_seconds max_backoff)%Z sl -> waits st').
Proof.
  intros Hall Hf Hans [Hrp Ha]. unfold run_tick. cbn [rs_fwd]. rewrite Hf.
  destruct (pump_returns c _ _ _ _ _ Hans Hrp Hall) as (res & f' & Hp). rewrite Hp. cbn [mbind result_bind].
  destruct (pump_once_spec _ _ _ _ _ _ _ Hrp Hp) as (chunk & Hrp' & Ha' & _ & Hok & _).
  eexists _, chunk. split; [done|]. split_and!.
  - split; [by destruct (negb _)|]. rewrite all_mapped_app, <- Ha, <- Ha'. by destruct (negb _).
  - intros Hup. destruct (Hok (pump_up_ok _ _ _ _ _ _ Hup Hp)) as (_ & rest & Hrest & ->).
    rewrite Hall in Hrest. injection Hrest as ->. rewrite !length_app, length_take. lia.
  - intros Hsl. unfold waits. destruct (negb _); cbn [slept]; [|destruct (_ =? 0); [|done]];
      apply Forall_app; (split; [done|]); repeat constructor; lia.
Qed.

Lemma run_progress content all0 f bo sl rs ticks n : all_records content = Ok all0 -> growing content ticks ->
  up_ticks n ticks -> on_track content f rs -> Forall (fun d => d <= Z.max poll_seconds max_backoff)%Z sl ->
  exists st rs' content', fold_res (run_tick c poll_seconds max_backoff) {| rs_fwd := f; backoff := bo; slept := sl |} ticks = Ok st /\
    rs `prefix_of` rs' /\ on_track content' (rs_fwd st) rs' /\ waits st /\ (exists all', all_records content' = Ok all') /\
    content `prefix_of` content' /\
    Nat.min (List.length all0) (List.length rs + n * Nat.max 1 (batch_size c)) <= List.length rs'.
Proof.
  revert content all0 f bo sl rs n.
  induction ticks as [|t ticks IH]; intros content all0 f bo sl rs n Hall Hg Hup Hon Hsl.
  - inversion Hup; subst. eexists _, rs, content. split; [done|]. split_and!; try done; [eauto|lia].
  - destruct Hg as (more & all & Hf & Hall' & Hans & Hg). destruct Hon as [Hrp Ha].
    assert (on_track (content ++ more) f rs) as Hon' by (split; [by apply resume_point_app|done]).
    destruct (tick_progress _ _ _ bo sl _ _ Hall' Hf Hans Hon') as ([f' bo' sl'] & chunk & Ht & Hon2 & Hstep & Hw).
    pose proof (prefix_length _ _ (records_grow _ _ _ _ Hall Hall')) as Hlen.
    assert (exists m, up_ticks m ticks /\ Nat.min (List.length all0) (List.length rs + n * Nat.max 1 (batch_size c)) <=
      Nat.min (List.length all) (List.length (rs ++ chunk) + m * Nat.max 1 (batch_size c))) as (m & Hm & Hle).
    { inversion Hup as [|m ? ? Hyes Hm|m ? ? Hm]; subst.
      - exists 0. split; [constructor|]. rewrite length_app. lia.
      - exists m. split; [done|]. specialize (Hstep Hyes). lia.
      - exists n. split; [done|]. rewrite length_app. lia. }
    destruct (IH _ _ f' bo' sl' (rs ++ chunk) m Hall' Hg Hm Hon2 (Hw Hsl))
      as (st & rs' & content' & Hrun & Hpre & Hon3 & Hw3 & Hr3 & Hc3 & Hl3).
    exists st, rs', content'. cbn [fold_res]. rewrite Ht. cbn [mbind result_bind]. split_and!; try done; [| |lia].
    + etrans; [|exact Hpre]. by exists chunk.
    + etrans; [|exact Hc3]. by exists more.
Qed.
End Liveness.

(** C15: Liveness of the forwarder. Take a spool with a record list, any later growth of it, and any
    finite pattern of outages in which the sink refuses batches: once enough rounds have
    found the sink up (as many as there are batches in the spool), the loop has not died,
    the sink has accepted the image of every one of the records, each once and in order
    and before anything newer, and no wait was longer than the larger of the poll interval
    and the backoff cap. *)
Theorem forwarder_delivers_eventually c poll_seconds max_backoff content all ticks n :
  all_records content = Ok all -> growing content ticks -> up_ticks n ticks ->
  List.length all <= n * Nat.max 1 (batch_size c) ->
  exists st newer, run c poll_seconds max_backoff Fwd_new ticks = Ok st /\
    accepted (rs_fwd st) = all_mapped c all ++ all_mapped c newer /\
    Forall (fun d => d <= Z.max poll_seconds max_backoff)%Z (slept st).
Proof.
  intros Hall Hg Hup Hn.
  destruct (run_progress c poll_seconds max_backoff content all Fwd_new poll_seconds [] [] ticks n Hall Hg Hup
    (conj (resume_point_0 content) eq_refl) (List.Forall_nil _))
    as (st & rs' & content' & Hrun & _ & [Hrp Ha] & Hw & (all' & Hall') & [more ->] & Hlen).
  assert (all `prefix_of` rs') as [newer ->].
  { pose proof (records_grow _ _ _ _ Hall Hall') as H1.
    destruct (resume_reads _ _ _ _ Hrp Hall') as (r & _ & ->). cbn in Hlen.
    destruct (prefix_weak_total all rs' _ H1 (prefix_app_r _ _ _ (reflexivity rs'))) as [H2|H2]; [done|].
    rewrite (prefix_length_eq _ _ H2); [done|]. lia. }
  exists st, newer. split_and!; [done| |done]. by rewrite Ha, all_mapped_app.
Qed.

Definition refuse (b : list pydict) : result unit := raise SinkError "down".
Definition two_events : bytes := spool_emit (spool_emit [] (demo_event "a")) (demo_event "b").
Definition outage_ticks : list Tick :=
  [{| tk_file := Some two_events; tk_deliver := refuse |}; {| tk_file := Some two_events; tk_deliver := fun _ => Ok tt |};
   {| tk_file := Some two_events; tk_deliver := refuse |}; {| tk_file := Some two_events; tk_deliver := fun _ => Ok tt |}].

Lemma forwarder_delivers_eventually_witness :
  exists st newer, run (demo_config 1 None) 2 60 Fwd_new outage_ticks = Ok st /\
    accepted (rs_fwd st) = [demo_event "a"; demo_event "b"] ++ all_mapped (demo_config 1 None) newer /\
    Forall (fun d => d <= 60)%Z (slept st).
Proof.
  apply (forwarder_delivers_eventually (demo_config 1 None) 2 60 two_events (the (all_records two_events) I) outage_ticks 2).
  - vm_compute. reflexivity.
  - assert (answers refuse) as Hr by (intros b; right; eexists; reflexivity).
    assert (answers (fun _ => Ok tt)) as Hu by (intros b; left; reflexivity).
    repeat (exists [], (the (all_records two_events) I); split; [reflexivity|split; [vm_compute; reflexivity|split; [assumption|]]]).
    exact I.
  - apply up_skip, up_yes; [intros b; reflexivity|]. apply up_skip, up_yes; [intros b; reflexivity|]. constructor.
  - apply Nat.leb_le. vm_compute. reflexivity.
Defined.

Lemma ndjson_roundtrip_witness :
  let w := {| wh_url := "https://siem/ingest"; wh_headers := []; as_array := false |} in
  exists lines, split_lines (chars (webhook_encode w [demo_event "a"; demo_event "b"]).1) = (lines, []) /\
    (fun l => json_loads (of_chars l)) <$> lines = (fun e => Ok (VDict e)) <$> [demo_event "a"; demo_event "b"].
Proof.
  intros w. apply (ndjson_roundtrip w [demo_event "a"; demo_event "b"]); [reflexivity|discriminate|].
  repeat constructor; set_solver.
Defined.

(** ** What an outage costs *)
Lemma delays_double d cap i : (0 <= d)%Z -> (0 <= cap)%Z ->
  Z.min (Z.min (d * 2) cap * 2 ^ Z.of_nat i) cap = Z.min (d * 2 ^ Z.of_nat (S i)) cap.
Proof.
  intros Hd Hc. rewrite Nat2Z.inj_succ, Z.pow_succ_r by lia. assert (0 < 2 ^ Z.of_nat i)%Z as Hp by lia.
  destruct (Z.min_spec (d * 2) cap) as [[_ ->]|[? ->]]; [f_equal; ring|nia].
Qed.

Section Outage.
Context (c : ForwarderConfig) (poll_seconds max_backoff : Z) (content : bytes) (msg : string).

Definition down_tick : Tick := {| tk_file := Some content; tk_deliver := fun _ => raise SinkError msg |}.

Lemma down_tick_waits r st : read_spool (Some content) (watermark (rs_fwd st)) = Ok r ->
  all_mapped c (take (Nat.max 1 (batch_size c)) (records r)) <> [] ->
  exists f, run_tick c poll_seconds max_backoff st down_tick = Ok
      {| rs_fwd := f; backoff := Z.min (backoff st * 2) max_backoff; slept := slept st ++ [Z.min (backoff st) max_backoff] |} /\
    watermark f = watermark (rs_fwd st) /\ accepted f = accepted (rs_fwd st).
Proof.
  intros Hr Hne. unfold run_tick, pump_once. cbn [tk_file tk_deliver down_tick]. rewrite Hr. cbn [mbind result_bind].
  unfold all_mapped in Hne. destruct (records r) as [|e rest]; [by rewrite take_nil in Hne|].
  destruct (omap _ _) as [|b bs]; [done|]. cbn [raise mbind result_bind fw_ok negb]. by eexists.
Qed.

Lemma down_ticks_wait r k st : read_spool (Some content) (watermark (rs_fwd st)) = Ok r ->
  all_mapped c (take (Nat.max 1 (batch_size c)) (records r)) <> [] -> (0 <= backoff st)%Z -> (0 <= max_backoff)%Z ->
  exists st', fold_res (run_tick c poll_seconds max_backoff) st (repeat down_tick k) = Ok st' /\
    watermark (rs_fwd st') = watermark (rs_fwd st) /\ accepted (rs_fwd st') = accepted (rs_fwd st) /\
    slept st' = slept st ++ ((fun i => Z.min (backoff st * 2 ^ Z.of_nat i) max_backoff) <$> seq 0 k).
Proof.
  intros Hr Hne Hb Hm. revert st Hr Hb. induction k as [|k IH]; intros st Hr Hb.
  - exists st. cbn. by rewrite app_nil_r.
  - destruct (down_tick_waits r st Hr Hne) as (f & Ht & Hw & Ha). cbn [repeat fold_res]. rewrite Ht. cbn [mbind result_bind].
    edestruct IH as (st' & Hst & Hw' & Ha' & Hs'); [| |exists st'; split_and!; [exact Hst|..]].
    + cbn [rs_fwd]. by rewrite Hw.
    + cbn [backoff]. lia.
    + by rewrite Hw'.
    + by rewrite Ha'.
    + rewrite Hs'. cbn [slept backoff seq fmap list_fmap]. rewrite <- (assoc_L (++)). f_equal. cbn [app].
      f_equal; [f_equal; cbn; lia|]. rewrite <- seq_shift, <- list_fmap_compose. apply list_fmap_ext.
      intros _ i _. cbn [compose]. by apply delays_double.
Qed.
End Outage.

(** The backoff schedule. A spool with records, forwarded from the start through an outage of
    [k] rounds with a mapper that drops nothing: nothing is lost or moved, and the waits
    double from the poll interval up to the cap. *)
Theorem outage_backoff c poll_seconds max_backoff content all msg k :
  (0 <= poll_seconds)%Z -> (0 <= max_backoff)%Z -> all_records content = Ok all -> all <> [] ->
  (forall e, mapped c e <> None) ->
  exists st, run c poll_seconds max_backoff Fwd_new (repeat (down_tick content msg) k) = Ok st /\
    watermark (rs_fwd st) = 0 /\ accepted (rs_fwd st) = [] /\
    slept st = (fun i => Z.min (poll_seconds * 2 ^ Z.of_nat i) max_backoff) <$> seq 0 k.
Proof.
  intros Hp Hm (r & Hr & [= Hrs])%bind_ok Hne Hmap.
  apply (down_ticks_wait c poll_seconds max_backoff content msg r k
    {| rs_fwd := Fwd_new; backoff := poll_seconds; slept := [] |}); [exact Hr| |done|done].
  rewrite Hrs. destruct all as [|e all]; [done|]. destruct (Nat.max 1 _) eqn:He; [lia|]. unfold all_mapped. cbn.
  destruct (mapped c (r_event e)) eqn:Hd; [done|by apply Hmap in Hd].
Qed.

Lemma outage_backoff_witness :
  exists st, run (demo_config 1 None) 2 10 Fwd_new (repeat (down_tick two_events "down") 4) = Ok st /\
    watermark (rs_fwd st) = 0 /\ accepted (rs_fwd st) = [] /\ slept st = [2; 4; 8; 10]%Z.
Proof.
  apply (outage_backoff (demo_config 1 None) 2 10 two_events (the (all_records two_events) I) "down" 4);
    [lia|lia|vm_compute; reflexivity|discriminate|intros e; discriminate].
Defined.

(** * Observations *)

(** A watermark file that is JSON but not a mapping, or holds an infinite offset, is not read
    as 0: the exception reaches the caller. *)
Lemma watermark_garbage_raises :
  watermark_load (Some "[7]") = raise AttributeError "object has no attribute 'get'" /\
  (exists msg, watermark_load (Some (json_dumps_default (VObj [("offset", VFloat (S754_infinity false))])))
    = raise OtherError msg) /\
  watermark_load (Some "{not json") = Ok 0%Z /\ watermark_load None = Ok 0%Z.
Proof. split_and!; [reflexivity|eexists; vm_compute; reflexivity|vm_compute; reflexivity|reflexivity]. Qed.

(** An exception of [urlopen] outside the three caught classes, such as the [HTTPException] of
    a malformed status line, is not a [SinkError]: it ends the loop. *)
Lemma unforeseen_answer_ends_run e : exn_cls e <> SinkError ->
  let post := urllib_post (fun _ _ _ => Crashed e) in
  let w := {| wh_url := "https://siem/ingest"; wh_headers := []; as_array := false |} in
  run (demo_config 1 None) 2 60 Fwd_new [{| tk_file := Some two_events; tk_deliver := webhook_deliver w post |}] = Err e.
Proof. destruct e as [[] msg]; intros He; try by destruct He. all: vm_compute; reflexivity. Qed.

(** Two batches of one size in one millisecond have one key: the second object replaces the first. *)
Lemma s3_keys_collide utc s now ms b1 b2 : partition_time utc now b1 = partition_time utc now b2 ->
  List.length b1 = List.length b2 -> s3_key utc s now ms b1 = s3_key utc s now ms b2.
Proof. intros Hp Hl. unfold s3_key. by rewrite Hp, Hl. Qed.

(** A batch lands whole in the partition of its first dated event, whatever the others say. *)
Lemma s3_one_partition utc now ts when e batch : get_or "ts" "time" e = VStr ts -> utc (replace_zulu ts) = Some when ->
  partition_time utc now (e :: batch) = when.
Proof. intros He Hu. cbn. by rewrite He, Hu. Qed.
