(* ===== verification/Transports.v ===== *)
(** Process transports: [transports/stdio.py] and [transports/upstream.py]. A byte stream is cut
    into frames as [StreamReader.readline] does; two pumps hand the frames to the gateway's
    handlers in an order the event loop chooses, one handler call at a time. While the loop
    runs the upstream accepts writes; [send] says what a write to a dead process does. *)
From S2P Require Import Prelude PyVal Json Rules Protocol Spool Gateway GatewayProofs Safety.

Definition LINE_LIMIT : Z := (16 * 1024 * 1024)%Z.

(** * Frames *)

(** What one [readline] gives: a line with its newline (or the rest at the end of the
    stream), a frame over the limit, or the end. *)
Inductive read := Line (raw : bytes) | Overrun | Eof.

(** [None] is [_BlockingLineReader], which reads a regular file without a limit. *)
Definition fits (limit : option Z) (frame : bytes) : bool :=
  match limit with Some n => (Z.of_nat (List.length frame) <=? n)%Z | None => true end.

Fixpoint cut (limit : option Z) (ls : list bytes) (tail : bytes) : list read :=
  match ls with
  | x :: ls => if fits limit x then Line (x ++ [nl]) :: cut limit ls tail else [Overrun]
  | [] => match tail with
          | [] => [Eof]
          | _ => if fits limit tail then [Line tail; Eof] else [Overrun]
          end
  end.

Definition frames (limit : option Z) (stream : bytes) : list read :=
  let '(ls, tail) := split_lines stream in cut limit ls tail.

(** [line.decode("utf-8", errors="replace").strip()] *)
Definition frame_text (raw : bytes) : string := strip (of_chars raw).

(** The texts handed on: the non-empty ones before the stream ends or is lost. *)
Fixpoint texts (l : list read) : list string :=
  match l with
  | Line raw :: l => if nonempty (frame_text raw) then frame_text raw :: texts l else texts l
  | _ => []
  end.

(** * The child process *)

(** A process: the code it has exited with, the code it exits with within the grace period
    when asked to terminate (if it does), and the code it dies with when killed. *)
Record Proc := { returncode : option Z; on_terminate : option Z; on_kill : Z }.

Inductive signal := SIGTERM | SIGKILL.

(** [_shutdown_upstream], [SubprocessUpstream.shutdown]: the signals sent and the code returned. *)
Definition shutdown_upstream (proc : option Proc) : list signal * option Z :=
  match proc with
  | None => ([], None)
  | Some p =>
      match returncode p with
      | Some rc => ([], Some rc)
      | None => match on_terminate p with
                | Some rc => ([SIGTERM], Some rc)
                | None => ([SIGTERM; SIGKILL], Some (on_kill p))
                end
      end
  end.

(** [send_upstream], [SubprocessUpstream.send]: the bytes written. *)
Definition wire (line : string) : bytes := chars line ++ [nl].
Definition send (proc : option Proc) (line : string) : result bytes :=
  match proc with
  | Some {| returncode := None |} => Ok (wire line)
  | _ => raise TransportError "upstream server is not running"
  end.

(** [StdioTransport.__init__], [SubprocessUpstream.__init__] *)
Definition transport_init (command : list string) : result (list string) :=
  _ ← require (bool_decide (command <> [])) TransportError "no upstream server command given"; Ok command.

(** * [SubprocessUpstream._pump_stdout] *)
Inductive callback := OnLine (text : string) | OnExit (rc : option Z).

Fixpoint pump_stdout (exit_code : Z) (l : list read) : list callback :=
  match l with
  | [] => []
  | Line raw :: l =>
      if nonempty (frame_text raw) then OnLine (frame_text raw) :: pump_stdout exit_code l else pump_stdout exit_code l
  | Overrun :: _ => [OnExit None]
  | Eof :: _ => [OnExit (Some exit_code)]
  end.

(** * [StdioTransport] *)
Inductive direction := client_to_upstream | upstream_to_client.
#[export] Instance direction_eq_dec : EqDecision direction.
Proof. solve_decision. Defined.
Definition direction_str (d : direction) : string :=
  match d with client_to_upstream => "client_to_upstream" | upstream_to_client => "upstream_to_client" end.

(** A pump task: what it has still to read, and how it ended. *)
Record Pump := { reads : list read; finished : option (result unit) }.

Record Running := { client_pump : Pump; upstream_pump : Pump; gw : World }.

Section Stdio.
Context `{Regex} (g : SecurityGateway).

Definition handler (d : direction) : string -> G unit :=
  match d with client_to_upstream => on_client_line g | upstream_to_client => on_upstream_line g end.

(** One round of [_pump]. *)
Definition pump_step (d : direction) (p : Pump) (w : World) : Pump * World :=
  match finished p, reads p with
  | Some _, _ | None, [] => (p, w)
  | None, Line raw :: rest =>
      if nonempty (frame_text raw) then
        let '(r, w') := handler d (frame_text raw) w in
        ({| reads := rest; finished := match r with Ok _ => None | Err e => Some (Err e) end |}, w')
      else ({| reads := rest; finished := None |}, w)
  | None, Overrun :: rest =>
      ({| reads := rest; finished := Some (Ok tt) |},
       (emit "transport_line_overrun" [("direction", VStr (direction_str d)); ("limit", VInt LINE_LIMIT)] w).2)
  | None, Eof :: rest => ({| reads := rest; finished := Some (Ok tt) |}, w)
  end.

Definition session_step (s : Running) (d : direction) : Running :=
  match d with
  | client_to_upstream =>
      let '(p, w) := pump_step d (client_pump s) (gw s) in {| client_pump := p; upstream_pump := upstream_pump s; gw := w |}
  | upstream_to_client =>
      let '(p, w) := pump_step d (upstream_pump s) (gw s) in {| client_pump := client_pump s; upstream_pump := p; gw := w |}
  end.

Definition session_start (client upstream : list read) (w : World) : Running :=
  {| client_pump := {| reads := client; finished := None |};
     upstream_pump := {| reads := upstream; finished := None |}; gw := w |}.

(** The outcome of the finished tasks; [None] while neither has finished. *)
Definition pumps_outcome (s : Running) : option (result unit) :=
  match finished (client_pump s), finished (upstream_pump s) with
  | Some (Err e), _ => Some (Err e)
  | _, Some (Err e) => Some (Err e)
  | None, None => None
  | _, _ => Some (Ok tt)
  end.

(** [StdioTransport.run] once the child process is launched: the pumps take the turns of
    [turns] until the waiting task wakes up; [None] when none has ended by then. *)
Definition stdio_run (command : list string) (proc : Proc) (client upstream : list read) (turns : list direction)
  (w : World) : option (result Z * World) :=
  let s := fold_left session_step turns (session_start client upstream (on_start g command w).2) in
  outcome ← pumps_outcome s;
  let w' := (on_upstream_exit (shutdown_upstream (Some proc)).2 (gw s)).2 in
  Some ((match outcome with Ok _ => Ok 0%Z | Err e => Err e end), (on_stop w').2).
End Stdio.

(** * Framing *)
Lemma cut_bound limit ls tail raw : Line raw ∈ cut (Some limit) ls tail -> (Z.of_nat (List.length raw) <= limit + 1)%Z.
Proof.
  induction ls as [|x ls IH]; cbn [cut fits].
  - destruct tail as [|a t]; [set_solver|]. destruct (Z.leb_spec (Z.of_nat (List.length (a :: t))) limit); [|set_solver].
    intros [[= ->]|]%elem_of_cons; [lia|set_solver].
  - destruct (Z.leb_spec (Z.of_nat (List.length x)) limit); [|set_solver].
    intros [[= ->]|]%elem_of_cons; [rewrite length_app; cbn; lia|by apply IH].
Qed.

Definition raw_of (r : read) : bytes := match r with Line raw => raw | _ => [] end.

Lemma cut_lossless limit ls tail : exists rest, join_lines ls ++ tail = concat (raw_of <$> cut limit ls tail) ++ rest /\
  (Overrun ∉ cut limit ls tail -> rest = []) /\ (Eof ∈ cut limit ls tail -> rest = []).
Proof.
  induction ls as [|x ls IH]; cbn [cut].
  - destruct tail as [|a t]; [exists []; set_solver|]. destruct (fits limit (a :: t)); [|exists (a :: t); set_solver].
    exists []. cbn. rewrite !app_nil_r. set_solver.
  - destruct (fits limit x); [|exists (join_lines (x :: ls) ++ tail); set_solver].
    destruct IH as (rest & Heq & H1 & H2). exists rest. unfold join_lines in *. cbn.
    rewrite <- !(assoc_L (++)), Heq. set_solver.
Qed.

(** Framing keeps the stream. However a peer's bytes are cut into lines, no frame handed on is
    longer than the limit and its newline; the frames are exactly the stream, in order, up
    to a frame that is over the limit; and a stream whose end is seen was read whole. *)
Theorem frames_keep_stream limit stream :
  (forall raw, Line raw ∈ frames (Some limit) stream -> (Z.of_nat (List.length raw) <= limit + 1)%Z) /\
  exists rest, stream = concat (raw_of <$> frames (Some limit) stream) ++ rest /\
    (Overrun ∉ frames (Some limit) stream -> rest = []) /\ (Eof ∈ frames (Some limit) stream -> rest = []).
Proof.
  unfold frames. pose proof (split_lines_spec stream) as Hs. destruct (split_lines stream) as [ls tail].
  destruct Hs as (-> & _). split; [intros raw; apply cut_bound|apply cut_lossless].
Qed.

(** * A session is a run of the gateway *)

Section Session.
Context `{Regex} (g : SecurityGateway).

(** What a transport does to the gateway while its pumps run: hand it a line, or report that
    a stream was lost. *)
Inductive action := Handle (d : direction) (text : string) | Lost (d : direction).

Definition action_dir (a : action) : direction := match a with Handle d _ | Lost d => d end.

Definition input_of (d : direction) : string -> input :=
  match d with client_to_upstream => ClientLine | upstream_to_client => UpstreamLine end.

Definition perform (w : World) (a : action) : World :=
  match a with
  | Handle d t => step g w (input_of d t)
  | Lost d => (emit "transport_line_overrun" [("direction", VStr (direction_str d)); ("limit", VInt LINE_LIMIT)] w).2
  end.

Definition handled (d : direction) (acts : list action) : list string :=
  omap (fun a => match a with Handle d' t => if decide (d = d') then Some t else None | Lost _ => None end) acts.

Lemma handled_app d a1 a2 : handled d (a1 ++ a2) = handled d a1 ++ handled d a2.
Proof. apply omap_app. Qed.

(** A pump has handed on a prefix of its texts; all of them once its stream has ended. *)
Definition pump_inv (d : direction) (all : list read) (acts : list action) (p : Pump) : Prop :=
  match finished p with
  | None => handled d acts ++ texts (reads p) = texts all
  | Some (Ok _) => handled d acts = texts all
  | Some (Err _) => handled d acts `prefix_of` texts all
  end.

Lemma pump_inv_other d d' all acts more p : d <> d' -> Forall (fun a => action_dir a = d') more ->
  pump_inv d all acts p -> pump_inv d all (acts ++ more) p.
Proof.
  intros Hd Hm. unfold pump_inv. rewrite handled_app. replace (handled d more) with (@nil string); [by rewrite app_nil_r|].
  induction Hm as [|[d2 t|d2] more Ha _ IH]; [done| |done]. cbn in *. by rewrite decide_False by congruence.
Qed.

Lemma pump_step_acts d all acts p w : pump_inv d all acts p ->
  exists more, (pump_step g d p w).2 = fold_left perform more w /\
    Forall (fun a => action_dir a = d) more /\
    pump_inv d all (acts ++ more) (pump_step g d p w).1.
Proof.
  unfold pump_inv, pump_step. intros Hinv. destruct (finished p) as [o|] eqn:Hf.
  { exists []. rewrite app_nil_r. cbn. by rewrite Hf. }
  destruct (reads p) as [|[raw| |] rest] eqn:Hr; cbn [texts] in Hinv.
  - exists []. rewrite app_nil_r. cbn. by rewrite Hf, Hr.
  - destruct (nonempty (frame_text raw)).
    + exists [Handle d (frame_text raw)]. cbn [fold_left perform]. rewrite handled_app. cbn. rewrite decide_True by done.
      assert ((handler g d (frame_text raw) w).2 = step g w (input_of d (frame_text raw))) as Hs by (by destruct d).
      destruct (handler g d (frame_text raw) w) as [[u|e] w']; cbn in *; (split_and!; [done|by repeat constructor|]).
      * by rewrite <- (assoc_L (++)).
      * rewrite <- Hinv. exists (texts rest). by rewrite <- (assoc_L (++)).
    + exists []. by rewrite app_nil_r.
  - exists [Lost d]. cbn. rewrite handled_app. cbn. rewrite app_nil_r in *. split_and!; by repeat constructor.
  - exists []. cbn. by rewrite !app_nil_r in *.
Qed.

Lemma session_acts client upstream w turns :
  exists acts, let s := fold_left (session_step g) turns (session_start client upstream w) in
    gw s = fold_left perform acts w /\ pump_inv client_to_upstream client acts (client_pump s) /\
    pump_inv upstream_to_client upstream acts (upstream_pump s).
Proof.
  induction turns as [|d turns (acts & Hw & Hc & Hu)] using rev_ind; [by exists []|]. rewrite fold_left_app. cbn [fold_left].
  set (s := fold_left _ turns _) in *. destruct d; cbn [session_step].
  - destruct (pump_step_acts _ _ _ _ (gw s) Hc) as (more & Hm & Hk & Hi).
    destruct (pump_step g client_to_upstream (client_pump s) (gw s)) as [p w']. exists (acts ++ more). cbn in *.
    rewrite fold_left_app, <- Hw. split_and!; [done|done|]. by apply (pump_inv_other _ client_to_upstream).
  - destruct (pump_step_acts _ _ _ _ (gw s) Hu) as (more & Hm & Hk & Hi).
    destruct (pump_step g upstream_to_client (upstream_pump s) (gw s)) as [p w']. exists (acts ++ more). cbn in *.
    rewrite fold_left_app, <- Hw. split_and!; [done| |done]. by apply (pump_inv_other _ upstream_to_client).
Qed.

Definition stream_of (client upstream : list read) (d : direction) : list read :=
  match d with client_to_upstream => client | upstream_to_client => upstream end.

Lemma pump_inv_prefix d all acts p : pump_inv d all acts p -> handled d acts `prefix_of` texts all.
Proof. unfold pump_inv. destruct (finished p) as [[u|e]|]; [by intros ->|done|]. intros <-. by eexists. Qed.
End Session.

(** ** The session ends *)
Definition ends (l : list read) : Prop := Overrun ∈ l \/ Eof ∈ l.
Definition is_line_read (r : read) : Prop := exists raw, r = Line raw.

Lemma frames_end limit stream : ends (frames limit stream).
Proof.
  unfold frames, ends. destruct (split_lines stream) as [ls tail]. induction ls as [|x ls IH]; cbn [cut].
  - destruct tail as [|a t]; [set_solver|]. destruct (fits _ _); set_solver.
  - destruct (fits limit x); set_solver.
Qed.

Lemma ends_not_lines l : ends l -> ~ Forall is_line_read l.
Proof. rewrite Forall_forall. intros [Hl|Hl] Hall; by destruct (Hall _ Hl) as [raw ?]. Qed.

Definition turns_of (d : direction) (turns : list direction) : nat :=
  List.length (filter (fun d' => d = d') turns).

Section Ends.
Context `{Regex} (g : SecurityGateway).

Definition pump_of (d : direction) (s : Running) : Pump :=
  match d with client_to_upstream => client_pump s | upstream_to_client => upstream_pump s end.

(** A pump that has not ended has read as many lines as it was given turns. *)
Definition consumed (all : list read) (n : nat) (p : Pump) : Prop :=
  finished p <> None \/ exists pre, all = pre ++ reads p /\ Forall is_line_read pre /\ Nat.min (List.length all) n <= List.length pre.

Lemma pump_step_consumes d all n p w : consumed all n p -> consumed all (S n) (pump_step g d p w).1.
Proof.
  unfold consumed, pump_step. destruct (finished p) as [o|] eqn:Hf; [intros _; left; cbn; by rewrite Hf|].
  intros [?|(pre & -> & Hl & Hn)]; [done|]. destruct (reads p) as [|[raw| |] rest] eqn:Hr.
  - right. exists pre. cbn. rewrite Hr, app_nil_r in *. split_and!; [done|done|lia].
  - assert (Forall is_line_read (pre ++ [Line raw])) as Hl' by (apply Forall_app; split; [done|]; repeat constructor; by eexists).
    assert (Nat.min (List.length (pre ++ Line raw :: rest)) (S n) <= List.length (pre ++ [Line raw])) as Hn'
      by (rewrite !length_app in *; cbn in *; lia).
    destruct (nonempty (frame_text raw)); [destruct (handler g d (frame_text raw) w) as [[u|e] w']|]; cbn; [right| by left|right];
      exists (pre ++ [Line raw]); (split_and!; [by rewrite <- (assoc_L (++))|done|done]).
  - by left.
  - by left.
Qed.

Lemma session_consumes client upstream w turns d :
  consumed (stream_of client upstream d) (turns_of d turns)
    (pump_of d (fold_left (session_step g) turns (session_start client upstream w))).
Proof.
  unfold turns_of. induction turns as [|d' turns IH] using rev_ind.
  - right. exists []. cbn. destruct d; (split_and!; [done|constructor|lia]).
  - rewrite fold_left_app, filter_app, length_app. cbn [fold_left]. set (s := fold_left _ turns _) in *.
    destruct (decide (d = d')) as [<-|Hd].
    + rewrite filter_cons_True by done. cbn [filter list_filter List.length]. rewrite Nat.add_1_r.
      apply (pump_step_consumes d _ _ _ (gw s)) in IH. destruct d; cbn [session_step pump_of] in *;
        by destruct (pump_step g _ _ (gw s)) as [p w'].
    + rewrite filter_cons_False by done. cbn [filter list_filter List.length]. rewrite Nat.add_0_r.
      destruct d, d'; try done; cbn [session_step pump_of] in *; by destruct (pump_step g _ _ (gw s)) as [p w'].
Qed.

Lemma session_outcome client upstream w turns d : ends (stream_of client upstream d) ->
  List.length (stream_of client upstream d) <= turns_of d turns ->
  is_Some (pumps_outcome (fold_left (session_step g) turns (session_start client upstream w))).
Proof.
  intros He Hn. destruct (session_consumes client upstream w turns d) as [Hf|(pre & Hall & Hl & Hlen)].
  - set (s := fold_left _ turns _) in *. unfold pumps_outcome. destruct d; cbn [pump_of] in Hf;
      destruct (finished (client_pump s)) as [[]|], (finished (upstream_pump s)) as [[]|]; done.
  - exfalso. apply (ends_not_lines _ He). rewrite Nat.min_l in Hlen by lia.
    assert (reads (pump_of d (fold_left (session_step g) turns (session_start client upstream w))) = []) as Hr.
    { apply nil_length_inv. rewrite Hall, length_app in Hlen. lia. }
    by rewrite Hall, Hr, app_nil_r.
Qed.
End Ends.

(** C12: A sidecar session is a run of the gateway, and it ends. Whatever the event loop's order, once
    one of the two pumps has had a turn for each frame of its stream, the session returns;
    and what it does is exactly its start record, a sequence of handler calls and reports
    of a lost stream, and then the exit and stop records, also when a handler fails. Each
    direction's calls are the non-empty lines of that stream in their order, none skipped and
    none after a frame that was over the limit; and a session that ends well has handled
    one of the two streams to its end. *)
Theorem stdio_refines_gateway `{Regex} g command proc client upstream turns d w :
  let streams := stream_of (frames (Some LINE_LIMIT) client) (frames (Some LINE_LIMIT) upstream) in
  List.length (streams d) <= turns_of d turns ->
  exists r acts w', stdio_run g command proc (streams client_to_upstream) (streams upstream_to_client) turns w = Some (r, w') /\
    w' = (on_stop (on_upstream_exit (shutdown_upstream (Some proc)).2
           (fold_left (perform g) acts (on_start g command w).2)).2).2 /\
    (forall d, handled d acts `prefix_of` texts (streams d)) /\
    (r = Ok 0%Z -> exists d, handled d acts = texts (streams d)).
Proof.
  cbn zeta. generalize (frames_end (Some LINE_LIMIT) client) (frames_end (Some LINE_LIMIT) upstream).
  cbn [stream_of]. generalize (frames (Some LINE_LIMIT) client) (frames (Some LINE_LIMIT) upstream). intros cs us Hec Heu Hn.
  unfold stdio_run. destruct (session_acts g cs us (on_start g command w).2 turns) as (acts & Hw & Hc & Hu).
  destruct (session_outcome g cs us (on_start g command w).2 turns d) as [o Ho]; [by destruct d|done|].
  set (s := fold_left _ turns _) in *. rewrite Ho. cbn. eexists _, acts, _. split_and!; [done|by rewrite Hw| |].
  - intros []; [exact (pump_inv_prefix _ _ _ _ Hc)|exact (pump_inv_prefix _ _ _ _ Hu)].
  - intros Hok. destruct o as [u|e]; [|done]. unfold pumps_outcome, pump_inv in *.
    destruct (finished (client_pump s)) as [[]|]; [by exists client_to_upstream|done|].
    destruct (finished (upstream_pump s)) as [[]|]; [by exists upstream_to_client|done|done].
Qed.

#[local] Existing Instance literal_regex.
Definition demo_client : bytes := wire (encode_msg (tool_call 1 "mail.send")).

Lemma stdio_refines_gateway_witness :
  let streams := stream_of (frames (Some LINE_LIMIT) demo_client) (frames (Some LINE_LIMIT) []) in
  let turns := [client_to_upstream; client_to_upstream] in
  let proc := {| returncode := None; on_terminate := Some 0%Z; on_kill := (-9)%Z |} in
  exists r acts w',
    stdio_run demo_gateway ["server"] proc (streams client_to_upstream) (streams upstream_to_client) turns demo_start = Some (r, w') /\
    w' = (on_stop (on_upstream_exit (shutdown_upstream (Some proc)).2
           (fold_left (perform demo_gateway) acts (on_start demo_gateway ["server"] demo_start).2)).2).2 /\
    (forall d, handled d acts `prefix_of` texts (streams d)) /\
    (r = Ok 0%Z -> exists d, handled d acts = texts (streams d)).
Proof.
  intros streams turns proc.
  apply (stdio_refines_gateway demo_gateway ["server"] proc demo_client [] turns client_to_upstream demo_start).
  apply Nat.leb_le. vm_compute. reflexivity.
Defined.

(** * The upstream of a central session *)

(** Its lines are handed on, and it is reported to have ended once, after the last of them. *)
Lemma pump_stdout_reports exit_code l : ends l ->
  exists rc, pump_stdout exit_code l = (OnLine <$> texts l) ++ [OnExit rc] /\
    (rc = None <-> Eof ∉ take_while (fun r => match r with Overrun => false | _ => true end) l).
Proof.
  unfold ends. induction l as [|[raw| |] l IH]; [set_solver| | |].
  - intros He. destruct IH as (rc & Heq & Hrc); [set_solver|]. exists rc. cbn. rewrite Heq.
    destruct (nonempty (frame_text raw)); (split; [done|set_solver]).
  - intros _. exists None. cbn. split; [done|]. set_solver.
  - intros _. exists (Some exit_code). cbn. split; [done|]. set_solver.
Qed.

Lemma drop_while_length {A} (q : A -> bool) l : List.length (drop_while q l) <= List.length l.
Proof. induction l as [|a l IH]; cbn; [done|]. destruct (q a); cbn; lia. Qed.

Lemma frame_text_length raw : String.length (frame_text raw) <= List.length raw.
Proof.
  unfold frame_text, strip, strip_by, lstrip_by, rstrip_by. rewrite <- length_chars, !chars_of_chars.
  etransitivity; [apply drop_while_length|]. rewrite length_rev. etransitivity; [apply drop_while_length|]. by rewrite length_rev.
Qed.

(** The newline of a line is not part of its text. *)
Lemma frame_text_nl x : frame_text (x ++ [nl]) = frame_text x.
Proof. unfold frame_text, strip, strip_by, rstrip_by. rewrite !chars_of_chars, rev_app_distr. reflexivity. Qed.

Lemma pump_stdout_cut exit_code limit ls tail : fits limit [] = true -> pump_stdout exit_code (cut limit ls tail) =
  (OnLine <$> texts (cut limit ls tail)) ++ [OnExit (if forallb (fits limit) (ls ++ [tail]) then Some exit_code else None)].
Proof.
  intros H0. induction ls as [|x ls IH]; cbn [cut app forallb].
  - destruct tail as [|a t]; [by rewrite H0|]. destruct (fits limit (a :: t)); [|done]. cbn [pump_stdout texts andb].
    by destruct (nonempty _).
  - destruct (fits limit x); [|done]. cbn [pump_stdout texts andb]. rewrite IH. by destruct (nonempty _).
Qed.

Lemma texts_cut limit ls tail t : t ∈ texts (cut limit ls tail) ->
  t <> "" /\ exists x, x ∈ ls ++ [tail] /\ fits limit x = true /\ t = frame_text x.
Proof.
  induction ls as [|x ls IH]; cbn [cut].
  - destruct tail as [|a r]; [by intros ?%elem_of_nil|]. destruct (fits limit (a :: r)) eqn:Hf; [|by intros ?%elem_of_nil]. cbn [texts].
    destruct (nonempty _) eqn:Hn; [|by intros ?%elem_of_nil]. intros ->%list_elem_of_singleton.
    split; [by intros He; rewrite He in Hn|]. exists (a :: r). split; [left|done].
  - destruct (fits limit x) eqn:Hf; [|by intros ?%elem_of_nil]. cbn [texts]. rewrite frame_text_nl. intros Hin.
    assert (t ∈ texts (cut limit ls tail) \/ (nonempty (frame_text x) = true /\ t = frame_text x)) as [Hr|[Hn ->]]
      by (destruct (nonempty (frame_text x)); [apply elem_of_cons in Hin as [->|]|]; auto).
    + destruct (IH Hr) as (Hne & y & Hy & Hyf & ->). split; [done|]. exists y. split; [by right|done].
    + split; [by intros He; rewrite He in Hn|]. exists x. split; [left|done].
Qed.

Lemma texts_cut_all limit ls tail : forallb (fits limit) (ls ++ [tail]) = true ->
  texts (cut limit ls tail) = List.filter nonempty (frame_text <$> ls ++ [tail]).
Proof.
  induction ls as [|x ls IH]; cbn [app forallb cut].
  - rewrite andb_true_r. destruct tail as [|a r]; [done|]. intros ->. cbn. by destruct (nonempty _).
  - intros [-> Hl]%andb_true_iff. cbn [texts fmap list_fmap List.filter]. rewrite frame_text_nl, IH by done. by destruct (nonempty _).
Qed.

(** C39: An upstream can neither flood a handler nor lose a line. Of whatever an upstream writes, a
    handler is given texts that are not empty and not longer than [LINE_LIMIT]; if no line is
    over the limit, it is given every line that is not blank, in order, and then the exit code;
    if one is, the session is told that the upstream ended without a code, and nothing after
    the lines before it is handed on. *)
Theorem upstream_lines_bounded exit_code stream :
  let '(ls, tail) := split_lines stream in
  let cs := pump_stdout exit_code (frames (Some LINE_LIMIT) stream) in
  (forall t, OnLine t ∈ cs -> t <> "" /\ (Z.of_nat (String.length t) <= LINE_LIMIT)%Z) /\
  (if forallb (fits (Some LINE_LIMIT)) (ls ++ [tail])
   then cs = (OnLine <$> List.filter nonempty (frame_text <$> ls ++ [tail])) ++ [OnExit (Some exit_code)]
   else exists before x after, ls ++ [tail] = before ++ x :: after /\ forallb (fits (Some LINE_LIMIT)) before = true /\
     (LINE_LIMIT < Z.of_nat (List.length x))%Z /\
     cs = (OnLine <$> List.filter nonempty (frame_text <$> before)) ++ [OnExit None]).
Proof.
  unfold frames. destruct (split_lines stream) as [ls tail]. cbn zeta. rewrite pump_stdout_cut by done. split.
  - intros t [(t' & [= ->] & Hin)%list_elem_of_fmap|Hin%list_elem_of_singleton]%elem_of_app; [|done].
    apply texts_cut in Hin as (Hne & x & _ & Hf & ->). split; [done|]. pose proof (frame_text_length x). unfold fits in Hf. lia.
  - destruct (forallb (fits (Some LINE_LIMIT)) (ls ++ [tail])) eqn:Hall; [by rewrite texts_cut_all|].
    induction ls as [|x ls IH].
    + cbn [app forallb] in Hall |- *. rewrite andb_true_r in Hall. exists [], tail, []. split; [done|]. split; [done|].
      split; [unfold fits in Hall; lia|]. cbn [cut]. destruct tail as [|a r]; [done|]. by rewrite Hall.
    + cbn [app forallb cut] in Hall |- *. destruct (fits (Some LINE_LIMIT) x) eqn:Hx.
      * destruct (IH Hall) as (before & y & after & He & Hb & Hy & Hc). exists (x :: before), y, after.
        split; [by rewrite He|]. split; [cbn [forallb]; by rewrite Hx|]. split; [done|].
        cbn [texts fmap list_fmap List.filter]. rewrite frame_text_nl. destruct (nonempty (frame_text x)); [|done]. cbn. by rewrite Hc.
      * exists [], x, (ls ++ [tail]). split; [done|]. split; [done|]. split; [unfold fits in Hx; lia|done].
Qed.

(** A process is killed only when it did not stop in its grace period, and an exited one
    is left alone; the code is always known afterwards. *)
Lemma shutdown_signals p : let '(signals, rc) := shutdown_upstream (Some p) in
  is_Some rc /\ (returncode p <> None -> signals = []) /\ (SIGKILL ∈ signals -> returncode p = None /\ on_terminate p = None).
Proof. unfold shutdown_upstream. destruct (returncode p), (on_terminate p); split_and!; try done; set_solver. Qed.

(** A write to a process that has exited, or was never started, is refused. *)
Lemma send_refused proc line : (forall p, proc = Some p -> returncode p <> None) ->
  send proc line = raise TransportError "upstream server is not running".
Proof. destruct proc as [[[rc|] t k]|]; [done| |done]. intros Hp. by destruct (Hp _ eq_refl). Qed.

(** * Observations *)

(** A client that is a regular file is read without the frame limit. *)
Lemma file_reader_unbounded stream : Overrun ∉ frames None stream.
Proof.
  unfold frames. destruct (split_lines stream) as [ls tail]. induction ls as [|x ls IH]; cbn; [destruct tail|]; set_solver.
Qed.
