(* ===== verification/Framing.v ===== *)
(** A sidecar session on the wire: the rest of [transports/stdio.py], how the child process is
    launched, what the client's end is read and written through, and the bytes that each peer
    receives. The pumps between are in [Transports]. *)
From S2P Require Import Prelude PyVal Json Session Rules Engine Protocol Pipeline Spool Gateway GatewayProofs Safety Transports.

(** * The two ends *)

(** What standard input and output can be: something the event loop accepts as a pipe, or a
    regular file, for which [_BlockingLineReader] and [_BlockingLineWriter] step in. *)
Inductive handle := PipeLike | RegularFile.
(** [_open_client_reader], by the limit its [readline] has. *)
Definition open_client_reader (stdin : handle) : option Z :=
  match stdin with PipeLike => Some LINE_LIMIT | RegularFile => None end.

(** The lines sent in one direction, in order, and the bytes [write_line] gives the peer. *)
Definition lines_to (d : direction) (evs : list event) : list string :=
  omap (fun e => match d, e with
                 | client_to_upstream, ToUpstream l | upstream_to_client, ToClient l => Some l
                 | _, _ => None end) evs.
Definition written (d : direction) (evs : list event) : bytes := concat (wire <$> lines_to d evs).

Section Sidecar.
Context `{Regex} (g : SecurityGateway).

(** [StdioTransport.run] from its constructor on. [launched] is what starting the child gives;
    an [OSError] of it leaves the call before the gateway has started. *)
Definition sidecar_run (command : list string) (launched : result Proc) (stdin : handle) (client upstream : bytes)
  (turns : list direction) (w : World) : option (result Z * World) :=
  match transport_init command with
  | Err e => Some (Err e, w)
  | Ok command =>
      match launched with
      | Err e => Some (Err e, w)
      | Ok proc => stdio_run g command proc (frames (open_client_reader stdin) client) (frames (Some LINE_LIMIT) upstream) turns w
      end
  end.
End Sidecar.

(** * Lines that are frames *)

(** A line that a reader of newline-delimited text takes for one message, as it is. *)
Definition framed (l : string) : Prop := l <> "" /\ no_newline l = true /\ strip l = l.

(** ** Stripping *)
Lemma drop_while_stop {A} (p : A -> bool) l : drop_while p (drop_while p l) = drop_while p l.
Proof. induction l as [|x l IH]; [done|]. cbn. destruct (p x) eqn:Hx; [done|]. cbn. by rewrite Hx. Qed.

Lemma drop_while_suffix {A} (p : A -> bool) l : exists l0, l = l0 ++ drop_while p l.
Proof. induction l as [|x l [l0 IH]]; [by exists []|]. cbn. destruct (p x); [exists (x :: l0); cbn; by f_equal|by exists []]. Qed.

(** Stripped text neither begins nor ends with what is stripped. *)
Definition tight (p : ascii -> bool) (l : list ascii) : Prop := drop_while p l = l /\ drop_while p (rev l) = rev l.

Lemma strip_tight s : strip s = s <-> tight is_space (chars s).
Proof.
  unfold strip, strip_by, lstrip_by, rstrip_by, tight. rewrite chars_of_chars. split.
  - intros Hs. assert (chars s = drop_while is_space (rev (drop_while is_space (rev (chars s))))) as Hc by (by rewrite <- Hs at 1; rewrite chars_of_chars).
    destruct (drop_while_suffix is_space (rev (drop_while is_space (rev (chars s))))) as [l1 H1].
    destruct (drop_while_suffix is_space (rev (chars s))) as [l2 H2].
    assert (List.length l1 = 0 /\ List.length l2 = 0) as [->%nil_length_inv ->%nil_length_inv].
    { apply (f_equal (@List.length _)) in H1, H2, Hc. rewrite !length_app, !length_rev in *. lia. }
    cbn in H1, H2. split; [|done]. rewrite <- H2, rev_involutive in H1. done.
  - intros [H1 H2]. by rewrite H2, rev_involutive, H1, of_chars_chars.
Qed.

Lemma drop_while_rev_tight (p : ascii -> bool) l : drop_while p l = l -> drop_while p (rev (drop_while p (rev l))) = rev (drop_while p (rev l)).
Proof.
  destruct (drop_while_suffix p (rev l)) as [l0 H0]. intros Hl.
  apply (f_equal (@rev _)) in H0. rewrite rev_involutive, rev_app_distr in H0.
  destruct (rev (drop_while p (rev l))) as [|x r] eqn:Hr; [done|]. rewrite H0 in Hl. cbn in Hl |- *.
  destruct (p x) eqn:Hx; [|done]. exfalso. apply (f_equal (@List.length _)) in Hl.
  pose proof (drop_while_length p (r ++ rev l0)). cbn in Hl. lia.
Qed.

Lemma strip_idempotent s : strip (strip s) = strip s.
Proof.
  apply strip_tight. unfold strip, strip_by, lstrip_by, rstrip_by. rewrite !chars_of_chars.
  set (l := rev (drop_while is_space (rev (chars s)))). assert (drop_while is_space (rev l) = rev l) as Hl.
  { unfold l. by rewrite rev_involutive, drop_while_stop. }
  split; [apply drop_while_stop|]. pose proof (drop_while_rev_tight is_space (rev l) Hl) as H. by rewrite rev_involutive in H.
Qed.

(** ** What is read and what is encoded is framed *)
Lemma no_newline_Forall s : no_newline s = true <-> Forall (fun a => is_nl a = false) (chars s).
Proof.
  assert (forall a, (nat_of_ascii a =? 10) = is_nl a) as Hnl by (intros [[] [] [] [] [] [] [] []]; reflexivity).
  unfold no_newline. induction (chars s) as [|a l IH]; [by split|]. cbn. rewrite andb_true_iff, negb_true_iff, Forall_cons, Hnl, IH. done.
Qed.

Lemma Forall_drop_while {A} (P : A -> Prop) p l : Forall P l -> Forall P (drop_while p l).
Proof. intros Hl. destruct (drop_while_suffix p l) as [l0 H0]. rewrite H0 in Hl. by apply Forall_app in Hl as [_ ?]. Qed.

Lemma strip_no_newline s : no_newline s = true -> no_newline (strip s) = true.
Proof.
  rewrite !no_newline_Forall. intros Hs. unfold strip, strip_by, lstrip_by, rstrip_by. rewrite !chars_of_chars.
  by apply Forall_drop_while, Forall_rev, Forall_drop_while, Forall_rev.
Qed.

Lemma texts_framed limit stream : Forall framed (texts (frames limit stream)).
Proof.
  apply Forall_forall. intros t. unfold frames. pose proof (split_lines_spec stream) as Hs. destruct (split_lines stream) as [ls tail].
  destruct Hs as (_ & Hls & Htail). intros (Hne & x & Hx & _ & ->)%texts_cut. split; [done|]. unfold frame_text. split; [|apply strip_idempotent].
  apply strip_no_newline, no_newline_Forall. rewrite chars_of_chars. rewrite Forall_forall in Hls.
  apply elem_of_app in Hx as [Hx| ->%list_elem_of_singleton]; [by apply Hls|done].
Qed.

Lemma strip_object s : strip ("{" +:+ (s +:+ "}")) = "{" +:+ (s +:+ "}").
Proof. apply strip_tight. rewrite !chars_app. split; [done|]. by rewrite rev_app_distr, rev_app_distr. Qed.

Lemma encode_framed raw : framed (encode_msg raw).
Proof. split; [done|]. split; [apply dumps_no_newline|apply strip_object]. Qed.

Definition sends_framed (e : event) : Prop := match e with ToClient l | ToUpstream l => framed l | _ => True end.

Section Sends.
Context `{Regex} (g : SecurityGateway).

Lemma quiet_framed {A} (m : G A) : keeps (emits quiet) m -> keeps (emits sends_framed) m.
Proof. apply keeps_weaken. intros ? ?. apply emits_weaken. by intros []. Qed.
Lemma send_client_framed l : framed l -> keeps (emits sends_framed) (send_client l).
Proof. intros Hl w. apply emits_one. exact Hl. Qed.
Lemma send_upstream_framed l : framed l -> keeps (emits sends_framed) (send_upstream l).
Proof. intros Hl w. apply emits_one. exact Hl. Qed.
#[local] Hint Resolve send_client_framed send_upstream_framed encode_framed : keeps.
#[local] Hint Extern 3 (keeps (emits sends_framed) _) => apply quiet_framed : keeps.

Lemma handle_tool_call_framed raw : keeps (emits sends_framed) (handle_tool_call g raw).
Proof. unfold handle_tool_call, handle_denial, forward_allowed. keep_tac. Qed.
Lemma deliver_tools_list_framed raw : keeps (emits sends_framed) (deliver_tools_list g raw).
Proof. unfold deliver_tools_list. keep_tac. Qed.
Lemma deliver_tool_result_framed raw p : keeps (emits sends_framed) (deliver_tool_result g raw p).
Proof. unfold deliver_tool_result, deliver_quarantined, deliver_redacted, withhold_unredactable. keep_tac. Qed.
#[local] Hint Resolve handle_tool_call_framed deliver_tools_list_framed deliver_tool_result_framed : keeps.

Lemma client_line_framed line : framed line -> keeps (emits sends_framed) (on_client_line g line).
Proof. intros Hl. unfold on_client_line, dispatch_client_line. keep_tac. Qed.
Lemma upstream_line_framed line : framed line -> keeps (emits sends_framed) (on_upstream_line g line).
Proof. intros Hl. unfold on_upstream_line, dispatch_upstream_line. keep_tac. Qed.
Lemma on_start_framed command : keeps (emits sends_framed) (on_start g command).
Proof. unfold on_start. keep_tac. Qed.

Lemma perform_framed w a : (forall d t, a = Handle d t -> framed t) -> emits sends_framed w (perform g w a).
Proof.
  intros Ha. destruct a as [d t|d]; cbn [perform]; [|apply quiet_framed, emit_quiet].
  specialize (Ha d t eq_refl). destruct d; cbn; [by apply client_line_framed|by apply upstream_line_framed].
Qed.

Lemma performs_framed acts w : (forall d, Forall framed (handled d acts)) -> emits sends_framed w (fold_left (perform g) acts w).
Proof.
  revert w. induction acts as [|a acts IH]; intros w Ha; cbn [fold_left]; [reflexivity|]. etrans; [apply perform_framed|apply IH].
  - intros d t ->. specialize (Ha d). cbn in Ha. rewrite decide_True in Ha by done. by apply Forall_cons_1 in Ha as [? _].
  - intros d. specialize (Ha d). destruct a as [d' t|d']; [|done]. cbn in Ha. case_decide; [by apply Forall_cons_1 in Ha as [_ ?]|done].
Qed.
End Sends.

(** ** The wire is the list of lines *)
Lemma split_written ls : Forall framed ls -> split_lines (concat (wire <$> ls)) = (chars <$> ls, []).
Proof.
  intros Hls. assert (concat (wire <$> ls) = join_lines (chars <$> ls) ++ []) as ->.
  { unfold join_lines, wire. rewrite app_nil_r, <- list_fmap_compose. done. }
  rewrite split_lines_join; [cbn; by rewrite app_nil_r|]. apply Forall_fmap. eapply Forall_impl; [exact Hls|].
  intros l (_ & Hn & _). by apply no_newline_Forall.
Qed.

Lemma texts_written ls : Forall framed ls -> texts (frames None (concat (wire <$> ls))) = ls.
Proof.
  intros Hls. unfold frames. rewrite split_written by done. induction Hls as [|l ls (Hne & Hn & Hs) _ IH]; [done|].
  cbn [fmap list_fmap cut fits texts]. change (list_fmap _ _ chars ls) with (chars <$> ls). rewrite frame_text_nl, IH.
  unfold frame_text. rewrite of_chars_chars, Hs. by destruct l.
Qed.

Lemma lines_framed d evs : Forall sends_framed evs -> Forall framed (lines_to d evs).
Proof. induction 1 as [|e evs He _ IH]; [constructor|]. destruct d, e; cbn; try done; by constructor. Qed.

Lemma texts_written_bounded ls : Forall framed ls -> Forall (fun l => (Z.of_nat (String.length l) <= LINE_LIMIT)%Z) ls ->
  texts (frames (Some LINE_LIMIT) (concat (wire <$> ls))) = ls.
Proof.
  intros Hls Hb. rewrite <- (texts_written ls) at 2 by done. unfold frames. rewrite split_written by done. clear Hls.
  induction Hb as [|l ls Hl _ IH]; [done|]. cbn [fmap list_fmap cut fits]. rewrite length_chars.
  rewrite (proj2 (Z.leb_le _ _)) by done. cbn [texts]. destruct (nonempty _); [f_equal|]; exact IH.
Qed.

(** C13: One message, one frame. Whatever the peers of a sidecar session write, torn lines, blank lines,
    stray blanks and text that is no JSON included, and however the event loop interleaves
    them: every line the gateway sends either of them is a single frame, so that a peer that
    reads its stream line by line receives exactly the messages the gateway sent it, in their
    order, none split, merged or smuggled inside another; a peer that bounds its frames as
    the gateway does, another gateway in a chain, say, receives the same as long as they fit. *)
Theorem one_frame_per_message `{Regex} g command proc stdin client upstream turns w r w' :
  sidecar_run g command (Ok proc) stdin client upstream turns w = Some (r, w') -> trace w = [] ->
  forall d, Forall framed (lines_to d (trace w')) /\ texts (frames None (written d (trace w'))) = lines_to d (trace w') /\
    (Forall (fun l => (Z.of_nat (String.length l) <= LINE_LIMIT)%Z) (lines_to d (trace w')) ->
     texts (frames (Some LINE_LIMIT) (written d (trace w'))) = lines_to d (trace w')).
Proof.
  unfold sidecar_run, transport_init, require. destruct command as [|c0 command]; [intros [= _ <-]; by intros -> []|]. cbn [bool_decide decide].
  set (cs := frames (open_client_reader stdin) client). set (us := frames (Some LINE_LIMIT) upstream). intros Hrun Hw.
  assert (Forall framed (texts cs) /\ Forall framed (texts us)) as [Hcs Hus] by (split; apply texts_framed).
  cbn [mbind result_bind] in Hrun. rewrite bool_decide_eq_true_2 in Hrun by done. cbn in Hrun. unfold stdio_run in Hrun.
  apply bind_Some in Hrun as (o & Ho & Heq).
  destruct (session_acts g cs us (on_start g (c0 :: command) w).2 turns) as (acts & Hgw & Hc & Hu).
  set (s := fold_left _ turns _) in *.
  assert (forall d, Forall framed (handled d acts)) as Hacts.
  { intros []; [destruct (pump_inv_prefix _ _ _ _ Hc) as [k Hk]; rewrite Hk in Hcs; by apply Forall_app in Hcs as [? _]
               |destruct (pump_inv_prefix _ _ _ _ Hu) as [k Hk]; rewrite Hk in Hus; by apply Forall_app in Hus as [? _]]. }
  assert (w' = (on_stop (on_upstream_exit (shutdown_upstream (Some proc)).2 (gw s)).2).2) as -> by (by injection Heq).
  assert (emits sends_framed w (on_stop (on_upstream_exit (shutdown_upstream (Some proc)).2 (gw s)).2).2) as (evs & Ht & Hevs).
  { etrans; [apply (on_start_framed g (c0 :: command) w)|]. rewrite Hgw. etrans; [by apply performs_framed|].
    etrans; [|exact (quiet_framed on_stop (emit_quiet _ _) _)]. exact (quiet_framed (on_upstream_exit _) (emit_quiet _ _) _). }
  rewrite Hw in Ht. cbn [app] in Ht. rewrite Ht. intros d. pose proof (lines_framed d evs Hevs) as Hl. split; [done|].
  split; [by apply texts_written|]. by apply texts_written_bounded.
Qed.

#[local] Existing Instance literal_regex.
(** A client that talks to the demonstration gateway: a call it may make, a blank line, stray text. *)
Definition demo_lines : bytes := wire (encode_msg (tool_call 1 "mail.send")) ++ wire "  " ++ wire "  not json " ++ chars "torn".
Definition demo_child : Proc := {| returncode := None; on_terminate := Some 0%Z; on_kill := (-9)%Z |}.
Definition demo_sidecar : World :=
  match sidecar_run demo_gateway ["server"] (Ok demo_child) PipeLike demo_lines [] (repeat client_to_upstream 6) demo_start with
  | Some (_, w) => w | None => demo_start end.

Lemma one_frame_per_message_witness :
  List.tl (lines_to client_to_upstream (trace demo_sidecar)) = ["not json"; "torn"] /\
  texts (frames None (written client_to_upstream (trace demo_sidecar))) = lines_to client_to_upstream (trace demo_sidecar).
Proof.
  split; [vm_compute; reflexivity|].
  refine (proj1 (proj2 (one_frame_per_message demo_gateway ["server"] demo_child PipeLike demo_lines [] (repeat client_to_upstream 6)
    demo_start (Ok 0%Z) demo_sidecar _ _ client_to_upstream))); vm_compute; reflexivity.
Defined.

(** * Observations *)

(** A child that cannot be launched is an exception before anything is recorded. *)
Lemma failed_launch_unrecorded `{Regex} g c command e stdin client upstream turns w :
  sidecar_run g (c :: command) (Err e) stdin client upstream turns w = Some (Err e, w).
Proof. reflexivity. Qed.
