(* ===== verification/Upstream.v ===== *)
(** The upstream of an HTTP session: [SubprocessUpstream] of [transports/upstream.py] as an
    object, from its launch to its shutdown, with the callbacks its pump makes in between. *)
From S2P Require Import Prelude PyVal Json Spool Transports.

(** * The object *)

(** [u_proc] and [u_pump] are [_proc] and [_pump]: the process, and what its standard output
    still holds while the pump runs. [u_calls]: the callbacks made; [u_signals]: the signals
    sent. *)
Record SubprocessUpstream := {
  u_command : list string;
  u_proc : option Proc;
  u_pump : option (list read);
  u_calls : list callback;
  u_signals : list signal;
}.

Definition subprocess_init (command : list string) : result SubprocessUpstream :=
  c ← transport_init command; Ok {| u_command := c; u_proc := None; u_pump := None; u_calls := []; u_signals := [] |}.

(** [start]: [launched] is what creating the process gives, [stdout] what it will write. *)
Definition subprocess_start (launched : result Proc) (stdout : bytes) (u : SubprocessUpstream) : result SubprocessUpstream :=
  p ← launched;
  Ok {| u_command := u_command u; u_proc := Some p; u_pump := Some (frames (Some LINE_LIMIT) stdout);
        u_calls := u_calls u; u_signals := u_signals u |}.

Definition set_pump (p : option (list read)) (cs : list callback) (u : SubprocessUpstream) : SubprocessUpstream :=
  {| u_command := u_command u; u_proc := u_proc u; u_pump := p; u_calls := u_calls u ++ cs; u_signals := u_signals u |}.

(** One turn of [_pump_stdout]; [exit_code] is what [wait] gives at the end of the stream. *)
Definition pump_turn (exit_code : Z) (u : SubprocessUpstream) : SubprocessUpstream :=
  match u_pump u with
  | None | Some [] => u
  | Some (Line raw :: rest) => set_pump (Some rest) (if nonempty (frame_text raw) then [OnLine (frame_text raw)] else []) u
  | Some (Overrun :: _) => set_pump None [OnExit None] u
  | Some (Eof :: _) => set_pump None [OnExit (Some exit_code)] u
  end.

(** [shutdown]: the pump is cancelled first; then the process is stopped. *)
Definition subprocess_shutdown (u : SubprocessUpstream) : option Z * SubprocessUpstream :=
  let '(signals, rc) := shutdown_upstream (u_proc u) in
  (rc, {| u_command := u_command u;
          u_proc := (fun p => {| returncode := rc; on_terminate := on_terminate p; on_kill := on_kill p |}) <$> u_proc u;
          u_pump := None; u_calls := u_calls u; u_signals := u_signals u ++ signals |}).

Definition subprocess_send (line : string) (u : SubprocessUpstream) : result bytes := send (u_proc u) line.

(** What can happen to it once it has started. *)
Inductive life := PumpTurn | ShutDown.
Definition live (exit_code : Z) (u : SubprocessUpstream) (e : life) : SubprocessUpstream :=
  match e with PumpTurn => pump_turn exit_code u | ShutDown => (subprocess_shutdown u).2 end.
Definition lifetime (exit_code : Z) (u : SubprocessUpstream) (es : list life) : SubprocessUpstream := fold_left (live exit_code) es u.

(** * What its session hears *)

(** What the pump has said, and what it has still to say, is the output of the whole. *)
Definition hears (exit_code : Z) (whole : list callback) (u : SubprocessUpstream) : Prop :=
  match u_pump u with
  | Some rest => u_calls u ++ pump_stdout exit_code rest = whole
  | None => u_calls u `prefix_of` whole
  end.

Lemma live_hears exit_code whole u e : hears exit_code whole u -> hears exit_code whole (live exit_code u e).
Proof.
  unfold hears. intros Hu. destruct e; cbn [live].
  - unfold pump_turn. destruct (u_pump u) as [[|[raw| |] rest]|] eqn:Hp; cbn [set_pump u_pump u_calls]; rewrite ?Hp.
    + done.
    + rewrite <- Hu, <- (assoc_L (++)). cbn [pump_stdout]. by destruct (nonempty (frame_text raw)).
    + rewrite <- Hu. cbn [pump_stdout]. reflexivity.
    + rewrite <- Hu. cbn [pump_stdout]. reflexivity.
    + done.
  - unfold subprocess_shutdown. destruct (shutdown_upstream (u_proc u)). cbn [snd u_pump u_calls].
    destruct (u_pump u); [|done]. by eexists.
Qed.

Lemma lifetime_hears exit_code whole u es : hears exit_code whole u -> hears exit_code whole (lifetime exit_code u es).
Proof. revert u. induction es as [|e es IH]; intros u Hu; [done|]. by apply IH, live_hears. Qed.

(** A started upstream tells its session a prefix of what it writes, framed: each line that is
    not blank, in order, and the end at most once and last. *)
Lemma session_hears_prefix launched stdout u u' exit_code es : subprocess_start launched stdout u = Ok u' -> u_calls u = [] ->
  u_calls (lifetime exit_code u' es) `prefix_of` pump_stdout exit_code (frames (Some LINE_LIMIT) stdout).
Proof.
  intros (p & _ & [= <-])%bind_ok Hc. set (u' := {| u_command := _ |}).
  assert (hears exit_code (pump_stdout exit_code (frames (Some LINE_LIMIT) stdout)) u') as Hh by (unfold hears; cbn; by rewrite Hc).
  apply (lifetime_hears _ _ _ es) in Hh. unfold hears in Hh. destruct (u_pump _); [|done]. rewrite <- Hh. by eexists.
Qed.

(** After a shutdown the session hears nothing, writes are refused, and no signal is sent twice. *)
Lemma stopped_stays exit_code u es : u_pump u = None -> (forall p, u_proc u = Some p -> returncode p <> None) ->
  u_calls (lifetime exit_code u es) = u_calls u /\ u_signals (lifetime exit_code u es) = u_signals u /\
  u_proc (lifetime exit_code u es) = u_proc u.
Proof.
  revert u. induction es as [|e es IH]; intros u Hp Hr; [done|]. cbn [lifetime fold_left]. fold (lifetime exit_code (live exit_code u e) es).
  assert (live exit_code u e = u) as ->; [|by apply IH]. destruct e; cbn [live]; [unfold pump_turn; by rewrite Hp|].
  unfold subprocess_shutdown, shutdown_upstream. destruct u as [c [[r t k]|] pu ca si]; cbn in *; subst pu; [|by rewrite app_nil_r].
  specialize (Hr _ eq_refl). destruct r as [r|]; [|done]. cbn. by rewrite app_nil_r.
Qed.

Lemma silent_after_shutdown exit_code u es line : let u1 := (subprocess_shutdown u).2 in
  u_calls (lifetime exit_code u1 es) = u_calls u /\ u_signals (lifetime exit_code u1 es) = u_signals u1 /\
  subprocess_send line (lifetime exit_code u1 es) = raise TransportError "upstream server is not running".
Proof.
  intros u1. assert (u_pump u1 = None /\ u_calls u1 = u_calls u /\ forall p, u_proc u1 = Some p -> returncode p <> None) as (Hp & Hc & Hr).
  { subst u1. unfold subprocess_shutdown. pose proof (shutdown_signals) as Hs. destruct (u_proc u) as [p|] eqn:Hu.
    - specialize (Hs p). destruct (shutdown_upstream (Some p)) as [ss rc]. destruct Hs as ([z ->] & _). split_and!; try done.
      by intros ? [= <-].
    - by cbn. }
  destruct (stopped_stays exit_code u1 es Hp Hr) as (H1 & H2 & H3). split_and!; [congruence|done|].
  unfold subprocess_send. rewrite H3. by apply send_refused.
Qed.
