(* ===== verification/Events.v ===== *)
(** What the audit trail says: the event names of [audit/events.py], and its convention that
    events record decisions and counts, never payloads. *)
From S2P Require Import Prelude PyVal Json Session Rules Engine Redaction Approvals Protocol Pipeline Gateway GatewayProofs Safety.

(** * Names *)
Definition GATEWAY_START : string := "gateway_start".
Definition GATEWAY_STOP : string := "gateway_stop".
Definition UPSTREAM_EXIT : string := "upstream_exit".
Definition PASSTHROUGH_REQUEST : string := "passthrough_request".
Definition PASSTHROUGH_OPAQUE : string := "passthrough_opaque".
Definition UPSTREAM_REQUEST : string := "upstream_request".
Definition TOOL_CALL_ALLOWED : string := "tool_call_allowed".
Definition TOOL_CALL_BLOCKED : string := "tool_call_blocked".
Definition TOOL_CALL_DENIED_SESSION_SUSPENDED : string := "tool_call_denied_session_suspended".
Definition SESSION_TAINTED : string := "session_tainted".
Definition SESSION_SUSPENDED : string := "session_suspended".
Definition ANOMALY_DETECTED : string := "anomaly_detected".
Definition APPROVAL_REQUESTED : string := "approval_requested".
Definition FAIL_OPEN_ENABLED : string := "fail_open_enabled".
Definition STAGE_ERROR_FAIL_OPEN : string := "stage_error_fail_open".
Definition REDACTION_ERROR_FAIL_OPEN : string := "redaction_error_fail_open".
Definition TOOL_RESULT : string := "tool_result".
Definition TOOL_RESULT_QUARANTINED : string := "tool_result_quarantined".
Definition TOOL_RESULT_REDACTED : string := "tool_result_redacted".
Definition TOOL_RESULT_REDACTION_FAILED : string := "tool_result_redaction_failed".
Definition TOOLS_LIST_FILTERED : string := "tools_list_filtered".
Definition TRANSPORT_OVERRUN : string := "transport_line_overrun".

(** The names a gateway session can record, by where they come from. *)
Definition handler_events : list string :=
  [PASSTHROUGH_REQUEST; PASSTHROUGH_OPAQUE; UPSTREAM_REQUEST; TOOL_CALL_ALLOWED; TOOL_CALL_BLOCKED;
   TOOL_CALL_DENIED_SESSION_SUSPENDED; SESSION_TAINTED; SESSION_SUSPENDED; ANOMALY_DETECTED; APPROVAL_REQUESTED;
   STAGE_ERROR_FAIL_OPEN; REDACTION_ERROR_FAIL_OPEN; TOOL_RESULT; TOOL_RESULT_QUARANTINED; TOOL_RESULT_REDACTED;
   TOOL_RESULT_REDACTION_FAILED; TOOLS_LIST_FILTERED].

Definition known_name (e : event) : Prop := match e with Audit n _ => n ∈ handler_events | _ => True end.

(** * Worlds an auditor cannot tell apart *)

(** What a world has recorded: everything but the lines it sent. *)
Definition records (w : World) : list event := List.filter (fun e => negb (is_line e)) (trace w).

Record alike (w1 w2 : World) : Prop := {
  al_session : session w1 = session w2;
  al_vault : w_vault w1 = w_vault w2;
  al_asked : asked w1 = asked w2;
  al_since : since_last w1 = since_last w2;
  al_assessed : assessed w1 = assessed w2;
  al_tools : pending_tools_list w1 = pending_tools_list w2;
  al_records : records w1 = records w2;
}.

#[export] Instance alike_equivalence : Equivalence alike.
Proof. split; [by intros w|by intros w1 w2 []; split|intros w1 w2 w3 [] []; split; congruence]. Qed.

Ltac alike_tac := intros ? ? []; split; unfold records in *; cbn; congruence.

(** Two handlers that end alike, from two worlds; from any worlds that are alike. *)
Definition ends_alike {A} (m1 m2 : G A) (w1 w2 : World) : Prop := (m1 w1).1 = (m2 w2).1 /\ alike (m1 w1).2 (m2 w2).2.
Definition indistinct {A} (m1 m2 : G A) : Prop := forall w1 w2, alike w1 w2 -> ends_alike m1 m2 w1 w2.

Section Indistinct.
Implicit Types (w : World).

Lemma ind_ret {A} (a : A) : indistinct (mret a) (mret a).
Proof. by intros w1 w2 Hw. Qed.
Lemma ind_lift {A} (r : result A) : indistinct (lift r) (lift r).
Proof. by intros w1 w2 Hw. Qed.
Lemma ind_throw {A} e : indistinct (@throw World A e) (throw e).
Proof. by intros w1 w2 Hw. Qed.
Lemma ends_bind {A B} (m1 m2 : G A) (f1 f2 : A -> G B) w1 w2 : ends_alike m1 m2 w1 w2 ->
  (forall a, (m1 w1).1 = Ok a -> indistinct (f1 a) (f2 a)) -> ends_alike (m1 ≫= f1) (m2 ≫= f2) w1 w2.
Proof.
  unfold ends_alike. intros [Hr Hs] Hf. unfold mbind, M_bind.
  destruct (m1 w1) as [r1 w1'], (m2 w2) as [r2 w2']. cbn in *. subst r2. destruct r1; [by apply Hf|done].
Qed.
Lemma ind_bind {A B} (m1 m2 : G A) (f1 f2 : A -> G B) : indistinct m1 m2 -> (forall a, indistinct (f1 a) (f2 a)) ->
  indistinct (m1 ≫= f1) (m2 ≫= f2).
Proof. intros Hm Hf w1 w2 Hw. apply ends_bind; auto. Qed.
Lemma ind_get {B} (f1 f2 : World -> G B) : (forall w1 w2, alike w1 w2 -> indistinct (f1 w1) (f2 w2)) ->
  indistinct (get ≫= f1) (get ≫= f2).
Proof. intros Hf w1 w2 Hw. exact (Hf w1 w2 Hw w1 w2 Hw). Qed.
Lemma ind_modify (f1 f2 : World -> World) : (forall w1 w2, alike w1 w2 -> alike (f1 w1) (f2 w2)) -> indistinct (modify f1) (modify f2).
Proof. intros Hf w1 w2 Hw. split; [done|]. by apply Hf. Qed.
Lemma ind_when b (m1 m2 : G unit) : indistinct m1 m2 -> indistinct (when b m1) (when b m2).
Proof. destruct b; [done|]. intros _. apply ind_ret. Qed.

Lemma alike_add w1 w2 e : alike w1 w2 -> alike (add_event e w1) (add_event e w2).
Proof. intros []. split; cbn; try done. unfold records in *. cbn. rewrite !List.filter_app. by f_equal. Qed.

(** A line sent is not recorded: whatever the lines are, the worlds stay alike. *)
Lemma alike_send w1 w2 l1 l2 : alike w1 w2 -> alike (add_event (ToClient l1) w1) (add_event (ToClient l2) w2).
Proof. intros []. split; cbn; try done. unfold records in *. cbn. by rewrite !List.filter_app, !app_nil_r. Qed.

Lemma ind_emit n fs : indistinct (emit n fs) (emit n fs).
Proof. apply ind_modify. intros w1 w2. apply alike_add. Qed.
Lemma ind_emit_dict n fs : indistinct (emit_dict n fs) (emit_dict n fs).
Proof. apply ind_modify. intros w1 w2. apply alike_add. Qed.
Lemma ind_send_client l1 l2 : indistinct (send_client l1) (send_client l2).
Proof. apply ind_modify. intros w1 w2. apply alike_send. Qed.
Lemma ind_send_upstream l : indistinct (send_upstream l) (send_upstream l).
Proof. apply ind_modify. intros w1 w2. apply alike_add. Qed.
Lemma ind_persist : indistinct persist persist.
Proof. apply ind_get. intros w1 w2 Hw. rewrite (al_session _ _ Hw). apply ind_modify. intros ? ?. apply alike_add. Qed.
End Indistinct.

(** [indistinct_tac]: decompose two handlers of the same shape, reading equal states equally. *)
Ltac same_reads Hw := rewrite ?(al_session _ _ Hw), ?(al_vault _ _ Hw), ?(al_asked _ _ Hw), ?(al_since _ _ Hw),
  ?(al_assessed _ _ Hw), ?(al_tools _ _ Hw).
Ltac indistinct_step :=
  lazymatch goal with
  | |- indistinct (mbind _ get) _ => let Hw := fresh in apply ind_get; intros ? ? Hw; same_reads Hw; clear Hw
  | |- indistinct (mbind _ _) _ => apply ind_bind; [|intros ?]
  | |- indistinct (when _ _) _ => apply ind_when
  | |- indistinct (mret _) _ => apply ind_ret
  | |- indistinct (modify _) _ => apply ind_modify; alike_tac
  | |- indistinct (match _ with _ => _ end) _ => case_match
  | |- indistinct _ _ => solve [auto with indistinct]
  end.
Ltac indistinct_tac := repeat indistinct_step.

Create HintDb indistinct.
#[export] Hint Constants Opaque : indistinct.
#[export] Hint Resolve ind_ret ind_lift ind_throw ind_emit ind_emit_dict ind_send_client ind_send_upstream
  ind_persist : indistinct.

(** * The handlers *)
Section Handlers.
Context `{Regex} (g : SecurityGateway).

Lemma ind_audit_suspended : indistinct audit_suspended audit_suspended.
Proof. unfold audit_suspended. indistinct_tac. Qed.
Lemma ind_record_risk ev d : indistinct (record_risk g ev d) (record_risk g ev d).
Proof. unfold record_risk. indistinct_tac. Qed.
#[local] Hint Resolve ind_audit_suspended ind_record_risk : indistinct.
Lemma ind_anomaly last force : indistinct (run_anomaly g last force) (run_anomaly g last force).
Proof. unfold run_anomaly. indistinct_tac. Qed.
Lemma ind_track id tool action disp spec : indistinct (track id tool action disp spec) (track id tool action disp spec).
Proof. unfold track. indistinct_tac. Qed.
Lemma ind_resolve id : indistinct (resolve id) (resolve id).
Proof. unfold resolve. indistinct_tac. Qed.
Lemma ind_taint raw tool : indistinct (taint_if_source g raw tool) (taint_if_source g raw tool).
Proof. unfold taint_if_source. indistinct_tac. Qed.
Lemma ind_score_denial raw tool o d : indistinct (score_denial g raw tool o d) (score_denial g raw tool o d).
Proof. unfold score_denial. indistinct_tac. Qed.
Lemma ind_run_pipeline raw tool arguments : indistinct (run_pipeline g raw tool arguments) (run_pipeline g raw tool arguments).
Proof.
  intros w1 w2 Hw. unfold ends_alike, run_pipeline. same_reads Hw. destruct (pipeline_run _ _ _) as [[o|e] c]; (split; [done|]); clear -Hw;
    revert w1 w2 Hw; alike_tac.
Qed.
#[local] Hint Resolve ind_anomaly ind_track ind_resolve ind_taint ind_score_denial ind_run_pipeline : indistinct.

Lemma ind_tool_call raw : indistinct (handle_tool_call g raw) (handle_tool_call g raw).
Proof. unfold handle_tool_call, handle_denial, forward_allowed. indistinct_tac. Qed.
#[local] Hint Resolve ind_tool_call : indistinct.
Lemma ind_client_line line : indistinct (on_client_line g line) (on_client_line g line).
Proof. unfold on_client_line, dispatch_client_line. indistinct_tac. Qed.

Lemma ind_tools_list raw : indistinct (deliver_tools_list g raw) (deliver_tools_list g raw).
Proof. unfold deliver_tools_list. indistinct_tac. Qed.

(** ** Results that differ in their payload only *)

(** What the redaction of two payloads comes to is the same for an auditor: the same findings
    and vault, or the same failure. *)
Definition same_findings (r1 r2 : result (val * (list Finding * vault))) : Prop :=
  match r1, r2 with Ok (_, x1), Ok (_, x2) => x1 = x2 | Err e1, Err e2 => e1 = e2 | _, _ => False end.

Record same_but_payload (p : PendingCall) (raw1 raw2 : pydict) : Prop := {
  sp_id : msg_id raw1 = msg_id raw2;
  sp_size : result_size_bytes raw1 = result_size_bytes raw2;
  sp_error : result_is_error raw1 = result_is_error raw2;
  sp_findings : pc_disposition p = DispRedact -> result_is_error raw1 = false ->
    forall svc spec v, redaction g = Some svc -> pc_redaction p = Some spec ->
    same_findings (@svc_redact svc (opt_val (dget "result" raw1)) spec v) (@svc_redact svc (opt_val (dget "result" raw2)) spec v);
}.

Lemma ind_withhold raw1 raw2 p n reason : msg_id raw1 = msg_id raw2 ->
  indistinct (withhold_unredactable raw1 p n reason) (withhold_unredactable raw2 p n reason).
Proof. intros Hid. unfold withhold_unredactable. rewrite Hid. indistinct_tac. Qed.

Lemma ind_redacted raw1 raw2 p n : same_but_payload p raw1 raw2 -> pc_disposition p = DispRedact -> result_is_error raw1 = false ->
  indistinct (deliver_redacted g raw1 p n) (deliver_redacted g raw2 p n).
Proof.
  intros [Hid _ _ Hf] Hd He. unfold deliver_redacted. specialize (Hf Hd He).
  destruct (redaction g) as [svc|]; [|by apply ind_withhold]. destruct (pc_redaction p) as [spec|]; [|by apply ind_withhold].
  apply ind_get. intros w1 w2 Hw. rewrite (al_vault _ _ Hw). specialize (Hf svc spec (w_vault w2) eq_refl eq_refl). clear Hw.
  destruct (svc_redact _ _ _) as [[x1 [f1 v1]]|e1], (svc_redact _ _ _) as [[x2 [f2 v2]]|e2]; cbn in Hf; try done.
  - injection Hf as <- <-. rewrite Hid. indistinct_tac.
  - subst e2. case_bool_decide; [rewrite Hid; indistinct_tac|by apply ind_withhold].
Qed.

Lemma ind_result raw1 raw2 p : same_but_payload p raw1 raw2 -> indistinct (deliver_tool_result g raw1 p) (deliver_tool_result g raw2 p).
Proof.
  intros Hs. pose proof Hs as [Hid Hn He _]. unfold deliver_tool_result. rewrite Hn, He.
  destruct (result_is_error raw2) eqn:Her; cbn [negb andb]; [rewrite Hid; indistinct_tac|].
  case_bool_decide; [unfold deliver_quarantined; rewrite Hid; indistinct_tac|].
  case_bool_decide; [by apply ind_redacted; [| |congruence]|]. rewrite Hid. indistinct_tac.
Qed.
End Handlers.

(** * Whole sessions *)
Section Sessions.
Context `{Regex} (g : SecurityGateway).

(** Two lines of the upstream that answer the same pending call with other payloads. *)
Definition other_payload (w : World) (line1 line2 : string) : Prop :=
  exists raw1 raw2 p, decode_line line1 = Ok (Some raw1) /\ decode_line line2 = Ok (Some raw2) /\
    is_response raw1 = true /\ is_response raw2 = true /\ hashable (msg_id raw1) = true /\
    pget (msg_id raw1) (pending (session w)) = Some p /\ same_but_payload g p raw1 raw2.

(** Two courses of a session that differ in such payloads only. *)
Inductive variants : World -> list input -> list input -> Prop :=
  | va_nil w : variants w [] []
  | va_same w i is1 is2 : variants (step g w i) is1 is2 -> variants w (i :: is1) (i :: is2)
  | va_payload w line1 line2 is1 is2 : other_payload w line1 line2 ->
      variants (step g w (UpstreamLine line1)) is1 is2 ->
      variants w (UpstreamLine line1 :: is1) (UpstreamLine line2 :: is2).

Lemma same_payload_refl p raw : same_but_payload g p raw raw.
Proof. split; try done. intros _ _ svc spec v _ _. unfold same_findings. by destruct (svc_redact _ _ _) as [[? ?]|]. Qed.

(** One line of the upstream, in worlds that are alike. *)
Lemma ind_upstream_line line : indistinct (on_upstream_line g line) (on_upstream_line g line).
Proof.
  unfold on_upstream_line, dispatch_upstream_line.
  pose proof ind_resolve as Hr. pose proof (ind_tools_list g) as Ht. pose proof (ind_result g) as Hd. pose proof same_payload_refl.
  indistinct_tac.
Qed.

Lemma resolved w id p q : hashable id = true -> pget id (pending (session w)) = Some p -> (resolve id w).1 = Ok q -> q = Some p.
Proof.
  intros Hh Hp. unfold resolve, resolve_pending, get, lift, modify, mret, M_ret, mbind, M_bind.
  destruct (pending (session w)) eqn:Hd; [done|]. rewrite Hh, Hp. by intros [= <-].
Qed.

Lemma payload_alike w1 w2 line1 line2 : alike w1 w2 -> other_payload w1 line1 line2 ->
  alike (on_upstream_line g line1 w1).2 (on_upstream_line g line2 w2).2.
Proof.
  intros Hw (raw1 & raw2 & p & Hd1 & Hd2 & Hr1 & Hr2 & Hh & Hp & Hs).
  unfold on_upstream_line, dispatch_upstream_line. rewrite Hd1, Hd2.
  repeat match goal with |- context [lift (Ok (Some ?raw)) ≫= ?f] => change (lift (Ok (Some raw)) ≫= f) with (f (Some raw)) end.
  cbv beta iota. rewrite Hr1, Hr2, <- (sp_id _ _ _ _ Hs).
  apply ends_bind; [|intros [] _; apply ind_persist].
  apply ends_bind; [by apply ind_resolve|]. intros q Hq. apply (resolved w1 _ p) in Hq as ->; [|done..]. by apply ind_result.
Qed.

Lemma step_alike w1 w2 i : alike w1 w2 -> alike (step g w1 i) (step g w2 i).
Proof. intros Hw. destruct i; [by apply ind_client_line|by apply ind_upstream_line]. Qed.

Lemma variants_alike w1 w2 is1 is2 : variants w1 is1 is2 -> alike w1 w2 ->
  alike (fold_left (step g) is1 w1) (fold_left (step g) is2 w2).
Proof.
  intros Hv. revert w2. induction Hv as [w|w i is1 is2 _ IH|w line1 line2 is1 is2 Hp _ IH]; intros w2 Hw; [done|..]; cbn; apply IH.
  - by apply step_alike.
  - by apply payload_alike.
Qed.
End Sessions.

(** * Only known names *)
Section Names.
Context `{Regex} (g : SecurityGateway).
Abbreviation named := (keeps (emits known_name)).

Lemma emit_named n fs : n ∈ handler_events -> named (emit n fs).
Proof. intros Hn w. by apply emits_one. Qed.
Lemma emit_dict_named n fs : n ∈ handler_events -> named (emit_dict n fs).
Proof. intros Hn w. by apply emits_one. Qed.
Lemma send_client_named l : named (send_client l).
Proof. intros w. by apply emits_one. Qed.
Lemma send_upstream_named l : named (send_upstream l).
Proof. intros w. by apply emits_one. Qed.
Lemma modify_named f : (forall w, trace (f w) = trace w) -> named (modify f).
Proof. intros Hf w. apply emits_same, Hf. Qed.
Lemma persist_named : named persist.
Proof. intros w. by apply emits_one. Qed.
Lemma run_pipeline_named raw tool args : named (run_pipeline g raw tool args).
Proof. intros w. unfold run_pipeline. by destruct (pipeline_run _ _ _) as [[?|?] ?]; apply emits_same. Qed.
#[local] Hint Resolve send_client_named send_upstream_named persist_named run_pipeline_named : keeps.
#[local] Hint Extern 1 (keeps (emits known_name) (emit _ _)) => apply emit_named, (bool_decide_unpack _); exact I : keeps.
#[local] Hint Extern 1 (keeps (emits known_name) (emit_dict _ _)) => apply emit_dict_named, (bool_decide_unpack _); exact I : keeps.
#[local] Hint Extern 1 (keeps (emits known_name) (modify _)) => by apply modify_named : keeps.

Lemma anomaly_named last force : named (run_anomaly g last force).
Proof. unfold run_anomaly, record_risk, audit_suspended. keep_tac. Qed.
#[local] Hint Resolve anomaly_named : keeps.
Lemma tool_call_named raw : named (handle_tool_call g raw).
Proof. unfold handle_tool_call, handle_denial, score_denial, forward_allowed, taint_if_source, track, record_risk, audit_suspended. keep_tac. Qed.
Lemma tool_result_named raw p : named (deliver_tool_result g raw p).
Proof.
  unfold deliver_tool_result, deliver_quarantined, deliver_redacted, withhold_unredactable, record_risk, audit_suspended. keep_tac.
Qed.
Lemma tools_list_named raw : named (deliver_tools_list g raw).
Proof. unfold deliver_tools_list. keep_tac. Qed.
#[local] Hint Resolve tool_call_named tool_result_named tools_list_named : keeps.

(** Whatever a session handles, it records under the names of the schema. *)
Lemma step_named w i : emits known_name w (step g w i).
Proof.
  destruct i as [line|line]; cbn [step]; revert w.
  - change (named (on_client_line g line)). unfold on_client_line, dispatch_client_line. keep_tac.
  - change (named (on_upstream_line g line)). unfold on_upstream_line, dispatch_upstream_line, resolve. keep_tac.
Qed.

Lemma session_named w ins : emits known_name w (fold_left (step g) ins w).
Proof. revert w. induction ins as [|i ins IH]; intros w; [reflexivity|]. cbn. etrans; [apply step_named|apply IH]. Qed.
End Names.


#[local] Existing Instance literal_regex.
(** The call to [db.read] is quarantined; the upstream answers it with one row or another. *)
Definition row (s : string) : pydict := tool_reply 1 (VStr s).
Definition one_row : list input := [ClientLine (encode_msg (tool_call 1 "db.read")); UpstreamLine (encode_msg (row "alice"))].
Definition other_row : list input := [ClientLine (encode_msg (tool_call 1 "db.read")); UpstreamLine (encode_msg (row "bobby"))].

