(* ===== verification/AuditIndex.v ===== *)
(** The console's derived index: [audit/index.py], and the SIEM mappings of
    [audit/ocsf.py]. The tables are values; an [events] row is kept as its offset and its
    event, whose columns are read off the event. *)
From S2P Require Import Prelude PyVal Spool.

(** * The index *)
Record SessionRow := {
  session_id : string;
  first_ts : val;
  last_ts : val;
  event_count : Z;
  allowed_count : Z;
  blocked_count : Z;
  row_tainted : bool;
  row_suspended : bool;
  row_risk_score : Z;
  row_risk_level : string;
}.

Record AuditIndex := {
  events : list (nat * pydict);              (* primary key: the spool offset *)
  sessions : list (string * SessionRow);
  meta_next_offset : nat;
}.

Definition index_empty : AuditIndex := {| events := []; sessions := []; meta_next_offset := 0 |}.

(** A value SQLite can bind: no container, no integer beyond 64 bits. *)
Definition bindable (v : val) : bool :=
  match v with
  | VList _ | VDict _ => false
  | VInt z => (- 2 ^ 63 <=? z)%Z && (z <? 2 ^ 63)%Z
  | _ => true
  end.

Definition column (name : string) (ev : pydict) : val := opt_val (dget name ev).

(** The parameters of the [INSERT]; a container raises. *)
Definition bind_row (ev : pydict) : result unit :=
  require (forallb bindable ([column "ts" ev; dget_or "event" (VStr "unknown") ev] ++
    ((fun n => column n ev) <$> ["session_id"; "tool"; "rule"; "action"; "reason"])))
    OtherError "Error binding parameter: type is not supported".

Definition new_row (sid : string) (ts : val) : SessionRow :=
  {| session_id := sid; first_ts := ts; last_ts := ts; event_count := 0; allowed_count := 0; blocked_count := 0;
     row_tainted := false; row_suspended := false; row_risk_score := 0; row_risk_level := "NORMAL" |}.

Definition event_in (name : val) (l : list string) : bool :=
  match name with VStr s => bool_decide (s ∈ l) | _ => false end.

(** [int(v)] of a scored event's number *)
Definition to_int (v : val) : result Z :=
  match num_of v with
  | Some z => Ok z
  | None => match v with
            | VNone | VList _ | VDict _ => raise TypeError "int() argument must be a string or a real number"
            | _ => raise OtherError "session_score: untyped field"
            end
  end.

Definition count_if (b : bool) (n : Z) : Z := if b then (n + 1)%Z else n.

(** The [UPDATE] of [_roll_up] *)
Definition update_row (ev : pydict) (row : SessionRow) : result SessionRow :=
  let name := column "event" ev in
  let ts := column "ts" ev in
  score ← to_int (dget_or "session_score" (VInt (row_risk_score row)) ev);
  Ok {| session_id := session_id row; first_ts := first_ts row;
        last_ts := if truthy ts then ts else last_ts row;
        event_count := (event_count row + 1)%Z;
        allowed_count := count_if (event_in name ["tool_call_allowed"]) (allowed_count row);
        blocked_count := count_if (event_in name ["tool_call_blocked"; "tool_call_denied_session_suspended"])
                           (blocked_count row);
        row_tainted := row_tainted row || event_in name ["session_tainted"];
        row_suspended := row_suspended row || event_in name ["session_suspended"];
        row_risk_score := score;
        row_risk_level := py_str (dget_or "session_level" (VStr (row_risk_level row)) ev) |}.

Definition roll_up (sess : list (string * SessionRow)) (ev : pydict) : result (list (string * SessionRow)) :=
  match column "session_id" ev with
  | VStr (String _ _ as sid) =>
      let row := match aget sid sess with Some r => r | None => new_row sid (column "ts" ev) end in
      row' ← update_row ev row;
      Ok (aset sid row' sess)
  | v => if truthy v then raise OtherError "session_id: untyped field" else Ok sess
  end.

(** [INSERT OR IGNORE]: a known offset is skipped, and so is a row that breaks the
    [NOT NULL] of the event name. *)
Definition insertable (db : AuditIndex) (rec : SpoolRecord) : bool :=
  negb (ahas (r_offset rec) (events db)) && negb (is_none (dget_or "event" (VStr "unknown") (r_event rec))).

Definition ingest_one (st : AuditIndex * nat) (rec : SpoolRecord) : result (AuditIndex * nat) :=
  let '(db, inserted) := st in
  _ ← bind_row (r_event rec);
  if insertable db rec then
    sess ← roll_up (sessions db) (r_event rec);
    Ok ({| events := events db ++ [(r_offset rec, r_event rec)]; sessions := sess;
           meta_next_offset := meta_next_offset db |}, S inserted)
  else Ok (db, inserted).

Definition ingest (db : AuditIndex) (records : list SpoolRecord) : result (AuditIndex * nat) :=
  fold_res ingest_one (db, 0) records.

Definition set_next_offset (n : nat) (db : AuditIndex) : AuditIndex :=
  {| events := events db; sessions := sessions db; meta_next_offset := n |}.

(** The report of a catch-up: inserted, next offset, bad lines, torn tail. *)
Definition catch_up (file : option bytes) (db : AuditIndex) : result (AuditIndex * (nat * nat * nat * bool)) :=
  r ← read_spool file (meta_next_offset db);
  '(db', inserted) ← ingest db (records r);
  Ok (set_next_offset (next_offset r) db', (inserted, next_offset r, bad_lines r, torn_tail r)).

Definition rebuild (file : option bytes) (db : AuditIndex) : result (AuditIndex * (nat * nat * nat * bool)) :=
  catch_up file index_empty.

(** ** Queries *)
Definition col_is (name : string) (o : option string) (ev : pydict) : bool :=
  match o with None => true | Some s => match dget name ev with Some (VStr t) => String.eqb s t | _ => false end end.

Definition matches (sid name tool : option string) (after : option nat) (ascending : bool) (row : nat * pydict) : bool :=
  col_is "session_id" sid row.2
  && match name with None => true
     | Some s => match dget_or "event" (VStr "unknown") row.2 with VStr t => String.eqb s t | _ => false end end
  && col_is "tool" tool row.2
  && match after with None => true | Some a => if ascending then a <? row.1 else row.1 <? a end.

Definition hydrate (row : nat * pydict) : pydict := dset "offset" (VInt (Z.of_nat row.1)) row.2.

Definition query_events (db : AuditIndex) (sid name tool : option string) (after : option nat) (limit : Z)
  (ascending : bool) : list pydict :=
  let leb (x y : nat * pydict) := if ascending then x.1 <=? y.1 else y.1 <=? x.1 in
  let rows := isort leb (List.filter (matches sid name tool after ascending) (events db)) in
  hydrate <$> take (Z.to_nat (Z.max 1 (Z.min limit 1000))) rows.

Definition get_event (db : AuditIndex) (offset : nat) : option pydict :=
  match aget offset (events db) with Some ev => Some (hydrate (offset, ev)) | None => None end.

Definition latest_offset (db : AuditIndex) : nat := fold_right Nat.max 0 (events db).*1.

Definition session_row (r : SessionRow) : list (string * val) :=
  [("session_id", VStr (session_id r)); ("first_ts", first_ts r); ("last_ts", last_ts r);
   ("event_count", VInt (event_count r)); ("allowed_count", VInt (allowed_count r));
   ("blocked_count", VInt (blocked_count r)); ("tainted", VBool (row_tainted r));
   ("suspended", VBool (row_suspended r)); ("risk_score", VInt (row_risk_score r));
   ("risk_level", VStr (row_risk_level r))].

(** [ORDER BY last_ts DESC] of SQLite: a null is smaller than any text. *)
Definition ts_leb (x y : val) : bool :=
  match x, y with
  | VNone, _ => true
  | _, VNone => false
  | x, y => str_leb (py_str x) (py_str y)
  end.

Definition page (limit : Z) : nat := Z.to_nat (Z.max 1 (Z.min limit 1000)).

Definition list_sessions (db : AuditIndex) (limit : Z) : list val :=
  VObj <$> (session_row <$> take (page limit) (isort (fun x y => ts_leb (last_ts y) (last_ts x)) (snd <$> sessions db))).

Definition session_detail (db : AuditIndex) (sid : string) (limit : Z) : option val :=
  r ← aget sid (sessions db);
  Some (VObj (session_row r ++ [("events", VList (VDict <$> query_events db (Some sid) None None None limit true))])).

Definition approval_history (db : AuditIndex) (limit : Z) : list pydict :=
  query_events db None (Some "approval_requested") None None limit false.

Definition counts_by_event (db : AuditIndex) : list (string * Z) :=
  fold_left (fun d row => let n := py_str (dget_or "event" (VStr "unknown") row.2) in
    aset n (aget_or n 0%Z d + 1)%Z d) (events db) [].

(** * Catching up equals rebuilding *)

(** What ingestion needs of a database: no offset at or after [n] is in it. *)
Definition below (n : nat) (db : AuditIndex) : Prop := forall o, o ∈ akeys (events db) -> o < n.

Lemma ingest_one_acc db k rec : ingest_one (db, k) rec =
  ('(db', n) ← ingest_one (db, 0) rec; Ok (db', k + n)).
Proof.
  unfold ingest_one. destruct (bind_row (r_event rec)) as [u|e]; [|done]. cbn. destruct (insertable db rec); cbn.
  - destruct (roll_up (sessions db) (r_event rec)) as [s|e]; cbn; [|done]. by rewrite Nat.add_1_r.
  - by rewrite Nat.add_0_r.
Qed.

Lemma ingest_acc l db k : fold_res ingest_one (db, k) l =
  ('(db', n) ← fold_res ingest_one (db, 0) l; Ok (db', k + n)).
Proof.
  revert db k. induction l as [|rec l IH]; intros db k; [cbn; by rewrite Nat.add_0_r|].
  cbn [fold_res]. rewrite ingest_one_acc. destruct (ingest_one (db, 0) rec) as [[d n]|e]; cbn; [|done].
  rewrite (IH d (k + n)), (IH d n). destruct (fold_res ingest_one (d, 0) l) as [[d' n']|e]; cbn; [|done].
  by rewrite Nat.add_assoc.
Qed.

Lemma ingest_app db l1 l2 : ingest db (l1 ++ l2) =
  ('(db1, n1) ← ingest db l1; '(db2, n2) ← ingest db1 l2; Ok (db2, n1 + n2)).
Proof.
  unfold ingest. rewrite fold_res_app. destruct (fold_res ingest_one (db, 0) l1) as [[d n]|e]; [|done]. cbn.
  by rewrite ingest_acc.
Qed.

(** The watermark is data beside the tables. *)
Lemma ingest_one_meta db rec n : ingest_one (set_next_offset n db, 0) rec =
  ('(db', k) ← ingest_one (db, 0) rec; Ok (set_next_offset n db', k)).
Proof.
  unfold ingest_one. destruct (bind_row (r_event rec)) as [u|e]; [|done]. cbn.
  unfold insertable. cbn [events set_next_offset].
  destruct (negb (ahas (r_offset rec) (events db)) && _); cbn; [|reflexivity].
  by destruct (roll_up (sessions db) (r_event rec)).
Qed.

Lemma ingest_meta db l n : ingest (set_next_offset n db) l =
  ('(db', k) ← ingest db l; Ok (set_next_offset n db', k)).
Proof.
  unfold ingest. revert db. induction l as [|rec l IH]; intros db; [done|]. cbn [fold_res].
  rewrite ingest_one_meta. destruct (ingest_one (db, 0) rec) as [[d k]|e]; cbn; [|done].
  rewrite (ingest_acc l _ k), (ingest_acc l d k), IH. by destruct (fold_res ingest_one (d, 0) l) as [[? ?]|?].
Qed.

Lemma ingest_keeps_meta db l db' n : ingest db l = Ok (db', n) -> meta_next_offset db' = meta_next_offset db.
Proof.
  unfold ingest. revert db n. induction l as [|rec l IH]; intros db n; [by intros [= <- _]|]. cbn [fold_res].
  intros ([d k] & Ho & Hf)%bind_ok. rewrite ingest_acc in Hf. apply bind_ok in Hf as ([d' k'] & Hf & [= <- <-]).
  rewrite (IH _ _ Hf). revert Ho. unfold ingest_one. intros (u & _ & H)%bind_ok. destruct (insertable db rec).
  - apply bind_ok in H as (s & _ & [= <- <-]). done.
  - by injection H as <- <-.
Qed.

(** The bytes of a spool; one that is not there yet has none. *)
Definition contents (file : option bytes) : bytes := default [] file.
(** The index as a rebuild leaves it. *)
Definition rebuilt (file : option bytes) : result AuditIndex := '(db, _) ← rebuild file index_empty; Ok db.
(** An index file that some earlier state of the spool explains. *)
Definition derived (content : bytes) (db : AuditIndex) : Prop :=
  exists c more, content = c ++ more /\ rebuilt (Some c) = Ok db.

Lemma rebuilt_none : rebuilt None = rebuilt (Some []).
Proof. reflexivity. Qed.

Lemma rebuilt_tables content : rebuilt (Some content) =
  (r ← read_spool (Some content) 0; '(db, _) ← ingest index_empty (records r); Ok (set_next_offset (next_offset r) db)).
Proof.
  unfold rebuilt, rebuild, catch_up. cbn [meta_next_offset index_empty].
  destruct (read_spool (Some content) 0) as [r|]; [|done]. cbn. by destruct (ingest index_empty (records r)) as [[db n]|].
Qed.

(** Catching up from any such index is rebuilding, failures included. *)
Lemma catch_up_derived file db : derived (contents file) db ->
  ('(db', _) ← catch_up file db; Ok db') = rebuilt file.
Proof.
  intros (c & more & Hc & Hdb). destruct file as [content|]; cbn in Hc.
  2: { symmetry in Hc. apply app_eq_nil in Hc as [-> ->]. injection Hdb as <-. done. }
  subst content. rewrite rebuilt_tables in Hdb |- *. apply bind_ok in Hdb as (r1 & Hr1 & ([d1 n1] & Hi1 & [= <-])%bind_ok).
  pose proof (resume_equation _ _ _ (resume_point_app _ more _ _ (read_resume_point _ _ Hr1))) as Hall.
  unfold catch_up. cbn [meta_next_offset set_next_offset]. unfold all_records in Hall.
  destruct (read_spool (Some (c ++ more)) (next_offset r1)) as [r2|e] eqn:Hr2; cbn [mbind result_bind] in Hall |- *.
  2: { destruct (read_spool (Some (c ++ more)) 0) as [r|]; cbn in Hall |- *; congruence. }
  apply bind_ok in Hall as (r & Hr & [= Hrecs]). rewrite Hr. cbn [mbind result_bind].
  change {| events := events d1; sessions := sessions d1; meta_next_offset := next_offset r1 |} with (set_next_offset (next_offset r1) d1).
  rewrite ingest_meta, Hrecs, ingest_app, Hi1. cbn. destruct (ingest d1 (records r2)) as [[d2 n2]|e]; [|done]. cbn.
  rewrite (next_offset_last_end _ _ _ Hr), (next_offset_last_end _ _ _ Hr2), (next_offset_last_end _ _ _ Hr1), Hrecs.
  unfold set_next_offset, last_end. cbn. do 2 f_equal. rewrite last_app. by destruct (last (records r2)).
Qed.

Lemma derived_app c more db : derived c db -> derived (c ++ more) db.
Proof. intros (c0 & more0 & -> & H). exists c0, (more0 ++ more). by rewrite (assoc_L (++)). Qed.

Lemma derived_rebuilt file db : rebuilt file = Ok db -> derived (contents file) db.
Proof. intros H. exists (contents file), []. rewrite app_nil_r. split; [done|]. by destruct file. Qed.

(** The index is derived state. Building the index from a spool and then catching up after the
    file grew gives the same tables and watermark as rebuilding it from the grown file. *)
Theorem catch_up_rebuild content more db1 rep1 db2 rep2 :
  rebuild (Some content) index_empty = Ok (db1, rep1) -> catch_up (Some (content ++ more)) db1 = Ok (db2, rep2) ->
  exists rep, rebuild (Some (content ++ more)) index_empty = Ok (db2, rep).
Proof.
  intros H1 H2. pose proof (catch_up_derived (Some (content ++ more)) db1) as H. rewrite H2 in H. unfold rebuilt at 1 in H.
  destruct (rebuild (Some (content ++ more)) index_empty) as [[db rep]|]; cbn in H.
  - exists rep. assert (Ok db2 = Ok db) as [= ->]; [|done]. apply H. exists content, more. unfold rebuilt. by rewrite H1.
  - discriminate H. exists content, more. unfold rebuilt. by rewrite H1.
Qed.

(** * Ingesting twice changes nothing *)
Lemma ingest_one_known db k rec db' k' : ingest_one (db, k) rec = Ok (db', k') ->
  insertable db' rec = false /\ (forall r, insertable db r = false -> insertable db' r = false).
Proof.
  unfold ingest_one. intros (u & _ & H)%bind_ok. destruct (insertable db rec) eqn:Hi.
  - apply bind_ok in H as (s & _ & [= <- <-]). unfold insertable, ahas in *. cbn.
    assert (forall (o : nat) (e : pydict) l, is_Some (aget o (l ++ [(o, e)]))) as Hin.
    { intros o e l. apply aget_is_Some. unfold akeys. rewrite fmap_app. set_solver. }
    split.
    + destruct (Hin (r_offset rec) (r_event rec) (events db)) as [x ->]. done.
    + intros r Hr. apply andb_false_iff in Hr as [Hr|Hr]; [|by rewrite Hr, andb_false_r].
      destruct (aget (r_offset r) (events db)) as [e|] eqn:He; [|done].
      assert (is_Some (aget (r_offset r) (events db ++ [(r_offset rec, r_event rec)]))) as [x ->]; [|done].
      apply aget_is_Some. unfold akeys. rewrite fmap_app. apply elem_of_app. left.
      apply (aget_is_Some (r_offset r) (events db)). eauto.
  - injection H as <- <-. auto.
Qed.

Lemma ingest_all_known db l db' n : ingest db l = Ok (db', n) -> Forall (fun r => insertable db' r = false) l.
Proof.
  revert db db' n. induction l as [|rec l IH] using rev_ind; intros db db' n; [constructor|].
  rewrite ingest_app. intros ([d1 n1] & H1 & ([d2 n2] & H2 & [= <- <-])%bind_ok)%bind_ok.
  unfold ingest in H2. cbn [fold_res] in H2. apply bind_ok in H2 as ([d3 n3] & H2 & [= <- <-]).
  destruct (ingest_one_known _ _ _ _ _ H2) as [Hk Hmono]. apply Forall_app. split; [|by constructor].
  eapply Forall_impl; [by eapply IH|]. auto.
Qed.

(** * SIEM mappings *)
Definition activity : list (string * (Z * string * bool)) :=
  [("tool_call_allowed", (3, "Allow", false)); ("tool_call_blocked", (4, "Deny", true));
   ("tool_call_denied_session_suspended", (4, "Deny", true)); ("tool_result_redacted", (3, "Redact", false));
   ("tool_result_quarantined", (4, "Quarantine", true)); ("tool_result_redaction_failed", (4, "Deny", true));
   ("session_tainted", (4, "Taint", true)); ("session_suspended", (4, "Suspend", true));
   ("anomaly_detected", (4, "Anomaly", true)); ("approval_requested", (2, "Approve", false));
   ("policy_bundle_rejected", (4, "Reject", true))]%Z.

(** [_ACTIVITY.get(name, (0, unknown, False))] *)
Definition activity_of (unknown : string) (name : val) : result (Z * string * bool) :=
  match name with
  | VStr s => Ok (aget_or s (0%Z, unknown, false) activity)
  | v => if hashable v then Ok (0%Z, unknown, false) else raise TypeError "unhashable type"
  end.

Definition to_ocsf (version : string) (event : pydict) : result pydict :=
  let name := dget_or "event" (VStr "unknown") event in
  '(activity_id, activity_name, denial) ← activity_of "Unknown" name;
  let metadata := [("product", VObj [("name", VStr "MCP Security Gateway"); ("vendor_name", VStr "mcp-gateway");
                                     ("version", VStr version)]);
                   ("version", VStr "1.4.0"); ("event_code", name)]
    ++ (if truthy (column "session_id" event) then [("correlation_uid", column "session_id" event)] else []) in
  Ok (fields
    ([("class_uid", VInt 6006); ("class_name", VStr "Application Activity"); ("category_uid", VInt 6);
      ("activity_id", VInt activity_id); ("activity_name", VStr activity_name);
      ("type_uid", VInt (6006 * 100 + activity_id)); ("severity_id", VInt (if (denial : bool) then 3 else 1));
      ("status_id", VInt (if (denial : bool) then 2 else 1)); ("status", VStr (if (denial : bool) then "Failure" else "Success"));
      ("metadata", VObj metadata); ("unmapped", VDict event)]
     ++ match dget "ts" event with Some t => [("time", t)] | None => [] end
     ++ match column "principal" event with VNone => []
        | p => [("actor", VObj [("user", VObj [("name", VStr (py_str p))])])] end
     ++ (if truthy (column "tool" event) then [("app", VObj [("name", column "tool" event)])] else [])
     ++ (if truthy (column "reason" event) then [("message", VStr (py_str (column "reason" event)))] else [])))%Z.

Definition to_ecs (event : pydict) : result pydict :=
  let name := dget_or "event" (VStr "unknown") event in
  '(_, _, denial) ← activity_of "unknown" name;
  category ← match name with
             | VStr s => Ok (if startswith "policy_" s then "configuration" else "intrusion_detection")
             | _ => raise AttributeError "object has no attribute 'startswith'"
             end;
  Ok (fields
    ([("event", VObj [("kind", VStr "event"); ("category", strs [category]); ("action", name);
        ("outcome", VStr (if (denial : bool) then "failure" else "success")); ("module", VStr "mcp_gateway")]);
      ("labels", VDict (afilter (fun k => negb (bool_decide (k ∈ [KStr "ts"; KStr "principal"]))) event))]
     ++ match dget "ts" event with Some t => [("@timestamp", t)] | None => [] end
     ++ (if truthy (column "principal" event) then [("user", VObj [("name", VStr (py_str (column "principal" event)))])] else [])
     ++ (if truthy (column "reason" event) then [("message", VStr (py_str (column "reason" event)))] else []))).

(** * Ingestion is idempotent *)
Lemma ingest_binds db l r : ingest db l = Ok r -> Forall (fun rec => bind_row (r_event rec) = Ok tt) l.
Proof.
  unfold ingest. generalize 0. revert db. induction l as [|rec l IH]; intros db k; [constructor|]. cbn [fold_res].
  intros ([d k'] & Ho & Hf)%bind_ok. constructor; [|by eapply IH].
  unfold ingest_one in Ho. by apply bind_ok in Ho as ([] & Hb & _).
Qed.

Lemma ingest_nothing db l : Forall (fun rec => bind_row (r_event rec) = Ok tt) l ->
  Forall (fun r => insertable db r = false) l -> ingest db l = Ok (db, 0).
Proof.
  unfold ingest. intros Hb Hi. induction Hb as [|rec l Hr _ IH]; [done|]. apply Forall_cons in Hi as [Hi Hl].
  cbn [fold_res]. unfold ingest_one. rewrite Hr, Hi. cbn. by apply IH.
Qed.

(** Ingestion is idempotent. Ingesting records that the index already took, as a re-read after a
    crash does, inserts nothing and changes no table. *)
Theorem ingest_idempotent db l db' n : ingest db l = Ok (db', n) -> ingest db' l = Ok (db', 0).
Proof. intros Hi. apply ingest_nothing; [by eapply ingest_binds|by eapply ingest_all_known]. Qed.

Definition demo_spool : bytes :=
  spool_emit (spool_emit [] (fields [("event", VStr "tool_call_allowed"); ("session_id", VStr "s1"); ("ts", VStr "t1")]))
    (fields [("event", VStr "session_suspended"); ("session_id", VStr "s1"); ("ts", VStr "t2")]).
Definition demo_records : list SpoolRecord := the (all_records demo_spool) I.
Definition demo_index : AuditIndex := (the (ingest index_empty demo_records) I).1.

Lemma ingest_idempotent_witness : List.length (events demo_index) = 2 /\ ingest demo_index demo_records = Ok (demo_index, 0).
Proof.
  split; [vm_compute; reflexivity|]. apply (ingest_idempotent index_empty demo_records demo_index 2).
  vm_compute. reflexivity.
Defined.

Lemma catch_up_rebuild_witness :
  let db1 := (the (rebuild (Some (take 90 demo_spool)) index_empty) I).1 in
  let db2 := (the (catch_up (Some (take 90 demo_spool ++ drop 90 demo_spool)) db1) I).1 in
  exists rep, rebuild (Some (take 90 demo_spool ++ drop 90 demo_spool)) index_empty = Ok (db2, rep).
Proof.
  intros db1 db2.
  apply (catch_up_rebuild (take 90 demo_spool) (drop 90 demo_spool) db1
    (the (rebuild (Some (take 90 demo_spool)) index_empty) I).2 db2
    (the (catch_up (Some (take 90 demo_spool ++ drop 90 demo_spool)) db1) I).2); vm_compute; reflexivity.
Defined.

(** * Observations *)

(** The labels of an ECS document are the event without its time and principal. *)
Lemma ecs_labels_drop_principal :
  to_ecs (fields [("event", VStr "tool_call_allowed"); ("principal", VStr "bob")]) =
  Ok (fields [("event", VObj [("kind", VStr "event"); ("category", strs ["intrusion_detection"]);
        ("action", VStr "tool_call_allowed"); ("outcome", VStr "success"); ("module", VStr "mcp_gateway")]);
      ("labels", VObj [("event", VStr "tool_call_allowed")]); ("user", VObj [("name", VStr "bob")])]).
Proof. vm_compute. reflexivity. Qed.
