(* ===== verification/Postgres.v ===== *)
(** The central mode's index: [state/postgres.py], beside the SQLite index of [AuditIndex]. The
    connection commits each statement, so an operation is a computation whose writes stay
    when it raises later; the tables are the same values as in [AuditIndex]. *)
From S2P Require Import Prelude PyVal Spool AuditIndex.

(** * What the server accepts *)

Definition has_nul (s : string) : bool := existsb (fun a => nat_of_ascii a =? 0) (chars s).

(** A parameter of a [TEXT] column: null or a text without the zero character; any other
    type is refused. *)
Definition pg_text (v : val) : bool :=
  match v with VNone => true | VStr s => negb (has_nul s) | _ => false end.

(** [str(ev.get("id"))] *)
Definition request_id (ev : pydict) : val :=
  match column "id" ev with VNone => VNone | v => VStr (py_str v) end.

(** The text parameters of [event_columns], without the body, which is ASCII. *)
Definition event_columns (ev : pydict) : list val :=
  [column "ts" ev; dget_or "event" (VStr "unknown") ev; column "session_id" ev; column "tool" ev; column "rule" ev;
   column "action" ev; request_id ev; column "reason" ev].

Definition data_error {A} : result A := raise OtherError "DataError".

(** * Ingestion *)
Abbreviation Pg := (M AuditIndex).

(** [INSERT ... ON CONFLICT(event_offset) DO NOTHING]: whether a row was written. A null event
    name breaks [NOT NULL], which the conflict clause does not cover. *)
Definition pg_insert_event (rec : SpoolRecord) : Pg bool := fun db =>
  let ev := r_event rec in
  if forallb pg_text (event_columns ev) && negb (is_none (dget_or "event" (VStr "unknown") ev)) then
    if ahas (r_offset rec) (events db) then (Ok false, db)
    else (Ok true, {| events := events db ++ [(r_offset rec, ev)]; sessions := sessions db;
                      meta_next_offset := meta_next_offset db |})
  else (data_error, db).

(** [rollup_values] for the session [sid] *)
Definition rollup_values (sid : string) (current : option SessionRow) (ev : pydict) : result SessionRow :=
  let name := column "event" ev in
  let ts := column "ts" ev in
  let base := match current with Some row => row | None => new_row sid ts end in
  score ← to_int (dget_or "session_score" (VInt (row_risk_score base)) ev);
  Ok {| session_id := sid; first_ts := first_ts base;
        last_ts := if truthy ts then ts else last_ts base;
        event_count := (event_count base + 1)%Z;
        allowed_count := (allowed_count base + if event_in name ["tool_call_allowed"] then 1 else 0)%Z;
        blocked_count := (blocked_count base +
          if event_in name ["tool_call_blocked"; "tool_call_denied_session_suspended"] then 1 else 0)%Z;
        row_tainted := row_tainted base || event_in name ["session_tainted"];
        row_suspended := row_suspended base || event_in name ["session_suspended"];
        row_risk_score := score;
        row_risk_level := py_str (dget_or "session_level" (VStr (row_risk_level base)) ev) |}.

Definition set_sessions (l : list (string * SessionRow)) (db : AuditIndex) : AuditIndex :=
  {| events := events db; sessions := l; meta_next_offset := meta_next_offset db |}.

Definition pg_roll_up (ev : pydict) : Pg unit :=
  match column "session_id" ev with
  | VStr (String _ _ as sid) =>
      db ← get;
      vals ← lift (rollup_values sid (aget sid (sessions db)) ev);
      _ ← lift (if pg_text (VStr (row_risk_level vals)) then Ok tt else data_error);
      modify (set_sessions (aset sid vals (sessions db)))
  | _ => mret tt
  end.

Definition pg_ingest_one (rec : SpoolRecord) : Pg nat :=
  new ← pg_insert_event rec;
  if (new : bool) then _ ← pg_roll_up (r_event rec); mret 1 else mret 0.

Fixpoint pg_ingest (records : list SpoolRecord) : Pg nat :=
  match records with
  | [] => mret 0
  | rec :: records => n ← pg_ingest_one rec; m ← pg_ingest records; mret (n + m)
  end.

Definition pg_catch_up (file : option bytes) : Pg (nat * nat * nat * bool) :=
  db ← get;
  r ← lift (read_spool file (meta_next_offset db));
  inserted ← pg_ingest (records r);
  _ ← modify (set_next_offset (next_offset r));
  mret (inserted, next_offset r, bad_lines r, torn_tail r).

Definition pg_rebuild (file : option bytes) : Pg (nat * nat * nat * bool) :=
  _ ← modify (fun _ => index_empty); pg_catch_up file.

(** * Queries *)

(** The conjunction of the clauses built for the given filters. *)
Definition pg_clauses (sid name tool : option string) (after : option nat) (ascending : bool) : list (nat * pydict -> bool) :=
  (match sid with Some s => [fun row => bool_decide (dget "session_id" row.2 = Some (VStr s))] | None => [] end)
  ++ (match name with Some s => [fun row => bool_decide (dget_or "event" (VStr "unknown") row.2 = VStr s)] | None => [] end)
  ++ (match tool with Some s => [fun row => bool_decide (dget "tool" row.2 = Some (VStr s))] | None => [] end)
  ++ (match after with Some a => [fun row => if ascending then a <? row.1 else row.1 <? a] | None => [] end).

Definition pg_query_events (db : AuditIndex) (sid name tool : option string) (after : option nat) (limit : Z)
  (ascending : bool) : list pydict :=
  let leb (x y : nat * pydict) := if ascending then x.1 <=? y.1 else y.1 <=? x.1 in
  let rows := List.filter (fun row => forallb (fun c => c row) (pg_clauses sid name tool after ascending)) (events db) in
  hydrate <$> take (page limit) (isort leb rows).

Definition pg_get_event (db : AuditIndex) (offset : nat) : option pydict :=
  ev ← aget offset (events db); Some (hydrate (offset, ev)).

Definition pg_latest_offset (db : AuditIndex) : nat := fold_right Nat.max 0 (events db).*1.

(** [ORDER BY last_ts DESC] of Postgres: nulls come first. *)
Definition pg_desc (x y : SessionRow) : bool :=
  match last_ts x, last_ts y with
  | VNone, _ => true
  | _, VNone => false
  | x, y => str_leb (py_str y) (py_str x)
  end.

Definition pg_list_sessions (db : AuditIndex) (limit : Z) : list val :=
  VObj <$> (session_row <$> take (page limit) (isort pg_desc (snd <$> sessions db))).

Definition pg_session_detail (db : AuditIndex) (sid : string) (limit : Z) : option val :=
  r ← aget sid (sessions db);
  Some (VObj (session_row r ++ [("events", VList (VDict <$> pg_query_events db (Some sid) None None None limit true))])).

Definition pg_approval_history (db : AuditIndex) (limit : Z) : list pydict :=
  pg_query_events db None (Some "approval_requested") None None limit false.

Definition pg_counts_by_event (db : AuditIndex) : list (string * Z) :=
  fold_left (fun d row => let n := py_str (dget_or "event" (VStr "unknown") row.2) in
    aset n (aget_or n 0%Z d + 1)%Z d) (events db) [].

(** * The two stores agree *)

(** What the gateway's own events are: text columns, an event name, a clean risk level. *)
Record pg_clean (ev : pydict) : Prop := {
  clean_columns : forallb pg_text (event_columns ev) = true;
  clean_event : is_none (dget_or "event" (VStr "unknown") ev) = false;
  clean_level : pg_text (VStr (py_str (dget_or "session_level" (VStr "") ev))) = true;
}.

(** The levels already stored are clean. *)
Definition levels_clean (db : AuditIndex) : Prop :=
  forall sid row, aget sid (sessions db) = Some row -> has_nul (row_risk_level row) = false.

Lemma count_if_add b n : count_if b n = (n + if b then 1 else 0)%Z.
Proof. by destruct b; cbn; lia. Qed.

Lemma rollup_update sid sess ev row : row = match aget sid sess with Some r => r | None => new_row sid (column "ts" ev) end ->
  session_id row = sid -> rollup_values sid (aget sid sess) ev = update_row ev row.
Proof.
  intros Hr Hs. unfold rollup_values, update_row. rewrite !count_if_add. rewrite <- Hr. subst sid.
  by destruct (to_int _).
Qed.

(** Each roll-up row carries its own key. *)
Definition keyed (db : AuditIndex) : Prop := forall sid row, aget sid (sessions db) = Some row -> session_id row = sid.

Lemma level_kept ev row row' : update_row ev row = Ok row' ->
  row_risk_level row' = py_str (dget_or "session_level" (VStr (row_risk_level row)) ev) /\ session_id row' = session_id row.
Proof. unfold update_row. by intros (s & _ & [= <-])%bind_ok. Qed.

Definition rows_fine (db : AuditIndex) : Prop := keyed db /\ levels_clean db.

Lemma pg_roll_up_agrees ev db sess : pg_clean ev -> rows_fine db -> roll_up (sessions db) ev = Ok sess ->
  pg_roll_up ev db = (Ok tt, set_sessions sess db) /\ rows_fine (set_sessions sess db).
Proof.
  intros [Hcols _ Hlev] [Hk Hl]. unfold roll_up, pg_roll_up.
  assert (pg_text (column "session_id" ev) = true) as Hsid by (cbn in Hcols; by repeat (apply andb_true_iff in Hcols as [? Hcols])).
  destruct (column "session_id" ev) as [| | | |[|a sid]| |]; try discriminate Hsid;
    try (intros [= <-]; by destruct db).
  intros (row' & Hu & [= <-])%bind_ok. set (row := match aget _ _ with Some r => r | None => _ end) in *.
  assert (session_id row = String a sid) as Hid by (unfold row; destruct (aget _ _) eqn:Hg; [by apply Hk|done]).
  unfold mbind, M_bind, get, lift. rewrite (rollup_update _ _ _ row eq_refl Hid), Hu.
  destruct (level_kept _ _ _ Hu) as [Hrl Hid'].
  assert (has_nul (row_risk_level row') = false) as Hnul.
  { rewrite Hrl. unfold dget_or, aget_or in *. destruct (aget _ ev); [by apply negb_true_iff in Hlev|].
    unfold row. destruct (aget (String a sid) (sessions db)) eqn:Hg; [by apply (Hl _ _ Hg)|done]. }
  cbn [pg_text]. rewrite Hnul. cbn [negb modify]. split; [done|].
  split; intros sid' row2; cbn [sessions set_sessions]; rewrite aget_aset; case_decide; subst.
  - intros [= <-]. congruence.
  - apply Hk.
  - by intros [= <-].
  - apply Hl.
Qed.

Lemma pg_ingest_one_agrees rec db db' n : pg_clean (r_event rec) -> rows_fine db -> ingest_one (db, 0) rec = Ok (db', n) ->
  pg_ingest_one rec db = (Ok n, db') /\ rows_fine db'.
Proof.
  intros Hc Hf. pose proof Hc as [Hcols Hev Hlev]. unfold ingest_one, pg_ingest_one. intros (u & _ & H)%bind_ok.
  unfold mbind at 1, M_bind at 1, pg_insert_event. rewrite Hcols, Hev. cbn [andb negb]. unfold insertable in H. rewrite Hev, andb_true_r in H.
  destruct (ahas (r_offset rec) (events db)); cbn [negb] in H; [by injection H as <- <-|].
  apply bind_ok in H as (sess & Hr & [= <- <-]).
  destruct (pg_roll_up_agrees (r_event rec) {| events := events db ++ [(r_offset rec, r_event rec)]; sessions := sessions db;
    meta_next_offset := meta_next_offset db |} sess Hc Hf Hr) as [Hp Hf'].
  unfold mbind, M_bind. rewrite Hp. by split.
Qed.

Lemma pg_ingest_agrees l db db' n : Forall (fun rec => pg_clean (r_event rec)) l -> rows_fine db -> ingest db l = Ok (db', n) ->
  pg_ingest l db = (Ok n, db') /\ rows_fine db'.
Proof.
  intros Hc. revert db db' n. induction Hc as [|rec l Hrec _ IH]; intros db db' n Hf; [by intros [= <- <-]|].
  change (ingest db (rec :: l)) with (ingest db ([rec] ++ l)). rewrite ingest_app.
  intros ([d1 n1] & H1 & ([d2 n2] & H2 & [= <- <-])%bind_ok)%bind_ok. unfold ingest in H1. cbn [fold_res] in H1.
  apply bind_ok in H1 as ([d n0] & H1 & [= <- <-]). destruct (pg_ingest_one_agrees _ _ _ _ Hrec Hf H1) as [Hp Hf1].
  destruct (IH _ _ _ Hf1 H2) as [Hp2 Hf2]. split; [|done]. cbn [pg_ingest]. unfold mbind, M_bind. by rewrite Hp, Hp2.
Qed.

Lemma pg_query_agrees db sid name tool after limit ascending :
  pg_query_events db sid name tool after limit ascending = query_events db sid name tool after limit ascending.
Proof.
  unfold pg_query_events, query_events, page. do 2 f_equal. f_equal. apply filter_ext. intros [o ev].
  unfold matches, col_is, pg_clauses. cbn [fst snd].
  rewrite !forallb_app. rewrite !andb_assoc. f_equal; [f_equal; [f_equal|]|by destruct after; cbn; rewrite ?andb_true_r].
  - destruct sid as [s|]; [|done]. cbn [forallb]. rewrite andb_true_r. case_bool_decide as Hb; cbn [snd] in Hb; [rewrite Hb; by rewrite String.eqb_refl|].
    destruct (dget "session_id" ev) as [[]|]; try done. symmetry. apply String.eqb_neq. congruence.
  - destruct name as [s|]; [|done]. cbn [forallb]. rewrite andb_true_r. case_bool_decide as Hb; cbn [snd] in Hb; [rewrite Hb; by rewrite String.eqb_refl|].
    destruct (dget_or "event" _ ev) as []; try done. symmetry. apply String.eqb_neq. congruence.
  - destruct tool as [s|]; [|done]. cbn [forallb]. rewrite andb_true_r. case_bool_decide as Hb; cbn [snd] in Hb; [rewrite Hb; by rewrite String.eqb_refl|].
    destruct (dget "tool" ev) as [[]|]; try done. symmetry. apply String.eqb_neq. congruence.
Qed.

(** Sessions that all have a time stamp are listed in one order. *)
Definition dated (db : AuditIndex) : Prop := Forall (fun r => last_ts r <> VNone) (snd <$> sessions db).

Lemma isort_ext {A} (leb leb' : A -> A -> bool) (P : A -> Prop) l : (forall x y, P x -> P y -> leb x y = leb' x y) ->
  Forall P l -> isort leb l = isort leb' l.
Proof.
  intros He. induction 1 as [|x l Hx Hl IH]; [done|]. cbn. rewrite IH.
  assert (Forall P (isort leb' l)) as Hs by (by rewrite isort_perm).
  revert Hs. generalize (isort leb' l). clear -He Hx. induction 1 as [|z m Hz _ IH]; [done|]. cbn.
  rewrite (He x z) by done. destruct (leb' x z); [done|]. by rewrite IH.
Qed.

Lemma pg_list_agrees db limit : dated db -> pg_list_sessions db limit = list_sessions db limit.
Proof.
  intros Hd. unfold pg_list_sessions, list_sessions. do 3 f_equal.
  apply (isort_ext _ _ (fun r => last_ts r <> VNone)); [|exact Hd].
  intros x y Hx Hy. unfold pg_desc, ts_leb. by destruct (last_ts x), (last_ts y).
Qed.



(** * Observations *)

(** An event without a name is skipped by SQLite; Postgres refuses the row, and every later
    catch-up stops at it. *)
Definition nameless_spool : bytes :=
  spool_emit (spool_emit [] (fields [("event", VNone)])) (fields [("event", VStr "tool_call_allowed"); ("session_id", VStr "s1")]).
Lemma nameless_event_stops_postgres :
  (exists db rep, catch_up (Some nameless_spool) index_empty = Ok (db, rep) /\ List.length (events db) = 1) /\
  pg_catch_up (Some nameless_spool) index_empty = (data_error, index_empty).
Proof. split; [eexists _, _; split; [vm_compute; reflexivity|reflexivity]|vm_compute; reflexivity]. Qed.

(** So does a zero character in the tool name a client asked for: SQLite indexes the call and
    what follows, Postgres nothing from there on. *)
Definition nul_spool : bytes :=
  spool_emit (spool_emit [] (fields [("event", VStr "tool_call_blocked"); ("session_id", VStr "s1"); ("tool", VStr ("x" +:+ chr 0))]))
    (fields [("event", VStr "session_suspended"); ("session_id", VStr "s1")]).
Lemma zero_character_stops_postgres :
  (exists db rep, catch_up (Some nul_spool) index_empty = Ok (db, rep) /\ List.length (events db) = 2) /\
  pg_catch_up (Some nul_spool) index_empty = (data_error, index_empty).
Proof. split; [eexists _, _; split; [vm_compute; reflexivity|reflexivity]|vm_compute; reflexivity]. Qed.

(** Each statement commits. A process that dies after the event's row and before its roll-up
    leaves a row that a later catch-up skips, so the session never counts it; the
    roll-up of a fresh index does. *)
Lemma crash_loses_roll_up :
  let spool := spool_emit [] (fields [("event", VStr "session_suspended"); ("session_id", VStr "s1"); ("ts", VStr "t")]) in
  let recs := the (all_records spool) I in
  let crashed := match recs with rec :: _ => (pg_insert_event rec index_empty).2 | [] => index_empty end in
  List.length (events (pg_catch_up (Some spool) crashed).2) = 1 /\
  sessions (pg_catch_up (Some spool) crashed).2 = [] /\
  (exists row, sessions (pg_rebuild (Some spool) crashed).2 = [("s1", row)] /\ row_suspended row = true).
Proof. split_and!; [vm_compute; reflexivity|vm_compute; reflexivity|eexists; split; [vm_compute; reflexivity|reflexivity]]. Qed.

(** A session without a time stamp heads the Postgres list and ends the SQLite one. *)
Lemma undated_session_order :
  let db := {| events := []; sessions := [("a", new_row "a" VNone); ("b", new_row "b" (VStr "2026-01-01"))]; meta_next_offset := 0 |} in
  pg_list_sessions db 1 = [VObj (session_row (new_row "a" VNone))] /\
  list_sessions db 1 = [VObj (session_row (new_row "b" (VStr "2026-01-01")))].
Proof. split; reflexivity. Qed.
