(* ===== verification/Tables.v ===== *)
(** The audit index as a database holds it: the tables of [_SCHEMA] in [audit/index.py] and
    [state/postgres.py], an event as its indexed columns and its JSON text, the position as a
    text in the table [meta]. [AuditIndex] and [Postgres] compute with the values; this file shows
    that the tables give them back. *)
From S2P Require Import Prelude PyVal Json Rules Spool AuditIndex Postgres.

(** A row of [events]: its key, the indexed columns, and the event as text. *)
Record EventRow := { er_offset : nat; er_columns : list val; er_body : string }.
Record Tables := {
  t_events : list EventRow;
  t_sessions : list (string * SessionRow);
  t_meta : list (string * string);
}.

(** [__init__]: the tables are created if they do not exist. *)
Definition open_tables (found : option Tables) : Tables := default {| t_events := []; t_sessions := []; t_meta := [] |} found.

(** The parameters of the [INSERT]. *)
Definition event_row (offset : nat) (ev : pydict) : EventRow :=
  {| er_offset := offset; er_columns := event_columns ev; er_body := json_dumps (VDict ev) |}.

(** [int(value)] of a text that [str] wrote. *)
Definition int_of_text (s : string) : result Z :=
  match json_loads s with Ok (VInt z) => Ok z | _ => raise ValueError ("invalid literal for int() with base 10: " +:+ str_repr s) end.

Definition next_offset (t : Tables) : result Z :=
  match aget "next_offset" (t_meta t) with Some value => int_of_text value | None => Ok 0%Z end.
Definition put_next_offset (offset : nat) (t : Tables) : Tables :=
  {| t_events := t_events t; t_sessions := t_sessions t; t_meta := aset "next_offset" (py_str (VInt (Z.of_nat offset))) (t_meta t) |}.

(** [hydrate(offset, body)] *)
Definition hydrate (offset : nat) (body : string) : result pydict :=
  event ← json_loads body;
  match event with
  | VDict d => Ok (dset "offset" (VInt (Z.of_nat offset)) d)
  | v => raise TypeError ("'" +:+ type_name v +:+ "' object does not support item assignment")
  end.

(** [session_row]: a mapping of the row's columns. *)
Definition session_row (r : SessionRow) : val := VObj (AuditIndex.session_row r).

(** * The tables of an index *)
Definition tables_of (db : AuditIndex) : Tables :=
  put_next_offset (meta_next_offset db)
    {| t_events := (fun '(n, ev) => event_row n ev) <$> events db; t_sessions := sessions db; t_meta := [] |}.

Lemma int_of_written n : int_ok (Z.of_nat n) = true -> int_of_text (py_str (VInt (Z.of_nat n))) = Ok (Z.of_nat n).
Proof.
  intros Hn. unfold int_of_text. change (py_str (VInt (Z.of_nat n))) with (json_dumps (VInt (Z.of_nat n))).
  by rewrite loads_dumps.
Qed.

(** The tables give the index back: the position, and every event as the queries answer it. *)
Lemma tables_read_back db : int_ok (Z.of_nat (meta_next_offset db)) = true -> Forall (fun row => plain (VDict row.2)) (events db) ->
  next_offset (tables_of db) = Ok (Z.of_nat (meta_next_offset db)) /\
  map_res (fun r => hydrate (er_offset r) (er_body r)) (t_events (tables_of db)) = Ok (AuditIndex.hydrate <$> events db).
Proof.
  intros Hn Hp. split; [by apply int_of_written|]. cbn [tables_of put_next_offset t_events].
  induction Hp as [|[n ev] rows Hev _ IH]; [done|]. cbn [fmap list_fmap map_res event_row er_offset er_body].
  assert (hydrate n (json_dumps (VDict ev)) = Ok (AuditIndex.hydrate (n, ev))) as -> by (unfold hydrate; by rewrite loads_dumps).
  cbn [mbind result_bind]. change (list_fmap _ _ (fun '(n, ev) => event_row n ev) rows) with ((fun '(n, ev) => event_row n ev) <$> rows).
  by rewrite IH.
Qed.
