(* ===== verification/Bundle.v ===== *)
(** Signed policy bundles: [policy/bundle.py] with the keys of [policy/signing.py]. The hash
    and the signature scheme are the interface [Crypto]; the wall clock gives [build_bundle]
    its two time stamps. *)
From S2P Require Import Prelude Base64 PyVal Json Rules Loader Engine.

(** [hashlib.sha256(...).hexdigest()] and Ed25519 verification under a raw public key. *)
Class Crypto := {
  sha256_hex : string -> string;
  ed_verify : string -> string -> string -> bool; (* key, signature, message *)
}.

Definition BUNDLE_FORMAT : Z := 1.
Definition hash_prefix : string := "sha256:".

Record BundleLayer := { bl_name : string; bl_text : string }.

Record PolicyBundle := {
  b_name : string;
  b_version : string;
  b_created : string;
  b_layers : list BundleLayer;
  b_content_hash : string;
  b_signer_key_id : val;            (* parsed without a check *)
  b_signature : option string;
}.

Definition layer_dict (l : BundleLayer) : val := VObj [("name", VStr (bl_name l)); ("text", VStr (bl_text l))].
Definition payload_obj (layers : list BundleLayer) : val := VObj [("layers", VList (layer_dict <$> layers))].
Definition manifest_fields (b : PolicyBundle) : list (string * val) :=
  [("name", VStr (b_name b)); ("version", VStr (b_version b)); ("created", VStr (b_created b));
   ("layers", strs (bl_name <$> b_layers b)); ("content_hash", VStr (b_content_hash b))].
Definition manifest_obj (b : PolicyBundle) : val := VObj (manifest_fields b).

(** [_canonical] *)
Definition canonical (v : val) : string := json_dumps (sort_val v).
Definition payload_bytes (b : PolicyBundle) : string := canonical (payload_obj (b_layers b)).
Definition manifest_bytes (b : PolicyBundle) : string := canonical (manifest_obj b).

Definition to_dict (b : PolicyBundle) : val := VObj
  [("bundle_format", VInt BUNDLE_FORMAT);
   ("manifest", VObj (manifest_fields b ++ [("signer_key_id", b_signer_key_id b)]));
   ("payload", payload_obj (b_layers b));
   ("signature", match b_signature b with
                 | Some s => VObj [("algorithm", VStr "ed25519"); ("value", VStr s)]
                 | None => VNone end)].

Definition with_signature (signature signer : string) (b : PolicyBundle) : PolicyBundle :=
  {| b_name := b_name b; b_version := b_version b; b_created := b_created b; b_layers := b_layers b;
     b_content_hash := b_content_hash b; b_signer_key_id := VStr signer; b_signature := Some signature |}.

(** [VerifyResult] *)
Inductive signature_state := SigValid | SigInvalid | SigUnsigned | SigUnchecked.
#[export] Instance signature_state_eq_dec : EqDecision signature_state.
Proof. solve_decision. Defined.

Definition state_str (s : signature_state) : string :=
  match s with SigValid => "valid" | SigInvalid => "invalid" | SigUnsigned => "unsigned" | SigUnchecked => "unchecked" end.

Record VerifyResult := { integrity_ok : bool; vr_signature : signature_state; reasons : list string }.
Definition vr_ok (r : VerifyResult) : bool := integrity_ok r && bool_decide (vr_signature r = SigValid).
Definition vr_summary (r : VerifyResult) : string :=
  (if integrity_ok r then "hash ok" else "hash MISMATCH") +:+ ", signature " +:+ state_str (vr_signature r).

Section Bundles.
Context `{Crypto}.

Definition payload_hash (layers : list BundleLayer) : string := hash_prefix +:+ sha256_hex (canonical (payload_obj layers)).
Definition computed_hash (b : PolicyBundle) : string := payload_hash (b_layers b).
Definition key_id (public_raw : string) : string := slice (sha256_hex public_raw) 0 16.

(** ** Verifying *)
Definition check_signature (b : PolicyBundle) (key : string) : signature_state * list string :=
  match b_signature b with
  | None => (SigUnsigned, ["bundle carries no signature but a signature is required"])
  | Some s =>
      match b64decode s with
      | None => (SigInvalid, ["signature is not valid base64"])
      | Some raw =>
          if ed_verify key raw (manifest_bytes b) then
            (SigValid, if negb (is_none (b_signer_key_id b)) && negb (py_eqb (b_signer_key_id b) (VStr (key_id key)))
                       then ["note: signer_key_id " +:+ py_repr (b_signer_key_id b)
                             +:+ " labels a different key than the one that verified (" +:+ str_repr (key_id key) +:+ ")"]
                       else [])
          else (SigInvalid, ["signature does not verify against the trusted key (wrong signer, or the manifest was altered)"])
      end
  end.

Definition verify_bundle (b : PolicyBundle) (key : option string) : VerifyResult :=
  let ok := String.eqb (b_content_hash b) (computed_hash b) in
  let why := if ok then [] else ["content hash mismatch: manifest says " +:+ b_content_hash b +:+ ", payload hashes to "
                                 +:+ computed_hash b +:+ " (bundle was altered after it was built)"] in
  match key with
  | None => {| integrity_ok := ok; vr_signature := SigUnchecked; reasons := why |}
  | Some k => let '(st, rs) := check_signature b k in {| integrity_ok := ok; vr_signature := st; reasons := why ++ rs |}
  end.

(** ** Signing; a key is its signing function and its raw public part *)
Definition sign_bundle (sign : string -> string) (public_raw : string) (b : PolicyBundle) : PolicyBundle :=
  with_signature (b64encode (sign (manifest_bytes b))) (key_id public_raw) b.

(** ** Parsing *)
Definition parse_layer (source : string) (ie : nat * val) : result BundleLayer :=
  match ie.2 with
  | VDict d =>
      match dget "name" d, dget "text" d with
      | Some (VStr n), Some (VStr t) => Ok {| bl_name := n; bl_text := t |}
      | _, _ => raise BundleError (source +:+ ": payload.layers[" +:+ pretty ie.1 +:+ "] needs string 'name' and 'text'")
      end
  | _ => raise BundleError (source +:+ ": payload.layers[" +:+ pretty ie.1 +:+ "] needs string 'name' and 'text'")
  end.

Definition manifest_str (source : string) (manifest : pydict) (f : string) : result string :=
  match dget f manifest with
  | Some (VStr (String _ _ as s)) => Ok s
  | _ => raise BundleError (source +:+ ": manifest." +:+ f +:+ " must be a non-empty string")
  end.

Definition parse_signature (source : string) (v : val) : result (option string) :=
  match v with
  | VNone => Ok None
  | VDict d =>
      _ ← require (py_eqb (opt_val (dget "algorithm" d)) (VStr "ed25519")) BundleError
            (source +:+ ": only 'ed25519' signatures are supported");
      match dget "value" d with
      | Some (VStr s) => Ok (Some s)
      | _ => raise BundleError (source +:+ ": signature.value must be a string")
      end
  | _ => raise BundleError (source +:+ ": only 'ed25519' signatures are supported")
  end.

Definition parse_bundle (doc : val) (source : string) : result PolicyBundle :=
  doc ← of_option (as_dict doc) (Exn BundleError (source +:+ ": bundle must be a JSON object"));
  _ ← require (py_eqb (opt_val (dget "bundle_format" doc)) (VInt BUNDLE_FORMAT)) BundleError
        (source +:+ ": unsupported bundle_format " +:+ py_repr (opt_val (dget "bundle_format" doc))
         +:+ "; this build supports 1");
  manifest ← of_option (as_dict (opt_val (dget "manifest" doc)))
               (Exn BundleError (source +:+ ": bundle 'manifest' must be an object"));
  entries ← match opt_val (dget "payload" doc) with
            | VDict p => match dget "layers" p with
                         | Some (VList l) => Ok l
                         | _ => raise BundleError (source +:+ ": bundle 'payload.layers' must be a list")
                         end
            | _ => raise BundleError (source +:+ ": bundle 'payload.layers' must be a list")
            end;
  layers ← map_res (parse_layer source) (enumerate entries);
  _ ← require (match layers with [] => false | _ => true end) BundleError (source +:+ ": bundle has no policy layers");
  name ← manifest_str source manifest "name";
  version ← manifest_str source manifest "version";
  created ← manifest_str source manifest "created";
  hash ← manifest_str source manifest "content_hash";
  signature ← parse_signature source (opt_val (dget "signature" doc));
  Ok {| b_name := name; b_version := version; b_created := created; b_layers := layers; b_content_hash := hash;
        b_signer_key_id := opt_val (dget "signer_key_id" manifest); b_signature := signature |}.

(** ** Building, and compiling a verified bundle *)
Context `{Regex} (read : string -> option string) (yaml_load : string -> option val).

Definition stem (name : string) : string := (split_suffix (base_name name)).1.

Definition parse_layer_text (text name : string) : result PolicyLayer :=
  document ←
    (if endswith ".json" name then
       match json_loads text with
       | Err (Exn JSONDecodeError msg) => raise PolicyError (name +:+ ": not valid JSON (" +:+ msg +:+ ")")
       | r => r
       end
     else of_option (yaml_load text) (Exn PolicyError (name +:+ ": not valid YAML")));
  parse_document document name (stem name).

Definition read_layer (path : string) : result BundleLayer :=
  text ← of_option (read path) (Exn BundleError ("policy layer not found: " +:+ path));
  _ ← parse_layer_text text (base_name path);
  Ok {| bl_name := base_name path; bl_text := text |}.

(** The naming never fails the build: a document that does not load leaves the file stem. *)
Definition default_name (l : BundleLayer) : string :=
  match yaml_load (bl_text l) with
  | Some (VDict d) => match dget "name" d with Some (VStr (String _ _ as s)) => s | _ => stem (bl_name l) end
  | _ => stem (bl_name l)
  end.

Definition default_version (stamp content_hash : string) : string :=
  stamp +:+ "-" +:+ slice content_hash (String.length hash_prefix) (String.length hash_prefix + 8).

(** [stamp] and [iso] are the creation time in its two formats. *)
Definition build_bundle (layer_paths : list string) (name version : option string) (stamp iso : string)
  : result PolicyBundle :=
  layers ← map_res read_layer layer_paths;
  match layers with
  | [] => raise BundleError "a bundle needs at least one policy layer"
  | first :: _ =>
      let h := payload_hash layers in
      let given o dflt := match o with Some (String _ _ as s) => s | _ => dflt end in
      Ok {| b_name := given name (default_name first); b_version := given version (default_version stamp h);
            b_created := iso; b_layers := layers; b_content_hash := h; b_signer_key_id := VNone; b_signature := None |}
  end.

Definition engine_from_bundle (b : PolicyBundle) : result PolicyEngine :=
  layers ← map_res (fun l => parse_layer_text (bl_text l) (bl_name l)) (b_layers b);
  PolicyEngine_init layers.
End Bundles.

(** * What verification vouches for *)
Section Binding.
Context `{Crypto}.

Lemma sort_layer l : sort_val (layer_dict l) = layer_dict l.
Proof. done. Qed.

Lemma sort_payload layers : sort_val (payload_obj layers) = payload_obj layers.
Proof.
  unfold payload_obj, VObj, fields. cbn. do 4 f_equal. rewrite <- list_fmap_compose. apply list_fmap_ext.
  intros i l _. apply sort_layer.
Qed.

Lemma plain_strs l : plain (strs l).
Proof. apply plain_list, Forall_fmap, Forall_forall. intros s _. exact I. Qed.

Lemma plain_payload layers : plain (payload_obj layers).
Proof.
  split; [repeat constructor|]. split; [apply NoDup_singleton|]. split; [|exact I].
  apply plain_list, Forall_fmap, Forall_forall. intros l _.
  split; [repeat constructor|]. split; [apply (bool_decide_unpack _); vm_compute; exact I|exact (conj I (conj I I))].
Qed.

Lemma payload_inj l1 l2 : canonical (payload_obj l1) = canonical (payload_obj l2) -> l1 = l2.
Proof.
  unfold canonical. rewrite !sort_payload. intros He.
  assert (json_loads (json_dumps (payload_obj l1)) = json_loads (json_dumps (payload_obj l2))) as Hl by congruence.
  rewrite !loads_dumps in Hl by apply plain_payload. injection Hl as Hl. clear He.
  revert l2 Hl. clear. induction l1 as [|[n t] l1 IH]; intros [|[n' t'] l2]; cbn; try done.
  intros [= -> -> Hl]. f_equal. by apply IH.
Qed.

(** The sorted manifest, a value that decodes back. *)
Definition sorted_manifest (b : PolicyBundle) : val := VObj
  [("content_hash", VStr (b_content_hash b)); ("created", VStr (b_created b)); ("layers", strs (bl_name <$> b_layers b));
   ("name", VStr (b_name b)); ("version", VStr (b_version b))].

Lemma sort_strs l : sort_val (strs l) = strs l.
Proof. unfold strs. cbn. f_equal. rewrite <- list_fmap_compose. by apply list_fmap_ext. Qed.

Lemma sort_manifest b : sort_val (manifest_obj b) = sorted_manifest b.
Proof.
  unfold manifest_obj, manifest_fields, sorted_manifest, VObj, fields.
  change (VDict _) with (VDict [(KStr "name", VStr (b_name b)); (KStr "version", VStr (b_version b));
    (KStr "created", VStr (b_created b)); (KStr "layers", strs (bl_name <$> b_layers b));
    (KStr "content_hash", VStr (b_content_hash b))]) at 1.
  cbn [sort_val fmap list_fmap]. rewrite sort_strs. reflexivity.
Qed.

Lemma plain_manifest b : plain (sorted_manifest b).
Proof.
  split; [repeat constructor|]. split; [apply (bool_decide_unpack _); vm_compute; exact I|].
  pose proof (plain_strs (bl_name <$> b_layers b)) as Hs.
  exact (conj I (conj I (conj Hs (conj I (conj I I))))).
Qed.

Lemma manifest_inj b1 b2 : manifest_bytes b1 = manifest_bytes b2 ->
  b_name b1 = b_name b2 /\ b_version b1 = b_version b2 /\ b_created b1 = b_created b2 /\
  b_content_hash b1 = b_content_hash b2.
Proof.
  unfold manifest_bytes, canonical. rewrite !sort_manifest. intros He.
  assert (json_loads (json_dumps (sorted_manifest b1)) = json_loads (json_dumps (sorted_manifest b2))) as Hl by congruence.
  rewrite !loads_dumps in Hl by apply plain_manifest. injection Hl as Hh Hc _ Hn Hv. done.
Qed.

Lemma verify_ok_iff b key : vr_ok (verify_bundle b (Some key)) = true <->
  b_content_hash b = computed_hash b /\
  exists s raw, b_signature b = Some s /\ b64decode s = Some raw /\ ed_verify key raw (manifest_bytes b) = true.
Proof.
  unfold vr_ok, verify_bundle, check_signature. rewrite <- String.eqb_eq.
  destruct (b_signature b) as [s|]; [|cbn; rewrite andb_false_r; naive_solver].
  destruct (b64decode s) as [raw|] eqn:Hs; [|cbn; rewrite andb_false_r; naive_solver].
  destruct (ed_verify key raw (manifest_bytes b)) eqn:Hv; cbn; [rewrite andb_true_r|rewrite andb_false_r]; naive_solver.
Qed.
End Binding.

(** * Writing and reading back *)
Definition bundle_wf (b : PolicyBundle) : Prop :=
  b_name b <> "" /\ b_version b <> "" /\ b_created b <> "" /\ b_content_hash b <> "" /\ b_layers b <> [].

Lemma parse_layers_dict source layers n :
  map_res (parse_layer source) (enumerate_from n (layer_dict <$> layers)) = Ok layers.
Proof.
  revert n. induction layers as [|l layers IH]; intros n; [done|].
  cbn [fmap list_fmap enumerate_from map_res]. rewrite IH. destruct l as [name text].
  unfold parse_layer, layer_dict, VObj. cbn [snd]. by dict_simpl.
Qed.

(** A bundle file parses back to the bundle it was written from. *)
Lemma parse_to_dict b source : bundle_wf b -> parse_bundle (to_dict b) source = Ok b.
Proof.
  destruct b as [n v c layers h sk sig]. intros (Hn & Hv & Hc & Hh & Hl). cbn in Hn, Hv, Hc, Hh, Hl.
  pose proof (parse_layers_dict source layers 0) as Hlayers.
  destruct n as [|n0 n]; [done|]. destruct v as [|v0 v]; [done|]. destruct c as [|c0 c]; [done|].
  destruct h as [|h0 h]; [done|]. unfold parse_bundle, to_dict, payload_obj, manifest_fields.
  cbn [b_name b_version b_created b_layers b_content_hash b_signer_key_id b_signature].
  revert Hlayers. generalize (layer_dict <$> layers). intros entries Hlayers.
  lazy -[enumerate_from parse_layer map_res strs]. rewrite Hlayers.
  destruct layers as [|l0 ls]; [done|]. by destruct sig.
Qed.

Section Signing.
Context `{Crypto}.

(** Signing a bundle that carries its own hash makes it verify under the signer's key. *)
Lemma sign_verifies b sign pk : (forall m, ed_verify pk (sign m) m = true) -> b_content_hash b = computed_hash b ->
  vr_ok (verify_bundle (sign_bundle sign pk b) (Some pk)) = true.
Proof.
  intros Hs Hh. apply verify_ok_iff. split; [exact Hh|].
  exists (b64encode (sign (manifest_bytes b))), (sign (manifest_bytes b)).
  split_and!; [done|apply b64_roundtrip|apply Hs].
Qed.
End Signing.

(** C24: A verified bundle is a released one. If signatures under the trusted key exist only for the
    manifests of the released bundles (each built with the hash of its own layers) and the
    hash has no collisions, then a bundle that verification accepts has the name, the
    version, the creation time and, text for text, the layers of some released bundle:
    neither a layer nor the manifest can be altered. *)
Theorem bundle_tamper_evident `{Crypto} b key (released : list PolicyBundle) :
  (forall x y, sha256_hex x = sha256_hex y -> x = y) ->
  (forall raw m, ed_verify key raw m = true -> exists r, r ∈ released /\ m = manifest_bytes r) ->
  (forall r, r ∈ released -> b_content_hash r = computed_hash r) ->
  vr_ok (verify_bundle b (Some key)) = true ->
  exists r, r ∈ released /\ b_name b = b_name r /\ b_version b = b_version r /\ b_created b = b_created r /\
    b_layers b = b_layers r.
Proof.
  intros Hsha Hed Hrel (Hh & s & raw & _ & _ & Hv)%verify_ok_iff.
  destruct (Hed _ _ Hv) as (r & Hr & Hm). destruct (manifest_inj _ _ Hm) as (Hn & Hve & Hc & Hch).
  exists r. split_and!; try done. apply payload_inj, Hsha.
  rewrite Hh, (Hrel _ Hr) in Hch. unfold computed_hash, payload_hash in Hch.
  assert (chars (hash_prefix +:+ sha256_hex (canonical (payload_obj (b_layers b)))) =
          chars (hash_prefix +:+ sha256_hex (canonical (payload_obj (b_layers r))))) as Hcs by congruence.
  rewrite !chars_app in Hcs. by apply app_inv_head, chars_inj in Hcs.
Qed.

(** * A concrete signer: a signature is the message it signs *)
Definition echo_crypto : Crypto :=
  {| sha256_hex := fun s => s; ed_verify := fun _ raw m => String.eqb raw m |}.
#[local] Existing Instance echo_crypto.

Definition demo_layer (text : string) : BundleLayer := {| bl_name := "policy.yaml"; bl_text := text |}.
Definition demo_bundle (version text : string) : PolicyBundle := sign_bundle id "key"
  {| b_name := "github"; b_version := version; b_created := "2026-07-27T18:30:00Z"; b_layers := [demo_layer text];
     b_content_hash := payload_hash [demo_layer text]; b_signer_key_id := VNone; b_signature := None |}.

(** Here the key holder released one bundle. *)
Definition one_release (r : PolicyBundle) : Crypto :=
  {| sha256_hex := fun s => s; ed_verify := fun _ _ m => String.eqb m (manifest_bytes r) |}.

Lemma bundle_tamper_evident_witness :
  let r := demo_bundle "v1" "tools: {}" in
  exists r', r' ∈ [r] /\ b_name r = b_name r' /\ b_version r = b_version r' /\ b_created r = b_created r' /\
    b_layers r = b_layers r'.
Proof.
  intros r. apply (@bundle_tamper_evident (one_release r) r "key" [r]).
  - intros x y Hxy. exact Hxy.
  - intros raw m Hm. exists r. split; [apply list_elem_of_here|by apply String.eqb_eq].
  - intros r' Hr'. apply list_elem_of_singleton in Hr' as ->. vm_compute. reflexivity.
  - vm_compute. reflexivity.
Defined.
