(* ===== verification/BundleStore.v ===== *)
(** The on-disk home of installed bundles: [policy/bundle_store.py]. A file holds the JSON
    document its text parses to, or text that is not JSON; each write replaces one file at
    once, and an operation is the list of its writes, so that a crash is a prefix of it. Pack
    names are used as plain directory names. *)
From S2P Require Import Prelude PyVal Bundle.

Inductive content := JDoc (v : val) | JBad.

(** The files of one pack. *)
Record Pack := {
  bundles : list (string * content);      (* bundles/<stem>.json *)
  current_file : option content;          (* current.json *)
  lkg_file : option content;              (* last_known_good.json *)
}.
Definition pack_empty : Pack := {| bundles := []; current_file := None; lkg_file := None |}.

Inductive pointer := CURRENT | LAST_KNOWN_GOOD.
Definition pointer_file (which : pointer) (p : Pack) : option content :=
  match which with CURRENT => current_file p | LAST_KNOWN_GOOD => lkg_file p end.

Inductive write := WBundle (stem : string) (c : content) | WPointer (which : pointer) (c : content).

(** [_atomic_write] *)
Definition apply_write (p : Pack) (w : write) : Pack :=
  match w with
  | WBundle s c => {| bundles := aset s c (bundles p); current_file := current_file p; lkg_file := lkg_file p |}
  | WPointer CURRENT c => {| bundles := bundles p; current_file := Some c; lkg_file := lkg_file p |}
  | WPointer LAST_KNOWN_GOOD c => {| bundles := bundles p; current_file := current_file p; lkg_file := Some c |}
  end.
Definition apply_writes (p : Pack) (ws : list write) : Pack := fold_left apply_write ws p.

(** [str.isalnum] of a character below 256: ASCII, the ordinals, superscripts, fractions
    and letters of Latin-1. *)
Definition latin_alnum (a : ascii) : bool :=
  let n := nat_of_ascii a in
  is_alnum a || bool_decide (n ∈ [170; 178; 179; 181; 185; 186; 188; 189; 190])
  || ((192 <=? n) && negb (n =? 215) && negb (n =? 247)).

Definition safe_char (a : ascii) : ascii :=
  if latin_alnum a || bool_decide (a ∈ chars "-._") then a else "_"%char.
Definition safe (version : string) : string := str_map safe_char version.

(** [_read_pointer]: a missing file, text that is not JSON and a [null] all read as none. *)
Definition read_pointer (p : Pack) (which : pointer) : option val :=
  match pointer_file which p with
  | Some (JDoc VNone) | Some JBad | None => None
  | Some (JDoc v) => Some v
  end.

(** [pointer.get("version", dflt)] *)
Definition pointer_version (dflt : val) (ptr : val) : result val :=
  match ptr with
  | VDict d => Ok (dget_or "version" dflt d)
  | _ => raise AttributeError "object has no attribute 'get'"
  end.

Record InstallResult := {
  accepted : bool; ir_name : string; ir_version : val; ir_reason : string; displaced_version : val }.

Record Resolved := { res_bundle : PolicyBundle; res_source : pointer; fell_back : bool }.

Section Store.
Context `{Crypto} (key : string).

(** [load_bundle] of an installed version. *)
Definition bundle_for (p : Pack) (version : val) : result (option PolicyBundle) :=
  if negb (truthy version) then Ok None
  else match version with
  | VStr v =>
      match aget (safe v) (bundles p) with
      | Some (JDoc doc) =>
          match parse_bundle doc "bundle" with
          | Ok b => Ok (Some b)
          | Err (Exn BundleError _) => Ok None
          | Err e => Err e
          end
      | Some JBad | None => Ok None
      end
  | _ => raise TypeError "version: untyped field"
  end.

Definition verified (b : PolicyBundle) : bool := vr_ok (verify_bundle b (Some key)).

Definition load_pointer_bundle (p : Pack) (which : pointer) : result (option PolicyBundle) :=
  match read_pointer p which with
  | None => Ok None
  | Some ptr =>
      v ← pointer_version (VStr "") ptr;
      b ← bundle_for p v;
      Ok (match b with Some b => if verified b then Some b else None | None => None end)
  end.

Definition current (p : Pack) : result (option Resolved) :=
  live ← load_pointer_bundle p CURRENT;
  match live with
  | Some b => Ok (Some {| res_bundle := b; res_source := CURRENT; fell_back := false |})
  | None =>
      lkg ← load_pointer_bundle p LAST_KNOWN_GOOD;
      Ok (match lkg with
          | Some b => Some {| res_bundle := b; res_source := LAST_KNOWN_GOOD; fell_back := true |}
          | None => None
          end)
  end.

(** [current_version]; an empty pointer object is falsy. *)
Definition current_version (p : Pack) : result val :=
  match read_pointer p CURRENT with
  | Some ptr => if truthy ptr then pointer_version VNone ptr else Ok VNone
  | None => Ok VNone
  end.

Definition new_pointer (version now : string) : val := VObj [("version", VStr version); ("installed_at", VStr now)].

(** [install]: the writes it makes and what it answers; the pointer that is no object raises
    after the bundle file was written. *)
Definition install (b : PolicyBundle) (now : string) (p : Pack) : list write * result InstallResult :=
  let r := verify_bundle b (Some key) in
  if negb (vr_ok r) then
    ([], Ok {| accepted := false; ir_name := b_name b; ir_version := VStr (b_version b);
               ir_reason := "rejected: " +:+ vr_summary r +:+ match reasons r with w :: _ => " — " +:+ w | [] => "" end;
               displaced_version := VNone |})
  else
    let store_copy := if ahas (safe (b_version b)) (bundles p) then [] else [WBundle (safe (b_version b)) (JDoc (to_dict b))] in
    let go_live := WPointer CURRENT (JDoc (new_pointer (b_version b) now)) in
    let answer displaced := Ok {| accepted := true; ir_name := b_name b; ir_version := VStr (b_version b);
                                  ir_reason := "installed and made current"; displaced_version := displaced |} in
    match read_pointer p CURRENT with
    | None => (store_copy ++ [go_live], answer VNone)
    | Some displaced =>
        match pointer_version VNone displaced with
        | Err e => (store_copy, Err e)
        | Ok v =>
            if py_eqb v (VStr (b_version b)) then (store_copy ++ [go_live], answer VNone)
            else (store_copy ++ [WPointer LAST_KNOWN_GOOD (JDoc displaced); go_live],
                  answer (if truthy displaced then v else VNone))
        end
    end.

(** [rollback] *)
Definition rollback (name : string) (p : Pack) : list write * result InstallResult :=
  let refuse v why := Ok {| accepted := false; ir_name := name; ir_version := v; ir_reason := why;
                            displaced_version := VNone |} in
  match read_pointer p LAST_KNOWN_GOOD with
  | None => ([], refuse (VStr "") "no last-known-good to roll back to")
  | Some lkg =>
      match (v ← pointer_version (VStr "") lkg; b ← bundle_for p v; Ok (v, b)) with
      | Err e => ([], Err e)
      | Ok (v, b) =>
          if negb (match b with Some b => verified b | None => false end) then
            ([], refuse v "last-known-good is missing or no longer verifies")
          else
            let promote := WPointer CURRENT (JDoc lkg) in
            match read_pointer p CURRENT with
            | None => ([promote], Ok {| accepted := true; ir_name := name; ir_version := v;
                                        ir_reason := "rolled back to last-known-good"; displaced_version := VNone |})
            | Some cur =>
                ([promote; WPointer LAST_KNOWN_GOOD (JDoc cur)],
                 dv ← (if truthy cur then pointer_version VNone cur else Ok VNone);
                 Ok {| accepted := true; ir_name := name; ir_version := v;
                       ir_reason := "rolled back to last-known-good"; displaced_version := dv |})
            end
      end
  end.

(** [history]: newest first. *)
Definition history (p : Pack) : list string := isort (fun s t => str_leb t s) (akeys (bundles p)).
End Store.

(** * Lemmas *)
Section StoreLemmas.
Context `{Crypto} (key : string).

Lemma load_pointer_verified p which b : load_pointer_bundle key p which = Ok (Some b) -> verified key b = true.
Proof.
  unfold load_pointer_bundle. destruct (read_pointer p which); [|discriminate].
  intros (v0 & _ & (o & _ & [= Hb])%bind_ok)%bind_ok. destruct o as [b0|]; [|discriminate].
  destruct (verified key b0) eqn:Hv; [|discriminate]. by injection Hb as <-.
Qed.

(** Adding a bundle file under a new name changes no bundle that was there. *)
Lemma bundle_for_add p s c v b : aget s (bundles p) = None -> bundle_for p v = Ok (Some b) ->
  bundle_for (apply_write p (WBundle s c)) v = Ok (Some b).
Proof.
  intros Hs. unfold bundle_for. destruct (negb (truthy v)); [done|]. destruct v as [| | | |v| |]; try done.
  cbn [apply_write bundles]. rewrite aget_aset. case_decide as Hd; [|done]. subst. by rewrite Hs.
Qed.

Lemma bundle_for_pointer p which c v : bundle_for (apply_write p (WPointer which c)) v = bundle_for p v.
Proof. by destruct which. Qed.

Lemma load_pointer_add p s c which b : aget s (bundles p) = None -> load_pointer_bundle key p which = Ok (Some b) ->
  load_pointer_bundle key (apply_write p (WBundle s c)) which = Ok (Some b).
Proof.
  intros Hs. unfold load_pointer_bundle.
  assert (read_pointer (apply_write p (WBundle s c)) which = read_pointer p which) as -> by (by destruct which).
  destruct (read_pointer p which) as [ptr|]; [|done]. intros (v & Hv & (o & Hb & Hr)%bind_ok)%bind_ok.
  destruct o as [b0|]; [|done]. rewrite Hv. cbn [mbind result_bind]. by rewrite (bundle_for_add _ _ _ _ _ Hs Hb).
Qed.

Lemma current_live p b : load_pointer_bundle key p CURRENT = Ok (Some b) ->
  current key p = Ok (Some {| res_bundle := b; res_source := CURRENT; fell_back := false |}).
Proof. unfold current. by intros ->. Qed.

(** The copy of the bundle that installing leaves in the store. *)
Definition store_copy (b : PolicyBundle) (p : Pack) : list write :=
  if ahas (safe (b_version b)) (bundles p) then [] else [WBundle (safe (b_version b)) (JDoc (to_dict b))].
Definition copy_agrees (b : PolicyBundle) (p : Pack) : Prop :=
  aget (safe (b_version b)) (bundles p) = None \/ aget (safe (b_version b)) (bundles p) = Some (JDoc (to_dict b)).

Lemma store_copy_file b p : copy_agrees b p ->
  aget (safe (b_version b)) (bundles (apply_writes p (store_copy b p))) = Some (JDoc (to_dict b)).
Proof.
  unfold store_copy, ahas. intros [Hn|Hs]; [rewrite Hn|by rewrite Hs]. cbn. apply aget_aset_eq.
Qed.

Lemma store_copy_live b p which b0 : load_pointer_bundle key p which = Ok (Some b0) ->
  load_pointer_bundle key (apply_writes p (store_copy b p)) which = Ok (Some b0).
Proof.
  unfold store_copy, ahas. destruct (aget (safe (b_version b)) (bundles p)) eqn:Hs; [done|].
  cbn. by apply load_pointer_add.
Qed.

Lemma store_copy_pointers b p which : read_pointer (apply_writes p (store_copy b p)) which = read_pointer p which.
Proof. unfold store_copy. destruct (ahas _ _); [done|by destruct which]. Qed.

(** A pointer to an installed bundle resolves to it. *)
Lemma load_new_pointer b p now : bundle_wf b -> verified key b = true ->
  aget (safe (b_version b)) (bundles p) = Some (JDoc (to_dict b)) ->
  load_pointer_bundle key (apply_write p (WPointer CURRENT (JDoc (new_pointer (b_version b) now)))) CURRENT = Ok (Some b).
Proof.
  intros Hwf Hv Hf. unfold load_pointer_bundle. cbn [read_pointer pointer_file apply_write current_file].
  unfold new_pointer, pointer_version, VObj. dict_simpl. cbn [mbind result_bind].
  unfold bundle_for. cbn [truthy apply_write bundles]. rewrite Hf, (parse_to_dict b _ Hwf).
  assert (nonempty (b_version b) = true) as ->.
  { destruct Hwf as (_ & Hne & _). unfold nonempty. by apply negb_true_iff, String.eqb_neq. }
  cbn [negb mbind result_bind]. by rewrite Hv.
Qed.

Lemma load_lkg_write p c o : load_pointer_bundle key p CURRENT = Ok o ->
  load_pointer_bundle key (apply_write p (WPointer LAST_KNOWN_GOOD c)) CURRENT = Ok o.
Proof. done. Qed.

Lemma live_pointer p b : load_pointer_bundle key p CURRENT = Ok (Some b) ->
  exists d, read_pointer p CURRENT = Some (VDict d) /\ bundle_for p (dget_or "version" (VStr "") d) = Ok (Some b).
Proof.
  unfold load_pointer_bundle. destruct (read_pointer p CURRENT) as [ptr|]; [|discriminate].
  intros (v & Hv & (o & Hb & [= Ho])%bind_ok)%bind_ok. destruct ptr as [| | | | | |d]; try discriminate.
  injection Hv as <-. exists d. split; [done|]. destruct o as [b1|]; [|discriminate].
  destruct (verified key b1); [|discriminate]. by injection Ho as <-.
Qed.

(** What installing a verified bundle over a live one writes. *)
Lemma install_writes b now p b0 : verified key b = true -> load_pointer_bundle key p CURRENT = Ok (Some b0) ->
  exists d, read_pointer p CURRENT = Some (VDict d) /\
  (install key b now p).1 = store_copy b p
    ++ (if py_eqb (dget_or "version" VNone d) (VStr (b_version b)) then [] else [WPointer LAST_KNOWN_GOOD (JDoc (VDict d))])
    ++ [WPointer CURRENT (JDoc (new_pointer (b_version b) now))].
Proof.
  intros Hv Hl. destruct (live_pointer _ _ Hl) as (d & Hd & _). exists d. split; [done|].
  unfold install. unfold verified in Hv. rewrite Hv, Hd. cbn [negb pointer_version].
  by destruct (py_eqb _ _).
Qed.

Lemma apply_writes_app p l1 l2 : apply_writes p (l1 ++ l2) = apply_writes (apply_writes p l1) l2.
Proof. apply fold_left_app. Qed.

Lemma store_copy_prefix b p k b0 : load_pointer_bundle key p CURRENT = Ok (Some b0) ->
  load_pointer_bundle key (apply_writes p (take k (store_copy b p))) CURRENT = Ok (Some b0).
Proof.
  intros Hl. pose proof (store_copy_live b p CURRENT b0 Hl) as Hs. unfold store_copy in *.
  destruct (ahas _ _); destruct k as [|k]; cbn in *; rewrite ?take_nil; done.
Qed.
End StoreLemmas.

(** C26: Nothing unverified is served. Whatever the files of a pack hold, and whoever wrote them, the
    bundle that the store resolves as current passes verification under the store's key. *)
Theorem current_always_verified `{Crypto} key p r : current key p = Ok (Some r) -> verified key (res_bundle r) = true.
Proof.
  unfold current. intros (o & Hl & Hr)%bind_ok. destruct o as [b|]; [injection Hr as <-; by eapply load_pointer_verified|].
  apply bind_ok in Hr as (o & Hl' & [= Hr]). destruct o as [b|]; [|discriminate]. injection Hr as <-.
  by eapply load_pointer_verified.
Qed.

Definition served (b : PolicyBundle) : result (option Resolved) :=
  Ok (Some {| res_bundle := b; res_source := CURRENT; fell_back := false |}).

(** C27: Installing switches atomically. While a verified bundle replaces a live one, every state the disk
    passes through, so every state a crash or a concurrent reader can see, serves the old
    bundle or the new one; when the writes are done it serves the new one. The file of the
    new version must be absent or already hold the bundle. *)
Theorem install_switches_atomically `{Crypto} key b now p b0 :
  bundle_wf b -> verified key b = true -> copy_agrees b p -> load_pointer_bundle key p CURRENT = Ok (Some b0) ->
  let ws := (install key b now p).1 in
  (forall k, current key (apply_writes p (take k ws)) = served b0 \/ current key (apply_writes p (take k ws)) = served b) /\
  current key (apply_writes p ws) = served b.
Proof.
  intros Hwf Hv Hc Hl. destruct (install_writes key b now p b0 Hv Hl) as (d & _ & ->). cbv zeta.
  set (mid := if py_eqb _ _ then [] else _).
  assert (forall k, load_pointer_bundle key (apply_writes p (store_copy b p ++ take k mid)) CURRENT = Ok (Some b0)) as Hmid.
  { intros k. rewrite apply_writes_app. pose proof (store_copy_live key b p CURRENT b0 Hl) as Hs.
    subst mid. destruct (py_eqb _ _), k; cbn [take]; rewrite ?take_nil; exact Hs. }
  assert (load_pointer_bundle key (apply_writes p (store_copy b p ++ mid ++ [WPointer CURRENT
    (JDoc (new_pointer (b_version b) now))])) CURRENT = Ok (Some b)) as Hnew.
  { rewrite (assoc_L (++)), apply_writes_app. cbn [apply_writes fold_left]. apply load_new_pointer; [done..|].
    rewrite apply_writes_app. pose proof (store_copy_file b p Hc) as Hf. subst mid. by destruct (py_eqb _ _). }
  split; [|by apply current_live]. intros k. rewrite take_app.
  destruct (decide (k <= List.length (store_copy b p))) as [Hk|Hk].
  { left. replace (k - _) with 0 by lia. rewrite take_0, app_nil_r. by apply current_live, store_copy_prefix. }
  rewrite (take_ge (store_copy b p)) by lia. rewrite take_app.
  destruct (decide (k - List.length (store_copy b p) <= List.length mid)) as [Hk'|Hk'].
  - left. replace (k - _ - _) with 0 by lia. rewrite take_0, app_nil_r. apply current_live, Hmid.
  - right. rewrite (take_ge mid), (take_ge [_]) by (cbn; lia). by apply current_live.
Qed.

(** A rollback undoes an install. After installing a verified bundle over a live one of another
    version, rolling back is accepted and serves the earlier bundle again. *)
Theorem rollback_undoes_install `{Crypto} key b now p b0 d name :
  bundle_wf b -> verified key b = true -> copy_agrees b p -> load_pointer_bundle key p CURRENT = Ok (Some b0) ->
  read_pointer p CURRENT = Some (VDict d) -> py_eqb (dget_or "version" VNone d) (VStr (b_version b)) = false ->
  let p1 := apply_writes p (install key b now p).1 in
  let rb := rollback key name p1 in
  (exists r, rb.2 = Ok r /\ accepted r = true) /\ current key (apply_writes p1 rb.1) = served b0.
Proof.
  intros Hwf Hv Hc Hl Hd Hne. destruct (install_writes key b now p b0 Hv Hl) as (d' & Hd' & Hws).
  rewrite Hd in Hd'. injection Hd' as <-. rewrite Hne in Hws. cbv zeta. rewrite Hws. clear Hws.
  assert (exists dc, new_pointer (b_version b) now = VDict dc) as [dc ->] by (by eexists).
  set (q := apply_writes p (store_copy b p)).
  assert (apply_writes p (store_copy b p ++ [WPointer LAST_KNOWN_GOOD (JDoc (VDict d))] ++ [WPointer CURRENT (JDoc (VDict dc))]) =
    {| bundles := bundles q; current_file := Some (JDoc (VDict dc)); lkg_file := Some (JDoc (VDict d)) |}) as ->.
  { by rewrite apply_writes_app. }
  pose proof (store_copy_live key b p CURRENT b0 Hl) as Hq. fold q in Hq.
  destruct (live_pointer key q b0 Hq) as (d1 & Hd1 & Hb0). unfold q in Hd1. rewrite store_copy_pointers, Hd in Hd1.
  injection Hd1 as <-. pose proof (load_pointer_verified key q CURRENT b0 Hq) as Hv0.
  assert (forall c l, bundle_for {| bundles := bundles q; current_file := c; lkg_file := l |} (dget_or "version" (VStr "") d)
    = Ok (Some b0)) as Hfor by done.
  unfold rollback. cbn [read_pointer pointer_file lkg_file current_file pointer_version mbind result_bind].
  rewrite Hfor. cbn [mbind result_bind]. rewrite Hv0. cbn [negb].
  split; [by destruct (truthy (VDict dc)); eexists|]. cbn [fst apply_writes fold_left apply_write]. apply current_live. unfold load_pointer_bundle.
  cbn [read_pointer pointer_file current_file pointer_version mbind result_bind bundles].
  rewrite Hfor. cbn [mbind result_bind]. by rewrite Hv0.
Qed.

(** * A store on disk *)
#[local] Existing Instance echo_crypto.

Definition demo_v1 : PolicyBundle := demo_bundle "v1" "tools: {}".
Definition demo_v2 : PolicyBundle := demo_bundle "v2" "default_action: block".
Definition demo_pack : Pack := apply_writes pack_empty (install "key" demo_v1 "t1" pack_empty).1.

Lemma current_always_verified_witness :
  exists r, current "key" demo_pack = Ok (Some r) /\ verified "key" (res_bundle r) = true.
Proof.
  destruct (current "key" demo_pack) as [[r|]|e] eqn:Hc; [|vm_compute in Hc; discriminate..].
  exists r. split; [reflexivity|]. exact (current_always_verified "key" demo_pack r Hc).
Defined.

Lemma demo_v2_wf : bundle_wf demo_v2.
Proof. repeat split; discriminate. Qed.

Lemma install_switches_atomically_witness :
  let ws := (install "key" demo_v2 "t2" demo_pack).1 in
  List.length ws = 3 /\ current "key" (apply_writes demo_pack ws) = served demo_v2.
Proof.
  intros ws. split; [vm_compute; reflexivity|].
  refine (proj2 (install_switches_atomically "key" demo_v2 "t2" demo_pack demo_v1 demo_v2_wf _ _ _));
    [vm_compute; reflexivity|left; vm_compute; reflexivity|vm_compute; reflexivity].
Defined.

Lemma rollback_undoes_install_witness :
  let p1 := apply_writes demo_pack (install "key" demo_v2 "t2" demo_pack).1 in
  current "key" (apply_writes p1 (rollback "key" "github" p1).1) = served demo_v1.
Proof.
  refine (proj2 (rollback_undoes_install "key" demo_v2 "t2" demo_pack demo_v1
    (fields [("version", VStr "v1"); ("installed_at", VStr "t1")]) "github" demo_v2_wf _ _ _ _ _));
    [vm_compute; reflexivity|left; vm_compute; reflexivity|vm_compute; reflexivity..].
Defined.

(** * Observations *)

(** Installing other content under an installed version is answered as installed and made
    current; the store keeps the old file and serves the old content. *)
Lemma same_version_keeps_old_content :
  let other := demo_bundle "v1" "default_action: block" in
  let '(ws, answer) := install "key" other "t2" demo_pack in
  (exists r, answer = Ok r /\ accepted r = true) /\ current "key" (apply_writes demo_pack ws) = served demo_v1.
Proof. vm_compute. split; [eexists; split; reflexivity|reflexivity]. Qed.

(** An older genuine bundle copied over the live version's file is served as current. *)
Lemma swapped_file_served :
  let p1 := apply_writes demo_pack (install "key" demo_v2 "t2" demo_pack).1 in
  current "key" (apply_write p1 (WBundle "v2" (JDoc (to_dict demo_v1)))) = served demo_v1.
Proof. vm_compute. reflexivity. Qed.

(** When the live bundle is unusable and the last-known-good is being served, installing
    first overwrites the last-known-good pointer with the unusable one: a crash before the
    next write leaves nothing to serve. *)
Lemma install_over_corrupt_goes_dark :
  let p1 := apply_writes demo_pack (install "key" demo_v2 "t2" demo_pack).1 in
  let corrupt := apply_write p1 (WBundle "v2" JBad) in
  let v3 := demo_bundle "v3" "default_action: allow" in
  (exists r, current "key" corrupt = Ok (Some r) /\ res_bundle r = demo_v1 /\ fell_back r = true) /\
  current "key" (apply_writes corrupt (take 2 (install "key" v3 "t3" corrupt).1)) = Ok None.
Proof. vm_compute. split; [eexists; repeat split; reflexivity|reflexivity]. Qed.
