(* ===== verification/Identity.v ===== *)
(** Who is calling: API keys, OIDC tokens and the mapping of claims to roles ([identity/]).
    SHA-256, the JWT library, the JWK parser and the JWKS endpoint are parameters; the
    provider's cache is the state. Times are integers. *)
From S2P Require Import Prelude PyVal Session Rules Loader Pipeline.

(** * API keys ([identity/apikey.py]) *)
Record ApiKeyRecord := { ak_principal : string; key_sha256 : string; ak_roles : list string }.

Definition ApiKeyStore_init (records : list ApiKeyRecord) : list ApiKeyRecord :=
  (fun r => {| ak_principal := ak_principal r; key_sha256 := str_lower (strip (key_sha256 r)); ak_roles := ak_roles r |})
  <$> records.

(** [hmac.compare_digest] of a hex digest and a stored text: non-ASCII text raises. *)
Definition compare_digest (digest stored : string) : result bool :=
  if forallb (fun a => nat_of_ascii a <? 128) (chars stored) then Ok (String.eqb digest stored)
  else raise TypeError "comparing strings with non-ASCII characters is not supported".

Definition hash_key (sha256_hex : string -> string) (key : string) : string := sha256_hex key.

(** The loop visits every record: the last match wins. *)
Definition api_key_resolve (sha256_hex : string -> string) (records : list ApiKeyRecord) (presented : string)
  : result (option Principal) :=
  if negb (nonempty presented) then Ok None
  else fold_res (fun found r =>
         same ← compare_digest (sha256_hex presented) (key_sha256 r);
         Ok (if (same : bool) then Some {| principal_id := ak_principal r; roles := ak_roles r |} else found))
       None records.

(** * Claims to roles ([identity/mapping.py]) *)
Record RoleMapping := {
  subject_claim : string;
  groups_claim : string;
  groups : list (string * string);
  default_role : option string;
}.

(** [{g for g in raw_groups if isinstance(g, str)}]; a mapping iterates over its keys. *)
Definition member_groups (raw : val) : result (list string) :=
  match raw with
  | VStr s => Ok [s]
  | VList l => Ok (omap as_str l)
  | VDict d => Ok (omap (fun k => match k with KStr s => Some s | _ => None end) (akeys d))
  | v => raise TypeError ("'" +:+ type_name v +:+ "' object is not iterable")
  end.

Definition add_role (member : list string) (acc : list string) (gr : string * string) : list string :=
  if bool_decide (gr.1 ∈ member) && negb (bool_decide (gr.2 ∈ acc)) then acc ++ [gr.2] else acc.

Definition roles_for (m : RoleMapping) (member : list string) : list string :=
  match fold_left (add_role member) (groups m) [], default_role m with
  | [], Some (String _ _ as r) => [r]
  | l, _ => l
  end.

Definition to_principal (m : RoleMapping) (claims : pydict) : result Principal :=
  match dget (subject_claim m) claims with
  | Some (VStr (String _ _ as subject)) =>
      member ← member_groups (dget_or (groups_claim m) (VList []) claims);
      Ok {| principal_id := subject; roles := roles_for m member |}
  | _ => raise IdentityError ("token has no usable " +:+ str_repr (subject_claim m)
           +:+ " claim to name the principal — refusing an anonymous caller")
  end.

(** * Token validation ([identity/oidc.py]) *)
Definition DEFAULT_ALGORITHMS : list val :=
  VStr <$> ["RS256"; "RS384"; "RS512"; "ES256"; "ES384"; "ES512"].

Inductive jwt_answer := Claims (c : pydict) | Expired | BadAudience | BadIssuer | JwtError (msg : string).

Record OidcValidator := {
  issuer : string;
  audience : val;                   (* a string, or a list of values *)
  jwks_uri : val;
  ttl : Z;
  algorithms : list val;
  leeway : Z;
}.

Record Jwks (K : Type) := { jwks_keys : list (val * K); fetched_at : Z; fetches : nat }.
Arguments jwks_keys {K} _.
Arguments fetched_at {K} _.
Arguments fetches {K} _.

Section Oidc.
Context {K : Type} (parse_jwk : val -> option K).
(** The [n]-th answer of the JWKS endpoint, and what the JWT library makes of a token: its
    unverified header, and its claims under a key and the validator's expectations. *)
Context (fetch : nat -> result val).
Context (jwt_header : string -> option pydict) (jwt_decode : OidcValidator -> K -> string -> jwt_answer).
Context (now : Z).

Definition no_keys : Jwks K := {| jwks_keys := []; fetched_at := 0; fetches := 0 |}.

Definition parse_entry (parsed : list (val * K)) (entry : val) : list (val * K) :=
  match entry with
  | VDict d =>
      match opt_val (dget "kid" d) with
      | VNone => parsed
      | kid => match parse_jwk entry with
               | Some k => if hashable kid then vset kid k parsed else parsed
               | None => parsed
               end
      end
  | _ => parsed
  end.

Definition refresh (v : OidcValidator) : M (Jwks K) unit :=
  j ← get;
  _ ← modify (fun j => {| jwks_keys := jwks_keys j; fetched_at := fetched_at j; fetches := S (fetches j) |});
  document ← lift (fetch (fetches j));
  let where_ := "JWKS from " +:+ py_str (jwks_uri v) in
  match (match document with VDict d => opt_val (dget "keys" d) | _ => VNone end) with
  | VList ((_ :: _) as entries) =>
      match fold_left parse_entry entries [] with
      | [] => throw (Exn IdentityError (where_ +:+ " had no usable keys"))
      | parsed => modify (fun j => {| jwks_keys := parsed; fetched_at := now; fetches := fetches j |})
      end
  | _ => throw (Exn IdentityError (where_ +:+ " has no keys"))
  end.

Definition signing_key (v : OidcValidator) (kid : val) : M (Jwks K) K :=
  j ← get;
  let stale := (ttl v <? now - fetched_at j)%Z in
  _ ← when (match jwks_keys j with [] => true | _ => stale end) (refresh v);
  _ ← (if hashable kid then mret tt else throw (Exn TypeError "unhashable type"));
  j ← get;
  _ ← when (match vget kid (jwks_keys j) with Some _ => false | None => true end) (refresh v);
  j ← get;
  lift (of_option (vget kid (jwks_keys j))
    (Exn IdentityError ("token signed by unknown key id " +:+ py_repr kid +:+ " (not in the issuer's JWKS)"))).

Definition judge (v : OidcValidator) (a : jwt_answer) : result pydict :=
  match a with
  | Claims c => Ok c
  | Expired => raise IdentityError "token has expired"
  | BadAudience => raise IdentityError ("token audience does not match " +:+ py_repr (audience v))
  | BadIssuer => raise IdentityError ("token issuer does not match " +:+ str_repr (issuer v))
  | JwtError msg => raise IdentityError ("token failed validation: " +:+ msg)
  end.

Definition validate (v : OidcValidator) (token : string) : M (Jwks K) pydict :=
  if negb (nonempty token) then throw (Exn IdentityError "no token presented")
  else
    header ← lift (of_option (jwt_header token) (Exn IdentityError "malformed token header"));
    let alg := opt_val (dget "alg" header) in
    if negb (existsb (py_eqb alg) (algorithms v)) then
      throw (Exn IdentityError ("token algorithm " +:+ py_repr alg +:+ " is not in the accepted set "
                                +:+ py_repr (VList (algorithms v))))
    else
      let kid := opt_val (dget "kid" header) in
      if negb (truthy kid) then throw (Exn IdentityError "token header has no key id (kid)")
      else
        key ← signing_key v kid;
        lift (judge v (jwt_decode v key token)).

(** * The resolver ([identity/resolver.py]) *)
Record IdentityResolver := {
  oidc : option OidcValidator;
  mapping : option RoleMapping;
  api_keys : option (list ApiKeyRecord);
  anonymous : option Principal;
}.

(** [s.split(None, 1)] of a stripped text, when it has two parts. *)
Definition split_scheme (s : string) : option (string * string) :=
  let scheme := take_while (fun a => negb (is_space a)) (chars s) in
  match drop_while is_space (drop_while (fun a => negb (is_space a)) (chars s)) with
  | [] => None
  | rest => Some (of_chars scheme, of_chars rest)
  end.

Context (sha256_hex : string -> string).

Definition resolve_oidc (r : IdentityResolver) (token : string) : M (Jwks K) Principal :=
  match oidc r, mapping r with
  | Some v, Some m => claims ← validate v token; lift (to_principal m claims)
  | _, _ => throw (Exn IdentityError "Bearer token presented but OIDC is not configured")
  end.

Definition resolve_api_key (r : IdentityResolver) (key : string) : M (Jwks K) Principal :=
  match api_keys r with
  | None => throw (Exn IdentityError "API key presented but no API keys are configured")
  | Some store =>
      p ← lift (api_key_resolve sha256_hex store key);
      lift (of_option p (Exn IdentityError "unknown API key"))
  end.

Definition identity_resolve (r : IdentityResolver) (authorization : option string) : M (Jwks K) Principal :=
  match authorization with
  | Some header =>
      if nonempty (strip header) then
        match split_scheme (strip header) with
        | None => throw (Exn IdentityError "malformed Authorization header (expected '<scheme> <credential>')")
        | Some (scheme, rest) =>
            let credential := strip rest in
            if String.eqb (str_lower scheme) "bearer" then resolve_oidc r credential
            else if String.eqb (str_lower scheme) "apikey" then resolve_api_key r credential
            else throw (Exn IdentityError ("unsupported Authorization scheme " +:+ str_repr scheme
                          +:+ " (use 'Bearer <jwt>' or 'ApiKey <key>')"))
        end
      else lift (of_option (anonymous r) (Exn IdentityError "no Authorization header (a credential is required)"))
  | None => lift (of_option (anonymous r) (Exn IdentityError "no Authorization header (a credential is required)"))
  end.
End Oidc.

(** * The configuration file ([identity/config.py]), from the parsed document *)
Definition identity_top : list string := ["schema_version"; "oidc"; "mapping"; "api_keys"].
Definition oidc_fields : list string :=
  ["issuer"; "audience"; "jwks_uri"; "leeway_seconds"; "algorithms"; "jwks_ttl_seconds"].
Definition mapping_fields : list string := ["subject_claim"; "groups_claim"; "default_role"; "groups"].
Definition apikey_fields : list string := ["id"; "key_sha256"; "roles"].

(** [tuple(v)] *)
Definition py_tuple (v : val) : result (list val) :=
  match v with
  | VList l => Ok l
  | VStr s => Ok ((fun a => VStr (String a EmptyString)) <$> chars s)
  | VDict d => Ok (key_val <$> akeys d)
  | v => raise TypeError ("'" +:+ type_name v +:+ "' object is not iterable")
  end.

Section Config.
(** [float(v)], a number of seconds. *)
Context (py_float : val -> result Z).

Definition claim_field (name dflt : string) (d : pydict) : result string :=
  str_field name (dget_or name (VStr dflt) d).

Definition build_mapping (path : string) (cfg : val) : result RoleMapping :=
  cfg ← (if truthy cfg then of_option (as_dict cfg) (Exn IdentityError (path +:+ ": `mapping` must be a mapping"))
         else Ok []);
  _ ← check_unknown IdentityError (path +:+ ": unknown mapping field(s) ") mapping_fields cfg;
  gs ← of_option (as_dict (dget_or "groups" (VDict []) cfg))
         (Exn IdentityError (path +:+ ": mapping.groups must be a mapping of group->role"));
  sc ← claim_field "subject_claim" "sub" cfg;
  gc ← claim_field "groups_claim" "groups" cfg;
  dr ← opt_str_field "default_role" (opt_val (dget "default_role" cfg));
  Ok {| subject_claim := sc; groups_claim := gc;
        groups := fold_left (fun acc kv => aset (key_str kv.1) (py_str kv.2) acc) gs []; default_role := dr |}.

Definition build_oidc (path : string) (cfg mapping_cfg : val) : result (option OidcValidator * option RoleMapping) :=
  match cfg with
  | VNone => Ok (None, None)
  | VDict d =>
      _ ← check_unknown IdentityError (path +:+ ": unknown oidc field(s) ") oidc_fields d;
      iss ← match dget "issuer" d with
            | Some (VStr (String _ _ as s)) => Ok s
            | _ => raise IdentityError (path +:+ ": oidc.issuer is required")
            end;
      aud ← match opt_val (dget "audience" d) with
            | VList l => Ok (VList l)
            | VStr (String _ _ as s) => Ok (VStr s)
            | _ => raise IdentityError (path +:+ ": oidc.audience is required (string or list)")
            end;
      let uri := opt_val (dget "jwks_uri" d) in
      algs ← py_tuple (dget_or "algorithms" (VList DEFAULT_ALGORITHMS) d);
      t ← py_float (dget_or "jwks_ttl_seconds" (VInt 300) d);
      lw ← py_float (dget_or "leeway_seconds" (VInt 0) d);
      m ← build_mapping path mapping_cfg;
      Ok (Some {| issuer := iss; audience := aud;
                  jwks_uri := if truthy uri then uri else VStr (rstrip_by (fun a => Ascii.eqb a "/") iss +:+ "/v1/keys");
                  ttl := t; algorithms := algs; leeway := lw |}, Some m)
  | _ => raise IdentityError (path +:+ ": `oidc` must be a mapping")
  end.

Definition build_api_key (path : string) (ie : nat * val) : result ApiKeyRecord :=
  let where_ := path +:+ ": api_keys[" +:+ pretty ie.1 +:+ "]" in
  match ie.2 with
  | VDict d =>
      _ ← require (match unknown_keys apikey_fields d with [] => true | _ => false end) IdentityError
            (where_ +:+ " has unexpected fields");
      pid ← match dget "id" d with
            | Some (VStr (String _ _ as s)) => Ok s
            | _ => raise IdentityError (where_ +:+ ".id is required")
            end;
      digest ← match dget "key_sha256" d with
               | Some (VStr s) => if String.length (strip s) =? 64 then Ok s else raise IdentityError (where_ +:+ ".key_sha256")
               | _ => raise IdentityError (where_ +:+ ".key_sha256")
               end;
      rs ← py_tuple (dget_or "roles" (VList []) d);
      rs ← map_res (str_field "roles") rs;
      Ok {| ak_principal := pid; key_sha256 := digest; ak_roles := rs |}
  | _ => raise IdentityError (where_ +:+ " has unexpected fields")
  end.

Definition build_api_keys (path : string) (cfg : val) : result (option (list ApiKeyRecord)) :=
  if negb (truthy cfg) then Ok None
  else match cfg with
  | VList l => rs ← map_res (build_api_key path) (enumerate l); Ok (Some (ApiKeyStore_init rs))
  | _ => raise IdentityError (path +:+ ": `api_keys` must be a list")
  end.

Definition identity_config (path : string) (document : val) : result IdentityResolver :=
  doc ← of_option (as_dict document) (Exn IdentityError (path +:+ ": identity config must be a mapping"));
  _ ← require (py_eqb (opt_val (dget "schema_version" doc)) (VInt 1)) IdentityError
        (path +:+ ": identity config needs schema_version: 1");
  _ ← check_unknown IdentityError (path +:+ ": unknown top-level field(s) ") identity_top doc;
  let oidc_cfg := opt_val (dget "oidc" doc) in
  let api_cfg := opt_val (dget "api_keys" doc) in
  _ ← require (negb (is_none oidc_cfg && negb (truthy api_cfg))) IdentityError
        (path +:+ ": identity config authenticates nobody — configure `oidc`, `api_keys`, or both");
  '(v, m) ← build_oidc path oidc_cfg (opt_val (dget "mapping" doc));
  ks ← build_api_keys path api_cfg;
  Ok {| oidc := v; mapping := m; api_keys := ks; anonymous := None |}.
End Config.

(** * What an accepted credential means *)
Section Sound.
Context {K : Type} (parse_jwk : val -> option K) (fetch : nat -> result val).
Context (jwt_header : string -> option pydict) (jwt_decode : OidcValidator -> K -> string -> jwt_answer).
Context (now : Z) (sha256_hex : string -> string).

Lemma M_bind_ok {S A B} (m : M S A) (f : A -> M S B) s b s' :
  (m ≫= f) s = (Ok b, s') <-> exists a s1, m s = (Ok a, s1) /\ f a s1 = (Ok b, s').
Proof. unfold mbind, M_bind. destruct (m s) as [[a|e] s1]; naive_solver. Qed.

(** The key a token is checked under is one the cache holds at the end. *)
Lemma signing_key_cached v kid j k j' : signing_key parse_jwk fetch now v kid j = (Ok k, j') -> vget kid (jwks_keys j') = Some k.
Proof.
  unfold signing_key. rewrite M_bind_ok. intros (j0 & j1 & _ & H). apply M_bind_ok in H as (u1 & j2 & _ & H).
  apply M_bind_ok in H as (u2 & j3 & _ & H). apply M_bind_ok in H as (j4 & j5 & _ & H).
  apply M_bind_ok in H as (u3 & j6 & _ & H). apply M_bind_ok in H as (j7 & j8 & [= -> ->] & H).
  unfold lift in H. injection H as H ->. by destruct (vget kid (jwks_keys j')); simplify_eq/=.
Qed.

(** A token that validates: its algorithm is accepted, its key is published, and the
    library verified it under that key. *)
Definition token_ok (v : OidcValidator) (j : Jwks K) (token : string) (claims : pydict) : Prop :=
  exists header kid key, jwt_header token = Some header /\
    (exists a, a ∈ algorithms v /\ py_eqb (opt_val (dget "alg" header)) a = true) /\
    dget "kid" header = Some kid /\ vget kid (jwks_keys j) = Some key /\ jwt_decode v key token = Claims claims.

Lemma validate_ok v token j claims j' :
  validate parse_jwk fetch jwt_header jwt_decode now v token j = (Ok claims, j') -> token_ok v j' token claims.
Proof.
  unfold validate. destruct (nonempty token); [|discriminate]. cbn [negb]. rewrite M_bind_ok.
  intros (header & j1 & Hh & H). unfold lift in Hh. injection Hh as Hh ->.
  destruct (jwt_header token) as [h|] eqn:Ht; [|discriminate]. injection Hh as ->.
  destruct (existsb _ _) eqn:Ha; [|discriminate]. cbn [negb] in H.
  destruct (dget "kid" header) as [kid|] eqn:Hk; [|discriminate]. cbn [opt_val] in H.
  destruct (truthy kid); [|discriminate]. cbn [negb] in H.
  apply M_bind_ok in H as (key & j2 & Hs & H). unfold lift in H. injection H as H ->.
  apply signing_key_cached in Hs. apply existsb_exists in Ha as (a & Hin & Ha).
  exists header, kid, key. split_and!; try done.
  - exists a. split; [by apply list_elem_of_In|done].
  - destruct (jwt_decode v key token); try discriminate. by injection H as ->.
Qed.

Lemma api_key_fold presented records found p :
  fold_res (fun found r => same ← compare_digest (sha256_hex presented) (key_sha256 r);
    Ok (if (same : bool) then Some {| principal_id := ak_principal r; roles := ak_roles r |} else found)) found records = Ok (Some p) ->
  found = Some p \/ exists r, r ∈ records /\ key_sha256 r = sha256_hex presented /\
    p = {| principal_id := ak_principal r; roles := ak_roles r |}.
Proof.
  revert found. induction records as [|r records IH]; intros found; [intros [= ->]; by left|].
  cbn [fold_res]. intros (f & (same & Hc & [= <-])%bind_ok & H)%bind_ok. apply IH in H as [H|(r' & Hr' & H)].
  - destruct same; [|by left]. injection H as <-. right. exists r. split; [apply list_elem_of_here|].
    split; [|done]. unfold compare_digest in Hc. destruct (forallb _ _); [|discriminate]. injection Hc as Hc%String.eqb_eq.
    by symmetry.
  - right. exists r'. split; [by apply list_elem_of_further|done].
Qed.
End Sound.


(** * A deployment *)
Definition demo_validator : OidcValidator :=
  {| issuer := "https://idp"; audience := VStr "gw"; jwks_uri := VStr "https://idp/v1/keys"; ttl := 300;
     algorithms := DEFAULT_ALGORITHMS; leeway := 0 |}.
Definition demo_mapping : RoleMapping :=
  {| subject_claim := "sub"; groups_claim := "groups"; groups := [("admins", "admin"); ("devs", "dev")];
     default_role := None |}.
Definition demo_resolver : IdentityResolver :=
  {| oidc := Some demo_validator; mapping := Some demo_mapping; api_keys := None; anonymous := None |}.
Definition demo_claims : pydict := fields [("sub", VStr "alice"); ("groups", strs ["devs"; "admins"])].
Definition demo_header (token : string) : option pydict :=
  if String.eqb token "good" then Some (fields [("alg", VStr "RS256"); ("kid", VStr "k1")]) else None.
Definition demo_fetch (n : nat) : result val := Ok (VObj [("keys", VList [VObj [("kid", VStr "k1")]])]).
Definition demo_resolve (h : string) := identity_resolve (fun _ => Some 7) demo_fetch demo_header
  (fun _ k token => if k =? 7 then Claims demo_claims else JwtError "bad signature") 1000 (fun s => s) demo_resolver (Some h)
  no_keys.


(** * Roles *)
Lemma fold_add_role member gs acc : NoDup acc ->
  NoDup (fold_left (add_role member) gs acc) /\
  (forall r, r ∈ fold_left (add_role member) gs acc <-> r ∈ acc \/ exists g, (g, r) ∈ gs /\ g ∈ member) /\
  head (fold_left (add_role member) gs acc) =
    match acc with a :: _ => Some a | [] => snd <$> List.find (fun gr => bool_decide (gr.1 ∈ member)) gs end.
Proof.
  revert acc. induction gs as [|[g r0] gs IH]; intros acc Hnd; cbn [fold_left].
  { split_and!; [done| |by destruct acc]. intros r. set_solver. }
  assert (NoDup (add_role member acc (g, r0))) as Hnd'.
  { unfold add_role. cbn. repeat case_bool_decide; cbn; try done. apply NoDup_app.
    split_and!; [done|set_solver|apply NoDup_singleton]. }
  destruct (IH _ Hnd') as (H1 & H2 & H3). split_and!; [done| |].
  - intros r. rewrite H2. setoid_rewrite elem_of_cons. unfold add_role. cbn. repeat case_bool_decide; cbn; set_solver.
  - rewrite H3. unfold add_role. cbn. case_bool_decide; cbn; [|by destruct acc].
    case_bool_decide; cbn; [|by destruct acc]. by destruct acc; [set_solver|].
Qed.

(** Roles come from the configuration, in its order. The principal of a token is named by a
    non-empty subject; its roles are, each once, exactly those of the configured groups the
    token lists, or the default role when there is none; and the first role, the one the
    policy uses, is the role of the first configured group that the token lists. *)
Theorem roles_follow_config m claims p : to_principal m claims = Ok p ->
  exists member, member_groups (dget_or (groups_claim m) (VList []) claims) = Ok member /\
    principal_id p <> "" /\ NoDup (roles p) /\
    (forall r, r ∈ roles p <-> (exists g, (g, r) ∈ groups m /\ g ∈ member) \/
       (r <> "" /\ default_role m = Some r /\ forall g r', (g, r') ∈ groups m -> g ∉ member)) /\
    first_role p = match List.find (fun gr => bool_decide (gr.1 ∈ member)) (groups m) with
                   | Some gr => Some gr.2
                   | None => match default_role m with Some (String _ _ as r) => Some r | _ => None end
                   end.
Proof.
  unfold to_principal. destruct (dget (subject_claim m) claims) as [[| | | |[|a s]| |]|]; try discriminate.
  intros (member & Hm & [= <-])%bind_ok. exists member. split; [done|]. split; [done|]. unfold first_role. cbn [roles].
  destruct (fold_add_role member (groups m) [] (NoDup_nil_2)) as (H1 & H2 & H3). unfold roles_for.
  destruct (fold_left (add_role member) (groups m) []) as [|r0 rs] eqn:Hf.
  - assert (forall g r', (g, r') ∈ groups m -> g ∉ member) as Hno.
    { intros g r' Hg Hin. eapply not_elem_of_nil. apply (H2 r'). right. eauto. }
    cbn [head] in H3. destruct (List.find _ _) as [gr|] eqn:Hfi; [discriminate H3|].
    destruct (default_role m) as [[|c d]|] eqn:Hd.
    + split_and!; [constructor| |done]. intros r. split; [by intros ?%not_elem_of_nil|].
      intros [(g & Hg & Hin)|(Hne & [= <-] & _)]; [by destruct (Hno _ _ Hg)|done].
    + split_and!; [apply NoDup_singleton| |done]. intros r. rewrite list_elem_of_singleton. split.
      * intros ->. right. done.
      * intros [(g & Hg & Hin)|(_ & [= <-] & _)]; [by destruct (Hno _ _ Hg)|done].
    + split_and!; [constructor| |done]. intros r. split; [by intros ?%not_elem_of_nil|].
      intros [(g & Hg & Hin)|(_ & [=] & _)]. by destruct (Hno _ _ Hg).
  - split_and!; [done| |].
    + intros r. rewrite H2. split; [intros [?%not_elem_of_nil|?]; [done|by left]|].
      intros [?|(_ & _ & Hno)]; [by right|]. exfalso.
      destruct (proj1 (H2 r0)) as [?%not_elem_of_nil|(g & Hg & Hin)]; [apply list_elem_of_here|done|by destruct (Hno _ _ Hg)].
    + cbn in *. rewrite H3. by destruct (List.find _ _).
Qed.

Lemma roles_follow_config_witness :
  exists p, to_principal demo_mapping demo_claims = Ok p /\ first_role p = Some "admin".
Proof.
  destruct (to_principal demo_mapping demo_claims) as [p|e] eqn:Hp; [|vm_compute in Hp; discriminate].
  exists p. split; [reflexivity|].
  destruct (roles_follow_config _ _ _ Hp) as (member & Hm & _ & _ & _ & Hf). rewrite Hf.
  vm_compute in Hm. injection Hm as <-. vm_compute. reflexivity.
Defined.

(** * Observations *)

(** A configuration may name a symmetric algorithm, or none at all; it is then accepted. *)
Lemma symmetric_algorithm_accepted :
  exists r v, identity_config (fun _ => Ok 0%Z) "identity.yaml"
    (VObj [("schema_version", VInt 1);
           ("oidc", VObj [("issuer", VStr "https://idp"); ("audience", VStr "gw"); ("algorithms", strs ["HS256"; "none"])])])
    = Ok r /\ oidc r = Some v /\ algorithms v = [VStr "HS256"; VStr "none"].
Proof. eexists _, _. split; [vm_compute; reflexivity|]. split; reflexivity. Qed.

(** A null groups claim raises an error that is no identity error. *)
Lemma null_groups_type_error :
  exists msg, to_principal demo_mapping (fields [("sub", VStr "alice"); ("groups", VNone)]) = raise TypeError msg.
Proof. eexists. vm_compute. reflexivity. Qed.
