(* ===== verification/IdentityConfig.v ===== *)
(** What identity reads from outside: the configuration file of [identity/config.py] and the key
    document of [identity/oidc.py]. *)
From S2P Require Import Prelude PyVal Json Rules Loader Identity.

(** * The configuration file *)
Section File.
(** The file system; [yaml.safe_load], with the text of a [YAMLError]; [float]. *)
Context (read : string -> option string) (yaml_load : string -> string + val) (py_float : val -> result Z).

Definition parse (text path : string) : result val :=
  if String.eqb (split_suffix (base_name path)).2 ".json" then
    match json_loads text with
    | Err (Exn JSONDecodeError msg) => raise IdentityError (path +:+ ": not valid JSON (" +:+ msg +:+ ")")
    | r => r
    end
  else match yaml_load text with
       | inl msg => raise IdentityError (path +:+ ": not valid YAML (" +:+ msg +:+ ")")
       | inr v => Ok v
       end.

Definition load_identity_config (path : string) : result IdentityResolver :=
  text ← of_option (read path) (Exn IdentityError ("identity config not found: " +:+ path));
  document ← parse text path;
  identity_config py_float path document.
End File.

(** * The key document *)

(** [_require_pyjwt] *)
Definition require_pyjwt (installed : bool) : result unit :=
  require installed IdentityError
    ("OIDC token validation needs the [oidc] extra (pyjwt[crypto]): "
     +:+ "pip install 'mcp-gateway[oidc]'. Without it, a signature cannot be "
     +:+ "verified and the request is refused rather than trusted.").

(** [_http_fetch]; [urlopen] gives the body, or the error of the connection or of its text. *)
Definition http_fetch (urlopen : string -> result string) (url : string) : result val :=
  if startswith "https://" url then
    match (body ← urlopen url; json_loads body) with
    | Ok v => Ok v
    | Err e => raise IdentityError ("could not fetch JWKS from " +:+ url +:+ ": " +:+ exn_msg e)
    end
  else raise IdentityError ("JWKS URL must be https, got " +:+ str_repr url).

(** A fetch reads nothing over a plain connection, and fails as an identity error only. *)
Lemma fetch_fails_closed urlopen url : match http_fetch urlopen url with
  | Ok v => startswith "https://" url = true /\ exists body, urlopen url = Ok body /\ json_loads body = Ok v
  | Err e => exn_cls e = IdentityError
  end.
Proof.
  unfold http_fetch. destruct (startswith "https://" url); [|done].
  destruct (urlopen url) as [body|e]; [|done]. cbn [mbind result_bind]. destruct (json_loads body) eqn:Hl; [|done]. eauto.
Qed.

(** No URL that is not https makes the program open a connection at all. *)
Lemma plain_url_not_opened urlopen urlopen' url : startswith "https://" url = false -> http_fetch urlopen url = http_fetch urlopen' url.
Proof. unfold http_fetch. by intros ->. Qed.

(** A file that is loaded says who is authenticated: a file that is missing, that is no mapping, of
    another version, with unknown fields, or that authenticates nobody is refused. *)
Lemma loaded_config_authenticates read yaml_load py_float path r : load_identity_config read yaml_load py_float path = Ok r ->
  exists text doc, read path = Some text /\ parse yaml_load text path = Ok (VDict doc) /\
    py_eqb (opt_val (dget "schema_version" doc)) (VInt 1) = true /\
    (opt_val (dget "oidc" doc) <> VNone \/ truthy (opt_val (dget "api_keys" doc)) = true).
Proof.
  unfold load_identity_config. intros (text & Ht & (document & Hd & Hc)%bind_ok)%bind_ok.
  destruct (read path) as [text'|]; [|done]. injection Ht as ->. unfold identity_config in Hc.
  apply bind_ok in Hc as (doc & Hdoc & (u1 & Hv & (u2 & _ & (u3 & Hn & _)%bind_ok)%bind_ok)%bind_ok).
  destruct document as [| | | | | |d]; try done. injection Hdoc as ->. exists text, doc. split; [done|]. split; [done|].
  unfold require in Hv, Hn. split; [by destruct (py_eqb _ _)|].
  destruct (opt_val (dget "oidc" doc)); try (by left). right. by destruct (truthy _).
Qed.
