(* ===== verification/Backtest.v ===== *)
(** Replaying recorded calls through a candidate policy: [policy/backtest.py], and the
    synthetic log of [policy/ci.py]. The log is read by [Spool.read_spool]; recorded tool and
    role names, actions and stages are taken to be strings or null, anything else is reported
    as an untyped field. *)
From S2P Require Import Prelude PyVal Json Glob Session Rules Loader Merge Engine Approvals Redaction Protocol Pipeline Gateway Spool.

Definition ALLOWED_EVENT := "tool_call_allowed".
Definition BLOCKED_EVENT := "tool_call_blocked".
Definition BLOCKED_SUSPENDED_EVENT := "tool_call_denied_session_suspended".

Inductive call_outcome := allowed | blocked.
#[export] Instance call_outcome_eq_dec : EqDecision call_outcome.
Proof. solve_decision. Defined.

(** What identical calls share: (tool, role, old_outcome, old_action, old_stage). *)
Record call_key := {
  k_tool : string;
  k_role : option string;
  k_outcome : call_outcome;
  k_action : option string;
  k_stage : option string;
}.
#[export] Instance call_key_eq_dec : EqDecision call_key.
Proof. solve_decision. Defined.

Inductive change_kind := kind_unchanged | newly_blocked | newly_allowed | action_changed.
#[export] Instance change_kind_eq_dec : EqDecision change_kind.
Proof. solve_decision. Defined.

Record ReplayedCall := {
  rc_key : call_key;
  rc_new_action : val;
  rc_new_outcome : call_outcome;
  rc_count : nat;
  rc_kind : change_kind;
}.
Definition rc_changed (c : ReplayedCall) : bool := bool_decide (rc_kind c <> kind_unchanged).

Record BacktestReport := {
  policy_source : string;
  calls_examined : nat;
  distinct_calls : nat;
  bt_changed : list ReplayedCall;
  n_unchanged : nat;
  n_newly_blocked : nat;
  n_newly_allowed : nat;
  n_action_changed : nat;
  bt_bad_lines : nat;
}.

(** [source]: the layers' names. *)
Definition engine_source (e : PolicyEngine) : string := join " + " (layer_names e).

Definition call_outcome_of (action : val) (deny_set : list string) : result call_outcome :=
  b ← in_frozenset action deny_set; Ok (if (b : bool) then blocked else allowed).

(** [effective_deny_set()]: the deny-only actions of a gateway with a redaction service. *)
Definition effective_deny_set (svc : RedactionService) : list string :=
  (List.filter (fun nh => terminal_deny nh.2) (build_action_handlers (Some svc) None)).*1.
(** [denying_actions()]: those of the bare registry. *)
Definition registry_denying_actions : list string :=
  (List.filter (fun nh => terminal_deny nh.2) (build_action_handlers None None)).*1.

(** A sorted set of strings, [sorted(set(l))]. *)
Definition sorted_set (l : list string) : list string := isort str_leb (remove_dups l).

(** The role maps of [describe()["rules"]] are the overlays of the rules. *)
Definition declared_roles (e : PolicyEngine) : list string :=
  sorted_set (concat ((fun pc => akeys (overlays pc.2)) <$> rules e)).

(** The recorded call of an audit event, if it is one. *)
Definition recorded_call (ev : pydict) : result (option call_key) :=
  let name := opt_val (dget "event" ev) in
  let named s := py_eqb name (VStr s) in
  let key o (a st : option val) : result (option call_key) :=
    match dget "tool" ev with
    | None | Some VNone => Ok None
    | Some t =>
        tool ← str_field "tool" t;
        role ← opt_str_field "role" (opt_val (dget "role" ev));
        action ← opt_str_field "action" (opt_val a);
        stage ← opt_str_field "stage" (opt_val st);
        Ok (Some {| k_tool := tool; k_role := role; k_outcome := o; k_action := action; k_stage := stage |})
    end in
  if named ALLOWED_EVENT then key allowed (dget "action" ev) None
  else if named BLOCKED_EVENT || named BLOCKED_SUSPENDED_EVENT then key blocked None (dget "stage" ev)
  else Ok None.

Definition bucket_add (buckets : list (call_key * nat)) (k : call_key) : list (call_key * nat) :=
  aset k (aget_or k 0 buckets + 1) buckets.
Definition bucketed (ks : list call_key) : list (call_key * nat) := fold_left bucket_add ks [].

Definition kind_of (k : call_key) (new_action : val) (new_outcome : call_outcome) : change_kind :=
  if decide (k_outcome k = new_outcome) then
    match k_outcome k, k_action k with
    | allowed, Some a => if py_eqb (VStr a) new_action then kind_unchanged else action_changed
    | _, _ => kind_unchanged
    end
  else match new_outcome with blocked => newly_blocked | allowed => newly_allowed end.

Definition replay_one (e : PolicyEngine) (deny : list string) (kc : call_key * nat) : result ReplayedCall :=
  d ← evaluate e (k_tool kc.1) (k_role kc.1);
  o ← call_outcome_of (d_action d) deny;
  Ok {| rc_key := kc.1; rc_new_action := d_action d; rc_new_outcome := o; rc_count := kc.2;
        rc_kind := kind_of kc.1 (d_action d) o |}.

(** Blocks first, then allows, then action changes; by volume. *)
Definition kind_order (k : change_kind) : nat :=
  match k with newly_blocked => 0 | newly_allowed => 1 | action_changed => 2 | kind_unchanged => 9 end.
Definition disruptive_leb (c c' : ReplayedCall) : bool :=
  let o := kind_order (rc_kind c) in let o' := kind_order (rc_kind c') in
  (o <? o') || ((o =? o') && (rc_count c' <=? rc_count c)).

Definition count_kind (k : change_kind) (cs : list ReplayedCall) : nat :=
  List.length (List.filter (fun c => bool_decide (rc_kind c = k)) cs).

(** The body of [backtest_policy], over the events read. *)
Definition replay (e : PolicyEngine) (deny : list string) (events : list pydict) (bad : nat) : result BacktestReport :=
  ks ← map_res recorded_call events;
  let keys := omap id ks in
  let buckets := bucketed keys in
  calls ← map_res (replay_one e deny) buckets;
  Ok {| policy_source := engine_source e; calls_examined := List.length keys; distinct_calls := List.length buckets;
        bt_changed := isort disruptive_leb (List.filter rc_changed calls);
        n_unchanged := count_kind kind_unchanged calls; n_newly_blocked := count_kind newly_blocked calls;
        n_newly_allowed := count_kind newly_allowed calls; n_action_changed := count_kind action_changed calls;
        bt_bad_lines := bad |}.

Definition backtest_policy (file : option bytes) (e : PolicyEngine) (deny : list string) : result BacktestReport :=
  r ← read_spool file 0;
  replay e deny (r_event <$> records r) (bad_lines r).

(** ** The synthetic log of the self check ([policy/ci.py]) *)
Definition synthetic_event (e : PolicyEngine) (deny : list string) (tool : string) (role : option string)
  : result pydict :=
  d ← evaluate e tool role;
  b ← in_frozenset (d_action d) deny;
  Ok (fields ([("schema_version", VInt 1); ("event", VStr (if (b : bool) then BLOCKED_EVENT else ALLOWED_EVENT));
               ("tool", VStr tool); ("role", opt_str role)]
              ++ if b then [("stage", VStr "action")] else [("action", d_action d)])).

Definition synthetic_log (e : PolicyEngine) (deny tools : list string) (roles : list (option string))
  : result (list pydict) :=
  map_res (fun tr => synthetic_event e deny tr.1 tr.2) (t ← tools; (fun r => (t, r)) <$> roles).

(** * What a report says *)
Lemma bucketed_snoc ks k : bucketed (ks ++ [k]) = bucket_add (bucketed ks) k.
Proof. unfold bucketed. by rewrite fold_left_app. Qed.

Definition occurrences (k : call_key) (ks : list call_key) : nat := List.length (filter (k =.) ks).

Lemma occurrences_snoc k ks k0 : occurrences k (ks ++ [k0]) = occurrences k ks + (if decide (k = k0) then 1 else 0).
Proof. unfold occurrences. rewrite filter_app, length_app. cbn. unfold filter, list_filter. by case_decide. Qed.

Lemma occurrences_fresh k ks : k ∉ ks -> occurrences k ks = 0.
Proof.
  induction ks as [|k0 ks IH] using rev_ind; [done|]. rewrite occurrences_snoc. intros Hk.
  rewrite decide_False by (intros ->; apply Hk; set_solver). rewrite IH by set_solver. done.
Qed.

(** A bucket per distinct call, with the number of its occurrences. *)
Lemma bucketed_spec ks : NoDup (akeys (bucketed ks)) /\
  (forall k n, aget k (bucketed ks) = Some n <-> k ∈ ks /\ n = occurrences k ks).
Proof.
  induction ks as [|k0 ks [IHn IH]] using rev_ind; [split; [constructor|]; cbn; set_solver|].
  rewrite bucketed_snoc. unfold bucket_add. split; [by apply NoDup_aset|]. intros k n.
  rewrite aget_aset, occurrences_snoc. case_decide as Hk.
  - subst k0. assert (aget_or k 0 (bucketed ks) = occurrences k ks) as ->.
    { unfold aget_or. destruct (aget k (bucketed ks)) as [m|] eqn:Hm; [by apply IH in Hm as [_ ->]|].
      rewrite occurrences_fresh; [done|]. intros Hin. pose proof (proj2 (IH k _) (conj Hin eq_refl)). congruence. }
    split; [intros [= <-]; set_solver|by intros [_ ->]].
  - rewrite Nat.add_0_r, IH. set_solver.
Qed.

Lemma bucketed_elem ks k n : (k, n) ∈ bucketed ks <-> k ∈ ks /\ n = occurrences k ks.
Proof.
  destruct (bucketed_spec ks) as [Hn Hb]. rewrite <- Hb. split; [by apply elem_aget|apply aget_Some_elem].
Qed.

Lemma count_kinds cs : List.length cs =
  count_kind kind_unchanged cs + count_kind newly_blocked cs + count_kind newly_allowed cs + count_kind action_changed cs.
Proof.
  unfold count_kind. induction cs as [|c cs IH]; [done|]. cbn. destruct (rc_kind c); repeat case_bool_decide; cbn; try done; lia.
Qed.

Lemma length_changed cs : List.length (List.filter rc_changed cs) =
  count_kind newly_blocked cs + count_kind newly_allowed cs + count_kind action_changed cs.
Proof.
  unfold count_kind, rc_changed. induction cs as [|c cs IH]; [done|]. cbn. destruct (rc_kind c); repeat case_bool_decide; cbn; try done; lia.
Qed.

(** The policy decides a call the way the log says it went. *)
Definition agrees (k : call_key) (action : val) (o : call_outcome) : Prop :=
  o = k_outcome k /\ (o = allowed -> forall a, k_action k = Some a -> action = VStr a).

Lemma py_eqb_str a v : py_eqb (VStr a) v = true <-> v = VStr a.
Proof. destruct v; cbn; try (split; discriminate). rewrite String.eqb_eq. split; [by intros ->|by intros [= ->]]. Qed.

Lemma kind_of_agrees k action o : kind_of k action o = kind_unchanged <-> agrees k action o.
Proof.
  unfold kind_of, agrees. destruct (decide (k_outcome k = o)) as [<-|Hne]; [|split; [by destruct o|intros [-> _]; done]].
  destruct (k_outcome k); [|split; [by split|done]]. destruct (k_action k) as [a|]; [|split; [by split|done]].
  destruct (py_eqb (VStr a) action) eqn:He.
  - apply py_eqb_str in He. subst. split; [split; [done|by intros _ ? [= <-]]|done].
  - split; [done|]. intros [_ Ha]. rewrite (Ha eq_refl a eq_refl), (proj2 (py_eqb_str a _) eq_refl) in He. done.
Qed.

Lemma replay_one_ok e deny k n c : replay_one e deny (k, n) = Ok c <->
  exists d o, evaluate e (k_tool k) (k_role k) = Ok d /\ call_outcome_of (d_action d) deny = Ok o /\
    c = {| rc_key := k; rc_new_action := d_action d; rc_new_outcome := o; rc_count := n;
           rc_kind := kind_of k (d_action d) o |}.
Proof.
  unfold replay_one. cbn [fst snd]. split.
  - intros (d & Hd & (o & Ho & [= <-])%bind_ok)%bind_ok. by exists d, o.
  - intros (d & o & Hd & Ho & ->). rewrite Hd. cbn. by rewrite Ho.
Qed.

Lemma rc_changed_spec c : rc_changed c = true <-> rc_kind c <> kind_unchanged.
Proof. apply bool_decide_eq_true. Qed.

Lemma disruptive_total c c' : disruptive_leb c c' = true \/ disruptive_leb c' c = true.
Proof.
  unfold disruptive_leb. rewrite !orb_true_iff, !andb_true_iff, !Nat.ltb_lt, !Nat.leb_le, !Nat.eqb_eq. lia.
Qed.
Lemma disruptive_trans c1 c2 c3 : disruptive_leb c1 c2 = true -> disruptive_leb c2 c3 = true -> disruptive_leb c1 c3 = true.
Proof.
  unfold disruptive_leb. rewrite !orb_true_iff, !andb_true_iff, !Nat.ltb_lt, !Nat.leb_le, !Nat.eqb_eq. lia.
Qed.

(** A backtest reports exactly the recorded calls the policy decides differently. Every
    decided call of the log is re-evaluated; the rows are, once per distinct call and with the
    number of its occurrences, those whose outcome differs from the recorded one, or whose
    recorded action does; each is classified by the direction it moves, the rows are sorted
    most disruptive first, and the totals add up. *)
Theorem backtest_exact e deny events bad r : replay e deny events bad = Ok r ->
  exists ks, Forall2 (fun ev k => recorded_call ev = Ok k) events ks /\
    let keys := omap id ks in
    calls_examined r = List.length keys /\
    (forall k, k ∈ keys -> exists d o, evaluate e (k_tool k) (k_role k) = Ok d /\ call_outcome_of (d_action d) deny = Ok o) /\
    (forall c, c ∈ bt_changed r <-> exists k d o, k ∈ keys /\ evaluate e (k_tool k) (k_role k) = Ok d /\
       call_outcome_of (d_action d) deny = Ok o /\ ~ agrees k (d_action d) o /\
       c = {| rc_key := k; rc_new_action := d_action d; rc_new_outcome := o; rc_count := occurrences k keys;
              rc_kind := kind_of k (d_action d) o |}) /\
    StronglySorted (fun c c' => disruptive_leb c c' = true) (bt_changed r) /\
    distinct_calls r = n_unchanged r + List.length (bt_changed r) /\
    List.length (bt_changed r) = n_newly_blocked r + n_newly_allowed r + n_action_changed r.
Proof.
  intros (ks & Hks & (calls & Hc & [= <-])%bind_ok)%bind_ok. exists ks. apply map_res_ok in Hks, Hc. split; [done|]. cbn.
  destruct (Forall2_elem _ _ _ Hc) as [Hfw Hbw]. split; [done|]. split_and!.
  - intros k Hk. destruct (Hfw (k, occurrences k (omap id ks))) as (c & _ & Hr); [by apply bucketed_elem|].
    apply replay_one_ok in Hr as (d & o & Hd & Ho & _). by exists d, o.
  - intros c. rewrite elem_isort, elem_filter, rc_changed_spec. split.
    + intros [([k n] & [Hk ->]%bucketed_elem & (d & o & Hd & Ho & ->)%replay_one_ok)%Hbw Hch].
      exists k, d, o. cbn in Hch. rewrite kind_of_agrees in Hch. done.
    + intros (k & d & o & Hk & Hd & Ho & Hag & ->). cbn. rewrite kind_of_agrees. split; [|done].
      destruct (Hfw (k, occurrences k (omap id ks))) as (c & Hcin & Hr); [by apply bucketed_elem|].
      apply replay_one_ok in Hr as (d' & o' & Hd' & Ho' & ->). rewrite Hd in Hd'. injection Hd' as <-. rewrite Ho in Ho'.
      by injection Ho' as <-.
  - apply isort_sorted; [apply disruptive_total|apply disruptive_trans].
  - rewrite length_isort, length_changed. rewrite (Forall2_length _ _ _ Hc), (count_kinds calls). lia.
  - by rewrite length_isort, length_changed.
Qed.

(** * Replaying a policy's own decisions *)
Lemma action_ok_frozenset a l : action_ok (Some a) -> exists b, in_frozenset a l = Ok b.
Proof. destruct a; try done; intros _; eexists; reflexivity. Qed.

Lemma recorded_synthetic e deny tool role d : evaluate e tool role = Ok d -> action_ok (Some (d_action d)) ->
  exists ev o k, synthetic_event e deny tool role = Ok ev /\ recorded_call ev = Ok (Some k) /\
    k_tool k = tool /\ k_role k = role /\ call_outcome_of (d_action d) deny = Ok o /\ agrees k (d_action d) o.
Proof.
  intros Hd Ha. unfold synthetic_event, call_outcome_of. rewrite Hd. cbn [mbind result_bind].
  destruct (action_ok_frozenset _ deny Ha) as [b Hb]. rewrite Hb. cbn [mbind result_bind].
  destruct b; [|destruct (d_action d) as [| | | |a| |] eqn:Hda; try done];
    eexists _, _, _; (split; [reflexivity|]); destruct role; (split; [reflexivity|]); cbn; unfold agrees; cbn;
    split_and!; try done; intros; by simplify_eq.
Qed.

Definition replays (e : PolicyEngine) (deny : list string) (k : call_key) : Prop :=
  exists d o, evaluate e (k_tool k) (k_role k) = Ok d /\ call_outcome_of (d_action d) deny = Ok o /\ agrees k (d_action d) o.

Lemma replay_agreeing e deny log ks bad :
  Forall2 (fun ev k => recorded_call ev = Ok (Some k)) log ks -> Forall (replays e deny) ks ->
  exists r, replay e deny log bad = Ok r /\ calls_examined r = List.length log /\ bt_changed r = [].
Proof.
  intros Hlog Hks. assert (map_res recorded_call log = Ok (Some <$> ks)) as Hm.
  { apply map_res_ok. apply Forall2_fmap_r. eapply Forall2_impl; [exact Hlog|done]. }
  assert (omap id (Some <$> ks) = ks) as Hid by (clear; induction ks as [|k ks IH]; [done|by cbn; rewrite IH]).
  destruct (map_res_total (replay_one e deny) (fun _ c => rc_changed c = false) (bucketed ks)) as (calls & Hc & Hu).
  { intros [k n] [Hk _]%bucketed_elem. destruct (proj1 (Forall_forall _ _) Hks k Hk) as (d & o & Hd & Ho & Hag).
    eexists. split; [apply replay_one_ok; by exists d, o|]. unfold rc_changed. cbn.
    apply kind_of_agrees in Hag. by apply bool_decide_eq_false; intros []. }
  unfold replay. rewrite Hm. cbn [mbind result_bind]. rewrite Hid, Hc. cbn. eexists. split; [reflexivity|]. cbn. split.
  - symmetry. by eapply Forall2_length.
  - assert (List.filter rc_changed calls = []) as ->; [|done]. clear -Hu.
    induction Hu as [|x c l calls Hx _ IH]; [done|]. cbn. by rewrite Hx.
Qed.

(** Replaying a policy's own decisions changes nothing. For every accepted policy, every set
    of deny-only actions, and all tools and role views, the synthetic log of the self check can
    be written, and backtesting any file that reads back as that log examines every call and
    reports no change. *)
Theorem self_replay_clean `{Regex} documents e deny tools roles :
  Forall (fun dn => dict_ok dn.1) documents -> from_documents documents = Ok e ->
  exists log, synthetic_log e deny tools roles = Ok log /\
    forall file res, read_spool file 0 = Ok res -> r_event <$> records res = log ->
      exists r, backtest_policy file e deny = Ok r /\
        calls_examined r = List.length tools * List.length roles /\ bt_changed r = [].
Proof.
  intros Hok He. set (calls := t ← tools; (fun r => (t, r)) <$> roles : list (string * option string)).
  destruct (map_res_total (fun tr => synthetic_event e deny tr.1 tr.2)
    (fun _ ev => exists k, recorded_call ev = Ok (Some k) /\ replays e deny k) calls) as (log & Hl & HP).
  { intros [tool role] _. destruct (documents_evaluate _ _ tool role Hok He) as (d & Hd & Ha & _).
    destruct (recorded_synthetic _ deny _ _ _ Hd Ha) as (ev & o & k & Hev & Hk & Ht & Hr & Ho & Hag).
    exists ev. split; [done|]. exists k. split; [done|]. exists d, o. by rewrite Ht, Hr. }
  exists log. split; [done|]. intros file res Hres Hlog.
  assert (List.length calls = List.length log) as Hlen by by eapply Forall2_length.
  assert (exists ks, Forall2 (fun ev k => recorded_call ev = Ok (Some k)) log ks /\ Forall (replays e deny) ks)
    as (ks & Hks & Hrep).
  { clear -HP. induction HP as [|x ev l log (k & Hk & Hr) _ (ks & IH1 & IH2)]; [by exists []|].
    exists (k :: ks). by split; constructor. }
  destruct (replay_agreeing e deny log ks (bad_lines res) Hks Hrep) as (r & Hr & Hn & Hc).
  exists r. unfold backtest_policy. rewrite Hres. cbn [mbind result_bind]. rewrite Hlog. split; [done|]. split; [|done].
  rewrite Hn, <- Hlen. subst calls. clear. induction tools as [|t ts IH]; [done|].
  cbn. rewrite length_app, length_fmap, <- IH. done.
Qed.

(** * A deployment *)
#[local] Existing Instance literal_regex.
Definition demo_log : list pydict :=
  [fields [("event", VStr ALLOWED_EVENT); ("tool", VStr "db.query"); ("action", VStr "redact")];
   fields [("event", VStr BLOCKED_EVENT); ("tool", VStr "web.fetch"); ("stage", VStr "action")];
   fields [("event", VStr ALLOWED_EVENT); ("tool", VStr "db.query"); ("action", VStr "redact")];
   fields [("event", VStr ALLOWED_EVENT); ("tool", VStr "shell"); ("role", VStr "intern"); ("action", VStr "allow")]].
Definition demo_deny : list string := ["block"; "require_approval"].
Definition demo_report : BacktestReport := Eval vm_compute in the (replay org_engine demo_deny demo_log 0) I.

Lemma backtest_exact_witness :
  calls_examined demo_report = 4 /\ rc_kind <$> bt_changed demo_report = [newly_blocked; newly_allowed; action_changed] /\
  exists ks, Forall2 (fun ev k => recorded_call ev = Ok k) demo_log ks /\ calls_examined demo_report = List.length (omap id ks).
Proof.
  split; [vm_compute; reflexivity|]. split; [vm_compute; reflexivity|].
  assert (replay org_engine demo_deny demo_log 0 = Ok demo_report) as H by (vm_compute; reflexivity).
  destruct (backtest_exact _ _ _ _ _ H) as (ks & Hks & Hn & _). exists ks. split; [exact Hks|exact Hn].
Defined.

Definition demo_synthetic : list pydict :=
  Eval vm_compute in the (synthetic_log org_engine demo_deny ["db.query"] [None; Some "intern"]) I.
Definition demo_read : ReadResult :=
  Eval vm_compute in the (read_spool (Some (concat (spool_line <$> demo_synthetic))) 0) I.

Lemma self_replay_clean_witness :
  exists r, backtest_policy (Some (concat (spool_line <$> demo_synthetic))) org_engine demo_deny = Ok r /\
    calls_examined r = 2 /\ bt_changed r = [].
Proof.
  destruct (self_replay_clean org_documents org_engine demo_deny ["db.query"] [None; Some "intern"])
    as (log & Hlog & Hr); [exact org_documents_ok|vm_compute; reflexivity|].
  assert (log = demo_synthetic) as ->.
  { assert (synthetic_log org_engine demo_deny ["db.query"] [None; Some "intern"] = Ok demo_synthetic) as H
      by (vm_compute; reflexivity). rewrite H in Hlog. by injection Hlog. }
  apply (Hr (Some (concat (spool_line <$> demo_synthetic))) demo_read); vm_compute; reflexivity.
Defined.

(** * Observations *)

(** The audit event of a blocked call carries no role: replaying the log of a call that a role
    overlay blocked through the very same policy reports it as newly allowed. *)
Definition intern_gateway : SecurityGateway :=
  the (p ← default_pipeline org_engine None None;
       SecurityGateway_init p {| principal_id := "ann"; roles := ["intern"] |} None (Some org_engine) None) I.
Definition db_query : pydict := fields
  [("jsonrpc", VStr "2.0"); ("id", VInt 1); ("method", VStr "tools/call"); ("params", VObj [("name", VStr "db.query")])].
Definition recorded_events (w : World) : list pydict :=
  omap (fun e => match e with Audit n fs => Some (dset "event" (VStr n) fs) | _ => None end) (trace w).
Lemma blocked_role_not_replayed :
  exists r, replay org_engine registry_denying_actions
      (recorded_events (on_client_line intern_gateway (encode_msg db_query) (World_new (Session_new "s" "t"))).2) 0 = Ok r /\
    calls_examined r = 1 /\ rc_kind <$> bt_changed r = [newly_allowed].
Proof. eexists. split; [vm_compute; reflexivity|]. split; reflexivity. Qed.
