(* ===== verification/Connectors.v ===== *)
(** Connector packs and their discovery: [connectors/base.py], [connectors/registry.py], and
    the discovery of [policy/ci.py]. The file system is the record [FS]: the text of a
    regular file and the names in a directory. *)
From S2P Require Import Prelude PyVal Session Rules Loader Merge Engine.

Record FS := {
  f_text : string -> option string;          (* [path.read_text()] of a regular file *)
  f_children : string -> option (list string) (* the names in a directory *)
}.
Definition is_file (fs : FS) (path : string) : bool := match f_text fs path with Some _ => true | None => false end.
Definition is_dir (fs : FS) (path : string) : bool := match f_children fs path with Some _ => true | None => false end.
(** [path / name] *)
Definition path_join (path name : string) : string := path +:+ "/" +:+ name.
(** [sorted(path.iterdir())], as names *)
Definition sorted_children (fs : FS) (path : string) : list string :=
  isort str_leb (default [] (f_children fs path)).

(** [except GatewayError] *)
Definition is_gateway_error (e : exn) : bool :=
  match exn_cls e with
  | PolicyError | BundleError | IdentityError | ConnectorError | GatewayError
  | SinkError | SigningError | TransportError => true
  | _ => false
  end.

Definition MANIFEST := "manifest.yaml".
Definition POLICY := "policy.yaml".
Definition ROLES := "roles.yaml".
Definition TOOLS := "tools.yaml".
Definition TESTS := "policy_tests.yaml".

Record Connector := { c_name : string; c_path : string; c_manifest : pydict }.

Section Connectors.
Context `{Regex} (fs : FS) (yaml_load : string -> option val).

Definition load_yaml (path : string) : result val :=
  text ← of_option (f_text fs path) (Exn ConnectorError (path +:+ ": cannot be read"));
  of_option (yaml_load text) (Exn ConnectorError (path +:+ ": not valid YAML")).

(** [PolicyEngine.load] *)
Definition engine_load (paths : list string) : result PolicyEngine :=
  layers ← map_res (load_policy_file (f_text fs) yaml_load) paths;
  PolicyEngine_init layers.

Definition policy_layers (c : Connector) : list string :=
  let roles := path_join (c_path c) ROLES in
  path_join (c_path c) POLICY :: (if is_file fs roles then [roles] else []).

Definition tests_path (c : Connector) : option string :=
  let p := path_join (c_path c) TESTS in if is_file fs p then Some p else None.

Definition tools (c : Connector) : result pydict :=
  let p := path_join (c_path c) TOOLS in
  if negb (is_file fs p) then Ok []
  else
    doc ← load_yaml p;
    match doc with
    | VNone => Ok []
    | _ =>
        let doc := match doc with VDict d => default doc (dget "tools" d) | _ => doc end in
        of_option (as_dict doc) (Exn ConnectorError (p +:+ ": expected a mapping of tool -> metadata"))
    end.

Definition connector_build_engine (c : Connector) (overrides : list string) : result PolicyEngine :=
  engine_load (policy_layers c ++ overrides).

(** ** Accessors *)
Definition description (c : Connector) : string := strip (py_str (dget_or "description" (VStr "") (c_manifest c))).
Definition upstream (c : Connector) : pydict :=
  match dget_or "upstream" (VDict []) (c_manifest c) with VDict d => d | _ => [] end.
Definition launch (c : Connector) : list string :=
  match dget_or "launch" (VList []) (c_manifest c) with VList l => py_str <$> l | _ => [] end.

Definition count_risk (by_risk : list (val * Z)) (meta : val) : result (list (val * Z)) :=
  let risk := match meta with VDict d => dget_or "risk" (VStr "unclassified") d | _ => VStr "unclassified" end in
  if hashable risk then Ok (vset risk (default 0%Z (vget risk by_risk) + 1)%Z by_risk)
  else raise TypeError "unhashable type".

Definition connector_describe (c : Connector) : result (list (string * val) * list (val * Z)) :=
  inventory ← tools c;
  by_risk ← fold_res count_risk [] (snd <$> inventory);
  Ok ([("name", VStr (c_name c)); ("description", VStr (description c)); ("path", VStr (c_path c));
       ("upstream", VDict (upstream c)); ("launch", strs (launch c));
       ("tool_count", VInt (Z.of_nat (List.length inventory)));
       ("has_tests", VBool (match tests_path c with Some _ => true | None => false end))], by_risk).

(** ** Loading *)
Definition load_connector (path : string) : result Connector :=
  _ ← require (is_dir fs path) ConnectorError ("connector: not a directory: " +:+ path);
  let dir := base_name path in
  let manifest_path := path_join path MANIFEST in
  _ ← require (is_file fs manifest_path) ConnectorError ("connector " +:+ str_repr dir +:+ ": missing " +:+ MANIFEST);
  doc ← load_yaml manifest_path;
  manifest ← of_option (as_dict doc) (Exn ConnectorError (manifest_path +:+ ": expected a mapping at the top level"));
  name ← match dget "name" manifest with
         | Some (VStr (String _ _ as n)) => Ok n
         | _ => raise ConnectorError (manifest_path +:+ ": 'name' is required")
         end;
  _ ← require (bool_decide (name = dir)) ConnectorError
        (manifest_path +:+ ": name " +:+ str_repr name +:+ " does not match directory " +:+ str_repr dir
         +:+ " (a connector is resolved by its directory name)");
  _ ← require (is_file fs (path_join path POLICY)) ConnectorError ("connector " +:+ str_repr name +:+ ": missing " +:+ POLICY);
  Ok {| c_name := name; c_path := path; c_manifest := manifest |}.

(** ** The registry *)
(** A directory that looks like a connector. *)
Definition looks_like (path : string) : bool := is_dir fs path && is_file fs (path_join path MANIFEST).

Definition candidate_step (root : string) (acc : list string * list string) (name : string) : list string * list string :=
  let '(seen, found) := acc in
  let child := path_join root name in
  if bool_decide (name ∈ seen) then acc
  else if looks_like child then (name :: seen, found ++ [child]) else acc.

Definition candidate_root (acc : list string * list string) (root : string) : list string * list string :=
  fold_left (candidate_step root) (sorted_children fs root) acc.

Definition candidate_dirs (roots : list string) : list string :=
  (fold_left candidate_root roots ([], [])).2.

(** [try: out.append(load_connector(path)) except ConnectorError: continue] *)
Definition try_load (path : string) : result (option Connector) :=
  match load_connector path with
  | Ok c => Ok (Some c)
  | Err e => if bool_decide (exn_cls e = ConnectorError) then Ok None else Err e
  end.

Definition list_connectors (roots : list string) : result (list Connector) :=
  cs ← map_res try_load (candidate_dirs roots);
  Ok (isort (fun c c' => str_leb (c_name c) (c_name c')) (omap id cs)).

Definition find_connector (name : string) (roots : list string) : result Connector :=
  match List.find (fun root => looks_like (path_join root name)) roots with
  | Some root => load_connector (path_join root name)
  | None => raise ConnectorError ("unknown connector " +:+ str_repr name +:+ " (searched: " +:+ join ", " roots +:+ ")")
  end.
End Connectors.

(** * What discovery finds *)

(** What listing and looking up assume of a file system: a directory is listed by its parent,
    and listed names are single path components. *)
Record fs_coherent (fs : FS) : Prop := {
  fc_listed : forall root name, is_dir fs (path_join root name) = true -> base_name name = name ->
    exists l, f_children fs root = Some l /\ name ∈ l;
  fc_component : forall root l name, f_children fs root = Some l -> name ∈ l -> base_name name = name;
}.

Lemma base_name_join root name : base_name (path_join root name) = base_name name.
Proof.
  unfold base_name, path_join. rewrite !chars_app, !rev_app_distr. cbn [chars rev app].
  rewrite <- app_assoc. cbn [app]. by rewrite take_while_stop.
Qed.

Section Discovery.
Context (fs : FS) (yaml_load : string -> option val).

Notation looks root n := (looks_like fs (path_join root n)).

Lemma candidate_children root names : (forall n, n ∈ names -> base_name n = n) ->
  forall seen found, NoDup seen -> base_name <$> found = rev seen ->
  let '(seen', found') := fold_left (candidate_step fs root) names (seen, found) in
  NoDup seen' /\ base_name <$> found' = rev seen' /\
  (forall n, n ∈ seen' <-> n ∈ seen \/ n ∈ names /\ looks root n = true) /\
  (forall p, p ∈ found' <-> p ∈ found \/ exists n, n ∈ names /\ n ∉ seen /\ looks root n = true /\ p = path_join root n).
Proof.
  intros Hb. induction names as [|n0 names IH]; intros seen found Hn Hf; cbn [fold_left].
  { split_and!; [done|done|set_solver|]. intros p. split; [by left|intros [?|(n & ?%not_elem_of_nil & _)]; done]. }
  assert (forall n, n ∈ names -> base_name n = n) as Hb' by (intros n ?; apply Hb; set_solver).
  specialize (IH Hb'). unfold candidate_step at 2.
  case_bool_decide as Hs; [|destruct (looks root n0) eqn:Hl].
  - specialize (IH seen found Hn Hf). destruct (fold_left _ names _) as [seen' found'].
    destruct IH as (H1 & H2 & H3 & H4). split_and!; try done.
    + intros n. rewrite H3. set_solver.
    + intros p. rewrite H4. set_solver.
  - specialize (IH (n0 :: seen) (found ++ [path_join root n0])).
    destruct (fold_left _ names _) as [seen' found']. destruct IH as (H1 & H2 & H3 & H4).
    + by constructor.
    + rewrite fmap_app, Hf. cbn. rewrite base_name_join. by rewrite Hb by set_solver.
    + split_and!; try done.
      * intros n. rewrite H3. set_solver.
      * intros p. rewrite H4, elem_of_app, list_elem_of_singleton. split.
        -- intros [[?| ->]|(n & Hin & Hns & Hln & ->)]; [by left|right; exists n0; set_solver|right; exists n; set_solver].
        -- intros [?|(n & [-> |Hin]%elem_of_cons & Hns & Hln & ->)]; [auto|auto|].
           destruct (decide (n = n0)) as [-> |]; [auto|]. right. exists n. set_solver.
  - specialize (IH seen found Hn Hf). destruct (fold_left _ names _) as [seen' found'].
    destruct IH as (H1 & H2 & H3 & H4). split_and!; try done.
    + intros n. rewrite H3. split; [set_solver|]. intros [?|[[-> |?]%elem_of_cons ?]]; [by left|congruence|by right].
    + intros p. rewrite H4. split; [set_solver|]. intros [?|(n & [-> |?]%elem_of_cons & ? & ? & ->)]; [by left|congruence|].
      right. exists n. done.
Qed.

(** The root a name resolves to. *)
Definition resolves (roots : list string) (n : string) : option string :=
  List.find (fun root => looks root n) roots.

Lemma find_snoc {A} (f : A -> bool) l x : List.find f (l ++ [x]) =
  match List.find f l with Some y => Some y | None => if f x then Some x else None end.
Proof. induction l as [|y l IH]; cbn; [done|]. by destruct (f y). Qed.

Lemma candidates_spec roots : fs_coherent fs ->
  exists seen, NoDup seen /\ base_name <$> candidate_dirs fs roots = rev seen /\
    forall p, p ∈ candidate_dirs fs roots <-> exists n root, resolves roots n = Some root /\ base_name n = n /\ p = path_join root n.
Proof.
  intros [Hlisted Hcomp]. unfold candidate_dirs.
  assert (let '(seen, found) := fold_left (candidate_root fs) roots ([], []) in
    NoDup seen /\ base_name <$> found = rev seen /\
    (forall n, n ∈ seen <-> base_name n = n /\ is_Some (resolves roots n)) /\
    (forall p, p ∈ found <-> exists n root, resolves roots n = Some root /\ base_name n = n /\ p = path_join root n)) as H.
  { induction roots as [|root roots IH] using rev_ind; cbn.
    { split_and!; [constructor|done| |]; [intros n; split; [by intros ?%not_elem_of_nil|by intros [_ [? [=]]]]|].
      intros p. split; [by intros ?%not_elem_of_nil|by intros (? & ? & [=] & _)]. }
    rewrite fold_left_app. cbn. destruct (fold_left _ roots _) as [seen found]. destruct IH as (H1 & H2 & H3 & H4).
    assert (forall n, n ∈ sorted_children fs root -> base_name n = n) as Hb.
    { intros n. unfold sorted_children. rewrite elem_isort. destruct (f_children fs root) eqn:Hc; [|set_solver].
      intros Hn. by eapply Hcomp. }
    assert (forall n, looks root n = true -> base_name n = n -> n ∈ sorted_children fs root) as Hin.
    { intros n [Hd _]%andb_true_iff Hn. destruct (Hlisted _ _ Hd Hn) as (l & Hl & Hnl).
      unfold sorted_children. by rewrite elem_isort, Hl. }
    unfold candidate_root. pose proof (candidate_children root _ Hb seen found H1 H2) as Hc.
    destruct (fold_left _ (sorted_children fs root) _) as [seen' found']. destruct Hc as (C1 & C2 & C3 & C4).
    split_and!; [done|done| |].
    - intros n. rewrite C3, H3. unfold resolves. rewrite find_snoc.
      destruct (List.find _ roots) eqn:Hf; [naive_solver|]. destruct (looks root n) eqn:Hl; [|naive_solver].
      split; [intros [[? [? [=]]]|[? _]]; split; eauto|]. intros [? _]. right. auto.
    - intros p. rewrite C4, H4. unfold resolves. setoid_rewrite find_snoc. split.
      + intros [(n & r & Hr & Hn & ->)|(n & Hn & Hns & Hl & ->)]; [exists n, r; by rewrite Hr|].
        exists n, root. split; [|by auto]. rewrite Hl. destruct (List.find _ roots) eqn:Hf; [|done].
        destruct Hns. apply H3. split; [by auto|]. unfold resolves. rewrite Hf. eauto.
      + intros (n & r & Hr & Hn & ->). destruct (List.find _ roots) eqn:Hf.
        * left. exists n, r. by rewrite Hf.
        * destruct (looks root n) eqn:Hl; [|done]. injection Hr as <-. right. exists n. split_and!; auto.
          rewrite H3. unfold resolves. rewrite Hf. by intros [_ [? [=]]]. }
  by destruct (fold_left _ roots _) as [seen found]; exists seen; split_and!; apply H.
Qed.

Lemma load_connector_ok path c : load_connector fs yaml_load path = Ok c ->
  c_name c = base_name path /\ c_path c = path /\ looks_like fs path = true /\ is_file fs (path_join path POLICY) = true.
Proof.
  unfold load_connector, looks_like.
  intros (? & Hd%require_ok & (? & Hm%require_ok & (doc & _ & (m & _ & (n & _ & (? & Hn%require_ok & (? & Hp%require_ok & [= <-])
    %bind_ok)%bind_ok)%bind_ok)%bind_ok)%bind_ok)%bind_ok)%bind_ok.
  apply bool_decide_eq_true in Hn. rewrite Hd, Hm. cbn. by subst.
Qed.

(** Loading fails with no other error: a listing can skip every pack that does not load. *)
Lemma load_connector_err path e : load_connector fs yaml_load path = Err e -> exn_cls e = ConnectorError.
Proof.
  unfold load_connector, load_yaml, require, raise. intros H.
  repeat (case_match; cbn in *; simplify_eq; try done); unfold of_option in *; repeat (case_match; cbn in *; simplify_eq; try done).
Qed.

Lemma try_load_total path : exists o, try_load fs yaml_load path = Ok o /\
  (forall c, o = Some c <-> load_connector fs yaml_load path = Ok c).
Proof.
  unfold try_load. destruct (load_connector fs yaml_load path) as [c|e] eqn:Hl.
  - exists (Some c). split; [done|]. intros c'. split; [by intros [= ->]|by intros [= ->]].
  - rewrite (bool_decide_eq_true_2 _ (load_connector_err _ _ Hl)). by exists None.
Qed.

Lemma loaded_names ps os : Forall2 (fun p o => try_load fs yaml_load p = Ok o) ps os ->
  forall n, n ∈ c_name <$> omap id os -> n ∈ base_name <$> ps.
Proof.
  induction 1 as [|p o ps os Hp _ IH]; [set_solver|]. destruct (try_load_total p) as (o' & Hp' & Ho).
  rewrite Hp in Hp'. injection Hp' as <-. destruct o as [c|]; cbn; [|set_solver].
  destruct (load_connector_ok _ _ (proj1 (Ho c) eq_refl)) as [-> _]. set_solver.
Qed.

Lemma loaded_nodup ps os : Forall2 (fun p o => try_load fs yaml_load p = Ok o) ps os ->
  NoDup (base_name <$> ps) -> NoDup (c_name <$> omap id os).
Proof.
  induction 1 as [|p o ps os Hp Hf IH]; [constructor|]. intros [Hnp Hn]%NoDup_cons.
  destruct (try_load_total p) as (o' & Hp' & Ho). rewrite Hp in Hp'. injection Hp' as <-.
  destruct o as [c|]; cbn; [|by apply IH]. destruct (load_connector_ok _ _ (proj1 (Ho c) eq_refl)) as [-> _].
  constructor; [|by apply IH]. intros Hin. by eapply Hnp, loaded_names.
Qed.

Lemma NoDup_rev_list {A} (l : list A) : NoDup l -> NoDup (rev l).
Proof. by rewrite <- (Permutation_rev l). Qed.

Lemma find_some_looks n roots root : resolves roots n = Some root -> looks root n = true.
Proof. intros Hf. by apply find_some in Hf as [_ ?]. Qed.

Definition name_leb (c c' : Connector) : bool := str_leb (c_name c) (c_name c').

(** Listing and looking up agree. Over a coherent file system, listing the connectors never
    fails, whatever is wrong with a pack; it shows each name once, in order; and it shows a
    pack exactly when looking its name up gives that pack: a directory that shadows a later
    one does so in both, also when it does not load. *)
Theorem registry_agrees roots : fs_coherent fs ->
  exists cs, list_connectors fs yaml_load roots = Ok cs /\ NoDup (c_name <$> cs) /\
    StronglySorted (fun c c' => name_leb c c' = true) cs /\
    forall c, c ∈ cs <-> find_connector fs yaml_load (c_name c) roots = Ok c.
Proof.
  intros Hfs. destruct (candidates_spec roots Hfs) as (seen & Hs & Hb & Hc).
  destruct (map_res_total (try_load fs yaml_load) (fun p o => try_load fs yaml_load p = Ok o) (candidate_dirs fs roots))
    as (os & Hm & Hos). { intros p _. destruct (try_load_total p) as (o & Ho & _). by exists o. }
  unfold list_connectors. rewrite Hm. cbn [mbind result_bind]. eexists. split; [reflexivity|].
  pose proof (isort_perm name_leb (omap id os)) as Hperm. fold name_leb. split_and!.
  - rewrite Hperm. apply (loaded_nodup _ _ Hos). rewrite Hb. by apply NoDup_rev_list.
  - apply isort_sorted; unfold name_leb; [intros; apply str_leb_total|intros ? ? ?; apply str_leb_trans].
  - destruct (Forall2_elem _ _ _ Hos) as [Hfw Hbw]. intros c. rewrite Hperm, elem_omap_id. unfold find_connector. split.
    + intros (p & Hp & Ht)%Hbw. destruct (try_load_total p) as (o & Ho & Hl). rewrite Ht in Ho. injection Ho as <-.
      destruct (proj1 (Hc p) Hp) as (n & root & Hr & Hn & ->). pose proof (proj1 (Hl c) eq_refl) as Hload.
      destruct (load_connector_ok _ _ Hload) as [Hname _]. rewrite base_name_join, Hn in Hname. subst n.
      unfold resolves in Hr. by rewrite Hr.
    + destruct (List.find _ roots) as [root|] eqn:Hr; [|discriminate]. intros Hload.
      destruct (load_connector_ok _ _ Hload) as [Hname _]. rewrite base_name_join in Hname.
      destruct (Hfw (path_join root (c_name c))) as (o & Ho & Ht).
      { apply Hc. exists (c_name c), root. unfold resolves. by rewrite Hr, <- Hname. }
      destruct (try_load_total (path_join root (c_name c))) as (o' & Ho' & Hl). rewrite Ht in Ho'. injection Ho' as <-.
      apply Hl in Hload. by subst o.
Qed.
End Discovery.

(** * A deployment: a pack [k] under [r], and a directory [b] that does not load *)
Definition demo_fs : FS :=
  {| f_text := fun p => aget p [("r/k/manifest.yaml", "k"); ("r/k/policy.yaml", ""); ("r/b/manifest.yaml", "?")];
     f_children := fun p => aget p [("r", ["k"; "b"]); ("r/k", ["manifest.yaml"; "policy.yaml"]); ("r/b", ["manifest.yaml"])] |}.
Definition demo_yaml (text : string) : option val :=
  if String.eqb text "k" then Some (VObj [("name", VStr "k")]) else None.

Lemma demo_fs_coherent : fs_coherent demo_fs.
Proof.
  split.
  - intros root name Hd Hn. unfold is_dir, demo_fs in Hd. cbn [f_children] in Hd.
    assert (path_join root name ∈ ["r"; "r/k"; "r/b"]) as Hin.
    { cbn [aget] in Hd. repeat case_decide; set_solver. }
    destruct root as [|a [|b root]]; [| |exfalso].
    + exfalso. rewrite !elem_of_cons in Hin. cbv [path_join String.append] in Hin. naive_solver.
    + rewrite !elem_of_cons in Hin. exists ["k"; "b"]. cbv [path_join String.append] in Hin.
      destruct Hin as [[=]|[[= -> ->]|[[= -> ->]|?%not_elem_of_nil]]]; [split; [done|set_solver]|split; [done|set_solver]|done].
    + rewrite !elem_of_cons in Hin. cbv [path_join String.append] in Hin.
      destruct Hin as [[=]|[[= _ _ Hr]|[[= _ _ Hr]|?%not_elem_of_nil]]]; [| |done];
        destruct root as [|? [|? ?]]; discriminate.
  - intros root l name Hl Hin. unfold demo_fs in Hl. cbn [f_children aget] in Hl.
    repeat case_decide; simplify_eq;
      repeat (apply elem_of_cons in Hin as [->|Hin]; [reflexivity|]); by apply not_elem_of_nil in Hin.
Qed.

Lemma registry_agrees_witness :
  exists cs, list_connectors demo_fs demo_yaml ["r"] = Ok cs /\ c_name <$> cs = ["k"] /\
    forall c, c ∈ cs <-> find_connector demo_fs demo_yaml (c_name c) ["r"] = Ok c.
Proof.
  destruct (registry_agrees demo_fs demo_yaml ["r"] demo_fs_coherent) as (cs & Hl & _ & _ & Hc).
  exists cs. split; [exact Hl|]. split; [|exact Hc]. vm_compute in Hl. injection Hl as <-. reflexivity.
Defined.
