(* ===== verification/Scaffold.v ===== *)
(** The connector scaffold: [connectors/scaffold.py]. The generated texts are the templates with
    the name put in; what a YAML parser makes of them is not modelled, so the theorems about
    the generated policy are about the document that its text spells. *)
From S2P Require Import Prelude PyVal Glob Session Rules Loader Merge Engine Connectors.

(** * The templates, line by line *)
Definition MANIFEST_T : list string :=
  ["# Connector manifest — what this pack protects and how to launch it.";
   "# See docs/CONTRIBUTING.md for the authoring guide.";
   "name: {name}";
   "description: " +:+ dquote +:+ "Security pack for the {name} MCP server" +:+ dquote;
   "upstream:";
   "  server: {name}-mcp-server";
   "  # The package or binary that starts the real MCP server (fill in):";
   "  package: " +:+ dquote +:+ dquote;
   "  # Upstream versions this pack was validated against (fill in):";
   "  tested_versions: []";
   "# Template command the gateway launches in sidecar mode, e.g.";
   "#   [" +:+ dquote +:+ "npx" +:+ dquote +:+ ", " +:+ dquote +:+ "-y" +:+ dquote +:+ ", " +:+ dquote +:+ "@modelcontextprotocol/server-{name}" +:+ dquote +:+ "]";
   "launch: []"].

Definition POLICY_T : list string :=
  ["# yaml-language-server: $schema=../../policies/policy.schema.json";
   "#";
   "# Default security policy for the {name} connector.";
   "#";
   "# DEFAULT-DENY: a tool is blocked unless a rule below permits it. Start from the";
   "# tool inventory in tools.yaml, classify each tool, and add rules that use the";
   "# least-powerful action that still works: allow < rewrite/redact < quarantine <";
   "# require_approval < block. See README.md for the threat model.";
   "schema_version: 1";
   "name: {name}";
   "default_action: block";
   "";
   "# Untrusted content that could carry an injected instruction should taint the";
   "# session; mutating/outbound tools become sinks blocked once tainted. Fill in:";
   "# taint_sources: []";
   "# taint_sinks: []";
   "# sequence_rules: []";
   "";
   "tools:";
   "  # Replace this example with the real tools (see tools.yaml for the inventory).";
   "  {name}.ping:";
   "    action: allow";
   "    reason: harmless liveness check, exposes no sensitive data"].

Definition TOOLS_T : list string :=
  ["# Tool inventory for the {name} MCP server, risk-classified.";
   "#";
   "# Informational: this documents and reviews the attack surface; policy.yaml is";
   "# what enforces. Every tool the server exposes should appear here with a risk:";
   "#   read | write | destructive | secret_adjacent";
   "tools:";
   "  {name}.ping:";
   "    risk: read";
   "    description: liveness check"].

Definition TESTS_T : list string :=
  ["# Golden decision tests for the {name} connector.";
   "# Run: mcp-gateway policy test \";
   "#        --policy connectors/{name}/policy.yaml \";
   "#        --tests connectors/{name}/policy_tests.yaml";
   "tests:";
   "  - name: ping is allowed";
   "    tool: {name}.ping";
   "    expect:";
   "      outcome: allow";
   "      action: allow";
   "";
   "  - name: unknown tool meets default deny";
   "    tool: {name}.unknown_tool";
   "    expect:";
   "      outcome: deny";
   "      action: block";
   "      reason_contains: default policy"].

Definition README_T : list string :=
  ["# {name} connector";
   "";
   "Security pack for the **{name}** MCP server.";
   "";
   "## Threat model";
   "";
   "_Describe what an attacker could do through this server and what this pack";
   "prevents. For each capability class:_";
   "";
   "- **Reads** — what sensitive data can be read, and how it is redacted.";
   "- **Writes** — what can be mutated, and which writes require approval.";
   "- **Destructive** — what is blocked outright.";
   "- **Taint** — which inputs are untrusted sources, which tools are sinks.";
   "";
   "## Rules";
   "";
   "_Explain every rule in `policy.yaml` and why it uses the action it does._";
   "";
   "## Overriding without forking";
   "";
   "A deployment customizes this pack by layering its own file on top — no fork:";
   "";
   "```bash";
   "mcp-gateway wrap --connector {name} --override my-company.yaml -- <server cmd>";
   "```";
   "";
   "Later layers win (field-level merge), so `my-company.yaml` can tighten or";
   "relax individual rules while inheriting everything else."].

Definition FILES : list (string * list string) :=
  [("manifest.yaml", MANIFEST_T); ("policy.yaml", POLICY_T); ("tools.yaml", TOOLS_T);
   ("policy_tests.yaml", TESTS_T); ("README.md", README_T)].

(** [str.format(name=name)] of a text whose only braces are those of the name field *)
Fixpoint format_chars (name : list ascii) (text : list ascii) : list ascii :=
  match text with
  | "{"%char :: "n"%char :: "a"%char :: "m"%char :: "e"%char :: "}"%char :: rest => name ++ format_chars name rest
  | a :: rest => a :: format_chars name rest
  | [] => []
  end.
Definition format_name (name text : string) : string := of_chars (format_chars (chars name) (chars text)).

Definition render_template (name : string) (lines : list string) : string :=
  format_name name (join newline lines +:+ newline).

(** * Names *)

(** [str.isidentifier] below 128 *)
Definition ident_start (a : ascii) : bool := is_upper a || is_lower a || Ascii.eqb a "_".
Definition ident_char (a : ascii) : bool := ident_start a || is_digit a.
Definition isidentifier (s : string) : bool :=
  match chars s with [] => false | a :: l => ident_start a && forallb ident_char l end.

(** [s.split("-")] *)
Fixpoint split_hyphen (l : list ascii) : list (list ascii) :=
  match l with
  | [] => [[]]
  | a :: l =>
      if Ascii.eqb a "-"%char then [] :: split_hyphen l
      else match split_hyphen l with [] => [[a]] | part :: parts => (a :: part) :: parts end
  end.

Definition name_ok (name : string) : bool :=
  isidentifier name || forallb (fun part => isidentifier (of_chars part)) (split_hyphen (chars name)).

(** * The generator *)

(** [scaffold_connector]: the files it writes, in order, and the directory it returns. *)
Definition scaffold_connector (fs : FS) (name dest_dir : string) (force : bool) : result (list (string * string) * string) :=
  _ ← require (name_ok name) ConnectorError
        ("connector name " +:+ str_repr name +:+ " must be a simple identifier (letters, digits, underscores, hyphens)");
  let target := path_join dest_dir name in
  _ ← require (negb (is_dir fs target && negb (bool_decide (default [] (f_children fs target) = []))) || force) ConnectorError
        (target +:+ " already exists and is not empty (pass force to overwrite)");
  Ok ((fun '(filename, lines) => (path_join target filename, render_template name lines)) <$> FILES, target).

(** * What it may write *)
Definition safe_name_char (a : ascii) : bool := ident_char a || Ascii.eqb a "-".

Lemma split_hyphen_safe l : Forall (fun part => Forall (fun a => ident_char a = true) part) (split_hyphen l) ->
  Forall (fun a => safe_name_char a = true) l.
Proof.
  unfold safe_name_char. induction l as [|a l IH]; [constructor|]. cbn. destruct (Ascii.eqb a "-") eqn:Ha.
  - intros [_ Hp]%Forall_cons. constructor; [by rewrite Ha, orb_true_r|auto].
  - destruct (split_hyphen l) as [|part parts]; intros [Hp Hps]%Forall_cons; apply Forall_cons in Hp as [Hc Hp];
      (constructor; [by rewrite Hc|]); apply IH; by constructor.
Qed.

Lemma isidentifier_safe s : isidentifier s = true -> Forall (fun a => ident_char a = true) (chars s).
Proof.
  unfold isidentifier. destruct (chars s) as [|a l]; [done|]. intros [Ha Hl]%andb_true_iff. constructor; [unfold ident_char; by rewrite Ha|].
  apply Forall_forall. intros b Hb. rewrite forallb_forall in Hl. by apply Hl, list_elem_of_In.
Qed.

Lemma name_ok_safe name : name_ok name = true -> Forall (fun a => safe_name_char a = true) (chars name) /\ name <> "".
Proof.
  unfold name_ok. intros [Hi|Hp]%orb_true_iff.
  - split; [|by intros ->]. eapply Forall_impl; [exact (isidentifier_safe _ Hi)|]. intros a Ha. unfold safe_name_char. by rewrite Ha.
  - split; [|by intros ->]. apply split_hyphen_safe, Forall_forall. intros part Hin.
    rewrite forallb_forall in Hp. rewrite <- (chars_of_chars part). by apply isidentifier_safe, Hp, list_elem_of_In.
Qed.

(** A scaffold writes only its own pack. When it succeeds it writes exactly the five files of a
    pack, directly in a directory of the destination named by the pack, whose name holds
    letters, digits, underscores and hyphens only (so no separator and no dot); and it does
    not touch an existing non-empty directory unless forced. *)
Theorem scaffold_confined fs name dest_dir force writes target :
  scaffold_connector fs name dest_dir force = Ok (writes, target) ->
  target = path_join dest_dir name /\ name <> "" /\ Forall (fun a => safe_name_char a = true) (chars name) /\
  writes.*1 = path_join target <$> ["manifest.yaml"; "policy.yaml"; "tools.yaml"; "policy_tests.yaml"; "README.md"] /\
  (force = false -> forall children, f_children fs target = Some children -> children = []).
Proof.
  unfold scaffold_connector. intros (u & Hn%require_ok & (u' & Hf%require_ok & [= <- <-])%bind_ok)%bind_ok.
  destruct (name_ok_safe _ Hn) as [Hs Hne]. split_and!; [done..|].
  intros -> children Hc. unfold is_dir in Hf. rewrite Hc, orb_false_r in Hf. cbn in Hf.
  apply negb_true_iff, negb_false_iff, bool_decide_eq_true in Hf. done.
Qed.

Lemma scaffold_confined_witness :
  let fs := {| f_text := fun _ => None; f_children := fun _ => None |} in
  exists writes target, scaffold_connector fs "my-server" "connectors" false = Ok (writes, target) /\
  target = path_join "connectors" "my-server" /\ "my-server" <> "" /\ Forall (fun a => safe_name_char a = true) (chars "my-server") /\
  writes.*1 = path_join target <$> ["manifest.yaml"; "policy.yaml"; "tools.yaml"; "policy_tests.yaml"; "README.md"] /\
  (false = false -> forall children, f_children fs target = Some children -> children = []).
Proof.
  intros fs. eexists _, _. split; [reflexivity|]. eapply (scaffold_confined fs "my-server" "connectors" false). reflexivity.
Defined.

(** * The generated policy is default-deny *)

(** The document that the policy text of [name] spells. *)
Definition policy_doc (name : string) : val := VObj
  [("schema_version", VInt 1); ("name", VStr name); ("default_action", VStr "block");
   ("tools", VObj [(name +:+ ".ping", VObj [("action", VStr "allow");
      ("reason", VStr "harmless liveness check, exposes no sensitive data")])])].

Definition ping_rule : pydict :=
  fields [("action", VStr "allow"); ("reason", VStr "harmless liveness check, exposes no sensitive data")].

Lemma safe_not_wildcard a : safe_name_char a = true -> wildcard a = false.
Proof. destruct a as [[] [] [] [] [] [] [] []]; vm_compute; done. Qed.

Lemma safe_pattern_literal name : Forall (fun a => safe_name_char a = true) (chars name) -> is_glob (name +:+ ".ping") = false.
Proof.
  intros Hs. unfold is_glob. rewrite chars_app, existsb_app. apply orb_false_iff. split; [|done].
  induction Hs as [|a l Ha _ IH]; [done|]. cbn. by rewrite safe_not_wildcard, IH.
Qed.

(** One layer with one literal rule. *)
Lemma scaffold_layer `{Regex} a q b m source : exists l,
  parse_document (VObj [("schema_version", VInt 1); ("name", VStr (String b m)); ("default_action", VStr "block");
    ("tools", VObj [(String a q, VDict ping_rule)])]) source source = Ok l /\
  l_default_action l = Some "block" /\ l_rules l = [(String a q, ping_rule)] /\ l_on_failure l = VNone /\ l_risk l = None.
Proof. eexists. split; [reflexivity|]. split_and!; reflexivity. Qed.

Lemma one_rule_engine `{Regex} a q l : is_glob (String a q) = false ->
  l_default_action l = Some "block" -> l_rules l = [(String a q, ping_rule)] -> l_on_failure l = VNone -> l_risk l = None ->
  exists e c, PolicyEngine_init [l] = Ok e /\ default_action e = "block" /\
    matcher e = {| rm_exact := [String a q]; rm_globs := [] |} /\ rules e = [(String a q, c)] /\
    er_action (base c) = VStr "allow" /\ overlays c = [].
Proof.
  intros Hg H1 H2 H3 H4.
  assert (exists mg, merge_layers [l] = Ok mg /\ mg_default_action mg = "block" /\ mg_rules mg = [(String a q, ping_rule)] /\
    mg_on_failure mg = VNone) as (mg & Hm & M1 & M2 & M3).
  { unfold merge_layers. cbn [fold_res]. unfold merge_layer. rewrite H1, H2, H3, H4. eexists.
    split; [reflexivity|]. split_and!; reflexivity. }
  unfold PolicyEngine_init. rewrite Hm. cbn [require mbind result_bind]. rewrite M1, M2, M3. eexists _, _. split; [reflexivity|].
  cbn [default_action matcher rules]. split; [done|]. split; [|split; [reflexivity|]; split; reflexivity].
  unfold RuleMatcher_init. cbn [akeys fmap list_fmap fst enumerate_from fold_left]. by rewrite Hg.
Qed.

(** A scaffolded pack is default-deny. For every name the scaffold accepts, the policy it spells
    loads on its own; the pack's ping tool is allowed, and every other tool is blocked by the
    default, under every role. *)
Theorem scaffold_default_deny `{Regex} name source : name_ok name = true ->
  exists e, from_documents [(policy_doc name, source)] = Ok e /\
    (forall role, exists d, evaluate e (name +:+ ".ping") role = Ok d /\ d_action d = VStr "allow") /\
    (forall tool role, tool <> name +:+ ".ping" ->
       exists d, evaluate e tool role = Ok d /\ d_action d = VStr "block" /\ d_rule d = "default").
Proof.
  intros [Hs Hne]%name_ok_safe. pose proof (safe_pattern_literal _ Hs) as Hg. destruct name as [|b m]; [done|].
  change (String b m +:+ ".ping") with (String b (m +:+ ".ping")) in *.
  destruct (scaffold_layer b (m +:+ ".ping") b m source) as (l & Hl & H1 & H2 & H3 & H4).
  destruct (one_rule_engine b (m +:+ ".ping") l Hg H1 H2 H3 H4) as (e & c & He & Hd & Hm & Hr & Ha & Ho).
  exists e. split_and!.
  - unfold from_documents. cbn [map_res fst snd]. unfold policy_doc. change (String b m +:+ ".ping") with (String b (m +:+ ".ping")).
    change (VObj [("action", VStr "allow"); _]) with (VDict ping_rule). rewrite Hl. cbn [mbind result_bind]. exact He.
  - intros role. unfold evaluate, RuleMatcher_match. rewrite Hm. cbn [rm_exact rm_globs]. rewrite bool_decide_eq_true_2 by set_solver.
    rewrite Hr. cbn [aget]. rewrite decide_True by done. eexists. split; [reflexivity|]. cbn.
    unfold for_role. rewrite Ho. by destruct role.
  - intros tool role Ht. unfold evaluate, RuleMatcher_match. rewrite Hm. cbn [rm_exact rm_globs].
    rewrite bool_decide_eq_false_2 by set_solver. cbn. eexists. split; [reflexivity|]. cbn. by rewrite Hd.
Qed.

#[local] Existing Instance literal_regex.
Lemma scaffold_default_deny_witness :
  exists e, from_documents [(policy_doc "my-server", "policy.yaml")] = Ok e /\
    (forall role, exists d, evaluate e ("my-server" +:+ ".ping") role = Ok d /\ d_action d = VStr "allow") /\
    (forall tool role, tool <> "my-server" +:+ ".ping" ->
       exists d, evaluate e tool role = Ok d /\ d_action d = VStr "block" /\ d_rule d = "default").
Proof. apply (scaffold_default_deny "my-server" "policy.yaml"). reflexivity. Defined.

(** * Observations *)

(** An accepted name that YAML reads as a boolean or a null spells a manifest and a policy whose
    name is not a text: neither loads. *)
Lemma yaml_word_name_does_not_load :
  Forall (fun n => name_ok n = true) ["no"; "yes"; "on"; "off"; "true"; "false"; "null"] /\
  forall v, v = VBool true \/ v = VBool false \/ v = VNone ->
  exists msg, parse_document (VObj [("schema_version", VInt 1); ("name", v); ("default_action", VStr "block");
    ("tools", VObj [("no.ping", VDict ping_rule)])]) "policy.yaml" "policy" = raise PolicyError msg.
Proof. split; [repeat constructor|]. intros v [->|[->| ->]]; by eexists. Qed.
