(* ===== verification/Diff.v ===== *)
(** The blast radius of a policy change: [policy/diff.py], over the targets that
    [policy/ci.py] discovers. What a diff prints is in [Reports]. *)
From S2P Require Import Prelude PyVal Glob Session Rules Loader Merge Engine Approvals Redaction Pipeline Backtest Connectors.

(** * Targets ([policy/ci.py]) *)
Inductive target_kind := CONNECTOR | POLICY_FILE.
Record Target := {
  t_name : string;
  t_kind : target_kind;
  t_path : string;
  t_layers : list string;
  t_tests : option string;
  t_connector : option Connector;
  t_error : option string;
}.

(** * The least-privilege ladder *)
Inductive diff_kind := LOOSENED | TIGHTENED | CHANGED_KIND.
#[export] Instance diff_kind_eq_dec : EqDecision diff_kind.
Proof. solve_decision. Defined.

Inductive pack_state := ADDED | REMOVED | CHANGED | UNCHANGED | BROKEN.
#[export] Instance pack_state_eq_dec : EqDecision pack_state.
Proof. solve_decision. Defined.

Definition STRENGTH : list (string * nat) :=
  [("allow", 0); ("rewrite", 1); ("redact", 1); ("quarantine", 2); ("require_approval", 3); ("block", 4)].
Definition strength (action : val) : result (option nat) :=
  match action with
  | VStr a => Ok (aget a STRENGTH)
  | _ => if hashable action then Ok None else raise TypeError "unhashable type"
  end.

Definition classify (base_action head_action : val) : result diff_kind :=
  base_rank ← strength base_action;
  head_rank ← strength head_action;
  Ok match base_rank, head_rank with
     | Some b, Some h => if h <? b then LOOSENED else if b <? h then TIGHTENED else CHANGED_KIND
     | _, _ => CHANGED_KIND
     end.

Record ChangedDecision := {
  cd_tool : string;
  cd_role : option string;
  base_action : val;
  head_action : val;
  cd_kind : diff_kind;
  crosses_deny_boundary : bool;
}.

Record PackDiff := {
  pd_name : string;
  pd_state : pack_state;
  decisions_examined : nat;
  role_views : nat;
  pd_changed : list ChangedDecision;
  pd_unchanged : nat;
  pd_error : option string;
  action_summary : list (val * nat);
}.
Definition PackDiff_new (name : string) (state : pack_state) : PackDiff :=
  {| pd_name := name; pd_state := state; decisions_examined := 0; role_views := 0; pd_changed := [];
     pd_unchanged := 0; pd_error := None; action_summary := [] |}.

Definition count_changed (f : ChangedDecision -> bool) (d : PackDiff) : nat := List.length (List.filter f (pd_changed d)).
Definition loosened : PackDiff -> nat := count_changed (fun c => bool_decide (cd_kind c = LOOSENED)).
Definition tightened : PackDiff -> nat := count_changed (fun c => bool_decide (cd_kind c = TIGHTENED)).
Definition lateral : PackDiff -> nat := count_changed (fun c => bool_decide (cd_kind c = CHANGED_KIND)).
Definition newly_ungated : PackDiff -> nat := count_changed crosses_deny_boundary.

(** ** The report of a repository *)
Definition touched (packs : list PackDiff) : list PackDiff :=
  List.filter (fun p => bool_decide (pd_state p <> UNCHANGED)) packs.
Definition diff_clean (packs : list PackDiff) : bool := match touched packs with [] => true | _ => false end.

(** * One decision, on both sides *)
Definition action_of (e : PolicyEngine) (tool : string) (role : option string) : result val :=
  d ← evaluate e tool role; Ok (d_action d).

Definition compare_one (base head : PolicyEngine) (deny : list string) (tr : string * option string)
  : result (option ChangedDecision) :=
  b ← action_of base tr.1 tr.2;
  h ← action_of head tr.1 tr.2;
  if py_eqb b h then Ok None
  else
    kind ← classify b h;
    was_denied ← in_frozenset b deny;
    crosses ← (if (was_denied : bool) then n ← in_frozenset h deny; Ok (negb n) else Ok false);
    Ok (Some {| cd_tool := tr.1; cd_role := tr.2; base_action := b; head_action := h; cd_kind := kind;
                crosses_deny_boundary := crosses |}).

(** Loosened first, then by tool and role. *)
Definition kind_rank (k : diff_kind) : nat := match k with LOOSENED => 0 | TIGHTENED => 1 | CHANGED_KIND => 2 end.
Definition change_leb (c c' : ChangedDecision) : bool :=
  let k := kind_rank (cd_kind c) in let k' := kind_rank (cd_kind c') in
  if k =? k' then
    if String.eqb (cd_tool c) (cd_tool c') then str_leb (default "" (cd_role c)) (default "" (cd_role c'))
    else str_leb (cd_tool c) (cd_tool c')
  else k <? k'.

(** ** The decisions compared *)
Definition rule_patterns (e : PolicyEngine) : list string := akeys (rules e).
Definition literal_patterns (e : PolicyEngine) : list string :=
  List.filter (fun p => nonempty p && negb (is_glob p)) (rule_patterns e).
Definition glob_only_patterns (e : PolicyEngine) : list string := List.filter is_glob (rule_patterns e).

(** A glob that matches no concrete name is compared as a name itself. *)
Definition add_glob (tools : list string) (pattern : string) : list string :=
  if existsb (fun t => fnmatch t pattern) tools then tools else tools ++ [pattern].

Definition add_role_view (roles : list (option string)) (r : string) : list (option string) :=
  if decide (Some r ∈ roles) then roles else roles ++ [Some r].
Definition role_list (engines : list PolicyEngine) : list (option string) :=
  fold_left add_role_view (concat (declared_roles <$> engines)) [None].

Definition is_some {A} (o : option A) : bool := match o with Some _ => true | None => false end.
Definition opt_list {A} (o : option A) : list A := match o with Some a => [a] | None => [] end.

Definition tool_grid (tools : list string) (roles : list (option string)) : list (string * option string) :=
  concat ((fun t => (fun r => (t, r)) <$> roles) <$> tools).

Definition summarize (e : PolicyEngine) (summary : list (val * nat)) (tr : string * option string)
  : result (list (val * nat)) :=
  a ← action_of e tr.1 tr.2;
  if hashable a then Ok (vset a (default 0 (vget a summary) + 1) summary) else raise TypeError "unhashable type".

Section Diff.
Context `{Regex} (svc : RedactionService) (yaml_load : string -> option val).

(** The inventory of a target; a broken one is another check's finding. *)
Definition inventory (fs : FS) (t : Target) : result (list string) :=
  match t_connector t with
  | None => Ok []
  | Some c =>
      match tools fs yaml_load c with
      | Ok d => map_res (fun k => match k with KStr s => Ok s | _ => untyped "tools" end) (akeys d)
      | Err e => if is_gateway_error e then Ok [] else Err e
      end
  end.

Definition tool_surface (fs : FS) (t : option Target) (e : option PolicyEngine) : result (list string) :=
  inv ← match t with Some t => inventory fs t | None => Ok [] end;
  Ok (inv ++ match e with Some e => literal_patterns e | None => [] end).

Definition truthy_str (o : option string) : bool := match o with Some s => nonempty s | None => false end.

Definition compile_target (fs : FS) (t : option Target) : result (option PolicyEngine * option string) :=
  match t with
  | None => Ok (None, None)
  | Some t =>
      if truthy_str (t_error t) then Ok (None, t_error t)
      else match engine_load fs yaml_load (t_layers t) with
           | Ok e => Ok (Some e, None)
           | Err x => if is_gateway_error x then Ok (None, Some (exn_msg x)) else Err x
           end
  end.

Definition broken (name : string) (error : option string) : PackDiff :=
  {| pd_name := name; pd_state := BROKEN; decisions_examined := 0; role_views := 0; pd_changed := [];
     pd_unchanged := 0; pd_error := error; action_summary := [] |}.

(** Both sides compiled: every tool under every role view. *)
Definition diff_changed (name : string) (base head : PolicyEngine) (grid : list (string * option string)) (views : nat)
  : result PackDiff :=
  rows ← map_res (compare_one base head (effective_deny_set svc)) grid;
  let changed := omap id rows in
  Ok {| pd_name := name; pd_state := match changed with [] => UNCHANGED | _ => CHANGED end;
        decisions_examined := List.length grid; role_views := views; pd_changed := isort change_leb changed;
        pd_unchanged := List.length (List.filter (fun o => negb (is_some o)) rows); pd_error := None; action_summary := [] |}.

(** Only one side has a policy: the shape of what arrived or left. *)
Definition diff_one_sided (name : string) (state : pack_state) (e : PolicyEngine)
  (grid : list (string * option string)) (views : nat) : result PackDiff :=
  summary ← fold_res (summarize e) [] grid;
  Ok {| pd_name := name; pd_state := state; decisions_examined := List.length grid; role_views := views; pd_changed := [];
        pd_unchanged := 0; pd_error := None; action_summary := summary |}.

Definition surface (base_fs head_fs : FS) (base head : option Target) (be he : option PolicyEngine) : result (list string) :=
  tb ← tool_surface base_fs base be;
  th ← tool_surface head_fs head he;
  Ok (sorted_set (fold_left add_glob
        (concat (glob_only_patterns <$> opt_list be) ++ concat (glob_only_patterns <$> opt_list he)) (tb ++ th))).

Definition diff_pack (base_fs head_fs : FS) (name : string) (base head : option Target) : result PackDiff :=
  '(base_engine, base_error) ← compile_target base_fs base;
  '(head_engine, head_error) ← compile_target head_fs head;
  if truthy_str head_error || (truthy_str base_error && is_some base && negb (is_some head)) then
    Ok (broken name (if truthy_str head_error then head_error else base_error))
  else
    let base_engine := if truthy_str base_error then None else base_engine in
    match base_engine, head_engine with
    | None, None => Ok (broken name (Some "neither side compiled"))
    | _, _ =>
        tools ← surface base_fs head_fs base head base_engine head_engine;
        let roles := role_list (opt_list base_engine ++ opt_list head_engine) in
        let grid := tool_grid tools roles in
        match base_engine, head_engine with
        | Some b, Some h => diff_changed name b h grid (List.length roles)
        | None, Some h => diff_one_sided name ADDED h grid (List.length roles)
        | Some b, None => diff_one_sided name REMOVED b grid (List.length roles)
        | None, None => Ok (broken name (Some "neither side compiled"))
        end
    end.

(** ** Discovery ([discover_targets]) *)
Definition failing_target (name path error : string) : Target :=
  {| t_name := name; t_kind := CONNECTOR; t_path := path; t_layers := []; t_tests := None; t_connector := None;
     t_error := Some error |}.

Definition pack_target (fs : FS) (packs_root name : string) : result (option Target) :=
  let child := path_join packs_root name in
  if negb (is_dir fs child) || startswith "." name || startswith "_" name then Ok None
  else if negb (is_file fs (path_join child MANIFEST)) then
    Ok (Some (failing_target name child ("not a connector pack: missing " +:+ MANIFEST)))
  else match load_connector fs yaml_load child with
       | Ok c => Ok (Some {| t_name := c_name c; t_kind := CONNECTOR; t_path := child; t_layers := policy_layers fs c;
                             t_tests := tests_path fs c; t_connector := Some c; t_error := None |})
       | Err e => if is_gateway_error e then Ok (Some (failing_target name child (exn_msg e))) else Err e
       end.

Definition policy_target (fs : FS) (policies_root name : string) : option Target :=
  let child := path_join policies_root name in
  let '(stem, suffix) := split_suffix name in
  if negb (is_file fs child) || negb (bool_decide (suffix ∈ [".yaml"; ".yml"])) then None
  else if endswith ".tests.yaml" name || endswith ".tests.yml" name then None
  else
    let tests := path_join policies_root (stem +:+ ".tests.yaml") in
    Some {| t_name := stem; t_kind := POLICY_FILE; t_path := child; t_layers := [child];
            t_tests := if is_file fs tests then Some tests else None; t_connector := None; t_error := None |}.

Definition discover_targets (fs : FS) (root : string) : result (list Target) :=
  let packs_root := path_join root "connectors" in
  let policies_root := path_join root "policies" in
  packs ← map_res (pack_target fs packs_root) (sorted_children fs packs_root);
  Ok (omap id packs ++ omap (policy_target fs policies_root) (sorted_children fs policies_root)).

(** [{t.name: t for t in targets}] *)
Definition by_name (ts : list Target) : list (string * Target) :=
  fold_left (fun d t => aset (t_name t) t d) ts [].

Definition diff_roots (base_fs head_fs : FS) (base_root head_root : string) : result (list PackDiff) :=
  bs ← discover_targets base_fs base_root;
  hs ← discover_targets head_fs head_root;
  let base := by_name bs in let head := by_name hs in
  map_res (fun n => diff_pack base_fs head_fs n (aget n base) (aget n head)) (sorted_set (akeys base ++ akeys head)).
End Diff.

(** * What a diff shows *)
Lemma elem_sorted_set l s : s ∈ sorted_set l <-> s ∈ l.
Proof. unfold sorted_set. by rewrite elem_isort, elem_of_remove_dups. Qed.

Lemma elem_tool_grid tools roles t r : (t, r) ∈ tool_grid tools roles <-> t ∈ tools /\ r ∈ roles.
Proof.
  unfold tool_grid. rewrite elem_concat. setoid_rewrite list_elem_of_fmap. split.
  - intros (l & (t' & -> & Ht) & (r' & [= -> ->] & Hr)%list_elem_of_fmap). done.
  - intros [Ht Hr]. eexists. split; [by exists t|]. apply list_elem_of_fmap. by exists r.
Qed.

Lemma length_tool_grid tools roles : List.length (tool_grid tools roles) = List.length tools * List.length roles.
Proof. unfold tool_grid. induction tools as [|t ts IH]; [done|]. cbn. by rewrite length_app, length_fmap, IH. Qed.

Lemma elem_role_list engines r : r ∈ role_list engines <->
  match r with None => True | Some r => exists e, e ∈ engines /\ r ∈ declared_roles e end.
Proof.
  unfold role_list. assert (forall l acc, r ∈ fold_left add_role_view l acc <-> r ∈ acc \/ exists s, r = Some s /\ s ∈ l) as Hf.
  { induction l as [|s l IH]; intros acc; cbn [fold_left]; [set_solver|]. rewrite IH. unfold add_role_view.
    case_decide; set_solver. }
  rewrite Hf, list_elem_of_singleton. destruct r as [r|]; [|by split; auto].
  split.
  - intros [[=]|(s & [= <-] & (l & (e & -> & He)%list_elem_of_fmap & Hs)%elem_concat)]. by exists e.
  - intros (e & He & Hr). right. exists r. split; [done|]. apply elem_concat. eexists. split; [|exact Hr].
    apply list_elem_of_fmap. by exists e.
Qed.

(** A role no rule overlays sees the policy without a role. *)
Lemma undeclared_role e tool r : r ∉ declared_roles e -> action_of e tool (Some r) = action_of e tool None.
Proof.
  intros Hr. unfold action_of, evaluate. destruct (RuleMatcher_match _ _) as [p|]; [|done].
  destruct (aget p (rules e)) as [c|] eqn:Hc; [|done]. cbn. unfold for_role.
  destruct (aget r (overlays c)) as [x|] eqn:Ho; [|done]. destruct Hr. unfold declared_roles.
  rewrite elem_sorted_set, elem_concat. exists (akeys (overlays c)). split; [|apply aget_is_Some; eauto].
  apply list_elem_of_fmap. exists (p, c). split; [done|]. by apply aget_Some_elem.
Qed.

Definition gated (action : val) : Prop := action = VStr "block" \/ action = VStr "require_approval".

Lemma in_effective_deny svc action b : in_frozenset action (effective_deny_set svc) = Ok b -> b = true <-> gated action.
Proof.
  unfold gated. destruct action as [| | | |a| |]; cbn; try (intros [= <-]; naive_solver).
  intros [= <-]. rewrite bool_decide_eq_true. set_solver.
Qed.

(** What a row says of the two policies. *)
Definition row_ok (eb eh : PolicyEngine) (cd : ChangedDecision) : Prop :=
  action_of eb (cd_tool cd) (cd_role cd) = Ok (base_action cd) /\
  action_of eh (cd_tool cd) (cd_role cd) = Ok (head_action cd) /\
  py_eqb (base_action cd) (head_action cd) = false /\
  (cd_kind cd = LOOSENED <-> exists i j, strength (base_action cd) = Ok (Some i) /\
     strength (head_action cd) = Ok (Some j) /\ j < i) /\
  (cd_kind cd = TIGHTENED <-> exists i j, strength (base_action cd) = Ok (Some i) /\
     strength (head_action cd) = Ok (Some j) /\ i < j) /\
  (crosses_deny_boundary cd = true <-> gated (base_action cd) /\ ~ gated (head_action cd)).

Lemma classify_spec b h k : classify b h = Ok k ->
  (k = LOOSENED <-> exists i j, strength b = Ok (Some i) /\ strength h = Ok (Some j) /\ j < i) /\
  (k = TIGHTENED <-> exists i j, strength b = Ok (Some i) /\ strength h = Ok (Some j) /\ i < j).
Proof.
  unfold classify. intros (br & Hb & (hr & Hh & [= <-])%bind_ok)%bind_ok. rewrite Hb, Hh.
  destruct br as [i|], hr as [j|]; [|naive_solver..].
  destruct (j <? i) eqn:H1; [apply Nat.ltb_lt in H1; split; split; naive_solver lia|apply Nat.ltb_ge in H1].
  destruct (i <? j) eqn:H2; [apply Nat.ltb_lt in H2|apply Nat.ltb_ge in H2]; split; split; naive_solver lia.
Qed.

Lemma compare_one_spec svc eb eh tr o : compare_one eb eh (effective_deny_set svc) tr = Ok o ->
  match o with
  | Some cd => cd_tool cd = tr.1 /\ cd_role cd = tr.2 /\ row_ok eb eh cd
  | None => exists b h, action_of eb tr.1 tr.2 = Ok b /\ action_of eh tr.1 tr.2 = Ok h /\ py_eqb b h = true
  end.
Proof.
  unfold compare_one. intros (b & Hb & (h & Hh & H)%bind_ok)%bind_ok. destruct (py_eqb b h) eqn:He.
  { injection H as <-. by exists b, h. }
  apply bind_ok in H as (k & Hk & (wd & Hwd & (cr & Hcr & [= <-])%bind_ok)%bind_ok). split; [done|]. split; [done|].
  unfold row_ok. cbn. destruct (classify_spec _ _ _ Hk) as [HL HT]. split_and!; try done.
  pose proof (in_effective_deny _ _ _ Hwd) as Hgb. destruct wd.
  - apply bind_ok in Hcr as (n & Hn & [= <-]). pose proof (in_effective_deny _ _ _ Hn). rewrite negb_true_iff. destruct n; naive_solver.
  - injection Hcr as <-. naive_solver.
Qed.

Lemma change_leb_total c c' : change_leb c c' = true \/ change_leb c' c = true.
Proof.
  unfold change_leb. rewrite (Nat.eqb_sym (kind_rank (cd_kind c'))), (String.eqb_sym (cd_tool c')).
  destruct (_ =? _) eqn:Hk; [|apply Nat.eqb_neq in Hk; rewrite !Nat.ltb_lt; lia].
  destruct (String.eqb _ _); apply str_leb_total.
Qed.

Lemma change_leb_trans c1 c2 c3 : change_leb c1 c2 = true -> change_leb c2 c3 = true -> change_leb c1 c3 = true.
Proof.
  unfold change_leb.
  destruct (Nat.eqb_spec (kind_rank (cd_kind c1)) (kind_rank (cd_kind c2))) as [H12|H12],
    (Nat.eqb_spec (kind_rank (cd_kind c2)) (kind_rank (cd_kind c3))) as [H23|H23],
    (Nat.eqb_spec (kind_rank (cd_kind c1)) (kind_rank (cd_kind c3))) as [H13|H13];
    rewrite ?Nat.ltb_lt; try lia.
  destruct (String.eqb_spec (cd_tool c1) (cd_tool c2)) as [E12|E12],
    (String.eqb_spec (cd_tool c2) (cd_tool c3)) as [E23|E23],
    (String.eqb_spec (cd_tool c1) (cd_tool c3)) as [E13|E13]; try congruence; try apply str_leb_trans.
  rewrite E13. intros H1 H2. destruct E12. rewrite E13. by apply str_leb_antisym.
Qed.

Lemma add_globs_keep ps l t : t ∈ l -> t ∈ fold_left add_glob ps l.
Proof.
  revert l. induction ps as [|p ps IH]; intros l Ht; [done|]. cbn. apply IH. unfold add_glob. case_match; set_solver.
Qed.

Lemma surface_literals `{Regex} yaml_load bfs hfs b h eb eh tools t :
  surface yaml_load bfs hfs b h (Some eb) (Some eh) = Ok tools ->
  t ∈ literal_patterns eb \/ t ∈ literal_patterns eh -> t ∈ tools.
Proof.
  intros (tb & (ib & _ & [= <-])%bind_ok & (th & (ih & _ & [= <-])%bind_ok & [= <-])%bind_ok)%bind_ok Ht.
  rewrite elem_sorted_set. apply add_globs_keep. set_solver.
Qed.

(** The rows are the differences on the grid. *)
Lemma diff_changed_rows svc name eb eh grid views d : diff_changed svc name eb eh grid views = Ok d ->
  (forall tr, tr ∈ grid -> exists b h, action_of eb tr.1 tr.2 = Ok b /\ action_of eh tr.1 tr.2 = Ok h /\
     (py_eqb b h = true \/ exists cd, cd ∈ pd_changed d /\ (cd_tool cd, cd_role cd) = tr /\ base_action cd = b /\ head_action cd = h)) /\
  (forall cd, cd ∈ pd_changed d -> (cd_tool cd, cd_role cd) ∈ grid /\ row_ok eb eh cd) /\
  StronglySorted (fun c c' => change_leb c c' = true) (pd_changed d) /\
  (pd_state d = UNCHANGED <-> pd_changed d = []) /\
  decisions_examined d = List.length grid /\ role_views d = views /\
  List.length grid = pd_unchanged d + List.length (pd_changed d).
Proof.
  intros (rows & Hr & [= <-])%bind_ok. cbn. apply map_res_ok in Hr. destruct (Forall2_elem _ _ _ Hr) as [Hfw Hbw].
  pose proof (isort_perm change_leb (omap id rows)) as Hp. split_and!; try done.
  - intros [t r] Htr. destruct (Hfw _ Htr) as (o & Ho & Hc%compare_one_spec). destruct o as [cd|].
    + destruct Hc as (Ht & Hro & Hrow). cbn in *. subst. exists (base_action cd), (head_action cd).
      split; [apply Hrow|]. split; [apply Hrow|]. right. exists cd. by rewrite Hp, elem_omap_id.
    + destruct Hc as (b & h & Hb & Hh & He). exists b, h. auto.
  - intros cd. rewrite Hp, elem_omap_id. intros ([t r] & Htr & Hc%compare_one_spec)%Hbw.
    destruct Hc as (Ht & Hro & Hrow). cbn in *. by rewrite Ht, Hro.
  - apply isort_sorted; [apply change_leb_total|apply change_leb_trans].
  - destruct (omap id rows) as [|c cs]; [done|]. split; [done|]. intros Hnil. rewrite Hnil in Hp.
    by apply Permutation_nil_cons in Hp.
  - rewrite length_isort, (Forall2_length _ _ _ Hr). clear. induction rows as [|[c|] rows IH]; cbn; [done|lia|lia].
Qed.


(** * A deployment: three revisions of one policy file *)
#[local] Existing Instance literal_regex.
Definition demo_service : RedactionService := {| svc_redact := fun v _ vault => Ok (v, ([], vault)) |}.
Definition revision (default_action db_star : string) : val := VObj
  [("schema_version", VInt 1); ("name", VStr "p"); ("default_action", VStr default_action);
   ("tools", VObj [("db.*", VObj [("action", VStr db_star); ("roles", VObj [("intern", VObj [("action", VStr "block")])])]);
                   ("db.read", VObj [("action", VStr "allow")]); ("mail.send", VObj [("action", VStr db_star)])])].
(** The text of the file names the revision. *)
Definition demo_docs (text : string) : option val :=
  if String.eqb text "strict" then Some (revision "block" "block")
  else if String.eqb text "approve" then Some (revision "block" "require_approval")
  else if String.eqb text "open" then Some (revision "allow" "block")
  else None.
Definition demo_checkout (text : string) : FS :=
  {| f_text := fun p => if String.eqb p "policies/p.yaml" then Some text else None; f_children := fun _ => None |}.
Definition demo_target : Target :=
  {| t_name := "p"; t_kind := POLICY_FILE; t_path := "policies/p.yaml"; t_layers := ["policies/p.yaml"]; t_tests := None;
     t_connector := None; t_error := None |}.
Definition demo_engine (text : string) : result PolicyEngine := engine_load (demo_checkout text) demo_docs ["policies/p.yaml"].
Definition strict_engine : PolicyEngine := Eval vm_compute in the (demo_engine "strict") I.
Definition approve_engine : PolicyEngine := Eval vm_compute in the (demo_engine "approve") I.
Definition demo_diff (base head : string) : result PackDiff :=
  diff_pack demo_service demo_docs (demo_checkout base) (demo_checkout head) "p" (Some demo_target) (Some demo_target).
Definition opened_diff : PackDiff := Eval vm_compute in the (demo_diff "strict" "approve") I.


(** * Observations *)

(** Flipping the default action from [block] to [allow] changes every tool no rule names; the
    diff reports a clean, unchanged pack. *)
Lemma default_flip_reported_clean :
  exists d, demo_diff "strict" "open" = Ok d /\ pd_state d = UNCHANGED /\ diff_clean [d] = true /\
    exists b h, (demo_engine "strict" ≫= fun e => action_of e "shell.exec" None) = Ok b /\
      (demo_engine "open" ≫= fun e => action_of e "shell.exec" None) = Ok h /\ b = VStr "block" /\ h = VStr "allow".
Proof. eexists. split; [vm_compute; reflexivity|]. repeat split; try (vm_compute; reflexivity). by eexists _, _. Qed.

(** A glob that some concrete name of the surface matches is not compared itself: [db.*] moves
    from [block] to [require_approval] and the only row of it is the literal rule's. *)
Lemma matched_glob_not_compared :
  exists d, demo_diff "strict" "approve" = Ok d /\ cd_tool <$> pd_changed d = ["mail.send"; "mail.send"] /\
    exists b h, action_of strict_engine "db.drop" None = Ok b /\ action_of approve_engine "db.drop" None = Ok h /\
      b = VStr "block" /\ h = VStr "require_approval".
Proof. eexists. split; [vm_compute; reflexivity|]. split; [vm_compute; reflexivity|]. by eexists _, _. Qed.
