(* ===== verification/Http.v ===== *)
(** The Streamable HTTP transport: [transports/streamable_http.py]. Each MCP session has its
    own gateway; a POST parks a future under its request id and a matching response line
    completes it. The asynchronous pieces are the steps of a machine: a request arriving, a
    line from a session's upstream, a deadline firing, an upstream ending. What a gateway
    sends during one handler call is delivered after it, in order; an upstream is taken to
    accept what is written to it. *)
From S2P Require Import Prelude PyVal Json Session Rules Engine Redaction Approvals Protocol Pipeline Gateway Identity.

Definition ERROR_GATEWAY_TIMEOUT : Z := (-32002)%Z.
Definition ERROR_UNAUTHENTICATED : Z := (-32003)%Z.
Definition ERROR_FORBIDDEN : Z := (-32005)%Z.

(** * One session *)
Record HSession := {
  hs_gateway : SecurityGateway;
  hs_world : World;
  hs_pending : list (val * nat);   (* request id -> the POST whose future it is *)
  hs_sse : list string;            (* lines queued for the event stream *)
  hs_closed : bool;
}.

Definition set_world w s := {| hs_gateway := hs_gateway s; hs_world := w; hs_pending := hs_pending s;
  hs_sse := hs_sse s; hs_closed := hs_closed s |}.
Definition hs_set_pending p s := {| hs_gateway := hs_gateway s; hs_world := hs_world s; hs_pending := p;
  hs_sse := hs_sse s; hs_closed := hs_closed s |}.
Definition push_sse l s := {| hs_gateway := hs_gateway s; hs_world := hs_world s; hs_pending := hs_pending s;
  hs_sse := hs_sse s ++ [l]; hs_closed := hs_closed s |}.
Definition hs_close s := {| hs_gateway := hs_gateway s; hs_world := hs_world s; hs_pending := hs_pending s;
  hs_sse := hs_sse s; hs_closed := true |}.

(** [pending.pop(k, None)] *)
Fixpoint vdel {A} (k : val) (d : list (val * A)) : list (val * A) :=
  match d with [] => [] | (k', x) :: d => if py_eqb k k' then d else (k', x) :: vdel k d end.

(** What an HTTP client gets. *)
Inductive http_response :=
  | Reply (line : string)                              (* 200 with a JSON-RPC message *)
  | RpcError (status : Z) (request_id : val) (code : Z)
  | Accepted | NoContent | NotFound | EventStream
  | ServerError                                        (* an exception escaped the handler *)
  | Cancelled.

(** [send_client]: complete the matching future, or queue the line for the event stream. *)
Definition send_client_http (line : string) (s : HSession) : list (nat * http_response) * HSession :=
  match decode_line line with
  | Ok (Some raw) =>
      if is_response raw then
        match vget (msg_id raw) (hs_pending s) with
        | Some rid => ([(rid, Reply line)], hs_set_pending (vdel (msg_id raw) (hs_pending s)) s)
        | None => ([], push_sse line s)
        end
      else ([], push_sse line s)
  | _ => ([], push_sse line s)
  end.

(** Deliver what a handler call sent, in order. *)
Fixpoint deliver (evs : list event) (s : HSession) : list (nat * http_response) * HSession :=
  match evs with
  | [] => ([], s)
  | ToClient l :: evs =>
      let '(rs, s) := send_client_http l s in
      let '(rs', s) := deliver evs s in (rs ++ rs', s)
  | _ :: evs => deliver evs s
  end.

(** Run a gateway handler of the session. *)
Definition drive (m : SecurityGateway -> G unit) (s : HSession) : result unit * (list (nat * http_response) * HSession) :=
  let w := hs_world s in
  let '(r, w') := m (hs_gateway s) w in
  (r, deliver (drop (List.length (trace w)) (trace w')) (set_world w' s)).

(** * The hub *)
Record Hub := {
  sessions : list (string * HSession);
  minted : nat;                             (* session ids drawn so far *)
  waiting : list (nat * (string * val));    (* POSTs that wait on a session, and under which id *)
  answers : list (nat * http_response);
}.
Definition hub_empty : Hub := {| sessions := []; minted := 0; waiting := []; answers := [] |}.

Definition set_sessions ss h := {| sessions := ss; minted := minted h; waiting := waiting h; answers := answers h |}.
(** A POST is answered once: what comes later for it is lost. *)
Definition answer_once (l : list (nat * http_response)) (r : nat * http_response) : list (nat * http_response) :=
  if ahas r.1 l then l else l ++ [r].
Definition hub_answer (rs : list (nat * http_response)) h :=
  {| sessions := sessions h; minted := minted h; waiting := waiting h; answers := fold_left answer_once rs (answers h) |}.
Definition park (rid : nat) (sid : string) (id : val) h :=
  {| sessions := sessions h; minted := minted h; waiting := waiting h ++ [(rid, (sid, id))]; answers := answers h |}.
Definition mint h := {| sessions := sessions h; minted := S (minted h); waiting := waiting h; answers := answers h |}.

Record http_request := {
  rq_session : option string;        (* the Mcp-Session-Id header *)
  rq_authorization : option string;
  rq_body : string;
}.

Inductive http_event :=
  | Post (rid : nat) (rq : http_request)
  | Get (rid : nat) (rq : http_request)
  | Delete (rid : nat) (rq : http_request)
  | UpstreamSays (sid line : string)
  | Deadline (rid : nat)
  | UpstreamExit (sid : string) (returncode : option Z).

(** [build_session_parts], without the store, the sinks and the upstream factory. *)
Definition build_session_parts (engine : PolicyEngine) (svc : option RedactionService) (broker : option ApprovalBroker)
  (monitor : option AnomalyMonitor) (pr : Principal) : result SecurityGateway :=
  p ← default_pipeline engine svc broker;
  SecurityGateway_init p pr svc (Some engine) monitor.

Definition set_principal (p : Principal) (g : SecurityGateway) : SecurityGateway :=
  {| pipeline := pipeline g; principal := p; redaction := redaction g; policy := policy g; risk := risk g;
     sequence := sequence g; g_posture := g_posture g; anomaly := anomaly g |}.

(** What [_authenticate] and [_enforce_session_owner] make of a request. *)
Inductive auth_outcome := NoAuth | Caller (p : Principal) | Refused (r : http_response).

Section Http.
Context `{Regex}.
(** The gateway and state of a new session, if its parts can be built, the [n]-th session id, the command of the upstream,
    and the resolver, if authentication is on: what it answers to the [rid]-th request. *)
Context (parts : string -> result (SecurityGateway * World)) (fresh : nat -> string) (command : list string).
Context (resolver : option (nat -> option string -> result Principal)).

Definition authenticate (rid : nat) (rq : http_request) (request_id : val) : auth_outcome :=
  match resolver with
  | None => NoAuth
  | Some resolve =>
      match resolve rid (rq_authorization rq) with
      | Ok p => Caller p
      | Err e => Refused (if bool_decide (exn_cls e = IdentityError) then RpcError 401 request_id ERROR_UNAUTHENTICATED
                          else ServerError)
      end
  end.

Definition owns (s : HSession) (a : auth_outcome) : bool :=
  match a with Caller p => String.eqb (principal_id (principal (hs_gateway s))) (principal_id p) | _ => true end.

(** [handle_request]: park the future, then feed the gateway. *)
Definition handle_request (rid : nat) (sid : string) (raw : pydict) (request_id : val) (h : Hub) : Hub :=
  match aget sid (sessions h) with
  | None => h
  | Some s =>
      if hashable request_id then
        let '(r, (rs, s')) := drive (fun g => on_client_line g (encode_msg raw)) (hs_set_pending (vset request_id rid (hs_pending s)) s) in
        let h := set_sessions (aset sid s' (sessions h)) h in
        match r with
        | Ok _ => hub_answer rs (park rid sid request_id h)
        | Err _ => hub_answer ((rid, ServerError) :: rs) h
        end
      else hub_answer [(rid, ServerError)] h
  end.

(** [handle_notification] *)
Definition handle_notification (rid : nat) (sid : string) (raw : pydict) (h : Hub) : Hub :=
  match aget sid (sessions h) with
  | None => h
  | Some s =>
      let '(r, (rs, s')) := drive (fun g => on_client_line g (encode_msg raw)) s in
      hub_answer (rs ++ [(rid, match r with Ok _ => Accepted | Err _ => ServerError end)])
        (set_sessions (aset sid s' (sessions h)) h)
  end.

(** [create]: a session bound to its caller before it starts. *)
Definition create (a : auth_outcome) (h : Hub) : option string * Hub :=
  let sid := fresh (minted h) in
  match parts sid with
  | Err _ => (None, mint h)
  | Ok (g, w) =>
      let g := match a with Caller p => set_principal p g | _ => g end in
      let s := {| hs_gateway := g; hs_world := (on_start g command w).2; hs_pending := []; hs_sse := []; hs_closed := false |} in
      (Some sid, set_sessions (aset sid s (sessions h)) (mint h))
  end.

Definition handle_post (rid : nat) (rq : http_request) (h : Hub) : Hub :=
  let reply r := hub_answer [(rid, r)] h in
  match json_loads (rq_body rq) with
  | Ok (VDict raw) =>
      match decode_line (encode_msg raw) with
      | Ok (Some msg) =>
          match authenticate rid rq (msg_id msg) with
          | Refused r => reply r
          | auth =>
              match rq_session rq with
              | None =>
                  if bool_decide (method msg = Some "initialize") then
                    match create auth h with
                    | (Some sid, h) => handle_request rid sid raw (msg_id msg) h
                    | (None, h) => hub_answer [(rid, ServerError)] h
                    end
                  else reply (RpcError 400 (msg_id msg) (-32600))
              | Some sid =>
                  match aget sid (sessions h) with
                  | None => reply (RpcError 404 (msg_id msg) (-32001))
                  | Some s =>
                      if owns s auth then
                        if is_request msg then handle_request rid sid raw (msg_id msg) h
                        else handle_notification rid sid raw h
                      else reply (RpcError 403 (msg_id msg) ERROR_FORBIDDEN)
                  end
              end
          end
      | _ => reply ServerError
      end
  | Ok _ => reply (RpcError 400 VNone (-32600))
  | Err _ => reply (RpcError 400 VNone (-32700))
  end.

(** The session a GET or DELETE names, if the caller may have it. *)
Definition find_session (rid : nat) (rq : http_request) (h : Hub) (missing : http_response)
  : http_response + (string * HSession) :=
  match authenticate rid rq VNone with
  | Refused r => inl r
  | auth =>
      match rq_session rq with
      | Some ((String _ _) as sid) =>
          match aget sid (sessions h) with
          | Some s => if owns s auth then inr (sid, s) else inl (RpcError 403 VNone ERROR_FORBIDDEN)
          | None => inl missing
          end
      | _ => inl missing
      end
  end.

Definition handle_get (rid : nat) (rq : http_request) (h : Hub) : Hub :=
  hub_answer [(rid, match find_session rid rq h (RpcError 404 VNone (-32001)) with inl r => r | inr _ => EventStream end)] h.

(** [terminate]: the session is forgotten and every future of it cancelled. *)
Definition handle_delete (rid : nat) (rq : http_request) (h : Hub) : Hub :=
  match find_session rid rq h NotFound with
  | inl r => hub_answer [(rid, r)] h
  | inr (sid, s) =>
      hub_answer (((fun kr => (kr.2, Cancelled)) <$> hs_pending s) ++ [(rid, NoContent)])
        (set_sessions (adel sid (sessions h)) h)
  end.

(** A line from the upstream of a session. *)
Definition upstream_says (sid line : string) (h : Hub) : Hub :=
  match aget sid (sessions h) with
  | None => h
  | Some s =>
      let '(_, (rs, s')) := drive (fun g => on_upstream_line g line) s in
      hub_answer rs (set_sessions (aset sid s' (sessions h)) h)
  end.

(** The deadline of a POST that still waits: its id is dropped from the session's table. *)
Definition deadline (rid : nat) (h : Hub) : Hub :=
  if ahas rid (answers h) then h
  else match aget rid (waiting h) with
       | None => h
       | Some (sid, id) =>
           let h := hub_answer [(rid, Reply (encode_msg (error_response id ERROR_GATEWAY_TIMEOUT
                      "upstream did not respond within the gateway deadline")))] h in
           match aget sid (sessions h) with
           | None => h
           | Some s => set_sessions (aset sid (hs_set_pending (vdel id (hs_pending s)) s) (sessions h)) h
           end
       end.

(** The upstream ended on its own. *)
Definition session_upstream_exit (sid : string) (returncode : option Z) (h : Hub) : Hub :=
  match aget sid (sessions h) with
  | None => h
  | Some s =>
      let '(_, (rs, s')) := drive (fun _ => on_upstream_exit returncode) (hs_close s) in
      hub_answer rs (set_sessions (aset sid s' (sessions h)) h)
  end.

Definition hub_step (h : Hub) (e : http_event) : Hub :=
  match e with
  | Post rid rq => handle_post rid rq h
  | Get rid rq => handle_get rid rq h
  | Delete rid rq => handle_delete rid rq h
  | UpstreamSays sid line => upstream_says sid line h
  | Deadline rid => deadline rid h
  | UpstreamExit sid rc => session_upstream_exit sid rc h
  end.
End Http.

(** * Who reaches a session *)
Lemma send_client_gateway line s : hs_gateway (send_client_http line s).2 = hs_gateway s.
Proof. unfold send_client_http. by repeat case_match. Qed.

Lemma deliver_gateway evs s : hs_gateway (deliver evs s).2 = hs_gateway s.
Proof.
  revert s. induction evs as [|[n fs|l|l|x] evs IH]; intros s; cbn; [done|by rewrite IH| |by rewrite IH|by rewrite IH].
  pose proof (send_client_gateway l s) as H1. destruct (send_client_http l s) as [rs s1].
  pose proof (IH s1) as H2. destruct (deliver evs s1) as [rs' s2]. cbn in *. congruence.
Qed.

Lemma drive_gateway m s : hs_gateway (drive m s).2.2 = hs_gateway s.
Proof. unfold drive. destruct (m _ _) as [r w']. cbn. by rewrite deliver_gateway. Qed.

(** A step that touches one session, and keeps its gateway. *)
Definition touches (sid : string) (h h' : Hub) : Prop :=
  (forall sid', sid' <> sid -> aget sid' (sessions h') = aget sid' (sessions h)) /\
  (forall s', aget sid (sessions h') = Some s' -> exists s, aget sid (sessions h) = Some s /\ hs_gateway s' = hs_gateway s).

Lemma touches_same sid h h' : sessions h' = sessions h -> touches sid h h'.
Proof. intros Heq. split; rewrite Heq; [done|]. intros s' Hs. by exists s'. Qed.
Lemma touches_aset sid s s' h h' : aget sid (sessions h) = Some s -> hs_gateway s' = hs_gateway s ->
  sessions h' = aset sid s' (sessions h) -> touches sid h h'.
Proof.
  intros Hs Hg Heq. split; rewrite Heq.
  - intros sid' Hne. by rewrite aget_aset_ne.
  - intros s1. rewrite aget_aset_eq. intros [= <-]. by exists s.
Qed.

Section Owners.
Context `{Regex} (parts : string -> result (SecurityGateway * World)) (fresh : nat -> string) (command : list string).

Lemma handle_request_touches rid sid raw id h : touches sid h (handle_request rid sid raw id h).
Proof.
  unfold handle_request. destruct (aget sid (sessions h)) as [s|] eqn:Hs; [|by apply touches_same].
  destruct (hashable id); [|by apply touches_same].
  pose proof (drive_gateway (fun g => on_client_line g (encode_msg raw)) (hs_set_pending (vset id rid (hs_pending s)) s)) as Hg.
  destruct (drive _ _) as [r [rs s']]. destruct r; by eapply touches_aset.
Qed.

Lemma handle_notification_touches rid sid raw h : touches sid h (handle_notification rid sid raw h).
Proof.
  unfold handle_notification. destruct (aget sid (sessions h)) as [s|] eqn:Hs; [|by apply touches_same].
  pose proof (drive_gateway (fun g => on_client_line g (encode_msg raw)) s) as Hg.
  destruct (drive _ _) as [r [rs s']]. by eapply touches_aset.
Qed.

Lemma upstream_touches sid line h : touches sid h (upstream_says sid line h).
Proof.
  unfold upstream_says. destruct (aget sid (sessions h)) as [s|] eqn:Hs; [|by apply touches_same].
  pose proof (drive_gateway (fun g => on_upstream_line g line) s) as Hg.
  destruct (drive _ _) as [r [rs s']]. by eapply touches_aset.
Qed.

Lemma exit_touches sid rc h : touches sid h (session_upstream_exit sid rc h).
Proof.
  unfold session_upstream_exit. destruct (aget sid (sessions h)) as [s|] eqn:Hs; [|by apply touches_same].
  pose proof (drive_gateway (fun _ => on_upstream_exit rc) (hs_close s)) as Hg.
  destruct (drive _ _) as [r [rs s']]. by eapply touches_aset.
Qed.

Lemma deadline_touches rid h : exists sid, touches sid h (deadline rid h).
Proof.
  unfold deadline. destruct (ahas rid (answers h)); [exists ""; by apply touches_same|].
  destruct (aget rid (waiting h)) as [[sid id]|]; [|exists ""; by apply touches_same]. exists sid. cbn.
  destruct (aget sid (sessions h)) as [s|] eqn:Hs; [|by apply touches_same].
  by eapply touches_aset; [exact Hs| |reflexivity].
Qed.

Context (resolve : nat -> option string -> result Principal).
Notation step := (hub_step parts fresh command (Some resolve)).

(** The caller of a request, as resolved, is the one the session is bound to. *)
Definition authorised (rid : nat) (rq : http_request) (s : HSession) : Prop :=
  exists p, resolve rid (rq_authorization rq) = Ok p /\ principal_id p = principal_id (principal (hs_gateway s)).

Lemma owns_authorised rid rq id s : owns s (authenticate (Some resolve) rid rq id) = true ->
  (exists r, authenticate (Some resolve) rid rq id = Refused r) \/ authorised rid rq s.
Proof.
  unfold authorised. cbn. destruct (resolve rid (rq_authorization rq)) as [p|e]; [|by left; eauto].
  cbn. intros He%String.eqb_eq. right. by exists p.
Qed.

Definition requested (e : http_event) : option (nat * http_request) :=
  match e with Post rid rq | Get rid rq | Delete rid rq => Some (rid, rq) | _ => None end.

(** A step touches at most the session a request names, with the right of its owner, or
    creates one. *)
Inductive hub_effect (h : Hub) (e : http_event) (h' : Hub) : Prop :=
  | EffQuiet : sessions h' = sessions h -> minted h' = minted h -> hub_effect h e h'
  | EffTouch sid s : touches sid h h' -> minted h' = minted h -> NoDup (akeys (sessions h')) ->
      aget sid (sessions h) = Some s ->
      (forall rid rq, requested e = Some (rid, rq) -> rq_session rq = Some sid /\ authorised rid rq s) ->
      (requested e = None -> is_Some (aget sid (sessions h'))) -> hub_effect h e h'
  | EffCreate rid rq p h1 : e = Post rid rq -> resolve rid (rq_authorization rq) = Ok p ->
      h1 = (create parts fresh command (Caller p) h).2 -> touches (fresh (minted h)) h1 h' -> minted h' = minted h1 ->
      NoDup (akeys (sessions h')) -> hub_effect h e h'.

Lemma handle_request_frame rid sid raw id h : NoDup (akeys (sessions h)) ->
  minted (handle_request rid sid raw id h) = minted h /\ NoDup (akeys (sessions (handle_request rid sid raw id h))).
Proof.
  intros Hn. unfold handle_request. destruct (aget sid (sessions h)) as [s|]; [|done]. destruct (hashable id); [|done].
  destruct (drive _ _) as [r [rs s']]. destruct r; (split; [done|]); cbn; by apply NoDup_aset.
Qed.

Lemma handle_notification_frame rid sid raw h : NoDup (akeys (sessions h)) ->
  minted (handle_notification rid sid raw h) = minted h /\ NoDup (akeys (sessions (handle_notification rid sid raw h))).
Proof.
  intros Hn. unfold handle_notification. destruct (aget sid (sessions h)) as [s|]; [|done].
  destruct (drive _ _) as [r [rs s']]. split; [done|]. cbn. by apply NoDup_aset.
Qed.

Lemma post_effect rid rq h : NoDup (akeys (sessions h)) -> hub_effect h (Post rid rq) (step h (Post rid rq)).
Proof.
  intros Hn. cbn. unfold handle_post.
  destruct (json_loads (rq_body rq)) as [[]|]; try by apply EffQuiet.
  destruct (decode_line (encode_msg d)) as [[msg|]|]; try by apply EffQuiet.
  destruct (authenticate (Some resolve) rid rq (msg_id msg)) as [|p|r] eqn:Ha; [|..|by apply EffQuiet].
  { cbn in Ha. by destruct (resolve rid (rq_authorization rq)). }
  assert (resolve rid (rq_authorization rq) = Ok p) as Hp.
  { cbn in Ha. destruct (resolve rid (rq_authorization rq)); [by injection Ha as ->|done]. }
  destruct (rq_session rq) as [sid|] eqn:Hsid.
  - destruct (aget sid (sessions h)) as [s|] eqn:Hs; [|by apply EffQuiet].
    destruct (owns s (Caller p)) eqn:Ho; [|by apply EffQuiet].
    assert (forall rid' rq', requested (Post rid rq) = Some (rid', rq') -> rq_session rq' = Some sid /\ authorised rid' rq' s) as Hq.
    { intros rid' rq' [= <- <-]. split; [done|]. exists p. split; [done|]. cbn in Ho. by apply String.eqb_eq in Ho. }
    destruct (is_request msg).
    + destruct (handle_request_frame rid sid d (msg_id msg) h Hn). eapply EffTouch; eauto; [apply handle_request_touches|done].
    + destruct (handle_notification_frame rid sid d h Hn). eapply EffTouch; eauto; [apply handle_notification_touches|done].
  - case_bool_decide; [|by apply EffQuiet]. destruct (create parts fresh command (Caller p) h) as [[sid|] h1] eqn:Hc.
    2: { unfold create in Hc. destruct (parts _) as [[g w]|x] eqn:Hx; [done|]. injection Hc as <-.
      eapply (EffCreate _ _ _ rid rq p (mint h)); eauto; [unfold create; by rewrite Hx|by apply touches_same]. }
    assert (sid = fresh (minted h) /\ NoDup (akeys (sessions h1))) as [-> Hn1].
    { unfold create in Hc. destruct (parts _) as [[g w]|x]; [|done]. injection Hc as <- <-. split; [done|]. cbn. by apply NoDup_aset. }
    destruct (handle_request_frame rid (fresh (minted h)) d (msg_id msg) h1 Hn1).
    eapply (EffCreate _ _ _ rid rq p h1); eauto; [by rewrite Hc|apply handle_request_touches].
Qed.

Lemma find_session_inr rid rq h missing sid s : find_session (Some resolve) rid rq h missing = inr (sid, s) ->
  rq_session rq = Some sid /\ aget sid (sessions h) = Some s /\ authorised rid rq s.
Proof.
  unfold find_session. pose proof (owns_authorised rid rq VNone s) as Ho.
  destruct (authenticate _ _ _ _) as [|p|r] eqn:Ha; [..|discriminate];
    (destruct (rq_session rq) as [[|a sid']|]; [discriminate| |discriminate]);
    (destruct (aget _ _) as [s'|] eqn:Hs; [|discriminate]); (destruct (owns s' _) eqn:Ho'; [|discriminate]);
    intros [= <- <-]; destruct (Ho Ho') as [[r [=]]|?]; done.
Qed.

Lemma step_effect e h : NoDup (akeys (sessions h)) -> hub_effect h e (step h e).
Proof.
  intros Hn. destruct e as [rid rq|rid rq|rid rq|sid line|rid|sid rc]; [by apply post_effect|by apply EffQuiet|..].
  - cbn. unfold handle_delete. destruct (find_session _ _ _ _ _) as [r|[sid s]] eqn:Hf; [by apply EffQuiet|].
    apply find_session_inr in Hf as (Hr & Hs & Ha). eapply (EffTouch _ _ _ sid s); [|done|by apply NoDup_adel|done| |done].
    + split; cbn; [intros sid' ?; by apply aget_adel_ne|]. intros s'. by rewrite aget_adel_eq.
    + by intros ? ? [= <- <-].
  - cbn. unfold upstream_says. destruct (aget sid (sessions h)) as [s|] eqn:Hs; [|by apply EffQuiet].
    pose proof (upstream_touches sid line h) as Ht. unfold upstream_says in Ht. rewrite Hs in Ht.
    destruct (drive _ _) as [r [rs s']]. eapply EffTouch; eauto; [cbn; by apply NoDup_aset|done|]. intros _. cbn. rewrite aget_aset_eq. eauto.
  - cbn. destruct (deadline_touches rid h) as [sid Ht]. unfold deadline in *.
    destruct (ahas rid (answers h)); [by apply EffQuiet|]. destruct (aget rid (waiting h)) as [[sid' id]|]; [|by apply EffQuiet].
    cbn in *. destruct (aget sid' (sessions h)) as [s|] eqn:Hs; [|by apply EffQuiet].
    eapply (EffTouch _ _ _ sid' s); [|done|cbn; by apply NoDup_aset|done|done|].
    + by eapply touches_aset; [exact Hs| |reflexivity].
    + intros _. cbn. rewrite aget_aset_eq. eauto.
  - cbn. unfold session_upstream_exit. destruct (aget sid (sessions h)) as [s|] eqn:Hs; [|by apply EffQuiet].
    pose proof (exit_touches sid rc h) as Ht. unfold session_upstream_exit in Ht. rewrite Hs in Ht.
    destruct (drive _ _) as [r [rs s']]. eapply EffTouch; eauto; [cbn; by apply NoDup_aset|done|]. intros _. cbn. rewrite aget_aset_eq. eauto.
Qed.

Definition hub_run (evs : list http_event) : Hub := fold_left step evs hub_empty.

(** Sessions carry distinct ids, all of them drawn. *)
Record hub_inv (h : Hub) : Prop := {
  hi_nodup : NoDup (akeys (sessions h));
  hi_drawn : forall sid, is_Some (aget sid (sessions h)) -> exists n, n < minted h /\ sid = fresh n;
}.

Lemma touches_is_Some sid h h' sid' : touches sid h h' -> is_Some (aget sid' (sessions h')) -> is_Some (aget sid' (sessions h)).
Proof.
  intros [H1 H2] [s' Hs']. destruct (decide (sid' = sid)) as [->|Hne]; [|rewrite <- H1 by done; eauto].
  destruct (H2 s' Hs') as (s & Hs & _). eauto.
Qed.

Lemma create_sessions a h : minted (create parts fresh command a h).2 = S (minted h) /\
  (sessions (create parts fresh command a h).2 = sessions h \/
   exists s g w, parts (fresh (minted h)) = Ok (g, w) /\
     hs_gateway s = (match a with Caller p => set_principal p g | _ => g end) /\
     sessions (create parts fresh command a h).2 = aset (fresh (minted h)) s (sessions h)).
Proof.
  unfold create. destruct (parts _) as [[g w]|x] eqn:Hx; (split; [done|]); [right|by left].
  eexists _, g, w. split; [done|]. split; [|reflexivity]. done.
Qed.

Lemma step_inv h e : hub_inv h -> hub_inv (step h e).
Proof.
  intros [Hn Hd]. destruct (step_effect e h Hn) as [Hs Hm|sid s Ht Hm Hn' _ _ _|rid rq p h1 _ _ -> Ht Hm Hn'].
  - split; by rewrite Hs, ?Hm.
  - split; [done|]. intros sid' Hsid'. rewrite Hm. by eapply Hd, touches_is_Some.
  - split; [done|]. intros sid' Hsid'. apply (touches_is_Some _ _ _ _ Ht) in Hsid'.
    destruct (create_sessions (Caller p) h) as (Hcm & Hcs). rewrite Hm, Hcm.
    assert (is_Some (aget sid' (sessions h)) \/ sid' = fresh (minted h)) as [Hold|Hnew].
    { destruct Hcs as [Hcs|(s & _ & _ & _ & _ & Hcs)]; rewrite Hcs in Hsid'; [by left|].
      rewrite aget_aset in Hsid'. case_decide; auto. }
    + destruct (Hd _ Hold) as (n & Hlt & ->). exists n. split; [lia|done].
    + exists (minted h). split; [lia|done].
Qed.

Lemma run_inv evs : hub_inv (hub_run evs).
Proof.
  unfold hub_run. assert (hub_inv hub_empty) as Hi by (split; [constructor|by intros ? [? [=]]]).
  revert Hi. generalize hub_empty. induction evs as [|e evs IH]; intros h Hi; [done|]. by apply IH, step_inv.
Qed.
End Owners.

(** ** The gateways of live sessions, with or without authentication *)
Section Gateways.
Context `{Regex} (parts : string -> result (SecurityGateway * World)) (fresh : nat -> string) (command : list string).
Context (resolver : option (nat -> option string -> result Principal)).

(** The gateway is one the parts gave for the session, at most rebound to its caller. *)
Definition built (sid : string) (g : SecurityGateway) : Prop :=
  exists g0 w, parts sid = Ok (g0, w) /\ (g = g0 \/ exists p, g = set_principal p g0).
Definition all_built (h : Hub) : Prop :=
  NoDup (akeys (sessions h)) /\ forall sid s, aget sid (sessions h) = Some s -> built sid (hs_gateway s).

Lemma all_built_touches sid h h' : touches sid h h' -> NoDup (akeys (sessions h')) -> all_built h -> all_built h'.
Proof.
  intros [H1 H2] Hn [_ Hb]. split; [done|]. intros sid' s' Hs'.
  destruct (decide (sid' = sid)) as [->|Hne]; [|apply Hb; by rewrite <- H1].
  destruct (H2 s' Hs') as (s & Hs & ->). by apply Hb.
Qed.

Lemma all_built_request rid sid raw id h : all_built h -> all_built (handle_request rid sid raw id h).
Proof.
  intros Hb. eapply all_built_touches; [apply handle_request_touches| |done]. by apply handle_request_frame, Hb.
Qed.
Lemma all_built_notification rid sid raw h : all_built h -> all_built (handle_notification rid sid raw h).
Proof.
  intros Hb. eapply all_built_touches; [apply handle_notification_touches| |done]. by apply handle_notification_frame, Hb.
Qed.

Lemma all_built_create a h : all_built h -> all_built (create parts fresh command a h).2.
Proof.
  intros [Hn Hb]. destruct (create_sessions parts fresh command a h) as (_ & [Hs|(s & g & w & Hp & Hg & Hs)]);
    unfold all_built; rewrite Hs; [done|]. split; [by apply NoDup_aset|].
  intros sid s'. rewrite aget_aset. case_decide as Hdec; [|apply Hb]. subst sid. intros [= <-]. exists g, w.
  split; [done|]. rewrite Hg. destruct a as [|p|r]; [by left|by right; exists p|by left].
Qed.

Lemma all_built_post rid rq h : all_built h -> all_built (handle_post parts fresh command resolver rid rq h).
Proof.
  intros Hb. unfold handle_post.
  destruct (json_loads (rq_body rq)) as [[]|]; try done.
  destruct (decode_line (encode_msg d)) as [[msg|]|]; try done.
  pose proof (all_built_create NoAuth h Hb) as Hc1.
  pose proof (fun p => all_built_create (Caller p) h Hb) as Hc2.
  destruct (authenticate resolver rid rq (msg_id msg)) as [|p|r] eqn:Ha; [| |done];
    (destruct (rq_session rq) as [sid|];
      [destruct (aget sid (sessions h)) as [s|]; [|done]; destruct (owns s _); [|done];
       destruct (is_request msg); [by apply all_built_request|by apply all_built_notification]|
       case_bool_decide; [|done]]).
  - destruct (create parts fresh command NoAuth h) as [[sid|] h1]; [by apply all_built_request|done].
  - specialize (Hc2 p). destruct (create parts fresh command (Caller p) h) as [[sid|] h1]; [by apply all_built_request|done].
Qed.

Lemma all_built_delete rid rq h : all_built h -> all_built (handle_delete resolver rid rq h).
Proof.
  intros [Hn Hb]. unfold handle_delete. destruct (find_session _ _ _ _ _) as [r|[sid s]]; [done|].
  split; cbn; [by apply NoDup_adel|]. intros sid' s'. destruct (decide (sid' = sid)) as [->|Hne].
  - by rewrite aget_adel_eq.
  - rewrite aget_adel_ne by done. apply Hb.
Qed.

Lemma all_built_step h e : all_built h -> all_built (hub_step parts fresh command resolver h e).
Proof.
  intros Hb. pose proof Hb as [Hn _]. destruct e as [rid rq|rid rq|rid rq|sid line|rid|sid rc]; cbn.
  - by apply all_built_post.
  - done.
  - by apply all_built_delete.
  - eapply all_built_touches; [apply upstream_touches| |done]. unfold upstream_says.
    destruct (aget sid (sessions h)); [|done]. destruct (drive _ _) as [r [rs s']]. cbn. by apply NoDup_aset.
  - destruct (deadline_touches rid h) as [sid Ht]. eapply all_built_touches; [exact Ht| |done]. unfold deadline.
    destruct (ahas rid (answers h)); [done|]. destruct (aget rid (waiting h)) as [[sid' id]|]; [|done]. cbn.
    destruct (aget sid' (sessions h)); [cbn; by apply NoDup_aset|done].
  - eapply all_built_touches; [apply exit_touches| |done]. unfold session_upstream_exit.
    destruct (aget sid (sessions h)); [|done]. destruct (drive _ _) as [r [rs s']]. cbn. by apply NoDup_aset.
Qed.
End Gateways.

(** C32: A session belongs to whoever created it. With authentication on, in every state the hub
    can reach: a request leaves a session as it was, unless it names that session and its
    credential resolves to the very principal the session is bound to; the gateway of a
    session, and so its principal, never changes; and a session that appears was created by a
    request whose credential resolved to the principal it is bound to. *)
Theorem session_owner_only `{Regex} parts fresh command resolve evs e sid :
  (forall n n' : nat, fresh n = fresh n' -> n = n') ->
  let h := hub_run parts fresh command resolve evs in
  let h' := hub_step parts fresh command (Some resolve) h e in
  match aget sid (sessions h), aget sid (sessions h') with
  | Some s, Some s' => hs_gateway s' = hs_gateway s /\
      (s' = s \/ forall rid rq, requested e = Some (rid, rq) -> rq_session rq = Some sid /\ authorised resolve rid rq s)
  | Some s, None => exists rid rq, requested e = Some (rid, rq) /\ rq_session rq = Some sid /\ authorised resolve rid rq s
  | None, Some s' => exists rid rq p, e = Post rid rq /\ resolve rid (rq_authorization rq) = Ok p /\ principal (hs_gateway s') = p
  | None, None => True
  end.
Proof.
  intros Hinj h h'. destruct (run_inv parts fresh command resolve evs) as [Hn Hd]. fold h in Hn, Hd.
  pose proof (step_effect parts fresh command resolve e h Hn) as Heff. fold h' in Heff.
  destruct Heff as [Hs Hm|sid0 s0 Ht Hm Hn' Hs0 Hreq Hlive|rid rq p h1 He Hp -> Ht Hm Hn'].
  - rewrite Hs. destruct (aget sid (sessions h)) as [s|]; [|done]. split; [done|by left].
  - destruct (decide (sid = sid0)) as [->|Hne]; [|destruct Ht as [Ht _]; rewrite (Ht sid Hne); destruct (aget sid (sessions h)); [split; [done|by left]|done]].
    rewrite Hs0. destruct (aget sid0 (sessions h')) as [s'|] eqn:Hs'.
    + destruct Ht as [_ Ht]. destruct (Ht s' Hs') as (s & Hs & Hg). split; [congruence|]. right. exact Hreq.
    + destruct (requested e) as [[rid rq]|]; [exists rid, rq; split; [done|by apply Hreq]|by destruct (Hlive eq_refl)].
  - destruct (create_sessions parts fresh command (Caller p) h) as (_ & [Hs1|(s1 & g1 & w1 & _ & Hg1 & Hs1)]).
    { assert (forall s', aget sid (sessions h') = Some s' -> aget sid (sessions h) = Some s') as Hback.
      { destruct Ht as [Ht1 Ht2]. destruct (decide (sid = fresh (minted h))) as [->|Hne]; [|intros s'; by rewrite Ht1, Hs1].
        intros s' Hs'. destruct (Ht2 s' Hs') as (s & Hs & _). rewrite Hs1 in Hs.
        destruct (Hd (fresh (minted h))) as (n & Hlt & Heq%Hinj); [by rewrite Hs; eauto|lia]. }
      destruct (aget sid (sessions h')) as [s'|] eqn:Hs'; [by rewrite (Hback s'); [split; [|left]|]|].
      destruct (aget sid (sessions h)) as [s|] eqn:Hs; [exfalso|done].
      destruct Ht as [Ht1 _]. destruct (decide (sid = fresh (minted h))) as [->|Hne]; [|by rewrite Ht1, Hs1, Hs in Hs'].
      destruct (Hd (fresh (minted h))) as (n & Hlt & Heq%Hinj); [by rewrite Hs; eauto|lia]. }
    assert (aget (fresh (minted h)) (sessions h) = None) as Hfresh.
    { destruct (aget (fresh (minted h)) (sessions h)) eqn:Hx; [|done].
      destruct (Hd (fresh (minted h))) as (n & Hlt & Heq%Hinj); [by rewrite Hx; eauto|lia]. }
    destruct (decide (sid = fresh (minted h))) as [->|Hne].
    + rewrite Hfresh. destruct (aget (fresh (minted h)) (sessions h')) as [s'|] eqn:Hs'; [|done].
      destruct Ht as [_ Ht]. destruct (Ht s' Hs') as (s & Hs & Hg). rewrite Hs1, aget_aset_eq in Hs. injection Hs as <-.
      exists rid, rq, p. by rewrite Hg, Hg1.
    + destruct Ht as [Ht _]. rewrite (Ht sid Hne), Hs1, aget_aset_ne by done.
      destruct (aget sid (sessions h)); [split; [done|by left]|done].
Qed.

(** * A deployment: two callers, one upstream *)
#[local] Existing Instance literal_regex.
Definition hub_principal (name : string) : Principal := {| principal_id := name; roles := [] |}.
Definition hub_parts (sid : string) : result (SecurityGateway * World) :=
  g ← build_session_parts org_engine None None None (hub_principal "default");
  Ok (g, World_new (Session_new sid "2024-01-01T00:00:00Z")).
Definition hub_fresh (n : nat) : string := String "s" (pretty n).
Definition hub_resolve (_ : nat) (authorization : option string) : result Principal :=
  match authorization with
  | Some "ApiKey a" => Ok (hub_principal "alice")
  | Some "ApiKey b" => Ok (hub_principal "bob")
  | _ => raise IdentityError "unknown API key"
  end.
Definition rpc (id : Z) (m : string) : string :=
  encode_msg (fields [("jsonrpc", VStr "2.0"); ("id", VInt id); ("method", VStr m)]).
Definition demo_request (key : string) (sid : option string) (body : string) : http_request :=
  {| rq_session := sid; rq_authorization := Some ("ApiKey " +:+ key); rq_body := body |}.
Definition alice_ping (rid : nat) : http_event := Post rid (demo_request "a" (Some "s0") (rpc 1 "ping")).
Definition pong : string := encode_msg (fields [("jsonrpc", VStr "2.0"); ("id", VInt 1); ("result", VStr "pong")]).
Definition opened : list http_event := [Post 0 (demo_request "a" None (rpc 0 "initialize"))].
Definition demo_run (evs : list http_event) : Hub := hub_run hub_parts hub_fresh ["upstream"] hub_resolve (opened ++ evs).

Lemma hub_fresh_inj n n' : hub_fresh n = hub_fresh n' -> n = n'.
Proof. intros [= Hp]. by apply (inj pretty). Qed.

Lemma session_owner_only_witness :
  answers (demo_run [Post 1 (demo_request "b" (Some "s0") (rpc 1 "ping")); alice_ping 2; UpstreamSays "s0" pong]) =
    [(1, RpcError 403 (VInt 1) ERROR_FORBIDDEN); (2, Reply pong)] /\
  let e := Post 1 (demo_request "b" (Some "s0") (rpc 1 "ping")) in
  match aget "s0" (sessions (demo_run [])), aget "s0" (sessions (hub_step hub_parts hub_fresh ["upstream"] (Some hub_resolve) (demo_run []) e)) with
  | Some s, Some s' => hs_gateway s' = hs_gateway s /\
      (s' = s \/ forall rid rq, requested e = Some (rid, rq) -> rq_session rq = Some "s0" /\ authorised hub_resolve rid rq s)
  | Some s, None => exists rid rq, requested e = Some (rid, rq) /\ rq_session rq = Some "s0" /\ authorised hub_resolve rid rq s
  | None, Some s' => exists rid rq p, e = Post rid rq /\ hub_resolve rid (rq_authorization rq) = Ok p /\ principal (hs_gateway s') = p
  | None, None => True
  end.
Proof.
  split; [vm_compute; reflexivity|].
  exact (session_owner_only hub_parts hub_fresh ["upstream"] hub_resolve opened
    (Post 1 (demo_request "b" (Some "s0") (rpc 1 "ping"))) "s0" hub_fresh_inj).
Defined.

(** * Observations *)

(** A POST that reuses the id of one in flight takes its place; when the deadline of the first
    fires it drops the entry of the second, whose response then goes to the event stream, and
    both end in a timeout. *)
Lemma deadline_drops_reused_id :
  let h := demo_run [alice_ping 1; alice_ping 2; Deadline 1; UpstreamSays "s0" pong] in
  akeys (answers h) = [1] /\ (hs_sse <$> aget "s0" (sessions h)) = Some [pong].
Proof. vm_compute. done. Qed.

(** After an oversized frame ended the reading of its upstream, a session still takes requests
    and forwards them. *)
Lemma ended_session_still_fed :
  let h := demo_run [UpstreamExit "s0" None; alice_ping 1] in
  exists s, aget "s0" (sessions h) = Some s /\ hs_closed s = true /\ ToUpstream (rpc 1 "ping") ∈ trace (hs_world s) /\
    answers h = [].
Proof. eexists. split; [vm_compute; reflexivity|]. split; [reflexivity|]. split; [|vm_compute; reflexivity]. vm_compute. set_solver. Qed.

(** A session id another replica created is unknown here, whatever a shared store holds. *)
Lemma foreign_session_not_found :
  answers (hub_step hub_parts hub_fresh ["upstream"] (Some hub_resolve) hub_empty (alice_ping 1)) =
  [(1, RpcError 404 (VInt 1) (-32001)%Z)].
Proof. vm_compute. reflexivity. Qed.
