(* ===== verification/Stores.v ===== *)
(** Session stores: the interface of [state/base.py], the in-process store of
    [state/memory.py] and the shared one of [state/redis.py], and what gateway replicas
    that bind sessions from one store can rely on. The database client is a parameter. *)
From S2P Require Import Prelude PyVal Json Session Rules Engine Redaction Approvals Protocol Pipeline.
From S2P Require Import Gateway GatewayProofs Safety.

(** * The interface *)
(** [SessionStore]. [now] is the clock reading of [Session.new]. A session that [get]
    returned is an object the caller mutates: [store_alias] is what the store sees of that
    before any [save]. *)
Class SessionStore (St : Type) := {
  store_get : string -> St -> result (option Session);
  store_get_or_create : string -> string -> St -> result (Session * St);
  store_save : Session -> St -> result St;
  store_alias : Session -> St -> St;
}.

(** The part of a session that is shared between replicas. *)
Definition durable (s : Session) : Session := set_pending [] s.

(** Sessions whose risk events are the ones the engine records. *)
Definition engine_made (s : Session) : Prop := Forall recorded (risk_events s).

(** What a gateway relies on: a session saved is the session found, and one that was found
    or created is bound. *)
Class StoreLaws (St : Type) `{SessionStore St} := {
  sl_saved s st st' : engine_made s -> store_save s (store_alias s st) = Ok st' ->
    exists s', store_get (s_id s) st' = Ok (Some s') /\ durable s' = durable s;
  sl_alias s st : store_get (s_id s) (store_alias s st) = Ok (Some s) \/
    store_get (s_id s) (store_alias s st) = store_get (s_id s) st;
  sl_found id now st s : store_get id st = Ok (Some s) -> store_get_or_create id now st = Ok (s, st);
  sl_absent id now st : store_get id st = Ok None -> exists st',
    store_get_or_create id now st = Ok (Session_new id now, st') /\
    store_get id st' = Ok (Some (Session_new id now));
}.

(** * [MemorySessionStore] *)
(** The dictionary holds the live objects: a mutation is seen at once, [save] is a no-op. *)
Abbreviation MemoryStore := (list (string * Session)).

Definition memory_get (session_id : string) (st : MemoryStore) : option Session := aget session_id st.
Definition memory_get_or_create (session_id now : string) (st : MemoryStore) : Session * MemoryStore :=
  match aget session_id st with
  | None => let session := Session_new session_id now in (session, aset session_id session st)
  | Some session => (session, st)
  end.
(** [SessionStore.save], not overridden. *)
Definition memory_save (s : Session) (st : MemoryStore) : MemoryStore := st.

#[export] Instance MemorySessionStore : SessionStore MemoryStore := {|
  store_get session_id st := Ok (memory_get session_id st);
  store_get_or_create session_id now st := Ok (memory_get_or_create session_id now st);
  store_save s st := Ok (memory_save s st);
  store_alias s st := aset (s_id s) s st;
|}.

#[export] Instance memory_laws : StoreLaws MemoryStore.
Proof.
  split; cbn; unfold memory_get, memory_get_or_create, memory_save.
  - intros s st st' _ [= <-]. exists s. by rewrite aget_aset_eq.
  - intros s st. left. by rewrite aget_aset_eq.
  - intros id now st s [= ->]. done.
  - intros id now st [= ->]. eexists. by rewrite aget_aset_eq.
Qed.

(** * [RedisSessionStore] *)
(** The client: [get] and [set] with an expiry in seconds. *)
Class RedisClient (R : Type) := {
  client_get : string -> R -> option string;
  client_set : string -> string -> option Z -> R -> R;
}.

(** A key reads as last set, until it expires. *)
Class RedisLaws (R : Type) `{RedisClient R} := {
  rl_same k v ex r : match ex with Some t => (0 < t)%Z | None => True end -> client_get k (client_set k v ex r) = Some v;
}.

Definition DEFAULT_PREFIX : string := "mcpg:session:".
Definition DEFAULT_TTL_SECONDS : Z := 24 * 3600.

Record RedisSessionStore := { rs_prefix : string; rs_ttl : option Z }.
Definition RedisSessionStore_init : RedisSessionStore :=
  {| rs_prefix := DEFAULT_PREFIX; rs_ttl := Some DEFAULT_TTL_SECONDS |}.

(** [json.dumps] refuses an [int] of more than 4300 digits. *)
Fixpoint ints_ok (v : val) : bool :=
  match v with
  | VInt z => int_ok z
  | VList l => forallb ints_ok l
  | VDict d => forallb (fun '(_, x) => ints_ok x) d
  | _ => true
  end.

Section Redis.
Context {R : Type} `{RedisClient R} (cfg : RedisSessionStore).

Definition session_key (session_id : string) : string := rs_prefix cfg +:+ session_id.

(** [if self._ttl: set(..., ex=self._ttl)] *)
Definition expiry : option Z :=
  match rs_ttl cfg with Some t => if (t =? 0)%Z then None else Some t | None => None end.

Definition redis_save (s : Session) (r : R) : result R :=
  if ints_ok (VDict (to_dict s))
  then Ok (client_set (session_key (s_id s)) (json_dumps (VDict (to_dict s))) expiry r)
  else raise ValueError "Exceeds the limit (4300 digits) for integer string conversion".

(** [Session.from_dict(json.loads(blob))] *)
Definition parse_blob (blob : string) : result Session :=
  data ← json_loads blob;
  match data with
  | VDict d => from_dict d
  | _ => raise TypeError "indices must be integers"
  end.

Definition corrupt (e : exn) : bool :=
  bool_decide (exn_cls e ∈ [ValueError; JSONDecodeError; KeyError; TypeError]).

Definition redis_get (session_id : string) (r : R) : result (option Session) :=
  match client_get (session_key session_id) r with
  | None => Ok None
  | Some blob =>
      match parse_blob blob with
      | Ok s => Ok (Some s)
      | Err e => if corrupt e then Ok None else Err e
      end
  end.

Definition redis_get_or_create (session_id now : string) (r : R) : result (Session * R) :=
  existing ← redis_get session_id r;
  match existing with
  | Some s => Ok (s, r)
  | None => let s := Session_new session_id now in r' ← redis_save s r; Ok (s, r')
  end.

#[export] Instance redis_store : SessionStore R := {|
  store_get := redis_get;
  store_get_or_create := redis_get_or_create;
  store_save := redis_save;
  store_alias _ r := r;
|}.

(** ** Its laws *)
Hypothesis ttl_ok : match rs_ttl cfg with Some t => (0 <= t)%Z | None => True end.
Context `{!RedisLaws R}.

Lemma expiry_positive : match expiry with Some t => (0 < t)%Z | None => True end.
Proof. unfold expiry. destruct (rs_ttl cfg) as [t|]; [|done]. destruct (Z.eqb_spec t 0); [done|lia]. Qed.

Lemma recorded_plain e : recorded e -> ints_ok e = true -> plain e.
Proof.
  intros (ev & z & d & ->) Hok. cbn in Hok. rewrite !andb_true_r in Hok. cbn.
  split_and!; try done; [by repeat constructor|]. apply (bool_decide_unpack _). vm_compute. exact I.
Qed.

Lemma to_dict_plain s : engine_made s -> ints_ok (VDict (to_dict s)) = true -> plain (VDict (to_dict s)).
Proof.
  intros Hm Hok. apply plain_dict_intro; [by repeat constructor| |].
  { apply (bool_decide_unpack _). vm_compute. exact I. }
  cbn in Hok. rewrite !andb_true_r in Hok.
  apply andb_true_iff in Hok as [_ Hok]. apply andb_true_iff in Hok as [_ Hok].
  apply andb_true_iff in Hok as [Hscore Hev]. unfold to_dict, fields.
  repeat constructor; cbn; try done.
  - apply plain_list, Forall_fmap, Forall_true. done.
  - destruct (taint_origin s); done.
  - apply plain_list. eapply Forall_impl with (P := fun e => recorded e /\ ints_ok e = true).
    + apply Forall_and. split; [done|]. apply Forall_forall. rewrite forallb_forall in Hev.
      intros e He. by apply Hev, list_elem_of_In.
    + intros e []. by apply recorded_plain.
Qed.

(** What is saved restores the durable state, through the JSON text. *)
Lemma redis_get_saved s r r' : engine_made s -> redis_save s r = Ok r' ->
  redis_get (s_id s) r' = Ok (Some (durable s)).
Proof.
  unfold redis_save. destruct (ints_ok _) eqn:Hok; [|done]. intros Hm [= <-].
  unfold redis_get, parse_blob. rewrite rl_same by apply expiry_positive.
  rewrite loads_dumps by by apply to_dict_plain. cbn [mbind result_bind]. by rewrite from_dict_to_dict.
Qed.

Lemma redis_laws : StoreLaws R.
Proof.
  split; cbn.
  - intros s r r' Hm Hs. exists (durable s). by rewrite (redis_get_saved s r).
  - intros s r. by right.
  - intros id now r s Hg. unfold redis_get_or_create. by rewrite Hg.
  - intros id now r Hg. unfold redis_get_or_create. rewrite Hg. cbn [mbind result_bind].
    assert (exists r', redis_save (Session_new id now) r = Ok r') as [r' Hs].
    { unfold redis_save.
      assert (ints_ok (VDict (to_dict (Session_new id now))) = true) as -> by reflexivity. by eexists. }
    exists r'. rewrite Hs. split; [done|]. apply (redis_get_saved (Session_new id now) r); [constructor|done].
Qed.
End Redis.

(** * Replicas *)
(** Gateway replicas over one store, each with the gateway of its process. A replica binds
    the session once, when its gateway is built ([SecurityGateway.__init__]), handles lines
    on the object it got, and saves it after every line it completes ([_persist]). *)
Record Cluster (St : Type) := { replicas : list (string * World); shared : St }.
Arguments replicas {St} _.
Arguments shared {St} _.

Inductive cluster_event :=
  | Bind (replica now : string)
  | Line (replica : string) (i : input).

Section Cluster.
Context `{Regex} {St : Type} `{SessionStore St} (gw : string -> SecurityGateway) (sid : string).

Definition handler (g : SecurityGateway) (i : input) : G unit :=
  match i with ClientLine l => on_client_line g l | UpstreamLine l => on_upstream_line g l end.

(** A save that fails raises out of the handler; so does the handler itself. *)
Definition write_back (done : bool) (s : Session) (st : St) : St :=
  let st := store_alias s st in
  if done then match store_save s st with Ok st' => st' | Err _ => st end else st.

Definition cluster_step (c : Cluster St) (e : cluster_event) : Cluster St :=
  match e with
  | Bind r now =>
      match store_get_or_create sid now (shared c) with
      | Ok (s, st) => {| replicas := aset r (World_new s) (replicas c); shared := st |}
      | Err _ => c
      end
  | Line r i =>
      match aget r (replicas c) with
      | None => c
      | Some w =>
          let '(res, w') := handler (gw r) i w in
          {| replicas := aset r w' (replicas c); shared := write_back (is_ok res) (session w') (shared c) |}
      end
  end.

(** Lines reach only the replica that bound last: [owner], then the one each [Bind] names. *)
Fixpoint orderly (owner : string) (evs : list cluster_event) : bool :=
  match evs with
  | [] => true
  | Bind r _ :: evs => orderly r evs
  | Line r _ :: evs => String.eqb r owner && orderly owner evs
  end.
Fixpoint last_owner (owner : string) (evs : list cluster_event) : string :=
  match evs with [] => owner | Bind r _ :: evs => last_owner r evs | Line _ _ :: evs => last_owner owner evs end.

(** ** The session across replicas *)
Lemma step_grows g i w : grows w (handler g i w).2.
Proof. destruct i; [apply client_line_grows|apply upstream_line_grows]. Qed.

(** [grows], on the session alone. *)
Lemma grows_session_of w w' : grows w w' -> session_grows (session w) (session w').
Proof. by intros []. Qed.

#[export] Instance session_grows_preorder : PreOrder session_grows.
Proof.
  split.
  - intros s. by apply sg_frame.
  - intros s1 s2 s3 H1 H2.
    assert (forall s s', session_grows s s' -> grows (World_new s) (World_new s')) as Hg.
    { intros s s' Hs. apply (grows_session (World_new s) s' Hs). }
    apply (grows_session_of (World_new s1) (World_new s3)). etrans; eapply Hg; [exact H1|exact H2].
Qed.

Lemma durable_grows s0 s s' : durable s = durable s' -> session_grows s0 s -> session_grows s0 s'.
Proof.
  intros Hd Hs. etrans; [exact Hs|]. unfold durable, set_pending in Hd. injection Hd. intros.
  by apply sg_frame.
Qed.

Lemma engine_made_grows s s' : session_grows s s' -> engine_made s -> engine_made s'.
Proof. intros [_ _ _ _ (l & He & Hl)] Hm. unfold engine_made. rewrite He. by apply Forall_app. Qed.

(** A state of the session that is at least as far as [s0]. *)
Definition beyond (s0 s : Session) : Prop := session_grows s0 s /\ engine_made s.

Lemma beyond_durable s0 s s' : durable s = durable s' -> beyond s0 s -> beyond s0 s'.
Proof.
  intros Hd [Hs Hm]. split; [by eapply durable_grows|]. unfold engine_made in *.
  by replace (risk_events s') with (risk_events s) by (by injection Hd).
Qed.

Lemma beyond_step s0 s s' : session_grows s s' -> beyond s0 s -> beyond s0 s'.
Proof. intros Hs [H1 H2]. split; [by etrans|by eapply engine_made_grows]. Qed.

(** What holds of a cluster whose owner is [r]: both the owner and the store are beyond. *)
Definition held (s0 : Session) (r : string) (c : Cluster St) : Prop :=
  (exists w, aget r (replicas c) = Some w /\ beyond s0 (session w)) /\
  (exists s, store_get sid (shared c) = Ok (Some s) /\ beyond s0 s).

Context `{!StoreLaws St}.

Lemma write_back_held s0 ok s st : s_id s = sid -> beyond s0 s ->
  (exists s', store_get sid st = Ok (Some s') /\ beyond s0 s') ->
  exists s', store_get sid (write_back ok s st) = Ok (Some s') /\ beyond s0 s'.
Proof.
  intros <- Hb Hst. unfold write_back.
  assert (exists s', store_get (s_id s) (store_alias s st) = Ok (Some s') /\ beyond s0 s') as Ha.
  { destruct (sl_alias s st) as [-> | ->]; [by eexists|done]. }
  destruct ok; [|done]. destruct (store_save _ _) as [st'|e] eqn:Hs; [|done].
  destruct (sl_saved s st st') as (s' & Hg & Hd); [apply Hb|done|].
  exists s'. split; [done|]. by eapply beyond_durable.
Qed.

Lemma cluster_step_held s0 owner c e : s_id s0 = sid -> orderly owner [e] = true -> held s0 owner c ->
  held s0 (last_owner owner [e]) (cluster_step c e).
Proof.
  intros Hid Ho [(w & Hw & Hbw) (s & Hg & Hbs)]. destruct e as [r now|r i]; cbn in *.
  - rewrite (sl_found sid now (shared c) s Hg). split; cbn; [|by exists s].
    exists (World_new s). by rewrite aget_aset_eq.
  - rewrite andb_true_r in Ho. apply String.eqb_eq in Ho as ->. rewrite Hw.
    pose proof (grows_session_of _ _ (step_grows (gw owner) i w)) as Hgr.
    destruct (handler (gw owner) i w) as [res w'] eqn:Hh. cbn in Hgr.
    assert (beyond s0 (session w')) as Hb' by by eapply beyond_step.
    split; cbn; [exists w'; by rewrite aget_aset_eq|].
    apply write_back_held; [|done|by exists s]. rewrite (sg_id _ _ (proj1 Hb')). done.
Qed.

Lemma cluster_run_held s0 evs : s_id s0 = sid -> forall owner c, orderly owner evs = true -> held s0 owner c ->
  held s0 (last_owner owner evs) (fold_left cluster_step evs c).
Proof.
  intros Hid. induction evs as [|e evs IH]; intros owner c Ho Hc; [done|]. cbn [fold_left].
  assert (orderly owner [e] = true /\ orderly (last_owner owner [e]) evs = true) as [He Hevs].
  { destruct e; cbn in Ho |- *; [done|]. apply andb_true_iff in Ho as [-> ?]. done. }
  replace (last_owner owner (e :: evs)) with (last_owner (last_owner owner [e]) evs) by by destruct e.
  apply IH; [done|]. by apply cluster_step_held.
Qed.
End Cluster.

(** * The properties *)


(** A client over a list of keys that ignores expiry, and a cluster of replicas of the
    deployment of [Safety] on it. *)
Definition KeyValues : Type := list (string * string).
#[local] Instance demo_client : RedisClient KeyValues :=
  {| client_get k r := aget k r; client_set k v _ r := aset k v r |}.
#[local] Instance demo_client_laws : RedisLaws KeyValues.
Proof. split. intros k v ex r _. cbn. by rewrite aget_aset_eq. Qed.
#[local] Instance demo_store : SessionStore KeyValues := redis_store RedisSessionStore_init.
#[local] Instance demo_store_laws : StoreLaws KeyValues := redis_laws RedisSessionStore_init ltac:(discriminate).
#[local] Existing Instance literal_regex.

Definition demo_gw (_ : string) : SecurityGateway := demo_gateway.
Definition demo_cluster (evs : list cluster_event) : Cluster KeyValues :=
  fold_left (cluster_step demo_gw "s1") evs {| replicas := []; shared := [] |}.
Definition call_on (r : string) (id : Z) (tool : string) : cluster_event :=
  Line r (ClientLine (encode_msg (tool_call id tool))).
(** Four blocked calls on replica [a]: the session is suspended, and saved. *)
Definition four_blocked : list cluster_event := (fun id => call_on "a" id "db.drop") <$> [1; 2; 3; 4]%Z.
Definition demo_now : string := "2024-01-01T00:00:00Z".

Definition demo_s0 : Session :=
  match store_get "s1" (shared (demo_cluster (Bind "a" demo_now :: four_blocked))) with
  | Ok (Some s) => s | _ => Session_new "s1" demo_now end.

Lemma demo_recorded : engine_made demo_s0.
Proof. vm_compute. repeat constructor; by eexists _, _, _. Qed.


(** A session resumes where it was left. After a line handled to completion on one replica, any
    replica that binds the session from the shared store gets, through the JSON text that
    was written, exactly the session that was left, without its calls in flight. *)
Theorem redis_resumes_session `{Regex} {R} `{RedisLaws R} cfg gw sid c r i r' now w w' :
  match rs_ttl cfg with Some t => (0 <= t)%Z | None => True end ->
  aget r (replicas c) = Some w -> s_id (session w) = sid -> engine_made (session w) ->
  handler (gw r) i w = (Ok tt, w') -> ints_ok (VDict (to_dict (session w'))) = true ->
  let S := redis_store cfg in
  let c' := fold_left (cluster_step gw sid) [Line r i; Bind r' now] c in
  aget r' (replicas c') = Some (World_new (durable (session w'))).
Proof.
  intros Httl Hw Hid Hm Hh Hok S c'.
  assert (session_grows (session w) (session w')) as Hgr.
  { apply grows_session_of. replace w' with (handler (gw r) i w).2 by by rewrite Hh. apply step_grows. }
  unfold c'. cbn [fold_left]. unfold cluster_step at 2. rewrite Hw, Hh.
  unfold write_back. cbn [is_ok]. destruct (store_save (session w') (store_alias (session w') (shared c))) as [st'|e] eqn:Hs;
    [|by cbn in Hs; unfold redis_save in Hs; rewrite Hok in Hs].
  assert (store_get sid st' = Ok (Some (durable (session w')))) as Hget.
  { rewrite <- Hid, <- (sg_id _ _ Hgr). apply (redis_get_saved cfg Httl (session w') (shared c)); [|exact Hs].
    by eapply engine_made_grows. }
  cbn [cluster_step replicas shared]. pose proof (redis_laws cfg Httl) as Hlaws.
  rewrite (sl_found sid now st' _ Hget). cbn. by rewrite aget_aset_eq.
Qed.

Lemma redis_resumes_session_witness :
  let c := demo_cluster [Bind "a" demo_now] in
  let w' := (handler demo_gateway (ClientLine (encode_msg (tool_call 1 "db.read"))) demo_start).2 in
  aget "b" (replicas (fold_left (cluster_step demo_gw "s1") [call_on "a" 1 "db.read"; Bind "b" "later"] c)) =
    Some (World_new (durable (session w'))) /\ tainted (session w') = true.
Proof.
  split; [|vm_compute; reflexivity].
  apply (redis_resumes_session RedisSessionStore_init demo_gw "s1" (demo_cluster [Bind "a" demo_now]) "a"
    (ClientLine (encode_msg (tool_call 1 "db.read"))) "b" "later" demo_start);
    [discriminate|vm_compute; reflexivity|reflexivity|constructor|vm_compute; reflexivity..].
Defined.

(** * Observations *)

Definition stored_suspended (c : Cluster KeyValues) : option bool :=
  match store_get "s1" (shared c) with Ok (Some s) => Some (suspended s) | _ => None end.

(** A replica that bound the session earlier never looks at the store again: it forwards a
    call of a session another replica has suspended, and its save then takes the suspension
    out of the store, so that later replicas do not see it either. *)
Lemma stale_replica_forgets_suspension :
  let before := demo_cluster ([Bind "a" demo_now; Bind "b" demo_now] ++ four_blocked) in
  let after := cluster_step demo_gw "s1" before (call_on "b" 5 "crm.get") in
  stored_suspended before = Some true /\
  stored_suspended after = Some false /\
  (exists w, aget "b" (replicas after) = Some w /\ sent w = [ToUpstream (encode_msg (tool_call 5 "crm.get"))]).
Proof. split_and!; [vm_compute; reflexivity..|]. eexists. split; vm_compute; reflexivity. Qed.

(** A blob that does not parse is read as no session: a suspended one comes back clean. *)
Lemma corrupt_blob_unsuspends :
  let c := demo_cluster (Bind "a" demo_now :: four_blocked) in
  let c' := {| replicas := []; shared := aset (session_key RedisSessionStore_init "s1") "{not json" (shared c) |} in
  store_get "s1" (shared c') = Ok None /\
  aget "b" (replicas (cluster_step demo_gw "s1" c' (Bind "b" demo_now))) = Some (World_new (Session_new "s1" demo_now)).
Proof. split; vm_compute; reflexivity. Qed.
