(* ===== verification/Observability.v ===== *)
(** Operations: the metrics registry and its text exposition ([observability/metrics.py]),
    the sink that counts audit events ([observability/audit_metrics.py]), the recorder that
    fans an event out to the sinks ([audit/recorder.py], [make_event] of [audit/events.py])
    and the readiness checks ([observability/health.py], [observability/asgi.py]). The
    registry's locks make an operation one atomic step. *)
From Stdlib Require Import SpecFloat.
From S2P Require Import Prelude PyVal FloatCount Json Session Rules Engine Redaction Approvals Protocol Pipeline.
From S2P Require Import Gateway GatewayProofs Safety.

(** * The registry *)
Definition backslash : ascii := "\"%char.
Definition quote_char : ascii := ascii_of_nat 34.
Definition newline_char : ascii := ascii_of_nat 10.

(** [s.replace(c, rep)] for a one-character [c] *)
Fixpoint replace_char (c : ascii) (rep s : string) : string :=
  match s with
  | EmptyString => EmptyString
  | String a s => if Ascii.eqb a c then rep +:+ replace_char c rep s else String a (replace_char c rep s)
  end.

Definition escape_label (value : string) : string :=
  replace_char newline_char "\n" (replace_char quote_char ("\" +:+ dquote) (replace_char backslash "\\" value)).

(** [zip(names, values, strict=True)] *)
Fixpoint zip_strict {A B} (l : list A) (m : list B) : result (list (A * B)) :=
  match l, m with
  | [], [] => Ok []
  | x :: l, y :: m => r ← zip_strict l m; Ok ((x, y) :: r)
  | _, _ => raise ValueError "zip() argument 2 is of another length than argument 1"
  end.

Definition format_pair (nv : string * string) : string :=
  nv.1 +:+ "=" +:+ dquote +:+ escape_label nv.2 +:+ dquote.

Definition format_labels (names values : list string) : result string :=
  match names with
  | [] => Ok ""
  | _ => nvs ← zip_strict names values; Ok ("{" +:+ join "," (format_pair <$> nvs) +:+ "}")
  end.

Record Metric := {
  m_name : string;
  m_help : string;
  m_type : string;                                (* "counter" | "gauge" *)
  label_names : list string;
  m_values : list (list string * spec_float);
}.

Definition set_values (vs : list (list string * spec_float)) (m : Metric) : Metric :=
  {| m_name := m_name m; m_help := m_help m; m_type := m_type m; label_names := label_names m; m_values := vs |}.

(** [repr] of a tuple of strings *)
Definition tuple_repr (l : list string) : string :=
  "(" +:+ match l with [x] => str_repr x +:+ "," | _ => join ", " (str_repr <$> l) end +:+ ")".

(** The labels of a call: keyword arguments. *)
Abbreviation labels := (list (string * string)).

Definition metric_key (m : Metric) (ls : labels) : result (list string) :=
  if bool_decide ((list_to_set (akeys ls) : gset string) = list_to_set (label_names m))
  then map_res (fun n => of_option (aget n ls) (Exn KeyError n)) (label_names m)
  else raise ValueError ("metric " +:+ str_repr (m_name m) +:+ " expects labels " +:+ tuple_repr (label_names m)
                         +:+ ", got " +:+ tuple_repr (akeys ls)).

Definition sf0 : spec_float := S754_zero false.

Definition metric_add (amount : spec_float) (ls : labels) (m : Metric) : result Metric :=
  k ← metric_key m ls;
  Ok (set_values (aset k (SFadd prec64 emax64 (aget_or k sf0 (m_values m)) amount) (m_values m)) m).

Definition metric_set (value : spec_float) (ls : labels) (m : Metric) : result Metric :=
  k ← metric_key m ls;
  Ok (set_values (aset k value (m_values m)) m).

(** Tuples of strings compare item by item. *)
Fixpoint strs_leb (l m : list string) : bool :=
  match l, m with
  | [], _ => true
  | _ :: _, [] => false
  | x :: l, y :: m => if String.eqb x y then strs_leb l m else str_leb x y
  end.

Definition samples (m : Metric) : list (list string * spec_float) :=
  isort (fun a b => strs_leb a.1 b.1) (m_values m).

(** A registry holds its metrics by name for good, so a name stands for the metric object
    that a [Counter] or a [Gauge] wraps. *)
Abbreviation Registry := (list (string * Metric)).

Definition register (name help type : string) (names : list string) : M Registry string := fun reg =>
  match aget name reg with
  | Some existing =>
      if String.eqb (m_type existing) type && bool_decide (label_names existing = names) then (Ok name, reg)
      else (raise ValueError ("metric " +:+ str_repr name +:+ " already registered with a different shape"), reg)
  | None =>
      (Ok name, aset name {| m_name := name; m_help := help; m_type := type; label_names := names; m_values := [] |} reg)
  end.

Definition counter (name help : string) (names : list string) : M Registry string := register name help "counter" names.
Definition gauge (name help : string) (names : list string) : M Registry string := register name help "gauge" names.

(** An update of the metric a handle wraps; an update that raises changes nothing. *)
Definition on_metric (h : string) (f : Metric -> result Metric) : M Registry unit := fun reg =>
  match aget h reg with
  | None => (raise OtherError "no such metric", reg)
  | Some m => match f m with Ok m' => (Ok tt, aset h m' reg) | Err e => (Err e, reg) end
  end.

Definition counter_inc (h : string) (amount : spec_float) (ls : labels) : M Registry unit :=
  if SFltb amount sf0 then throw (Exn ValueError "a counter cannot decrease")
  else on_metric h (metric_add amount ls).

Definition gauge_set (h : string) (value : spec_float) (ls : labels) : M Registry unit := on_metric h (metric_set value ls).
Definition gauge_inc (h : string) (amount : spec_float) (ls : labels) : M Registry unit := on_metric h (metric_add amount ls).
Definition gauge_dec (h : string) (amount : spec_float) (ls : labels) : M Registry unit :=
  on_metric h (metric_add (SFopp amount) ls).

(** ** The exposition *)
Definition render_number (value : spec_float) : result string :=
  z ← sf_int value;
  Ok (if sf_eq_Z value z then pretty z else float_repr value).

Definition sample_line (m : Metric) (s : list string * spec_float) : result string :=
  ls ← format_labels (label_names m) s.1;
  n ← render_number s.2;
  Ok (m_name m +:+ ls +:+ " " +:+ n).

Definition metric_lines (m : Metric) : result (list string) :=
  let zero := match samples m, label_names m with [], [] => [m_name m +:+ " 0"] | _, _ => [] end in
  ls ← map_res (sample_line m) (samples m);
  Ok (["# HELP " +:+ m_name m +:+ " " +:+ m_help m; "# TYPE " +:+ m_name m +:+ " " +:+ m_type m] ++ zero ++ ls).

Definition render_lines (reg : Registry) : result (list string) :=
  lls ← map_res metric_lines (isort (fun a b => str_leb (m_name a) (m_name b)) reg.*2);
  Ok (concat lls).

Definition render (reg : Registry) : result string :=
  lines ← render_lines reg;
  Ok (join newline lines +:+ newline).

(** * Counting audit events *)
Definition ALLOWED : list string := ["tool_call_allowed"].
Definition DENIED : list string := ["tool_call_blocked"; "tool_call_denied_session_suspended"].
Definition SIGNALS : list string :=
  ["session_tainted"; "session_suspended"; "anomaly_detected"; "tool_result_redacted"; "tool_result_quarantined";
   "approval_requested"; "policy_bundle_rejected"].

Record MetricsAuditSink := { ms_events : string; ms_calls : string; ms_signals : string }.

Definition MetricsAuditSink_init : M Registry MetricsAuditSink :=
  ev ← counter "mcpgw_audit_events_total" "Audit events emitted, by event name." ["event"];
  ca ← counter "mcpgw_tool_calls_total" "Policed tool calls, by outcome (allow|deny)." ["outcome"];
  si ← counter "mcpgw_security_signals_total"
         "Security-relevant events (taint, suspend, anomaly, redact, quarantine, approval, bundle rejection), by signal."
         ["signal"];
  mret {| ms_events := ev; ms_calls := ca; ms_signals := si |}.

Definition sink_emit (s : MetricsAuditSink) (event : pydict) : M Registry unit :=
  match dget "event" event with
  | Some (VStr name) =>
      _ ← counter_inc (ms_events s) one64 [("event", name)];
      _ ← (if bool_decide (name ∈ ALLOWED) then counter_inc (ms_calls s) one64 [("outcome", "allow")]
           else when (bool_decide (name ∈ DENIED)) (counter_inc (ms_calls s) one64 [("outcome", "deny")]));
      when (bool_decide (name ∈ SIGNALS)) (counter_inc (ms_signals s) one64 [("signal", name)])
  | _ => mret tt
  end.

(** * The recorder *)
(** A sink: its type's name, its state, [emit], and [close] where it has one. *)
Record Sink := {
  sk_type : string;
  sk_state : Type;
  sk_now : sk_state;
  sk_emit : pydict -> M sk_state unit;
  sk_close : option (M sk_state unit);
}.

Definition sk_with (s : Sink) (x : sk_state s) : Sink :=
  {| sk_type := sk_type s; sk_state := sk_state s; sk_now := x; sk_emit := sk_emit s; sk_close := sk_close s |}.

Definition feed (s : Sink) (record : pydict) : Sink := sk_with s (sk_emit s record (sk_now s)).2.
Definition complaint (s : Sink) (record : pydict) : list string :=
  match (sk_emit s record (sk_now s)).1 with
  | Ok _ => []
  | Err e => ["mcp-gateway: audit sink " +:+ sk_type s +:+ " failed: " +:+ exn_msg e]
  end.

Record AuditRecorder := { sinks : list Sink; default_fields : pydict; stderr : list string }.

Definition AuditRecorder_init (ss : list Sink) (defaults : pydict) : AuditRecorder :=
  {| sinks := ss; default_fields := defaults; stderr := [] |}.

Definition SCHEMA_VERSION : Z := 1.

(** [make_event(event, **fields)] at the clock reading [ts]; a field named [event] is a
    second value for the parameter. *)
Definition make_event (ts event : string) (fs : pydict) : result pydict :=
  if dhas "event" fs then raise TypeError "make_event() got multiple values for argument 'event'"
  else Ok (aupdate (fields [("schema_version", VInt SCHEMA_VERSION); ("ts", VStr ts); ("event", VStr event)]) fs).

(** [for sink in self._sinks: try: await sink.emit(record) except Exception: print(...)] *)
Fixpoint fan_out (record : pydict) (ss : list Sink) : list Sink * list string :=
  match ss with
  | [] => ([], [])
  | s :: ss => let '(ss', out) := fan_out record ss in (feed s record :: ss', complaint s record ++ out)
  end.

Definition recorder_emit (ts event : string) (fs : pydict) : M AuditRecorder unit := fun r =>
  match make_event ts event (aupdate (default_fields r) fs) with
  | Err e => (Err e, r)
  | Ok record =>
      let '(ss, out) := fan_out record (sinks r) in
      (Ok tt, {| sinks := ss; default_fields := default_fields r; stderr := stderr r ++ out |})
  end.

Definition recorder_close : M AuditRecorder unit := fun r =>
  let shut s := match sk_close s with Some c => sk_with s (c (sk_now s)).2 | None => s end in
  (Ok tt, {| sinks := shut <$> sinks r; default_fields := default_fields r; stderr := stderr r |}).

(** [SecurityGateway.annotate] and the default the gateway sets when it is built. *)
Definition annotate (fs : pydict) (r : AuditRecorder) : AuditRecorder :=
  {| sinks := sinks r; default_fields := aupdate (default_fields r) fs; stderr := stderr r |}.
Definition set_session_id (sid : string) (r : AuditRecorder) : AuditRecorder :=
  if dhas "session_id" (default_fields r) then r else annotate (fields [("session_id", VStr sid)]) r.

(** The metrics sink as a sink of the recorder. *)
Definition metrics_sink (s : MetricsAuditSink) (reg : Registry) : Sink :=
  {| sk_type := "MetricsAuditSink"; sk_state := Registry; sk_now := reg; sk_emit := sink_emit s;
     sk_close := Some (mret tt) |}.

(** * Readiness *)
Record CheckResult := { cr_name : string; cr_ok : bool; cr_detail : string }.
Record ReadinessReport := { rr_ready : bool; rr_checks : list CheckResult }.

Definition report_dict (r : ReadinessReport) : val := VObj
  [("status", VStr (if rr_ready r then "ready" else "not ready"));
   ("checks", VDict (aupdate [] ((fun c => (KStr (cr_name c),
      VObj [("ok", VBool (cr_ok c)); ("detail", VStr (cr_detail c))])) <$> rr_checks r)))].

(** What a check answers when it is called. *)
Abbreviation ReadinessCheck := (result (bool * string)).

(** The directory of the spool's path, and whether it can be written, are the system's. *)
Definition spool_writable_check (spool_path directory : string) (writable : bool) : ReadinessCheck :=
  Ok (if writable then (true, spool_path) else (false, "audit spool dir not writable: " +:+ directory)).

Definition upstreams_configured_check (count : nat) : ReadinessCheck :=
  Ok (0 <? count, pretty count +:+ " upstream(s)").

Definition check_result (nc : string * ReadinessCheck) : CheckResult :=
  match nc.2 with
  | Ok (ok, detail) => {| cr_name := nc.1; cr_ok := ok; cr_detail := detail |}
  | Err e => {| cr_name := nc.1; cr_ok := false; cr_detail := "check raised: " +:+ exn_msg e |}
  end.

Definition evaluate_checks (checks : list (string * ReadinessCheck)) : ReadinessReport :=
  let results := check_result <$> checks in
  {| rr_ready := forallb cr_ok results; rr_checks := results |}.

(** The three endpoints: status code and body. *)
Definition healthz : Z * val := (200%Z, VObj [("status", VStr "ok")]).
Definition readyz (checks : list (string * ReadinessCheck)) : Z * val :=
  let report := evaluate_checks checks in (if rr_ready report then 200%Z else 503%Z, report_dict report).
Definition metrics_endpoint (reg : Registry) : result (Z * string) := text ← render reg; Ok (200%Z, text).

(** * Readings *)
(** The value of a series, and the metrics a counting sink needs. *)
Definition reading (reg : Registry) (h : string) (k : list string) : spec_float :=
  match aget h reg with Some m => aget_or k sf0 (m_values m) | None => sf0 end.

(** A counter of at most [n] on every series. *)
Definition counts_to (n : nat) (m : Metric) : Prop :=
  Forall (fun kv => List.length kv.1 = List.length (label_names m) /\ exists c, c <= n /\ kv.2 = float_of_nat c) (m_values m).

Definition ready (n : nat) (names : list (string * list string)) (reg : Registry) : Prop :=
  Forall (fun hm => m_name hm.2 = hm.1 /\ counts_to n hm.2) reg /\ NoDup (akeys reg) /\
  forall h ns, (h, ns) ∈ names -> exists m, aget h reg = Some m /\ label_names m = ns.

Lemma counts_to_mono n n' m : n <= n' -> counts_to n m -> counts_to n' m.
Proof.
  intros Hn Hm. eapply Forall_impl; [exact Hm|]. intros kv [Hl (c & Hc & Hv)].
  split; [done|]. exists c. split; [lia|done].
Qed.

Lemma counts_to_get n m k : counts_to n m -> exists c, c <= n /\ aget_or k sf0 (m_values m) = float_of_nat c.
Proof.
  intros Hm. unfold aget_or. destruct (aget k (m_values m)) as [v|] eqn:Hv.
  - apply aget_Some_elem in Hv. unfold counts_to in Hm. rewrite Forall_forall in Hm.
    destruct (Hm _ Hv) as [_ Hc]. exact Hc.
  - exists 0. split; [lia|reflexivity].
Qed.

(** One increment of one series with one label. *)
Lemma inc_spec n names h l v reg : (Z.of_nat (S n) < 2 ^ 53)%Z -> ready n names reg -> (h, [l]) ∈ names ->
  exists reg', counter_inc h one64 [(l, v)] reg = (Ok tt, reg') /\ ready (S n) names reg' /\
    forall h' k, reading reg' h' k = if decide (h' = h /\ k = [v]) then incr (reading reg h' k) else reading reg h' k.
Proof.
  intros Hn (Hall & Hnd & Hnames) Hh. destruct (Hnames h [l] Hh) as (m & Hm & Hl).
  set (m' := set_values (aset [v] (incr (aget_or [v] sf0 (m_values m))) (m_values m)) m).
  assert (counter_inc h one64 [(l, v)] reg = (Ok tt, aset h m' reg)) as Hinc.
  { unfold counter_inc. replace (SFltb one64 sf0) with false by reflexivity. unfold on_metric, metric_add, metric_key.
    rewrite Hm, Hl, bool_decide_eq_true_2 by done. cbn. rewrite decide_True by done. done. }
  exists (aset h m' reg). split; [done|].
  rewrite Forall_forall in Hall. destruct (Hall _ (aget_Some_elem _ _ _ Hm)) as [Hname Hc]. cbn in Hname, Hc.
  destruct (counts_to_get n m [v] Hc) as (c & Hcn & Hcv).
  split.
  - split_and!; [|by apply NoDup_aset|].
    + apply Forall_aset.
      * apply Forall_forall. intros hm Hin. destruct (Hall _ Hin). split; [done|]. eapply counts_to_mono; [|done]. lia.
      * split; [done|]. apply Forall_aset; cbn.
        { apply (counts_to_mono n (S n) m) in Hc; [|lia]. done. }
        rewrite Hl. split; [done|]. exists (S c). split; [lia|]. rewrite Hcv. apply incr_exact. lia.
    + intros h' ns Hin. rewrite aget_aset. destruct (decide (h' = h)) as [->|]; [|by apply Hnames].
      exists m'. split; [done|]. destruct (Hnames _ _ Hin) as (m0 & Hm0 & <-). by rewrite Hm in Hm0; injection Hm0 as <-.
  - intros h' k. unfold reading. rewrite aget_aset. destruct (decide (h' = h)) as [->|Hne].
    + rewrite Hm. cbn [m_values set_values m']. unfold aget_or. rewrite aget_aset.
      destruct (decide (k = [v])) as [->|].
      * by rewrite decide_True by done.
      * rewrite decide_False by naive_solver. done.
    + rewrite decide_False by naive_solver. done.
Qed.

(** ** The counting sink *)
Definition EVENTS_TOTAL : string := "mcpgw_audit_events_total".
Definition CALLS_TOTAL : string := "mcpgw_tool_calls_total".
Definition SIGNALS_TOTAL : string := "mcpgw_security_signals_total".
Definition the_sink : MetricsAuditSink := {| ms_events := EVENTS_TOTAL; ms_calls := CALLS_TOTAL; ms_signals := SIGNALS_TOTAL |}.
Definition families : list (string * list string) :=
  [(EVENTS_TOTAL, ["event"]); (CALLS_TOTAL, ["outcome"]); (SIGNALS_TOTAL, ["signal"])].

(** Increments by one, each a metric, its label and the label's value. *)
Abbreviation bump := (string * string * string)%type.
Definition series (b : bump) : string * list string := let '(h, _, v) := b in (h, [v]).
Fixpoint bump_all (bs : list bump) : M Registry unit :=
  match bs with
  | [] => mret tt
  | (h, l, v) :: bs => _ ← counter_inc h one64 [(l, v)]; bump_all bs
  end.
Definition tally {A} (p : A -> bool) (l : list A) : nat := List.length (List.filter p l).

Lemma bump_all_spec bs : forall n reg, (Z.of_nat (n + List.length bs) < 2 ^ 53)%Z -> ready n families reg ->
  Forall (fun '(h, l, _) => (h, [l]) ∈ families) bs ->
  exists reg', bump_all bs reg = (Ok tt, reg') /\ ready (n + List.length bs) families reg' /\
    forall h k, reading reg' h k = Nat.iter (tally (fun b => bool_decide (series b = (h, k))) bs) incr (reading reg h k).
Proof.
  induction bs as [|[[h l] v] bs IH]; intros n reg Hn Hr Hbs.
  { exists reg. cbn. by rewrite Nat.add_0_r. }
  apply Forall_cons in Hbs as [Hb Hbs]. cbn [List.length] in Hn.
  destruct (inc_spec n families h l v reg) as (r1 & H1 & Hr1 & Hb1); [lia|done..|].
  destruct (IH (S n) r1) as (r2 & H2 & Hr2 & Hb2); [lia|done..|].
  exists r2. cbn [bump_all]. unfold mbind, M_bind. rewrite H1, H2. split; [done|].
  cbn [List.length]. rewrite <- Nat.add_succ_comm. split; [done|]. intros h' k. rewrite Hb2, Hb1.
  unfold tally. cbn [List.filter series]. destruct (decide (h' = h /\ k = [v])) as [[-> ->]|Hne].
  - rewrite bool_decide_eq_true_2 by done. cbn [List.length]. by rewrite Nat.iter_succ_r.
  - by rewrite bool_decide_eq_false_2 by naive_solver.
Qed.

Lemma bump_all_app bs bs' reg reg' : bump_all bs reg = (Ok tt, reg') -> bump_all (bs ++ bs') reg = bump_all bs' reg'.
Proof.
  revert reg. induction bs as [|[[h l] v] bs IH]; intros reg; cbn; [by intros [= ->]|].
  unfold mbind, M_bind. destruct (counter_inc _ _ _ _) as [[u|e] r1]; [apply IH|done].
Qed.

(** The increments of an event of this name. *)
Definition bumps (name : string) : list bump :=
  (EVENTS_TOTAL, "event", name) ::
  (if bool_decide (name ∈ ALLOWED) then [(CALLS_TOTAL, "outcome", "allow")]
   else if bool_decide (name ∈ DENIED) then [(CALLS_TOTAL, "outcome", "deny")] else []) ++
  (if bool_decide (name ∈ SIGNALS) then [(SIGNALS_TOTAL, "signal", name)] else []).

Lemma bind_tt {S} (m : M S unit) s : (m ≫= fun _ => mret tt) s = m s.
Proof. unfold mbind, M_bind. by destruct (m s) as [[[]|e] s']. Qed.

Lemma sink_emit_bumps record name reg : dget "event" record = Some (VStr name) ->
  sink_emit the_sink record reg = bump_all (bumps name) reg.
Proof.
  intros Hev. unfold sink_emit, bumps. rewrite Hev. cbn [the_sink ms_events ms_calls ms_signals bump_all].
  unfold mbind at 1 3, M_bind at 1 3. destruct (counter_inc EVENTS_TOTAL _ _ _) as [[u|e] r1]; [|done].
  unfold mbind at 1, M_bind at 1.
  destruct (bool_decide (name ∈ ALLOWED)), (bool_decide (name ∈ DENIED)), (bool_decide (name ∈ SIGNALS));
    cbn [when app bump_all]; rewrite ?bind_tt; try done;
    unfold mbind, M_bind; repeat match goal with
      |- context [counter_inc ?h ?a ?l ?r] => destruct (counter_inc h a l r) as [[[]|?] ?] end; done.
Qed.

Lemma bumps_families name : Forall (fun '(h, l, _) => (h, [l]) ∈ families) (bumps name).
Proof. unfold bumps, families. repeat (case_bool_decide || constructor); set_solver. Qed.
Lemma length_bumps name : List.length (bumps name) <= 3.
Proof. unfold bumps. repeat case_bool_decide; cbn; lia. Qed.

Lemma tally_concat {A B} (p : B -> bool) (q : A -> bool) (f : A -> list B) l :
  (forall x, tally p (f x) = if q x then 1 else 0) -> tally p (concat (f <$> l)) = tally q l.
Proof.
  intros Hf. induction l as [|x l IH]; [done|]. cbn. unfold tally in *.
  rewrite List.filter_app, List.length_app, Hf, IH. by destruct (q x).
Qed.

Lemma ALLOWED_not_DENIED name : name ∈ ALLOWED -> name ∉ DENIED.
Proof. unfold ALLOWED, DENIED. intros ->%list_elem_of_singleton. set_solver. Qed.

(** How often an event of this name bumps each series. *)
Lemma bumps_events name n : tally (fun b => bool_decide (series b = (EVENTS_TOTAL, [name]))) (bumps n) =
  if String.eqb name n then 1 else 0.
Proof.
  unfold bumps, tally. destruct (String.eqb_spec name n) as [<-|Hne]; repeat case_bool_decide; cbn;
    repeat (case_bool_decide; simplify_eq; cbn); done.
Qed.
Lemma bumps_calls outcome names n :
  (outcome = "allow" /\ names = ALLOWED) \/ (outcome = "deny" /\ names = DENIED) ->
  tally (fun b => bool_decide (series b = (CALLS_TOTAL, [outcome]))) (bumps n) = if bool_decide (n ∈ names) then 1 else 0.
Proof.
  unfold bumps, tally. pose proof (ALLOWED_not_DENIED n). intros [[-> ->]|[-> ->]]; repeat case_bool_decide; cbn;
    repeat (case_bool_decide; simplify_eq; cbn); naive_solver.
Qed.
Lemma bumps_signals name n : name ∈ SIGNALS ->
  tally (fun b => bool_decide (series b = (SIGNALS_TOTAL, [name]))) (bumps n) = if String.eqb name n then 1 else 0.
Proof.
  intros Hs. unfold bumps, tally. destruct (String.eqb_spec name n) as [<-|Hne]; repeat case_bool_decide; cbn;
    repeat (case_bool_decide; simplify_eq; cbn); done.
Qed.

(** * The recorder *)
(** What is audited, with the clock's readings: the event's name and fields. *)
Abbreviation trail := (list (string * (string * pydict))).

Fixpoint emit_all (t : trail) : M AuditRecorder unit :=
  match t with
  | [] => mret tt
  | (ts, (event, fs)) :: t => _ ← recorder_emit ts event fs; emit_all t
  end.

(** The audit events of a gateway's trace. *)
Definition audited (now : string) (evs : list event) : trail :=
  omap (fun e => match e with Audit name fs => Some (now, (name, fs)) | _ => None end) evs.

Lemma fan_out_feeds record ss : (fan_out record ss).1 = (fun s => feed s record) <$> ss.
Proof. induction ss as [|s ss IH]; [done|]. cbn. destruct (fan_out record ss) as [ss' out]. cbn in *. by rewrite IH. Qed.

Lemma dhas_aupdate n d e : dhas n d = false -> dhas n e = false -> dhas n (aupdate d e) = false.
Proof.
  unfold dhas, aupdate. revert d. induction e as [|[k v] e IH]; intros d Hd He; [done|]. cbn in *.
  unfold ahas in He. cbn in He. destruct (decide (KStr n = k)) as [->|Hne]; [done|].
  apply IH; [|exact He]. unfold ahas in *. by rewrite aget_aset_ne.
Qed.

Lemma dget_aupdate n d e : dhas n e = false -> dget n (aupdate d e) = dget n d.
Proof.
  unfold dhas, dget, aupdate. revert d. induction e as [|[k v] e IH]; intros d He; [done|]. cbn in *.
  unfold ahas in He. cbn in He. destruct (decide (KStr n = k)) as [->|Hne]; [done|].
  rewrite IH by exact He. by rewrite aget_aset_ne.
Qed.

Definition no_event_field (t : trail) : Prop := Forall (fun '(_, (_, fs)) => dhas "event" fs = false) t.

Lemma emit_all_feeds t : forall r, dhas "event" (default_fields r) = false -> no_event_field t ->
  exists records r', emit_all t r = (Ok tt, r') /\ default_fields r' = default_fields r /\
    Forall2 (fun '(ts, (event, fs)) record =>
      record = aupdate (fields [("schema_version", VInt SCHEMA_VERSION); ("ts", VStr ts); ("event", VStr event)])
                 (aupdate (default_fields r) fs)) t records /\
    sinks r' = (fun s => fold_left feed records s) <$> sinks r.
Proof.
  induction t as [|[ts [ev fs]] t IH]; intros r Hd Ht.
  { exists [], r. split_and!; [done|done|constructor|]. by rewrite list_fmap_id. }
  apply Forall_cons in Ht as [Hfs Ht]. cbn [emit_all]. unfold mbind, M_bind, recorder_emit, make_event.
  rewrite dhas_aupdate by done. set (record := aupdate (fields _) _).
  pose proof (fan_out_feeds record (sinks r)) as Hf. destruct (fan_out record (sinks r)) as [ss out]. cbn in Hf.
  set (r1 := {| sinks := ss; default_fields := default_fields r; stderr := _ |}).
  destruct (IH r1 Hd Ht) as (records & r' & -> & Hdf & Hall & Hs).
  exists (record :: records), r'. split_and!; [done|by rewrite Hdf|by constructor|].
  rewrite Hs. cbn [sinks r1]. by rewrite Hf, <- list_fmap_compose.
Qed.

Definition all_bumps (names : list string) : list bump := concat (bumps <$> names).
Lemma all_bumps_cons nm names : all_bumps (nm :: names) = bumps nm ++ all_bumps names.
Proof. reflexivity. Qed.

Lemma length_all_bumps names : List.length (all_bumps names) <= 3 * List.length names.
Proof.
  induction names as [|nm names IH]; [done|]. rewrite all_bumps_cons, List.length_app. cbn [List.length].
  pose proof (length_bumps nm). lia.
Qed.
Lemma all_bumps_families names : Forall (fun '(h, l, _) => (h, [l]) ∈ families) (all_bumps names).
Proof.
  induction names as [|nm names IH]; [constructor|]. rewrite all_bumps_cons. apply Forall_app.
  split; [apply bumps_families|done].
Qed.

Lemma bump_all_split bs bs' reg reg' : bump_all (bs ++ bs') reg = (Ok tt, reg') ->
  exists r1, bump_all bs reg = (Ok tt, r1) /\ bump_all bs' r1 = (Ok tt, reg').
Proof.
  intros Hb. destruct (bump_all bs reg) as [[[]|e] r1] eqn:H1; [rewrite (bump_all_app _ _ _ _ H1) in Hb; eauto|exfalso].
  revert reg H1 Hb. induction bs as [|[[h l] v] bs IH]; intros reg H1 Hb; [done|].
  cbn in *. unfold mbind, M_bind in *. destruct (counter_inc _ _ _ _) as [[u|?] r2]; [by eapply IH|done].
Qed.

Lemma feed_metrics records names : Forall2 (fun record name => dget "event" record = Some (VStr name)) records names ->
  forall n reg, (Z.of_nat (n + 3 * List.length names) < 2 ^ 53)%Z -> ready n families reg ->
  exists reg', fold_left feed records (metrics_sink the_sink reg) = metrics_sink the_sink reg' /\
    ready (n + 3 * List.length names) families reg' /\
    forall h k, reading reg' h k =
      Nat.iter (tally (fun b => bool_decide (series b = (h, k))) (all_bumps names)) incr (reading reg h k).
Proof.
  intros Hall n reg Hn Hr. pose proof (length_all_bumps names) as Hlen.
  destruct (bump_all_spec (all_bumps names) n reg) as (reg' & Hb & Hr' & Hread); [lia|done|apply all_bumps_families|].
  exists reg'. split_and!; [|..|exact Hread].
  - clear -Hall Hb. revert reg Hb.
    induction Hall as [|record nm records names Hev Hall IH]; intros reg Hb; [by injection Hb as ->|].
    rewrite all_bumps_cons in Hb. apply bump_all_split in Hb as (r1 & H1 & Hb).
    rewrite <- (sink_emit_bumps record nm) in H1 by done. rewrite <- (IH r1 Hb). cbn [fold_left].
    unfold feed at 2. cbn [metrics_sink sk_emit sk_now]. by rewrite H1.
  - destruct Hr' as (Hall' & ? & ?). split_and!; [|done..]. eapply Forall_impl; [exact Hall'|].
    intros hm [? ?]. split; [done|]. eapply counts_to_mono; [|done]. lia.
Qed.

(** ** The exposition of counters *)
Lemma zip_strict_ok {A B} (l : list A) (m : list B) : List.length m = List.length l -> exists r, zip_strict l m = Ok r.
Proof.
  revert m. induction l as [|x l IH]; intros [|y m] Hl; try done; [by exists []|].
  destruct (IH m) as [r Hr]; [by injection Hl|]. cbn. rewrite Hr. by eexists.
Qed.

Lemma render_number_nat c : (Z.of_nat c < 2 ^ 53)%Z -> render_number (float_of_nat c) = Ok (pretty (Z.of_nat c)).
Proof. intros Hc. destruct (sf_int_nat c Hc) as [Hi He]. unfold render_number. rewrite Hi. cbn [mbind result_bind]. by rewrite He. Qed.

Lemma sample_line_ok n m kv : (Z.of_nat n < 2 ^ 53)%Z -> counts_to n m -> kv ∈ m_values m ->
  exists line, sample_line m kv = Ok line.
Proof.
  intros Hn Hm Hin. unfold counts_to in Hm. rewrite Forall_forall in Hm. destruct (Hm kv Hin) as [Hl (c & Hc & Hv)].
  unfold sample_line, format_labels. rewrite Hv, render_number_nat by lia.
  destruct (label_names m) as [|n0 ns]; [by eexists|]. destruct (zip_strict_ok (n0 :: ns) kv.1 Hl) as [r ->]. by eexists.
Qed.

Lemma metric_lines_ok n m : (Z.of_nat n < 2 ^ 53)%Z -> counts_to n m ->
  exists ls, metric_lines m = Ok ls /\
    forall kv, kv ∈ m_values m -> exists line, sample_line m kv = Ok line /\ line ∈ ls.
Proof.
  intros Hn Hm. unfold metric_lines.
  destruct (map_res_total (sample_line m) (fun kv line => sample_line m kv = Ok line) (samples m)) as (ls & -> & Hls).
  { intros kv Hkv. unfold samples in Hkv. rewrite elem_isort in Hkv. destruct (sample_line_ok n m kv Hn Hm Hkv) as [line Hl].
    by exists line. }
  cbn [mbind result_bind]. eexists. split; [done|]. intros kv Hkv. apply (elem_isort (fun a b => strs_leb a.1 b.1)) in Hkv.
  destruct (proj1 (Forall2_elem _ _ _ Hls) kv Hkv) as (line & Hin & Hl). exists line. split; [done|].
  apply elem_of_app. right. apply elem_of_app. by right.
Qed.

Lemma render_lines_ok n names reg : (Z.of_nat n < 2 ^ 53)%Z -> ready n names reg ->
  exists lines, render_lines reg = Ok lines /\
    forall h m kv, aget h reg = Some m -> kv ∈ m_values m -> exists line, sample_line m kv = Ok line /\ line ∈ lines.
Proof.
  intros Hn (Hall & _ & _). rewrite Forall_forall in Hall. unfold render_lines.
  set (ms := isort _ reg.*2).
  assert (forall m, m ∈ ms <-> exists h, (h, m) ∈ reg) as Hms.
  { intros m. unfold ms. rewrite elem_isort, list_elem_of_fmap. split; [intros ([h m'] & -> & ?); by exists h|].
    intros [h ?]. by exists (h, m). }
  destruct (map_res_total metric_lines (fun m ls => metric_lines m = Ok ls) ms) as (lls & -> & Hls).
  { intros m [h Hm]%Hms. destruct (Hall _ Hm) as [_ Hc]. destruct (metric_lines_ok n m Hn Hc) as (ls & Hl & _). by exists ls. }
  exists (concat lls). split; [done|]. intros h m kv Hm%aget_Some_elem Hkv.
  destruct (proj1 (Forall2_elem _ _ _ Hls) m) as (ls & Hin & Hl); [apply Hms; by exists h|].
  destruct (Hall _ Hm) as [_ Hc]. destruct (metric_lines_ok n m Hn Hc) as (ls' & Hl' & Hk).
  rewrite Hl in Hl'. injection Hl' as <-. destruct (Hk kv Hkv) as (line & ? & ?). exists line. split; [done|].
  apply elem_concat. by exists ls.
Qed.

(** The line of a series with one label. *)
Definition counter_line (h l v : string) (c : nat) : string :=
  h +:+ ("{" +:+ format_pair (l, v) +:+ "}") +:+ " " +:+ pretty (Z.of_nat c).

Lemma reading_line n reg lines h l v c : (Z.of_nat n < 2 ^ 53)%Z -> ready n families reg -> (h, [l]) ∈ families ->
  render_lines reg = Ok lines -> reading reg h [v] = float_of_nat c -> 0 < c <= n -> counter_line h l v c ∈ lines.
Proof.
  intros Hn Hr Hh Hl Hread Hc. destruct (render_lines_ok n families reg Hn Hr) as (lines' & Hl' & Hk).
  rewrite Hl in Hl'. injection Hl' as <-. destruct Hr as (Hall & _ & Hf). destruct (Hf h [l] Hh) as (m & Hm & Hnames).
  unfold reading in Hread. rewrite Hm in Hread. unfold aget_or in Hread.
  destruct (sf_int_nat c ltac:(lia)) as [Hi _].
  destruct (aget [v] (m_values m)) as [x|] eqn:Hx; [|rewrite <- Hread in Hi; cbn in Hi; injection Hi; lia]. subst x.
  destruct (Hk h m ([v], float_of_nat c) Hm) as (line & Hs & Hin); [by apply aget_Some_elem|].
  replace (counter_line h l v c) with line; [done|]. unfold sample_line in Hs.
  rewrite Hnames in Hs. cbn [fst snd] in Hs. rewrite render_number_nat in Hs by lia. injection Hs as <-.
  rewrite Forall_forall in Hall. destruct (Hall _ (aget_Some_elem _ _ _ Hm)) as [Hname _]. cbn in Hname. by rewrite Hname.
Qed.

(** ** Labels *)
(** A reader of a quoted label value, as the format defines it. *)
Fixpoint read_quoted (s : string) : option (string * string) :=
  match s with
  | EmptyString => None
  | String a s =>
      if Ascii.eqb a quote_char then Some ("", s)
      else if Ascii.eqb a backslash then
        match s with
        | String b s =>
            match read_quoted s with
            | Some (v, rest) => Some (String (if Ascii.eqb b "n"%char then newline_char else b) v, rest)
            | None => None
            end
        | EmptyString => None
        end
      else match read_quoted s with Some (v, rest) => Some (String a v, rest) | None => None end
  end.

(** The three replacements in one pass. *)
Definition escape_char (a : ascii) : string :=
  if Ascii.eqb a backslash then "\\" else if Ascii.eqb a quote_char then "\" +:+ dquote
  else if Ascii.eqb a newline_char then "\n" else String a "".

Lemma escape_label_cons a s : escape_label (String a s) = escape_char a +:+ escape_label s.
Proof. unfold escape_label. destruct a as [[] [] [] [] [] [] [] []]; reflexivity. Qed.

Lemma read_escape_char a s : read_quoted (escape_char a +:+ s) =
  match read_quoted s with Some (v, rest) => Some (String a v, rest) | None => None end.
Proof. destruct a as [[] [] [] [] [] [] [] []]; reflexivity. Qed.

Lemma string_app_assoc (s t u : string) : (s +:+ t) +:+ u = s +:+ (t +:+ u).
Proof. induction s as [|a s IH]; [done|exact (f_equal (String a) IH)]. Qed.

Lemma read_escaped v rest : read_quoted (escape_label v +:+ dquote +:+ rest) = Some (v, rest).
Proof.
  induction v as [|a v IH]; [reflexivity|]. by rewrite escape_label_cons, string_app_assoc, read_escape_char, IH.
Qed.

(** * The properties *)

(** A sink cannot harm the others. Whatever the sinks do, auditing never raises (as long as no field
    is named [event]), every sink is given every record, in order, with the default fields
    stamped on it, and each ends in the state it would reach alone. *)
Theorem recorder_isolates_sinks t r : dhas "event" (default_fields r) = false -> no_event_field t ->
  exists records r', emit_all t r = (Ok tt, r') /\
    Forall2 (fun '(ts, (event, fs)) record => make_event ts event (aupdate (default_fields r) fs) = Ok record) t records /\
    sinks r' = (fun s => fold_left feed records s) <$> sinks r.
Proof.
  intros Hd Ht. destruct (emit_all_feeds t r Hd Ht) as (records & r' & He & _ & Hall & Hs).
  exists records, r'. split_and!; [done| |done]. clear -Hd Ht Hall.
  induction Hall as [|[ts [ev fs]] record t records -> _ IH]; [constructor|].
  apply Forall_cons in Ht as [Hfs Ht]. constructor; [|by apply IH]. unfold make_event. by rewrite dhas_aupdate.
Qed.

(** A sink that fails on every record, and one that keeps them. *)
Definition broken_sink : Sink :=
  {| sk_type := "SplunkSink"; sk_state := unit; sk_now := tt;
     sk_emit := fun _ => throw (Exn SinkError "connection refused"); sk_close := None |}.
Definition keeping_sink : Sink :=
  {| sk_type := "JsonlSpool"; sk_state := list pydict; sk_now := [];
     sk_emit := fun record => modify (fun l => l ++ [record]); sk_close := None |}.

(** The audit trail of a run of the deployment of [Safety]: one call blocked, two allowed. *)
Definition demo_trail : trail :=
  let calls := (fun c => ClientLine (encode_msg (tool_call c.1 c.2))) <$>
    [(1%Z, "db.drop"); (2%Z, "mail.send"); (3%Z, "crm.get")] in
  audited "2024-01-01T00:00:00.000Z" (trace (fold_left (@step literal_regex demo_gateway) calls demo_start)).

Lemma demo_trail_fields : no_event_field demo_trail.
Proof. vm_compute. repeat constructor. Qed.

Lemma recorder_isolates_sinks_witness :
  let r := AuditRecorder_init [broken_sink; keeping_sink] (fields [("session_id", VStr "s1")]) in
  exists records r', emit_all demo_trail r = (Ok tt, r') /\
    Forall2 (fun '(ts, (event, fs)) record => make_event ts event (aupdate (default_fields r) fs) = Ok record) demo_trail records /\
    sinks r' = (fun s => fold_left feed records s) <$> sinks r.
Proof.
  apply (recorder_isolates_sinks demo_trail (AuditRecorder_init [broken_sink; keeping_sink] (fields [("session_id", VStr "s1")])));
    [reflexivity|exact demo_trail_fields].
Defined.

(** The metrics count the audit trail. With the counting sink anywhere among the recorder's sinks,
    after any trail of fewer than [2^51] events the counters read the numbers of events by
    name, of allowed and denied calls, and of security signals, exactly; the exposition is
    produced, and its lines show those numbers. *)
Theorem metrics_count_trail t r l1 l2 ms reg0 :
  MetricsAuditSink_init [] = (Ok ms, reg0) -> sinks r = l1 ++ metrics_sink ms reg0 :: l2 ->
  dhas "event" (default_fields r) = false -> no_event_field t -> (Z.of_nat (List.length t) < 2 ^ 51)%Z ->
  let names := (fun x => x.2.1) <$> t in
  exists r' l1' l2' reg lines, emit_all t r = (Ok tt, r') /\ sinks r' = l1' ++ metrics_sink ms reg :: l2' /\
    List.length l1' = List.length l1 /\ render_lines reg = Ok lines /\
    (forall name, let c := tally (String.eqb name) names in
       reading reg "mcpgw_audit_events_total" [name] = float_of_nat c /\
       (0 < c -> counter_line "mcpgw_audit_events_total" "event" name c ∈ lines)) /\
    (forall outcome group, (outcome = "allow" /\ group = ALLOWED) \/ (outcome = "deny" /\ group = DENIED) ->
       let c := tally (fun n => bool_decide (n ∈ group)) names in
       reading reg "mcpgw_tool_calls_total" [outcome] = float_of_nat c /\
       (0 < c -> counter_line "mcpgw_tool_calls_total" "outcome" outcome c ∈ lines)) /\
    (forall name, name ∈ SIGNALS -> let c := tally (String.eqb name) names in
       reading reg "mcpgw_security_signals_total" [name] = float_of_nat c /\
       (0 < c -> counter_line "mcpgw_security_signals_total" "signal" name c ∈ lines)).
Proof.
  intros Hi Hs Hd Ht Hlen names. assert (ms = the_sink) as -> by by injection Hi.
  assert (ready 0 families reg0) as Hr0.
  { injection Hi as <-. split_and!; [repeat constructor; by apply Forall_nil|apply (bool_decide_unpack _); vm_compute; exact I|].
    unfold families. intros h ns Hin. rewrite !elem_of_cons, elem_of_nil in Hin.
    destruct Hin as [Hin|[Hin|[Hin|[]]]]; injection Hin as -> ->; by eexists. }
  assert (forall h k, reading reg0 h k = sf0) as Hz.
  { injection Hi as <-. intros h k. unfold reading. cbn. repeat case_decide; done. }
  destruct (emit_all_feeds t r Hd Ht) as (records & r' & He & _ & Hall & Hsinks).
  assert (Forall2 (fun record name => dget "event" record = Some (VStr name)) records names) as Hev.
  { unfold names. clear -Hall Hd Ht. induction Hall as [|[ts [ev fs]] record t records -> _ IH]; [constructor|].
    apply Forall_cons in Ht as [Hfs Ht]. constructor; [|by apply IH]. rewrite dget_aupdate by by apply dhas_aupdate. done. }
  assert (List.length names = List.length t) as Hn by apply length_fmap.
  destruct (feed_metrics records names Hev 0 reg0) as (reg & Hfeed & Hr & Hread); [lia|done|].
  destruct (render_lines_ok (0 + 3 * List.length names) families reg ltac:(lia) Hr) as (lines & Hl & _).
  assert (forall p, tally p names <= List.length names) as Htally by (intros p; apply List.filter_length_le).
  assert (forall h l v (p : string -> bool), (h, [l]) ∈ families ->
    (forall n, tally (fun b => bool_decide (series b = (h, [v]))) (bumps n) = if p n then 1 else 0) ->
    let c := tally p names in reading reg h [v] = float_of_nat c /\ (0 < c -> counter_line h l v c ∈ lines)) as Hmain.
  { intros h l v p Hh Hp c. assert (c <= List.length names) by apply Htally.
    assert (reading reg h [v] = float_of_nat c) as Hv.
    { rewrite Hread, Hz. unfold all_bumps. rewrite (tally_concat _ p) by done. apply count_exact. lia. }
    split; [done|]. intros Hc. eapply (reading_line (0 + 3 * List.length names)); [lia|done..|lia]. }
  exists r', ((fun s => fold_left feed records s) <$> l1), ((fun s => fold_left feed records s) <$> l2), reg, lines.
  split_and!; [done| |apply length_fmap|done|..].
  - rewrite Hsinks, Hs, fmap_app, fmap_cons. by rewrite <- Hfeed.
  - intros name. apply Hmain; [set_solver|]. intros n. apply bumps_events.
  - intros outcome group Hg. apply (Hmain CALLS_TOTAL); [set_solver|]. intros n. by apply bumps_calls.
  - intros name Hsig. apply Hmain; [set_solver|]. intros n. by apply bumps_signals.
Qed.

Definition fresh_sink : MetricsAuditSink * Registry :=
  match MetricsAuditSink_init [] with (Ok ms, reg) => (ms, reg) | (Err _, reg) => (the_sink, reg) end.

Lemma metrics_count_trail_witness :
  let r := AuditRecorder_init [broken_sink; metrics_sink fresh_sink.1 fresh_sink.2] [] in
  exists r' reg lines, emit_all demo_trail r = (Ok tt, r') /\ render_lines reg = Ok lines /\
    reading reg "mcpgw_tool_calls_total" ["allow"] = float_of_nat 2 /\
    counter_line "mcpgw_tool_calls_total" "outcome" "allow" 2 ∈ lines.
Proof.
  destruct (metrics_count_trail demo_trail (AuditRecorder_init [broken_sink; metrics_sink fresh_sink.1 fresh_sink.2] [])
    [broken_sink] [] fresh_sink.1 fresh_sink.2) as (r' & l1' & l2' & reg & lines & He & _ & _ & Hl & _ & Hcalls & _);
    [reflexivity|reflexivity|reflexivity|exact demo_trail_fields|vm_compute; reflexivity|].
  assert (tally (fun n => bool_decide (n ∈ ALLOWED)) ((fun x : string * (string * pydict) => x.2.1) <$> demo_trail) = 2) as Ht
    by (vm_compute; reflexivity).
  destruct (Hcalls "allow" ALLOWED (or_introl (conj eq_refl eq_refl))) as [H1 H2]. rewrite Ht in H1, H2.
  exists r', reg, lines. split_and!; [exact He|exact Hl|exact H1|apply H2; lia].
Defined.

(** * Readiness and observations *)

(** Ready means that every check ran and passed; one that raises counts as failed. *)
Lemma readyz_spec checks : (readyz checks).1 = 200%Z <-> Forall (fun nc => exists detail, nc.2 = Ok (true, detail)) checks.
Proof.
  unfold readyz, evaluate_checks. cbn [rr_ready].
  assert (forallb cr_ok (check_result <$> checks) = true <-> Forall (fun nc => exists detail, nc.2 = Ok (true, detail)) checks) as <-.
  { induction checks as [|[n [[[] d]|e]] checks IH]; rewrite ?Forall_cons; cbn; [split; constructor|..]; naive_solver. }
  by destruct (forallb cr_ok _).
Qed.

(** A default field named [event] makes every audit raise, and with it the call audited. *)
Lemma event_field_breaks_audit :
  let r := annotate (fields [("event", VStr "deploy")]) (AuditRecorder_init [keeping_sink] []) in
  forall ts name fs, is_ok (recorder_emit ts name fs r).1 = false.
Proof.
  intros r ts name fs. unfold recorder_emit, make_event.
  assert (dhas "event" (aupdate (default_fields r) fs) = true) as ->; [|done].
  unfold dhas, aupdate. apply ahas_spec. assert (KStr "event" ∈ akeys (default_fields r)) as Hin by (cbn; set_solver).
  revert Hin. generalize (default_fields r). induction fs as [|[k v] fs IH]; intros d Hin; [done|]. cbn.
  apply IH. apply elem_akeys_aset. by right.
Qed.
