(* ===== verification/Central.v ===== *)
(** Central mode: the loader of [gateway.yaml] and the assembly of the service,
    [central/config.py], with the routes of [create_central_app] in
    [transports/streamable_http.py]. The file system, the YAML parser, the identity loader,
    the store client and the redaction service are parameters. *)
From S2P Require Import Prelude PyVal Json Session Rules Loader Merge Engine Redaction Approvals Protocol Pipeline.
From S2P Require Import Gateway Connectors Http Observability.

(** * The configuration *)
(** The text of a system error is left out of the message that reports it. *)
Record UpstreamConfig := { uc_name : string; uc_command : list string; uc_policy : list string }.

Record GatewayConfig := {
  upstreams : list UpstreamConfig;
  spool_path : string;
  state_backend : string;
  state_url : val;
  gc_names : gset string;
  identity_path : option string;
}.

Definition SUPPORTED_STATE : list string := ["memory"; "redis"].

(** [d.get(name) or {}] *)
Definition section (name : string) (d : pydict) : val :=
  let v := opt_val (dget name d) in if truthy v then v else VDict [].

(** A non-empty list of strings. *)
Definition strings_in (v : val) : option (list string) :=
  match v with VList ((_ :: _) as l) => if forallb is_str l then Some (str_list v) else None | _ => None end.

(** One entry of the list; [seen] are the names before it. *)
Definition load_upstream (path : string) (i : nat) (seen : list string) (entry : val) : result UpstreamConfig :=
  let where_ := path +:+ ": upstreams[" +:+ pretty i +:+ "]" in
  match entry with
  | VDict entry =>
      match dget "name" entry with
      | Some (VStr name) =>
          _ ← require (nonempty name) GatewayError (where_ +:+ ": 'name' is required");
          _ ← require (bool_decide (name ∉ seen)) GatewayError (path +:+ ": duplicate upstream name " +:+ str_repr name);
          command ← of_option (strings_in (opt_val (dget "command" entry)))
            (Exn GatewayError (where_ +:+ " (" +:+ name +:+ "): 'command' must be a non-empty list of strings"));
          let policy := match opt_val (dget "policy" entry) with VStr p => VList [VStr p] | v => v end in
          policy ← of_option (strings_in policy)
            (Exn GatewayError (where_ +:+ " (" +:+ name +:+ "): 'policy' must be one or more file paths"));
          Ok {| uc_name := name; uc_command := command; uc_policy := policy |}
      | _ => raise GatewayError (where_ +:+ ": 'name' is required")
      end
  | _ => raise GatewayError (where_ +:+ ": expected a mapping")
  end.

Fixpoint load_upstreams (path : string) (i : nat) (seen : list string) (entries : list val) : result (list UpstreamConfig) :=
  match entries with
  | [] => Ok []
  | e :: entries =>
      u ← load_upstream path i seen e;
      us ← load_upstreams path (S i) (seen ++ [uc_name u]) entries;
      Ok (u :: us)
  end.

(** [audit.spool] and the state section: what is not a mapping counts as absent. *)
Definition spool_of (document : pydict) : string :=
  match section "audit" document with
  | VDict audit => py_str (dget_or "spool" (VStr "audit.log") audit)
  | _ => "audit.log"
  end.

Definition backend_of (path : string) (document : pydict) : result (string * val) :=
  let state := match section "state" document with VDict d => d | _ => [] end in
  let backend := dget_or "backend" (VStr "memory") state in
  let url := opt_val (dget "url" state) in
  if negb (hashable backend) then raise TypeError ("unhashable type: '" +:+ type_name backend +:+ "'") else
  match backend with
  | VStr b =>
      if bool_decide (b ∈ SUPPORTED_STATE) then
        if bool_decide (b = "redis") && negb (truthy url)
        then raise GatewayError (path +:+ ": state.backend 'redis' requires state.url")
        else Ok (b, url)
      else raise GatewayError (path +:+ ": state.backend " +:+ str_repr b +:+ " not supported (available: ['memory', 'redis'])")
  | v => raise GatewayError (path +:+ ": state.backend " +:+ py_repr v +:+ " not supported (available: ['memory', 'redis'])")
  end.

Section Central.
Context `{Regex} (fs : FS) (yaml_load : string -> option val).
(** A file path resolved against the directory of the configuration. *)
Context (resolve_path : string -> string -> string).

Definition identity_of (path : string) (document : pydict) : result (option string) :=
  match section "identity" document with
  | VDict identity =>
      let ref := opt_val (dget "config" identity) in
      if truthy ref then
        match ref with
        | VStr r => Ok (Some (resolve_path path r))
        | _ => raise GatewayError (path +:+ ": identity.config must be a file path")
        end
      else Ok None
  | _ => raise GatewayError (path +:+ ": 'identity' must be a mapping")
  end.

Definition read_config (path : string) : result val :=
  text ← of_option (f_text fs path) (Exn GatewayError ("cannot read config " +:+ path));
  if String.eqb (split_suffix (base_name path)).2 ".json" then json_loads text
  else of_option (yaml_load text) (Exn OtherError "YAMLError").

Definition load_gateway_config (path : string) : result GatewayConfig :=
  document ← read_config path;
  match document with
  | VDict document =>
      match opt_val (dget "upstreams" document) with
      | VList ((_ :: _) as raw_upstreams) =>
          us ← load_upstreams path 0 [] raw_upstreams;
          '(backend, url) ← backend_of path document;
          identity ← identity_of path document;
          Ok {| upstreams := us; spool_path := spool_of document; state_backend := backend; state_url := url;
                gc_names := list_to_set (uc_name <$> us); identity_path := identity |}
      | _ => raise GatewayError (path +:+ ": 'upstreams' must be a non-empty list")
      end
  | _ => raise GatewayError (path +:+ ": expected a mapping at the top level")
  end.

(** * The assembly *)
Abbreviation Resolver := (nat -> option string -> result Principal).

(** What [_build_store] connects to and what a store gives for a session id; the loader of an
    identity configuration; the redaction service; the spool's directory and whether it can
    be written. *)
Context {Store : Type} (connect : val -> result Store) (open_session : option Store -> string -> result Session).
Context (load_identity : string -> result Resolver) (svc : RedactionService).
Context (spool_directory : string -> string) (writable : string -> bool).

Record CentralHub := {
  ch_engine : PolicyEngine;
  ch_parts : string -> result (SecurityGateway * World);
  ch_command : list string;
  ch_annotate : pydict;
}.

Record CentralApp := {
  app_hubs : list (string * CentralHub);
  app_resolver : option Resolver;
  app_checks : list (string * ReadinessCheck);
}.

Definition default_principal : Principal := {| principal_id := "local"; roles := [] |}.

Definition build_store (config : GatewayConfig) : result (option Store) :=
  if bool_decide (state_backend config = "redis") then s ← connect (state_url config); Ok (Some s) else Ok None.

(** The session parts of an upstream: its own pack, the shared store, approvals denied. *)
Definition central_parts (store : option Store) (engine : PolicyEngine) (broker : ApprovalBroker) (session_id : string)
  : result (SecurityGateway * World) :=
  g ← build_session_parts engine (Some svc) (Some broker) None default_principal;
  s ← open_session store session_id;
  Ok (g, World_new s).

Definition build_hub (store : option Store) (up : UpstreamConfig) : result CentralHub :=
  engine ← engine_load fs yaml_load (uc_policy up);
  broker ← build_broker "deny" None 300 false;
  Ok {| ch_engine := engine; ch_parts := central_parts store engine broker; ch_command := uc_command up;
        ch_annotate := fields [("transport", VStr "streamable_http"); ("upstream", VStr (uc_name up));
                               ("policy_source", VStr (join " + " (layer_names engine)))] |}.

Fixpoint build_hubs (store : option Store) (ups : list UpstreamConfig) (hubs : list (string * CentralHub))
  : result (list (string * CentralHub)) :=
  match ups with
  | [] => Ok hubs
  | up :: ups => hub ← build_hub store up; build_hubs store ups (aset (uc_name up) hub hubs)
  end.

Definition build_central_app (config : GatewayConfig) (resolver : option Resolver) : result CentralApp :=
  resolver ← match resolver, identity_path config with
             | Some r, _ => Ok (Some r)
             | None, Some p => r ← load_identity p; Ok (Some r)
             | None, None => Ok None
             end;
  store ← build_store config;
  hubs ← build_hubs store (upstreams config) [];
  Ok {| app_hubs := hubs; app_resolver := resolver;
        app_checks := [("audit_spool", spool_writable_check (spool_path config) (spool_directory (spool_path config))
                                         (writable (spool_directory (spool_path config))));
                       ("upstreams", upstreams_configured_check (List.length hubs))] |}.

(** * The service *)
Context (fresh : string -> nat -> string).

Definition central_start (app : CentralApp) : list (string * Hub) := (fun nh => (nh.1, hub_empty)) <$> app_hubs app.

(** An event of the endpoint [/servers/<name>/mcp]; the answer when there is no such upstream. *)
Definition unknown_upstream (e : http_event) : option http_response :=
  match e with
  | Post _ _ | Get _ _ => Some (RpcError 404 VNone (-32004)%Z)
  | Delete _ _ => Some NotFound
  | _ => None
  end.

Definition central_step (app : CentralApp) (st : list (string * Hub)) (ne : string * http_event)
  : option http_response * list (string * Hub) :=
  let '(name, e) := ne in
  match aget name (app_hubs app), aget name st with
  | Some ch, Some h =>
      (None, aset name (hub_step (ch_parts ch) (fresh name) (ch_command ch) (app_resolver app) h e) st)
  | _, _ => (unknown_upstream e, st)
  end.

Definition central_run (app : CentralApp) (evs : list (string * http_event)) : list (string * Hub) :=
  fold_left (fun st ne => (central_step app st ne).2) evs (central_start app).

Definition list_servers (app : CentralApp) : val :=
  VObj [("servers", strs (isort str_leb (akeys (app_hubs app))))].
End Central.

(** * Accepted configurations *)
(** What the loader promises of a configuration. *)
Record config_wf (c : GatewayConfig) : Prop := {
  cw_some : upstreams c <> [];
  cw_distinct : NoDup (uc_name <$> upstreams c);
  cw_names : gc_names c = list_to_set (uc_name <$> upstreams c);
  cw_upstreams : Forall (fun u => uc_name u <> "" /\ uc_command u <> [] /\ uc_policy u <> []) (upstreams c);
  cw_backend : state_backend c = "memory" \/ (state_backend c = "redis" /\ truthy (state_url c) = true);
}.

Lemma strings_in_ok v l : strings_in v = Some l -> l <> [] /\ v = strs l.
Proof.
  unfold strings_in. destruct v as [| | | | |[|x l']|]; try done. destruct (forallb is_str _) eqn:Hf; [|done].
  intros [= <-]. assert (VList (x :: l') = strs (str_list (VList (x :: l')))) as Heq.
  { unfold strs, str_list. f_equal. revert Hf. generalize (x :: l'). clear. induction l as [|y l IH]; [done|]. cbn.
    intros [Hy Hl]%andb_true_iff. destruct y; try done. cbn. f_equal. by apply IH. }
  split; [|done]. intros Hn. change (str_list (VList (x :: l')) = []) in Hn. rewrite Hn in Heq. discriminate.
Qed.

Lemma load_upstream_ok path i seen entry u : load_upstream path i seen entry = Ok u ->
  uc_name u <> "" /\ uc_name u ∉ seen /\ uc_command u <> [] /\ uc_policy u <> [].
Proof.
  unfold load_upstream. destruct entry as [| | | | | |entry]; try done.
  destruct (dget "name" entry) as [[| | | |name| |]|]; try done.
  intros (? & Hn%require_ok & (? & Hs%require_ok & (cmd & Hc & (pol & Hp & [= <-])%bind_ok)%bind_ok)%bind_ok)%bind_ok. cbn.
  apply bool_decide_eq_true in Hs. split_and!; [by intros ->|done|..].
  - destruct (strings_in _) as [l|] eqn:Hl in Hc; [|done]. injection Hc as <-. by apply strings_in_ok in Hl as [? _].
  - destruct (strings_in _) as [l|] eqn:Hl in Hp; [|done]. injection Hp as <-. by apply strings_in_ok in Hl as [? _].
Qed.

Lemma load_upstreams_ok path entries : forall i seen us, load_upstreams path i seen entries = Ok us ->
  NoDup (uc_name <$> us) /\ (forall u, u ∈ us -> uc_name u ∉ seen) /\ List.length us = List.length entries /\
  Forall (fun u => uc_name u <> "" /\ uc_command u <> [] /\ uc_policy u <> []) us.
Proof.
  induction entries as [|e entries IH]; intros i seen us; cbn.
  { intros [= <-]. split_and!; [constructor|set_solver|done|constructor]. }
  intros (u & Hu & (us' & Hus & [= <-])%bind_ok)%bind_ok. destruct (load_upstream_ok _ _ _ _ _ Hu) as (H1 & H2 & H3 & H4).
  destruct (IH _ _ _ Hus) as (I1 & I2 & I3 & I4). split_and!; [|set_solver|cbn; lia|by constructor].
  cbn. constructor; [|done]. intros (u' & Hn & Hin)%list_elem_of_fmap. apply (I2 u' Hin). rewrite <- Hn. set_solver.
Qed.

Lemma backend_of_ok path document b url : backend_of path document = Ok (b, url) ->
  b = "memory" \/ (b = "redis" /\ truthy url = true).
Proof.
  unfold backend_of. destruct (negb (hashable _)); [done|]. destruct (dget_or "backend" _ _); try done.
  case_bool_decide as Hb; [|done]. destruct (bool_decide (s = "redis") && _) eqn:Hr; [done|]. intros [= <- <-].
  unfold SUPPORTED_STATE in Hb. rewrite !elem_of_cons, elem_of_nil in Hb. destruct Hb as [->|[->|[]]]; [by left|right].
  split; [done|]. by apply negb_false_iff in Hr.
Qed.

Lemma load_config_wf fs yaml_load resolve_path path c : load_gateway_config fs yaml_load resolve_path path = Ok c -> config_wf c.
Proof.
  unfold load_gateway_config. intros (doc & _ & Hdoc)%bind_ok. destruct doc as [| | | | | |doc]; try done.
  destruct (opt_val _) as [| | | | |[|e es]|]; try done.
  apply bind_ok in Hdoc as (us & Hus & ([b url] & Hb & (ident & _ & [= <-])%bind_ok)%bind_ok).
  destruct (load_upstreams_ok _ _ _ _ _ Hus) as (H1 & _ & H3 & H4). split; cbn; try done.
  - by intros ->.
  - by eapply backend_of_ok.
Qed.

(** * What a deployment polices *)
Section Policed.
Context `{Regex} (fs : FS) (yaml_load : string -> option val) {Store : Type}.
Context (open_session : option Store -> string -> result Session) (svc : RedactionService).

Definition deny_broker : ApprovalBroker := {| channel := DenyChannel; Approvals.deadline := 300; fail_open := false |}.

Lemma build_hub_ok store up hub : build_hub fs yaml_load open_session svc store up = Ok hub ->
  engine_load fs yaml_load (uc_policy up) = Ok (ch_engine hub) /\ ch_command hub = uc_command up /\
  ch_parts hub = central_parts open_session svc store (ch_engine hub) deny_broker.
Proof. unfold build_hub. by intros (e & He & (br & [= <-] & [= <-])%bind_ok)%bind_ok. Qed.

Lemma build_hubs_other store ups name : forall hubs hubs', build_hubs fs yaml_load open_session svc store ups hubs = Ok hubs' ->
  name ∉ uc_name <$> ups -> aget name hubs' = aget name hubs.
Proof.
  induction ups as [|up ups IH]; intros hubs hubs'; cbn; [by intros [= <-]|].
  intros (hub & _ & Hh)%bind_ok Hn. rewrite (IH _ _ Hh), aget_aset_ne; set_solver.
Qed.

Lemma build_hubs_ok store ups : NoDup (uc_name <$> ups) -> forall hubs hubs',
  build_hubs fs yaml_load open_session svc store ups hubs = Ok hubs' ->
  forall up, up ∈ ups -> exists hub, aget (uc_name up) hubs' = Some hub /\ build_hub fs yaml_load open_session svc store up = Ok hub.
Proof.
  induction ups as [|u ups IH]; intros Hn hubs hubs'; cbn; [set_solver|]. apply NoDup_cons in Hn as [Hu Hn].
  intros (hub & Hb & Hh)%bind_ok up [->|Hup]%elem_of_cons; [|by eapply IH].
  exists hub. by rewrite (build_hubs_other _ _ _ _ _ Hh), aget_aset_eq.
Qed.

Lemma central_parts_ok store e br sid g w : central_parts open_session svc store e br sid = Ok (g, w) ->
  policy g = Some e /\ default_pipeline e (Some svc) (Some br) = Ok (pipeline g).
Proof.
  unfold central_parts, build_session_parts. intros (g' & (p & Hp & Hg)%bind_ok & (s & _ & [= -> _])%bind_ok)%bind_ok.
  unfold SecurityGateway_init in Hg. apply bind_ok in Hg as (r & _ & (sq & _ & [= <-])%bind_ok). done.
Qed.

(** Every session of the hub has the pack's engine and pipeline. *)
Definition policed (e : PolicyEngine) (h : Hub) : Prop := forall sid s, aget sid (sessions h) = Some s ->
  policy (hs_gateway s) = Some e /\ default_pipeline e (Some svc) (Some deny_broker) = Ok (pipeline (hs_gateway s)).

Lemma all_built_policed store hub h : ch_parts hub = central_parts open_session svc store (ch_engine hub) deny_broker ->
  all_built (ch_parts hub) h -> policed (ch_engine hub) h.
Proof.
  intros Hp [_ Hb] sid s Hs. destruct (Hb sid s Hs) as (g0 & w & Hg & Hor). rewrite Hp in Hg.
  apply central_parts_ok in Hg. by destruct Hor as [->|[p ->]].
Qed.

(** The hubs of a running service. *)
Definition sound (app : CentralApp) (st : list (string * Hub)) : Prop := forall name hub,
  aget name (app_hubs app) = Some hub -> exists h, aget name st = Some h /\ all_built (ch_parts hub) h.

Lemma sound_start app : sound app (central_start app).
Proof.
  intros name hub Hh. exists hub_empty. split; [|by split; [constructor|]].
  unfold central_start. revert Hh. induction (app_hubs app) as [|[n x] hs IH]; [done|]. cbn.
  case_decide; [done|exact IH].
Qed.

Lemma sound_step fresh app st ne : sound app st -> sound app (central_step fresh app st ne).2.
Proof.
  intros Hs name hub Hh. destruct ne as [n e]. unfold central_step.
  destruct (Hs name hub Hh) as (h & Hst & Hb).
  destruct (aget n (app_hubs app)) as [ch|] eqn:Hn; [|by exists h].
  destruct (aget n st) as [hn|] eqn:Hsn; [|by exists h]. cbn [snd].
  rewrite aget_aset. case_decide as Hd; [subst n|by exists h].
  rewrite Hh in Hn. injection Hn as <-. rewrite Hst in Hsn. injection Hsn as <-.
  eexists. split; [done|]. by apply all_built_step.
Qed.

Lemma sound_run fresh app evs : sound app (central_run fresh app evs).
Proof.
  unfold central_run. generalize (sound_start app). generalize (central_start app).
  induction evs as [|e evs IH]; intros st Hs; [done|]. by apply IH, sound_step.
Qed.
End Policed.

(** * The properties *)

(** Accepted configurations are usable. A configuration the loader accepts names at least one
    upstream, no two alike and none empty, each with a command and at least one policy file,
    and a supported store backend, [redis] only with a URL. *)
Theorem accepted_config_wf fs yaml_load resolve_path path c :
  load_gateway_config fs yaml_load resolve_path path = Ok c -> config_wf c.
Proof. apply load_config_wf. Qed.

(** C18: Every session is policed by its upstream's own pack. In a service assembled from an accepted
    configuration, after any traffic, each upstream has its endpoint, and the gateway of every
    live session there runs the pipeline of the engine compiled from that upstream's policy
    files, with approvals denied, whoever the caller is; a name that is not configured is
    refused and changes nothing; and the service is ready exactly when its spool can be
    written. *)
Theorem central_sessions_policed `{Regex} fs yaml_load resolve_path {Store : Type} connect (open_session : option Store -> string -> result Session)
    load_identity svc spool_directory writable fresh path c resolver app evs :
  load_gateway_config fs yaml_load resolve_path path = Ok c ->
  build_central_app fs yaml_load connect open_session load_identity svc spool_directory writable c resolver = Ok app ->
  let st := central_run fresh app evs in
  (forall up, up ∈ upstreams c -> exists e h, engine_load fs yaml_load (uc_policy up) = Ok e /\
     aget (uc_name up) st = Some h /\ policed svc e h) /\
  (forall name ev, name ∉ gc_names c -> central_step fresh app st (name, ev) = (unknown_upstream ev, st)) /\
  ((readyz (app_checks app)).1 = 200%Z <-> writable (spool_directory (spool_path c)) = true).
Proof.
  intros Hc%load_config_wf Hb st. destruct Hc as [Hsome Hnd Hnames _ _].
  unfold build_central_app in Hb.
  apply bind_ok in Hb as (r & _ & (store & _ & (hubs & Hh & [= <-])%bind_ok)%bind_ok).
  set (app := {| app_hubs := hubs; app_resolver := r; app_checks := _ |}) in *.
  pose proof (build_hubs_ok fs yaml_load open_session svc store _ Hnd _ _ Hh) as Hok.
  pose proof (sound_run fresh app evs) as Hs. fold st in Hs. split_and!.
  - intros up Hup. destruct (Hok up Hup) as (hub & Hhub & Hbuild).
    destruct (build_hub_ok _ _ _ _ _ _ _ Hbuild) as (He & _ & Hp).
    destruct (Hs (uc_name up) hub Hhub) as (h & Hst & Hall). exists (ch_engine hub), h. split_and!; [done..|].
    by eapply all_built_policed.
  - intros name ev Hn. rewrite Hnames, elem_of_list_to_set in Hn. unfold central_step. cbn [app_hubs app].
    by rewrite (build_hubs_other _ _ _ _ _ _ _ _ _ Hh Hn).
  - rewrite readyz_spec. cbn [app_checks app]. rewrite !Forall_cons.
    assert (0 < List.length hubs) as Hpos.
    { destruct (upstreams c) as [|up ups] eqn:Hu; [done|]. destruct (Hok up) as (hub & Hhub & _); [set_solver|].
      destruct hubs; [done|cbn; lia]. }
    unfold spool_writable_check, upstreams_configured_check. rewrite (proj2 (Nat.ltb_lt _ _) Hpos).
    destruct (writable _); split; try done.
    + intros _. split_and!; [eauto..|constructor].
    + intros [[d [=]] _].
Qed.

(** * A deployment of two upstreams *)
#[local] Existing Instance literal_regex.

Definition central_files : FS :=
  {| f_text := fun p => aget p [("gateway.yaml", "gateway"); ("fs.yaml", "fs"); ("crm.yaml", "crm")]; f_children := fun _ => None |}.
Definition one_rule (name pattern action : string) : val := VObj
  [("schema_version", VInt 1); ("name", VStr name); ("tools", VObj [(pattern, VObj [("action", VStr action)])])].
Definition upstream_entry (name policy : string) : val :=
  VObj [("name", VStr name); ("command", strs ["python"; "server.py"]); ("policy", VStr policy)].
Definition gateway_document (rest : list (string * val)) : val :=
  VObj (("upstreams", VList [upstream_entry "filesystem" "fs.yaml"; upstream_entry "crm" "crm.yaml"]) :: rest).
Definition central_docs (rest : list (string * val)) (text : string) : option val :=
  aget text [("gateway", gateway_document rest); ("fs", one_rule "fs" "fs.read" "allow"); ("crm", one_rule "crm" "crm.get" "allow")].
Definition demo_config (rest : list (string * val)) : result GatewayConfig :=
  load_gateway_config central_files (central_docs rest) (fun _ r => r) "gateway.yaml".

Definition demo_service : RedactionService := {| svc_redact := fun v _ vault => Ok (v, ([], vault)) |}.
Definition demo_open (_ : option unit) (sid : string) : result Session := Ok (Session_new sid "2024-01-01T00:00:00Z").
Definition central_fresh (name : string) (n : nat) : string := name +:+ pretty n.

Lemma accepted_config_wf_witness :
  config_wf (the (demo_config [("state", VObj [("backend", VStr "redis"); ("url", VStr "redis://r")])]) I).
Proof.
  apply (accepted_config_wf central_files (central_docs [("state", VObj [("backend", VStr "redis"); ("url", VStr "redis://r")])])
    (fun _ r => r) "gateway.yaml"). vm_compute. reflexivity.
Defined.

Definition central_config : GatewayConfig := the (demo_config []) I.
Definition central_app : CentralApp := 
  the (build_central_app central_files (central_docs []) (fun _ => Ok tt) demo_open (fun _ => raise IdentityError "none")
    demo_service (fun p => p) (fun _ => true) central_config None) I.

Lemma central_sessions_policed_witness :
  let evs := [("crm", Post 0 {| rq_session := None; rq_authorization := None; rq_body := rpc 0 "initialize" |})] in
  let st := central_run central_fresh central_app evs in
  (exists e h, engine_load central_files (central_docs []) ["crm.yaml"] = Ok e /\ aget "crm" st = Some h /\
    List.length (sessions h) = 1 /\ policed demo_service e h) /\
  (readyz (app_checks central_app)).1 = 200%Z.
Proof.
  destruct (central_sessions_policed central_files (central_docs []) (fun _ r => r) (fun _ => Ok tt) demo_open
    (fun _ => raise IdentityError "none") demo_service (fun p => p) (fun _ => true) central_fresh "gateway.yaml"
    central_config None central_app
    [("crm", Post 0 {| rq_session := None; rq_authorization := None; rq_body := rpc 0 "initialize" |})])
    as (Hup & _ & Hready); [vm_compute; reflexivity|vm_compute; reflexivity|].
  split; [|by apply Hready].
  destruct (Hup {| uc_name := "crm"; uc_command := ["python"; "server.py"]; uc_policy := ["crm.yaml"] |}) as (e & h & He & Hh & Hp).
  - vm_compute. right. left.
  - exists e, h. split_and!; [exact He|exact Hh| |exact Hp]. revert Hh. vm_compute. by intros [= <-].
Defined.

(** * Observations *)

(** A state section that is not a mapping is ignored: a service meant to share its sessions
    starts with a store of its own in each replica; so is an audit section, and a [null] spool
    becomes a file named [None]. *)
Lemma malformed_sections_degrade :
  (exists c, demo_config [("state", VStr "redis"); ("audit", VStr "/var/log/audit.log")] = Ok c /\
     state_backend c = "memory" /\ spool_path c = "audit.log") /\
  (exists c, demo_config [("audit", VObj [("spool", VNone)])] = Ok c /\ spool_path c = "None").
Proof. split; eexists; (split; [vm_compute; reflexivity|]); vm_compute; done. Qed.
