(* ===== verification/Awaiting.v ===== *)
(** Traffic while a human decides: the await of [policy/actions/approval.py]. A tool call under
    [require_approval] stops inside the action stage until the broker answers; meanwhile the
    gateway handles other lines of the same session. A call is split at that point: up to the
    question ([on_client_arrival]) and from the answer on ([on_answer]). [Pipeline] and
    [Gateway] are the case in which the answer comes at once. *)
From S2P Require Import Prelude PyVal Json Glob Session Rules Loader Engine Redaction Approvals Protocol Pipeline.
From S2P Require Import Gateway GatewayProofs Safety.

(** * The two halves of a call in the pipeline *)
Section Halves.
Context `{Regex}.
Implicit Types (ci : CallInfo) (c : CallContext) (p : RequestPipeline).

Definition gate_stages p ci : list (string * stage) :=
  [("session_gate", SessionGateStage ci); ("policy", PolicyStage ci (rp_engine p));
   ("constraints", ConstraintsStage ci); ("sequence", SequenceGateStage ci (rp_sequence p))].

(** The decision and the broker of a call whose action stage awaits a human. *)
Definition asks_human p c : option (Decision * ApprovalBroker) :=
  match decision c with
  | Some d => match handler_for (rp_handlers p) (d_action d) with
              | Ok (Some (RequireApprovalHandler (Some b))) => Some (d, b)
              | _ => None
              end
  | None => None
  end.

(** The pipeline up to its end, or up to [await self.broker.request(...)]. *)
Definition begin_run p ci : M CallContext (StageOutcome + Decision * ApprovalBroker) :=
  o ← run (gate_stages p ci);
  if denied o then mret (inl o)
  else
    c ← get;
    match asks_human p c with
    | Some db => mret (inr db)
    | None => o ← run [("action", ActionStage ci (rp_handlers p))]; mret (inl o)
    end.

(** [RequireApprovalHandler.on_request] from the answer on. *)
Definition after_answer ci (hs : list (string * handler)) (d : Decision) (r : Resolution) : stage :=
  _ ← modify (set_approval r);
  if negb (approved r) then mret (deny_with (VStr ("human approval denied (" +:+ note r +:+ ")")) APPROVAL_DENIED)
  else if bool_decide (then_action d = VStr "require_approval") then
    mret (deny "misconfigured rule: then=require_approval; failing closed")
  else
    h ← lift (handler_for hs (then_action d));
    match h with
    | None => mret (deny ("no handler for then action " +:+ py_repr (then_action d) +:+ "; failing closed"))
    | Some h => on_request ci 1 hs h d
    end.

(** The rest of the action stage, under the runner's guard. *)
Definition resume_run p ci (d : Decision) (r : Resolution) : stage :=
  run [("action",
    o ← after_answer ci (rp_handlers p) d r;
    mret (if denied o && negb (nonempty (o_risk_event o)) then set_risk_event BLOCKED_TOOL o else o))].

Lemma run_app s1 s2 c : run (s1 ++ s2) c =
  match run s1 c with (Ok o, c') => if denied o then (Ok o, c') else run s2 c' | (Err e, c') => (Err e, c') end.
Proof.
  revert c. induction s1 as [|[n st] s1 IH]; intros c; [done|]. cbn [app]. rewrite !run_cons.
  destruct (st c) as [[o|e] c']; [|done]. destruct (denied o) eqn:Hd; [|apply IH]. by rewrite set_stage_denied, Hd.
Qed.

(** The pipeline is its two halves, with the broker's answer between them. *)
Lemma pipeline_halves p ci c : pipeline_run p ci c =
  match begin_run p ci c with
  | (Ok (inl o), c') => (Ok o, c')
  | (Ok (inr (d, b)), c') => resume_run p ci d (broker_request b (cx_asked c') (approval_request ci d)) c'
  | (Err e, c') => (Err e, c')
  end.
Proof.
  unfold pipeline_run. change (pipeline_stages p ci) with (gate_stages p ci ++ [("action", ActionStage ci (rp_handlers p))]).
  rewrite run_app. unfold begin_run, mbind, M_bind, get, mret, M_ret.
  destruct (run (gate_stages p ci) c) as [[o|e] c1]; [|done]. destruct (denied o); [done|].
  destruct (asks_human p c1) as [[d b]|] eqn:Hask.
  - unfold asks_human in Hask. destruct (decision c1) as [d'|] eqn:Hd; [|done].
    destruct (handler_for (rp_handlers p) (d_action d')) as [[h|]|e] eqn:Hh; try done.
    destruct h as [| | | | |[b'|]]; try done. injection Hask as -> ->.
    unfold resume_run. rewrite !run_cons. unfold ActionStage, get, lift, mbind, M_bind. rewrite Hd, Hh. reflexivity.
  - destruct (run_total [("action", ActionStage ci (rp_handlers p))] c1) as (o2 & c2 & ->). done.
Qed.

(** What holds when a call stops to ask. *)
Lemma begin_run_asks p ci c d b c' : begin_run p ci c = (Ok (inr (d, b)), c') ->
  suspended (ci_session ci) = false /\ evaluate_call p ci = Ok d /\ c' = set_decision d c /\
  Forall (fun k => satisfies k (ci_arguments ci)) (d_constraints d) /\
  ~ forbidden (rp_sequence p) (ci_tool ci) (ci_session ci) /\
  handler_for (rp_handlers p) (d_action d) = Ok (Some (RequireApprovalHandler (Some b))).
Proof.
  unfold begin_run, gate_stages, mbind, M_bind, get, mret, M_ret. rewrite run_cons. unfold SessionGateStage at 1.
  destruct (suspended (ci_session ci)); [by intros [= ]|]. cbn [mret M_ret denied proceed].
  rewrite run_cons, policy_stage_eq. unfold evaluate_call.
  destruct (evaluate _ _ _) as [d0|e]; [|by intros [= ]]. cbn [denied proceed].
  rewrite run_cons, (constraints_stage_eq _ d0) by done. destruct (first_violation _ _) eqn:Hv; [by intros [= ]|].
  cbn [denied proceed]. rewrite run_cons, sequence_stage_eq. destruct (check _ _ _) eqn:Hc; [by intros [= ]|].
  cbn [denied proceed]. change (run [] (set_decision d0 c)) with (Ok (A := StageOutcome) proceed, set_decision d0 c).
  cbn [denied proceed]. destruct (asks_human p (set_decision d0 c)) as [[d1 b1]|] eqn:Ha.
  - intros [= -> -> <-]. unfold asks_human in Ha. cbn [decision set_decision] in Ha.
    destruct (handler_for (rp_handlers p) (d_action d0)) as [[h|]|e] eqn:Hh; try done.
    destruct h as [| | | | |[b'|]]; try done. injection Ha as -> ->. split_and!; try done.
    + by apply first_violation_None.
    + intros Hf. apply check_forbidden in Hf as [? Hf]. congruence.
  - destruct (run_total [("action", ActionStage ci (rp_handlers p))] (set_decision d0 c)) as (o2 & c2 & ->). by intros [= ].
Qed.

(** A refusal ends the call, whatever the follow-up. *)
Lemma resume_refused p ci d r c : approved r = false ->
  resume_run p ci d r c =
    (Ok (set_stage "action" (deny_with (VStr ("human approval denied (" +:+ note r +:+ ")")) APPROVAL_DENIED)), set_approval r c).
Proof.
  intros Hr. unfold resume_run. rewrite run_cons. unfold after_answer, mbind, M_bind, modify. rewrite Hr. reflexivity.
Qed.
End Halves.

(** * The two halves of a call in the gateway *)
Record Parked := {
  pk_message : pydict;
  pk_decision : Decision;
  pk_broker : ApprovalBroker;
  pk_request : ApprovalRequest;
  pk_context : CallContext;
}.

Section Gateway.
Context `{Regex} (g : SecurityGateway).
Implicit Types (raw : pydict) (w : World).

(** [_handle_tool_call] after the pipeline. *)
Definition conclude raw (oc : StageOutcome * CallContext) : G unit :=
  let tool := (tool_call_parts raw).1 in
  _ ← match approval oc.2 with
      | Some r => emit "approval_requested" [("tool", VStr tool); ("id", msg_id raw); ("approved", VBool (approved r));
                    ("approver", VStr (approver r)); ("note", VStr (note r))]
      | None => mret tt
      end;
  if denied oc.1 then handle_denial g raw tool oc.1 (decision oc.2)
  else match decision oc.2 with
       | None => throw (Exn AssertionError "pipeline allowed a call without a decision")
       | Some d => forward_allowed g raw tool d oc.2
       end.

Definition arrive_call raw : G (option Parked) := fun w =>
  let ci := call_info g w raw in
  match begin_run (pipeline g) ci (CallContext_new (w_vault w) (asked w)) with
  | (Ok (inr (d, b)), c) =>
      (Ok (Some {| pk_message := raw; pk_decision := d; pk_broker := b; pk_request := approval_request ci d;
                   pk_context := c |}), set_services (cx_vault c) (cx_asked c) w)
  | (Ok (inl o), c) => (_ ← conclude raw (o, c); mret None) (set_services (cx_vault c) (cx_asked c) w)
  | (Err e, c) => (Err e, set_services (cx_vault c) (cx_asked c) w)
  end.

(** [on_client_line], up to the await if the call has one. *)
Definition on_client_arrival (line : string) : G (option Parked) :=
  msg ← lift (decode_line line);
  match msg with
  | Some raw =>
      if is_tool_call raw then
        parked ← arrive_call raw;
        match parked with Some _ => mret parked | None => _ ← persist; mret None end
      else _ ← on_client_line g line; mret None
  | None => _ ← on_client_line g line; mret None
  end.

(** The context of a parked call, over the vault as it is now. *)
Definition live_context w (c : CallContext) : CallContext :=
  {| decision := decision c; effective_arguments := effective_arguments c; argument_changes := argument_changes c;
     argument_redactions := argument_redactions c; cx_disposition := cx_disposition c; redaction_spec := redaction_spec c;
     approval := approval c; cx_vault := w_vault w; cx_asked := asked w |}.

(** The broker's answer arrives: the rest of the call, and of [on_client_line]. *)
Definition on_answer (pk : Parked) (r : Resolution) : G unit := fun w =>
  match resume_run (pipeline g) (call_info g w (pk_message pk)) (pk_decision pk) r (live_context w (pk_context pk)) with
  | (Ok o, c) => (_ ← conclude (pk_message pk) (o, c); persist) (set_services (cx_vault c) (cx_asked c) w)
  | (Err e, c) => (Err e, set_services (cx_vault c) (cx_asked c) w)
  end.

Lemma live_context_services w c : live_context (set_services (cx_vault c) (cx_asked c) w) c = c.
Proof. by destruct c. Qed.

(** ** The atomic handler is the run without interleaving *)
Lemma conclude_atomic raw w : handle_tool_call g raw w =
  match pipeline_result g w raw with
  | (Ok o, c) => conclude raw (o, c) (set_services (cx_vault c) (cx_asked c) w)
  | (Err e, c) => (Err e, set_services (cx_vault c) (cx_asked c) w)
  end.
Proof.
  unfold handle_tool_call, conclude, pipeline_result, call_info. destruct (tool_call_parts raw) as [tool args].
  cbn [fst snd]. unfold run_pipeline, mbind at 1, M_bind at 1. by destruct (pipeline_run _ _ _) as [[o|e] c].
Qed.

Lemma client_call_line line raw w : decode_line line = Ok (Some raw) -> is_tool_call raw = true ->
  on_client_line g line w = (handle_tool_call g raw ≫= fun _ => persist) w.
Proof. intros Hd Ht. unfold on_client_line, dispatch_client_line, lift, mbind, M_bind. by rewrite Hd, Ht. Qed.
End Gateway.

(** Handling a line at once is handling it up to the question and then the broker's answer. *)
Lemma arrival_then_answer `{Regex} g line w :
  on_client_line g line w =
  match on_client_arrival g line w with
  | (Ok (Some pk), w1) => on_answer g pk (broker_request (pk_broker pk) (asked w1) (pk_request pk)) w1
  | (Ok None, w1) => (Ok tt, w1)
  | (Err e, w1) => (Err e, w1)
  end.
Proof.
  unfold on_client_arrival. destruct (decode_line line) as [[raw|]|e] eqn:Hd; unfold lift, mbind, M_bind, mret, M_ret.
  2: { by destruct (on_client_line g line w) as [[[]|e] w1]. }
  2: { unfold on_client_line, dispatch_client_line, lift, mbind, M_bind. by rewrite Hd. }
  destruct (is_tool_call raw) eqn:Ht; [|by destruct (on_client_line g line w) as [[[]|e] w1]].
  rewrite (client_call_line g line raw) by done. unfold mbind, M_bind. rewrite conclude_atomic.
  unfold pipeline_result. rewrite pipeline_halves. unfold arrive_call.
  destruct (begin_run (pipeline g) _ _) as [[[o|[d b]]|e] c]; [| |done].
  - unfold mbind, M_bind, mret, M_ret. by destruct (conclude g raw (o, c) _) as [[[]|e] w1].
  - unfold on_answer. cbn [pk_message pk_decision pk_broker pk_request pk_context asked set_services].
    rewrite (live_context_services w c). change (call_info g (set_services (cx_vault c) (cx_asked c) w) raw) with (call_info g w raw).
    by destruct (resume_run (pipeline g) (call_info g w raw) d _ c) as [[o|e] c'].
Qed.

(** * A session with calls waiting for an answer *)
Record Desk := { d_world : World; d_parked : list (nat * Parked); d_next : nat }.
Inductive happening :=
  | Arrives (line : string)                       (* a line from the client *)
  | Decided (n : nat) (r : Resolution)            (* the broker answers the [n]th question *)
  | Returns (line : string).                      (* a line from the upstream *)

Definition happen `{Regex} (g : SecurityGateway) (s : Desk) (h : happening) : Desk :=
  match h with
  | Arrives line =>
      match on_client_arrival g line (d_world s) with
      | (Ok (Some pk), w) => {| d_world := w; d_parked := aset (d_next s) pk (d_parked s); d_next := S (d_next s) |}
      | (_, w) => {| d_world := w; d_parked := d_parked s; d_next := d_next s |}
      end
  | Decided n r =>
      match aget n (d_parked s) with
      | Some pk => {| d_world := (on_answer g pk r (d_world s)).2; d_parked := adel n (d_parked s); d_next := d_next s |}
      | None => s
      end
  | Returns line => {| d_world := (on_upstream_line g line (d_world s)).2; d_parked := d_parked s; d_next := d_next s |}
  end.
Definition Desk_new (w : World) : Desk := {| d_world := w; d_parked := []; d_next := 0 |}.

(** The desks a session can reach. *)
Inductive reachable `{Regex} (g : SecurityGateway) (w0 : World) : Desk -> Prop :=
  | reach_start : reachable g w0 (Desk_new w0)
  | reach_step s h : reachable g w0 s -> reachable g w0 (happen g s h).

Section Interleaved.
Context `{Regex} (g : SecurityGateway).
Implicit Types (w : World) (s : Desk).

Lemma conclude_grows raw oc : keeps grows (conclude g raw oc).
Proof.
  unfold conclude. apply (keeps_bind _); [destruct (approval _); [apply emit_grows|apply (keeps_ret _)]|intros _].
  destruct (denied _); [apply handle_denial_grows|]. destruct (decision _); [apply forward_grows|apply (keeps_throw _)].
Qed.

Lemma services_grow v n w w' : grows (set_services v n w) w' -> grows w w'.
Proof. intros Hg. etrans; [|exact Hg]. apply grows_frame; [done|]. exists []. by rewrite app_nil_r. Qed.

Lemma arrival_grows line w : grows w (on_client_arrival g line w).2.
Proof.
  unfold on_client_arrival, lift, mbind, M_bind, mret, M_ret.
  pose proof (client_line_grows g line w) as Hline.
  destruct (decode_line line) as [[raw|]|e]; [|by destruct (on_client_line g line w) as [[u|e] w1]|reflexivity].
  destruct (is_tool_call raw); [|by destruct (on_client_line g line w) as [[u|e] w1]].
  assert (grows w (arrive_call g raw w).2) as Ha.
  { unfold arrive_call. destruct (begin_run (pipeline g) _ _) as [[[o|[d b]]|e] c];
      [|by apply services_grow with (cx_vault c) (cx_asked c)..]. eapply services_grow.
    unfold mbind, M_bind. pose proof (conclude_grows raw (o, c) (set_services (cx_vault c) (cx_asked c) w)) as Hc.
    by destruct (conclude _ _ _ _) as [[u|e] w1]. }
  destruct (arrive_call g raw w) as [[[pk|]|e] w1]; try done. etrans; [exact Ha|]. apply persist_grows.
Qed.

Lemma answer_grows pk r w : grows w (on_answer g pk r w).2.
Proof.
  unfold on_answer. destruct (resume_run (pipeline g) _ _ _ _) as [[o|e] c]; [|by apply services_grow with (cx_vault c) (cx_asked c)].
  eapply services_grow. apply (keeps_bind grows (conclude g (pk_message pk) (o, c)) (fun _ => persist)).
  - apply conclude_grows.
  - intros _. apply persist_grows.
Qed.

Lemma happen_grows s h : grows (d_world s) (d_world (happen g s h)).
Proof.
  destruct h as [line|n r|line]; cbn.
  - pose proof (arrival_grows line (d_world s)) as Ha. by destruct (on_client_arrival g line (d_world s)) as [[[pk|]|e] w1].
  - destruct (aget n (d_parked s)); [apply answer_grows|reflexivity].
  - apply upstream_line_grows.
Qed.

(** What a parked call passed, in the state it arrived in. *)
Record passed_gates (w : World) (pk : Parked) : Prop := {
  pg_live : suspended (session w) = false;
  pg_decided : evaluate_call (pipeline g) (call_info g w (pk_message pk)) = Ok (pk_decision pk);
  pg_constraints : Forall (fun k => satisfies k (tool_call_parts (pk_message pk)).2) (d_constraints (pk_decision pk));
  pg_sequence : ~ forbidden (rp_sequence (pipeline g)) (tool_call_parts (pk_message pk)).1 (session w);
  pg_asks : handler_for (rp_handlers (pipeline g)) (d_action (pk_decision pk)) =
              Ok (Some (RequireApprovalHandler (Some (pk_broker pk))));
  pg_context : decision (pk_context pk) = Some (pk_decision pk);
  pg_request : pk_request pk = approval_request (call_info g w (pk_message pk)) (pk_decision pk);
}.

(** An arrival that parks changes nothing but the list of parked calls. *)
Lemma arrival_parks line w pk w1 : on_client_arrival g line w = (Ok (Some pk), w1) ->
  passed_gates w pk /\ session w1 = session w /\ sent w1 = sent w.
Proof.
  unfold on_client_arrival, lift, mbind, M_bind, mret, M_ret.
  destruct (decode_line line) as [[raw|]|e]; [|by destruct (on_client_line g line w) as [[u|e] w2]|done].
  destruct (is_tool_call raw); [|by destruct (on_client_line g line w) as [[u|e] w2]].
  unfold arrive_call. destruct (begin_run (pipeline g) _ _) as [[[o|[d b]]|e] c] eqn:Hb; [|..|done].
  { unfold mbind, M_bind. by destruct (conclude _ _ _ _) as [[u|e] w2]. }
  intros [= <- <-]. split; [|done]. apply begin_run_asks in Hb as (Hs & Hd & -> & Hc & Hf & Hh).
  rewrite call_info_session in Hs, Hf. rewrite call_info_tool in Hf.
  assert (ci_arguments (call_info g w raw) = (tool_call_parts raw).2) as Hargs by (unfold call_info; by destruct (tool_call_parts raw)).
  rewrite Hargs in Hc. by split.
Qed.

(** The invariant of a desk: parked calls have numbers that were given out, and each passed the
    gates in a state of the session's past. *)
Definition desk_ok (w0 : World) s : Prop :=
  grows w0 (d_world s) /\ NoDup (akeys (d_parked s)) /\
  forall n pk, aget n (d_parked s) = Some pk ->
    n < d_next s /\ exists w, grows w0 w /\ grows w (d_world s) /\ passed_gates w pk.

Lemma happen_ok w0 s h : desk_ok w0 s -> desk_ok w0 (happen g s h).
Proof.
  intros (Hg & Hn & Hp). pose proof (happen_grows s h) as Hs. split; [by etrans|].
  assert (forall m pk, aget m (d_parked s) = Some pk ->
    m < d_next s /\ exists w, grows w0 w /\ grows w (d_world (happen g s h)) /\ passed_gates w pk) as Hlater.
  { intros m pk Hget. destruct (Hp _ _ Hget) as (Hlt & w & H1 & H2 & H3). split; [done|]. exists w. split_and!; [done|by etrans|done]. }
  destruct h as [line|n r|line]; cbn in *.
  - destruct (on_client_arrival g line (d_world s)) as [[[pk|]|e] w1] eqn:Ha; cbn in *; [|by split..].
    apply arrival_parks in Ha as (Hpass & _). split; [by apply NoDup_aset|]. intros m pk'. rewrite aget_aset.
    case_decide as Hm; [subst m|].
    + intros [= <-]. split; [lia|]. by exists (d_world s).
    + intros Hget. destruct (Hlater _ _ Hget) as (Hlt & Hw). split; [lia|done].
  - destruct (aget n (d_parked s)) as [pk|] eqn:Hget; cbn in *; [|by split].
    split; [by apply NoDup_adel|]. intros m pk'. destruct (decide (m = n)) as [->|Hne]; [by rewrite aget_adel_eq|].
    rewrite aget_adel_ne by done. apply Hlater.
  - by split.
Qed.

Lemma reachable_ok w0 s : reachable g w0 s -> desk_ok w0 s.
Proof. induction 1 as [|s h _ IH]; [by split_and!; [|constructor|]|by apply happen_ok]. Qed.
(** ** What an answer makes the gateway send *)
Lemma conclude_sent raw o c w : (denied o = false -> decision c <> None) ->
  sent (conclude g raw (o, c) w).2 = sent w ++ answer g raw o c.
Proof.
  intros Hc. unfold conclude, answer. cbn [fst snd]. apply sent_bind.
  { destruct (approval c); [apply emit_quiet|apply (keeps_ret _)]. }
  { destruct (approval c); [apply no_raise_modify|apply no_raise_ret]. }
  intros _ w1 Hw1. destruct (denied o) eqn:Hd; [by rewrite handle_denial_sent, Hw1|].
  destruct (decision c) as [d|]; [by rewrite forward_sent, Hw1|by destruct (Hc eq_refl)].
Qed.

Lemma persist_sent {A} (m : G A) w : sent ((m ≫= fun _ => persist) w).2 = sent (m w).2.
Proof. unfold mbind, M_bind. destruct (m w) as [[a|e] w1]; [|done]. apply (quiet_sent persist), persist_quiet. Qed.

Lemma resume_decision p ci d r c o c' : resume_run p ci d r c = (Ok o, c') -> decision c' = decision c.
Proof.
  unfold resume_run. rewrite run_cons. intros Hr.
  assert (keeps (fun c c' : CallContext => decision c' = decision c) (after_answer ci (rp_handlers p) d r)) as Hk.
  { assert (PreOrder (fun c c' : CallContext => decision c' = decision c)) as Hpre by (split; [done|intros x y z; congruence]).
    unfold after_answer. apply (keeps_bind _); [by apply keeps_modify|intros _]. destruct (negb _); [apply (keeps_ret _)|].
    case_bool_decide; [apply (keeps_ret _)|]. apply (keeps_bind _); [apply (keeps_lift _)|intros [h|]].
    - apply on_request_decision.
    - apply (keeps_ret _). }
  specialize (Hk c). unfold mbind, M_bind, mret, M_ret in Hr.
  destruct (after_answer ci (rp_handlers p) d r c) as [[o1|e] c1]; cbn in Hk; [|by injection Hr as _ <-].
  destruct (denied _); by injection Hr as _ <-.
Qed.

Lemma answer_sent w0 pk r w : passed_gates w0 pk ->
  exists o c, resume_run (pipeline g) (call_info g w (pk_message pk)) (pk_decision pk) r (live_context w (pk_context pk)) = (Ok o, c) /\
    sent (on_answer g pk r w).2 = sent w ++ answer g (pk_message pk) o c.
Proof.
  intros Hp. unfold on_answer.
  destruct (run_total [("action", o ← after_answer (call_info g w (pk_message pk)) (rp_handlers (pipeline g)) (pk_decision pk) r;
    mret (if denied o && negb (nonempty (o_risk_event o)) then set_risk_event BLOCKED_TOOL o else o))]
    (live_context w (pk_context pk))) as (o & c & Hr). fold (resume_run (pipeline g) (call_info g w (pk_message pk)) (pk_decision pk) r) in Hr.
  exists o, c. split; [done|]. rewrite Hr, persist_sent, conclude_sent; [done|]. intros _.
  rewrite (resume_decision _ _ _ _ _ _ _ Hr). cbn [decision live_context]. by rewrite (pg_context _ _ Hp).
Qed.

Lemma refusal_sent w0 pk r w : passed_gates w0 pk -> approved r = false ->
  sent (on_answer g pk r w).2 = sent w ++
    [reply (pk_message pk) (tool_call_parts (pk_message pk)).1 (VStr ("human approval denied (" +:+ note r +:+ ")"))].
Proof.
  intros Hp Hr. destruct (answer_sent w0 pk r w Hp) as (o & c & Hres & ->).
  rewrite resume_refused in Hres by done. by injection Hres as <- <-.
Qed.

(** ** Answered calls do not come back *)
Notation run_desk := (fold_left (happen g)).

Lemma gone_stays_gone n s hs : n < d_next s -> aget n (d_parked s) = None ->
  aget n (d_parked (run_desk hs s)) = None.
Proof.
  revert s. induction hs as [|h hs IH]; intros s Hlt Hn; [done|]. cbn. apply IH.
  - destruct h as [line|m r|line]; cbn; [|by destruct (aget m (d_parked s))|done].
    destruct (on_client_arrival g line (d_world s)) as [[[pk|]|e] w]; cbn; lia.
  - destruct h as [line|m r|line]; cbn; [| |done].
    + destruct (on_client_arrival g line (d_world s)) as [[[pk|]|e] w]; cbn; try done. rewrite aget_aset_ne by lia. done.
    + destruct (aget m (d_parked s)) eqn:Hm; [|done]. cbn. rewrite aget_adel_ne; [done|congruence].
Qed.

Lemma suspended_run s hs : suspended (session (d_world s)) = true -> suspended (session (d_world (run_desk hs s))) = true.
Proof.
  revert s. induction hs as [|h hs IH]; intros s Hs; [done|]. cbn. apply IH. by apply (gr_suspended _ _ (happen_grows s h)).
Qed.

Lemma suspended_arrival line w pk w1 : suspended (session w) = true -> on_client_arrival g line w <> (Ok (Some pk), w1).
Proof. intros Hs Ha. apply arrival_parks in Ha as ([Hl _ _ _ _ _ _] & _). congruence. Qed.

Lemma suspended_parks s hs n pk : suspended (session (d_world s)) = true ->
  NoDup (akeys (d_parked s)) -> aget n (d_parked (run_desk hs s)) = Some pk -> aget n (d_parked s) = Some pk.
Proof.
  revert s. induction hs as [|h hs IH]; intros s Hs Hn Hget; [done|]. cbn in Hget.
  apply IH in Hget; [|by apply (gr_suspended _ _ (happen_grows s h))|].
  - destruct h as [line|m r|line]; cbn in Hget; [| |done].
    + destruct (on_client_arrival g line (d_world s)) as [[[pk1|]|e] w] eqn:Ha; cbn in Hget; try done.
      by destruct (suspended_arrival _ _ _ _ Hs Ha).
    + destruct (aget m (d_parked s)) eqn:Hm; [|done]. cbn in Hget.
      destruct (decide (n = m)) as [->|Hne]; [by rewrite aget_adel_eq in Hget|by rewrite aget_adel_ne in Hget].
  - destruct h as [line|m r|line]; cbn; [| |done].
    + destruct (on_client_arrival g line (d_world s)) as [[[pk1|]|e] w]; cbn; [by apply NoDup_aset|done|done].
    + destruct (aget m (d_parked s)); [by apply NoDup_adel|done].
Qed.

(** A call that arrives in a suspended session is refused at once. *)
Lemma suspended_arrival_sent line raw w : plain_handlers (rp_handlers (pipeline g)) ->
  suspended (session w) = true -> decode_line line = Ok (Some raw) -> is_tool_call raw = true ->
  sent (on_client_arrival g line w).2 = sent w ++
    [reply raw (tool_call_parts raw).1 (VStr "session suspended by risk engine; all tool calls refused")].
Proof.
  intros Hp Hs Hd Ht. pose proof (arrival_then_answer g line w) as Hat.
  destruct (suspended_answer g w raw Hs) as (o & c & Hrun & Ha). rewrite <- Ha.
  destruct (handle_tool_call_sent g raw w Hp) as (o' & c' & Hrun' & Hsent). rewrite Hrun in Hrun'. injection Hrun' as <- <-.
  rewrite <- Hsent, <- (client_line_sent g line raw w) by done. rewrite Hat.
  destruct (on_client_arrival g line w) as [[[pk|]|e] w1] eqn:Harr; [|done..]. by destruct (suspended_arrival _ _ _ _ Hs Harr).
Qed.
End Interleaved.

(** * The properties *)

(** One line handled with the broker's answer at once, if it asks. *)
Definition at_once `{Regex} (g : SecurityGateway) (s : Desk) (i : input) : Desk :=
  match i with
  | UpstreamLine line => happen g s (Returns line)
  | ClientLine line =>
      let s1 := happen g s (Arrives line) in
      match aget (d_next s) (d_parked s1) with
      | Some pk => happen g s1 (Decided (d_next s) (broker_request (pk_broker pk) (asked (d_world s1)) (pk_request pk)))
      | None => s1
      end
  end.

Lemma at_once_step `{Regex} g s i : d_parked s = [] -> d_world (at_once g s i) = step g (d_world s) i /\ d_parked (at_once g s i) = [].
Proof.
  intros Hn. destruct i as [line|line]; [|done]. cbn. rewrite arrival_then_answer.
  destruct (on_client_arrival g line (d_world s)) as [[[pk|]|e] w1]; cbn; rewrite Hn; [|done..].
  cbn. rewrite decide_True by done. cbn. rewrite decide_True by done. done.
Qed.


(** C6: A call that waits for a human passed every other gate, leaves only on a yes, and is
    answered once. In every reachable state a parked call arrived, in some state of the
    session's past, not suspended, under the decision that asks, with its constraints met and
    no rule against it, and the human was asked about that very call; a refusal sends the
    client one denial and the upstream nothing; and once answered the call is gone for good,
    whatever happens next. *)
Theorem parked_call_answered_once `{Regex} g w0 s n pk :
  reachable g w0 s -> aget n (d_parked s) = Some pk ->
  (exists w, grows w0 w /\ grows w (d_world s) /\ passed_gates g w pk) /\
  (forall r, approved r = false ->
     sent (d_world (happen g s (Decided n r))) = sent (d_world s) ++
       [reply (pk_message pk) (tool_call_parts (pk_message pk)).1 (VStr ("human approval denied (" +:+ note r +:+ ")"))]) /\
  (forall r hs, aget n (d_parked (fold_left (happen g) hs (happen g s (Decided n r)))) = None).
Proof.
  intros Hr Hn. destruct (reachable_ok g w0 s Hr) as (_ & Hnd & Hp). destruct (Hp n pk Hn) as (Hlt & w & H1 & H2 & H3).
  split; [by exists w|]. split.
  - intros r Hno. cbn. rewrite Hn. cbn. by eapply refusal_sent.
  - intros r hs. apply gone_stays_gone; cbn; rewrite Hn; cbn; [done|by apply aget_adel_eq].
Qed.

(** C7: After a suspension only the calls already waiting can still leave. From a state in
    which the session is suspended, whatever happens, no call joins the waiting ones, and every
    call that arrives is refused at once. *)
Theorem suspension_admits_no_call `{Regex} g e svc b w0 s hs line raw :
  default_pipeline e svc b = Ok (pipeline g) -> reachable g w0 s -> suspended (session (d_world s)) = true ->
  decode_line line = Ok (Some raw) -> is_tool_call raw = true ->
  let s' := fold_left (happen g) hs s in
  (forall n pk, aget n (d_parked s') = Some pk -> aget n (d_parked s) = Some pk) /\
  d_parked (happen g s' (Arrives line)) = d_parked s' /\
  sent (d_world (happen g s' (Arrives line))) = sent (d_world s') ++
    [reply raw (tool_call_parts raw).1 (VStr "session suspended by risk engine; all tool calls refused")].
Proof.
  intros Hpipe%default_plain Hr Hs Hd Ht s'. destruct (reachable_ok g w0 s Hr) as (_ & Hnd & _).
  split; [intros n pk; by apply suspended_parks|].
  assert (suspended (session (d_world s')) = true) as Hs' by by apply suspended_run.
  pose proof (suspended_arrival_sent g line raw (d_world s') Hpipe Hs' Hd Ht) as Hsent. cbn.
  destruct (on_client_arrival g line (d_world s')) as [[[pk|]|x] w1] eqn:Ha; [|done..].
  by destruct (suspended_arrival _ _ _ _ _ Hs' Ha).
Qed.

(** * A session in which a call waits *)
#[local] Existing Instance literal_regex.
Definition pay_policy : val := VObj
  [("schema_version", VInt 1); ("name", VStr "pay"); ("risk", VObj [("suspend_at", VInt 20)]);
   ("tools", VObj [("wire.send", VObj [("action", VStr "require_approval")]); ("db.drop", VObj [("action", VStr "block")])])].
Definition pay_deployment : result (PolicyEngine * SecurityGateway) :=
  e ← from_documents [(pay_policy, "pay.yaml")];
  b ← build_broker "deny" None 300 false;
  p ← default_pipeline e None (Some b);
  g ← SecurityGateway_init p {| principal_id := "dev"; roles := [] |} None (Some e) None;
  Ok (e, g).
Definition pay_engine : PolicyEngine := (the pay_deployment I).1.
Definition pay_gateway : SecurityGateway := (the pay_deployment I).2.
Definition pay_broker : ApprovalBroker := {| channel := DenyChannel; deadline := 300; fail_open := false |}.
(** A transfer waits for its approval. *)
Definition pay_waiting : Desk := happen pay_gateway (Desk_new demo_start) (Arrives (encode_msg (tool_call 1 "wire.send"))).
(** Meanwhile a blocked call suspends the session. *)
Definition pay_suspended : Desk := happen pay_gateway pay_waiting (Arrives (encode_msg (tool_call 2 "db.drop"))).
Definition pay_parked : Parked := Eval vm_compute in
  match aget 0 (d_parked pay_waiting) with
  | Some pk => pk
  | None => {| pk_message := []; pk_decision := {| d_action := VNone; d_tool := ""; d_reason := ""; d_rule := ""; d_role := None;
                 d_constraints := []; d_rewrites := []; d_redaction := None; then_action := VNone |};
               pk_broker := pay_broker; pk_request := {| ar_request_id := VNone; ar_session_id := ""; ar_tool := "";
                 ar_arguments := []; ar_principal := ""; ar_reason := "" |}; pk_context := CallContext_new [] 0 |}
  end.
Definition yes : Resolution := {| approved := true; approver := "ann"; note := "ok" |}.
Definition no : Resolution := {| approved := false; approver := "ann"; note := "too much" |}.

Lemma parked_call_answered_once_witness :
  aget 0 (d_parked pay_suspended) = Some pay_parked /\
  sent (d_world (happen pay_gateway pay_suspended (Decided 0 no))) = sent (d_world pay_suspended) ++
    [reply (pk_message pay_parked) (tool_call_parts (pk_message pay_parked)).1 (VStr "human approval denied (too much)")].
Proof.
  split; [vm_compute; reflexivity|].
  destruct (parked_call_answered_once pay_gateway demo_start pay_suspended 0 pay_parked) as (_ & Hno & _);
    [apply reach_step, reach_step, reach_start|vm_compute; reflexivity|].
  exact (Hno no eq_refl).
Defined.

Lemma suspension_admits_no_call_witness :
  suspended (session (d_world pay_suspended)) = true /\
  let s' := fold_left (happen pay_gateway) [Arrives "[]"; Decided 0 no] pay_suspended in
  let raw := tool_call 7 "wire.send" in
  sent (d_world (happen pay_gateway s' (Arrives (encode_msg raw)))) = sent (d_world s') ++
    [reply raw (tool_call_parts raw).1 (VStr "session suspended by risk engine; all tool calls refused")].
Proof.
  split; [vm_compute; reflexivity|].
  apply (suspension_admits_no_call pay_gateway pay_engine None (Some pay_broker) demo_start);
    [vm_compute; reflexivity|apply reach_step, reach_step, reach_start|vm_compute; reflexivity..].
Defined.

(** * Observations *)

(** The session gate is not asked again: an approval that comes after the suspension of the
    session still sends the call to the upstream. *)
Lemma approval_outlives_suspension :
  suspended (session (d_world pay_suspended)) = true /\
  sent (d_world (happen pay_gateway pay_suspended (Decided 0 yes))) =
    sent (d_world pay_suspended) ++ [ToUpstream (encode_msg (tool_call 1 "wire.send"))].
Proof. split; vm_compute; reflexivity. Qed.
