(* ===== verification/Console.v ===== *)
(** The console's access control and its approval queue: [console/auth.py] (users, cookies,
    loopback hosts; password hashes are in [Passwords]), [console/approvals.py], and the approval
    routes of [console/app.py]. Times are whole seconds. *)
From S2P Require Import Prelude Base64 PyVal Json Session Rules.

(** * Users and cookies *)
Record User := { username : string; user_role : string }.
Definition can_approve (u : User) : bool := String.eqb (user_role u) "approver".
Definition ROLES : list string := ["viewer"; "approver"].

(** [LocalUsers.__init__], over the records' fields; [hash_password] is a parameter. *)
Definition add_user (hash_password : string -> string) (users : list (string * (User * string))) (rec : pydict)
  : result (list (string * (User * string))) :=
  match opt_val (dget "username" rec) with
  | v =>
      if negb (truthy v) then raise ValueError "user entry missing 'username'"
      else
        known ← in_frozenset (dget_or "role" (VStr "viewer") rec) ROLES;
        if negb known then raise ValueError ("user " +:+ py_repr v +:+ ": unknown role "
               +:+ py_repr (dget_or "role" (VStr "viewer") rec) +:+ " (expected one of ['approver', 'viewer'])")
        else
          name ← str_field "username" v;
          role ← str_field "role" (dget_or "role" (VStr "viewer") rec);
          pw_hash ← match dget "password_hash" rec, dget "password" rec with
                    | Some h, _ => str_field "password_hash" h
                    | None, Some p => p ← str_field "password" p; Ok (hash_password p)
                    | None, None => raise ValueError ("user " +:+ py_repr v +:+ ": needs 'password' or 'password_hash'")
                    end;
          Ok (aset name ({| username := name; user_role := role |}, pw_hash) users)
  end.
Definition LocalUsers_init (hash_password : string -> string) (records : list pydict) := fold_res (add_user hash_password) [] records.

Definition authenticate_user (verify_password : string -> string -> bool) (users : list (string * (User * string)))
  (name password : string) : option User :=
  match aget name users with
  | None => None
  | Some (user, pw_hash) => if verify_password password pw_hash then Some user else None
  end.

(** ** The URL-safe alphabet, without padding *)
Definition to_url (a : ascii) : ascii := if Ascii.eqb a "+" then "-"%char else if Ascii.eqb a "/" then "_"%char else a.
Definition from_url (a : ascii) : ascii := if Ascii.eqb a "-" then "+"%char else if Ascii.eqb a "_" then "/"%char else a.
Definition b64 (data : string) : string := rstrip_by (fun a => Ascii.eqb a "=") (str_map to_url (b64encode data)).
Definition b64d (s : string) : option string :=
  b64decode (str_map from_url (s +:+ of_chars (repeat "="%char ((4 - String.length s mod 4) mod 4)))).

(** ** [CookieSigner] *)
Section Cookies.
(** [hmac.new(secret, body, sha256).digest()] under the console's secret. *)
Context (hmac : string -> string) (ttl : Z).

Definition sign_body (body : string) : string := b64 (hmac body).

Definition mint (u : User) (now : Z) : string :=
  let body := b64 (json_dumps (VObj [("u", VStr (username u)); ("r", VStr (user_role u)); ("exp", VInt (now + ttl))])) in
  body +:+ "." +:+ sign_body body.

(** [token.split(".", 1)] *)
Definition split_token (token : string) : option (string * string) :=
  match drop_while (fun a => negb (Ascii.eqb a ".")) (chars token) with
  | [] => None
  | _ :: sig => Some (of_chars (take_while (fun a => negb (Ascii.eqb a ".")) (chars token)), of_chars sig)
  end.

Definition verify_cookie (token : string) (now : Z) : result (option User) :=
  match split_token token with
  | None => Ok None
  | Some (body, sig) =>
      if negb (String.eqb sig (sign_body body)) then Ok None
      else match b64d body with
           | None => Ok None
           | Some raw =>
               match json_loads raw with
               | Err _ => Ok None
               | Ok (VDict payload) =>
                   exp ← int_field "exp" (dget_or "exp" (VInt 0) payload);
                   if (exp <? now)%Z then Ok None
                   else
                     let role := opt_val (dget "r" payload) in
                     known ← in_frozenset role ROLES;
                     match role with
                     | VStr r => Ok (if (known : bool)
                                     then Some {| username := py_str (dget_or "u" (VStr "") payload); user_role := r |} else None)
                     | _ => Ok None
                     end
               | Ok _ => Ok None
               end
           end
  end.

(** [current_user] and [require_approver] of the application. *)
Definition current_user (cookie : option string) (now : Z) : result (option User) :=
  match cookie with
  | Some ((String _ _) as token) => verify_cookie token now
  | _ => Ok None
  end.
End Cookies.

(** ** Host safety *)
Definition LOOPBACK_HOSTS : list string := ["127.0.0.1"; "localhost"; "::1"].
Definition is_loopback_host (host : string) : bool :=
  let h := str_lower (strip host) in
  let h := if startswith "[" h && endswith "]" h then slice h 1 (String.length h - 1) else h in
  bool_decide (h ∈ LOOPBACK_HOSTS) || startswith "127." h.

(** * The approval queue *)
Record approval_answer := { ap_approved : bool; ap_approver : string; ap_note : string }.
#[export] Instance approval_answer_eq_dec : EqDecision approval_answer.
Proof. solve_decision. Defined.
Definition timed_out_answer : approval_answer :=
  {| ap_approved := false; ap_approver := "console"; ap_note := "fail-closed: approval timed out" |}.

Record PendingApproval := { pa_request : pydict; created_ts : Z; future : option approval_answer }.
Definition set_result (r : approval_answer) (p : PendingApproval) : PendingApproval :=
  {| pa_request := pa_request p; created_ts := created_ts p; future := Some r |}.

Definition public (id : string) (p : PendingApproval) : pydict :=
  let field name := (name, opt_val (dget name (pa_request p))) in
  fields [("approval_id", VStr id); field "request_id"; field "session_id"; field "tool"; field "arguments";
          field "principal"; field "reason"; ("created_ts", VInt (created_ts p))].

Abbreviation ApprovalQueue := (list (string * PendingApproval)).

Definition q_submit (id : string) (request : pydict) (now : Z) (q : ApprovalQueue) : ApprovalQueue :=
  aset id {| pa_request := request; created_ts := now; future := None |} q.

Definition q_resolve (id : string) (approved : bool) (approver note : string) (q : ApprovalQueue) : bool * ApprovalQueue :=
  match aget id q with
  | None => (false, q)
  | Some item =>
      match future item with
      | Some _ => (false, q)
      | None => (true, aset id (set_result {| ap_approved := approved; ap_approver := approver; ap_note := note |} item) q)
      end
  end.

(** [wait] comes back: with the answer, or after its deadline without one; it then forgets the
    item. [None] while it still waits. *)
Definition q_wait (id : string) (expired : bool) (item : PendingApproval) (q : ApprovalQueue)
  : option (approval_answer * ApprovalQueue) :=
  match future item with
  | Some r => Some (r, adel id q)
  | None => if expired then Some (timed_out_answer, adel id q) else None
  end.

Definition q_pending (q : ApprovalQueue) : list pydict := (fun ip => public ip.1 ip.2) <$> q.
Definition q_count (q : ApprovalQueue) : nat := List.length q.

(** ** The routes *)
Inductive console_reply := Status (code : Z) | Waiting (id : string) | Resolved | Pending (l : list pydict).

Record Console := {
  c_queue : ApprovalQueue;
  c_minted : nat;
  c_answered : list (string * approval_answer);   (* what the gateway's POSTs were given *)
}.
Definition console_empty : Console := {| c_queue := []; c_minted := 0; c_answered := [] |}.

Inductive console_event :=
  | SubmitApproval (token : option string) (body : result val) (now : Z)
  | ResolveApproval (cookie : option string) (id : string) (approved : bool) (note : string) (now : Z)
  | ListPending (cookie : option string) (now : Z)
  | WaitReturns (id : string) (expired : bool).

Section Routes.
Context (hmac : string -> string) (ttl : Z) (gateway_token : option string) (fresh : nat -> string).

Definition submit_approval (token : option string) (body : result val) (now : Z) (c : Console) : console_reply * Console :=
  if match gateway_token with Some t => negb (bool_decide (token = Some t)) | None => false end then (Status 401, c)
  else match body with
       | Err _ => (Status 400, c)
       | Ok (VDict payload) =>
           if dhas "tool" payload then
             let id := fresh (c_minted c) in
             (Waiting id, {| c_queue := q_submit id payload now (c_queue c); c_minted := S (c_minted c); c_answered := c_answered c |})
           else (Status 400, c)
       | Ok _ => (Status 400, c)
       end.

Definition with_user (cookie : option string) (now : Z) (k : User -> console_reply * Console) (c : Console)
  : console_reply * Console :=
  match current_user hmac cookie now with
  | Ok (Some u) => k u
  | Ok None => (Status 401, c)
  | Err _ => (Status 500, c)
  end.

Definition resolve_approval (cookie : option string) (id : string) (approved : bool) (note : string) (now : Z) (c : Console)
  : console_reply * Console :=
  with_user cookie now (fun u =>
    if negb (can_approve u) then (Status 403, c)
    else
      let '(ok, q) := q_resolve id approved (username u) note (c_queue c) in
      (if (ok : bool) then Resolved else Status 404,
       {| c_queue := q; c_minted := c_minted c; c_answered := c_answered c |})) c.

Definition pending_approvals (cookie : option string) (now : Z) (c : Console) : console_reply * Console :=
  with_user cookie now (fun _ => (Pending (q_pending (c_queue c)), c)) c.

Definition wait_returns (id : string) (expired : bool) (c : Console) : Console :=
  match aget id (c_queue c) with
  | None => c
  | Some item =>
      match q_wait id expired item (c_queue c) with
      | None => c
      | Some (r, q) => {| c_queue := q; c_minted := c_minted c; c_answered := c_answered c ++ [(id, r)] |}
      end
  end.

Definition console_step (c : Console) (e : console_event) : Console :=
  match e with
  | SubmitApproval token body now => (submit_approval token body now c).2
  | ResolveApproval cookie id approved note now => (resolve_approval cookie id approved note now c).2
  | ListPending cookie now => (pending_approvals cookie now c).2
  | WaitReturns id expired => wait_returns id expired c
  end.
Definition console_run (evs : list console_event) : Console := fold_left console_step evs console_empty.
End Routes.

(** * Who answers an approval *)
Section Answers.
Context (hmac : string -> string) (gateway_token : option string) (fresh : nat -> string).

(** The answer is the word of an approver, given by a resolve of the run. *)
Definition from_approver (evs : list console_event) (id : string) (r : approval_answer) : Prop :=
  exists cookie note now u, ResolveApproval cookie id (ap_approved r) note now ∈ evs /\
    current_user hmac cookie now = Ok (Some u) /\ can_approve u = true /\ ap_approver r = username u /\ ap_note r = note.

Record console_inv (evs : list console_event) (c : Console) : Prop := {
  ci_queue : NoDup (akeys (c_queue c));
  ci_once : NoDup (akeys (c_answered c));
  ci_pending : forall id item, aget id (c_queue c) = Some item ->
    (exists n, n < c_minted c /\ id = fresh n) /\ id ∉ akeys (c_answered c) /\
    (forall r, future item = Some r -> from_approver evs id r);
  ci_answered : forall id r, (id, r) ∈ c_answered c ->
    (exists n, n < c_minted c /\ id = fresh n) /\ (r = timed_out_answer \/ from_approver evs id r);
}.

Lemma from_approver_mono evs e id r : from_approver evs id r -> from_approver (evs ++ [e]) id r.
Proof. intros (ck & note & now & u & Hin & ?). exists ck, note, now, u. split; [set_solver|done]. Qed.

Lemma console_inv_mono evs e c : console_inv evs c -> console_inv (evs ++ [e]) c.
Proof.
  intros [H1 H2 H3 H4]. split; [done|done| |].
  - intros id item Hi. destruct (H3 id item Hi) as (Hn & Ha & Hf). split_and!; [done|done|]. intros r Hr. by apply from_approver_mono, Hf.
  - intros id r Hi. destruct (H4 id r Hi) as (Hn & [?|?]); split; [done|by left|done|right; by apply from_approver_mono].
Qed.

Context (fresh_inj : forall n n', fresh n = fresh n' -> n = n').

Lemma submit_inv evs tok body now c : console_inv evs c -> console_inv evs (submit_approval gateway_token fresh tok body now c).2.
Proof.
  intros Hi. unfold submit_approval. case_match; [done|]. destruct body as [[]|]; try done.
  destruct (dhas "tool" d); [|done]. destruct Hi as [H1 H2 H3 H4]. split; cbn; [by apply NoDup_aset|done| |].
  - intros id item. unfold q_submit. rewrite aget_aset. case_decide as Hd.
    + intros [= <-]. subst id. split_and!; [exists (c_minted c); split; [lia|done]| |done].
      intros Hin. apply list_elem_of_fmap in Hin as ([id r] & Heq & Hin). cbn in Heq. subst id.
      destruct (H4 _ _ Hin) as [(n & Hn & He%fresh_inj) _]. lia.
    + intros Hq. destruct (H3 id item Hq) as ((n & Hn & ->) & ? & ?). split_and!; [exists n; split; [lia|done]|done|done].
  - intros id r Hin. destruct (H4 id r Hin) as ((n & Hn & ->) & ?). split; [exists n; split; [lia|done]|done].
Qed.

Lemma resolve_inv evs cookie id approved note now c : console_inv evs c ->
  console_inv (evs ++ [ResolveApproval cookie id approved note now]) (resolve_approval hmac cookie id approved note now c).2.
Proof.
  intros Hi. apply (console_inv_mono _ (ResolveApproval cookie id approved note now)) in Hi.
  unfold resolve_approval, with_user. destruct (current_user hmac cookie now) as [[u|]|] eqn:Hu; [|done|done].
  destruct (can_approve u) eqn:Hc; [|done]. cbn [negb]. unfold q_resolve. destruct Hi as [H1 H2 H3 H4].
  destruct (aget id (c_queue c)) as [item|] eqn:Hq; [|by split]. destruct (future item) eqn:Hf; [by split|].
  split; cbn; [by apply NoDup_aset|done| |done]. intros id' item'. rewrite aget_aset. case_decide as Hd; [|by apply H3].
  intros [= <-]. subst id'. destruct (H3 id item Hq) as (Hn & Ha & _). split_and!; [done|done|]. intros r [= <-].
  exists cookie, note, now, u. cbn. split_and!; try done. set_solver.
Qed.

Lemma wait_inv evs id expired c : console_inv evs c -> console_inv evs (wait_returns id expired c).
Proof.
  intros Hi. unfold wait_returns. destruct (aget id (c_queue c)) as [item|] eqn:Hq; [|done].
  unfold q_wait. destruct Hi as [H1 H2 H3 H4]. destruct (H3 id item Hq) as (Hn & Ha & Hf).
  assert (forall r, (r = timed_out_answer \/ from_approver evs id r) ->
    console_inv evs {| c_queue := adel id (c_queue c); c_minted := c_minted c; c_answered := c_answered c ++ [(id, r)] |}) as Hkey.
  { intros r Hr. split; cbn; [by apply NoDup_adel| | |].
    - unfold akeys. rewrite fmap_app. apply NoDup_app. split_and!; [done| |apply NoDup_singleton]. set_solver.
    - intros id' item' Hq'. destruct (decide (id' = id)) as [->|Hne]; [by rewrite aget_adel_eq in Hq'|].
      rewrite aget_adel_ne in Hq' by done. destruct (H3 _ _ Hq') as (? & Hna & ?). split_and!; try done.
      unfold akeys. rewrite fmap_app. set_solver.
    - intros id' r' [Hin|[= -> ->]%list_elem_of_singleton]%elem_of_app; [by apply H4|done]. }
  destruct (future item) as [r|] eqn:Hfi; [apply Hkey; right; by apply Hf|].
  destruct expired; [apply Hkey; by left|by split].
Qed.

Lemma console_run_inv evs : console_inv evs (console_run hmac gateway_token fresh evs).
Proof.
  unfold console_run. induction evs as [|e evs IH] using rev_ind.
  { split; cbn; [constructor|constructor|done|]. by intros ? ? ?%not_elem_of_nil. }
  rewrite fold_left_app. cbn. destruct e.
  - by apply console_inv_mono, submit_inv.
  - by apply resolve_inv.
  - apply console_inv_mono. cbn. unfold pending_approvals, with_user. by repeat case_match.
  - by apply console_inv_mono, wait_inv.
Qed.
End Answers.

(** A call is approved only by an approver, and answered once. In every run of the console's
    routes each parked approval is answered at most once and is then no longer pending; an
    answer is either the fail-closed denial of the deadline, or the decision, with the name and
    note, that a resolve of the run carried whose cookie verified as a user who may approve. *)
Theorem approval_needs_approver hmac gateway_token fresh evs :
  (forall n n' : nat, fresh n = fresh n' -> n = n') ->
  let c := console_run hmac gateway_token fresh evs in
  NoDup (akeys (c_answered c)) /\
  forall id r, (id, r) ∈ c_answered c -> aget id (c_queue c) = None /\
    (r = timed_out_answer \/ from_approver hmac evs id r).
Proof.
  intros Hinj c. destruct (console_run_inv hmac gateway_token fresh Hinj evs) as [H1 H2 H3 H4]. fold c in H1, H2, H3, H4.
  split; [done|]. intros id r Hin. split; [|by apply H4]. destruct (aget id (c_queue c)) as [item|] eqn:Hq; [|done].
  destruct (H3 id item Hq) as (_ & Hna & _). destruct Hna. apply list_elem_of_fmap. by exists (id, r).
Qed.

(** * Cookies *)

(** The digits of an encoding, and its padding. *)
Definition digit_ok (a : ascii) : bool := existsb (Ascii.eqb a) alphabet.

#[local] Arguments Nat.div : simpl never.
#[local] Arguments Nat.modulo : simpl never.

Lemma encode_split l : Forall (fun x => x < 256) l -> exists core k,
  encode_bytes l = core ++ repeat "="%char k /\ Forall (fun a => digit_ok a = true) core /\
  k = (4 - List.length core mod 4) mod 4.
Proof.
  assert (forall n, n < 64 -> digit_ok (enc_digit n) = true) as Hd.
  { assert (forallb (fun n => digit_ok (enc_digit n)) (seq 0 64) = true) as Hall by (vm_compute; reflexivity).
    rewrite forallb_forall in Hall. intros n Hn. apply Hall, in_seq. lia. }
  revert l. fix IH 1. intros [|x [|y [|z l]]] Hl; decompose_Forall_hyps.
  - by exists [], 0.
  - destruct (digits_of_bytes x 0 0) as (D1 & D2 & _); [lia..|]. change (0 / 16) with 0 in D2. rewrite Nat.add_0_r in D2.
    exists [enc_digit (x / 4); enc_digit (x mod 4 * 16)], 2. split; [done|]. split; [|done]. repeat constructor; by apply Hd.
  - destruct (digits_of_bytes x y 0) as (D1 & D2 & D3 & _); [lia..|]. change (0 / 64) with 0 in D3. rewrite Nat.add_0_r in D3.
    exists [enc_digit (x / 4); enc_digit (x mod 4 * 16 + y / 16); enc_digit (y mod 16 * 4)], 1.
    split; [done|]. split; [|done]. repeat constructor; by apply Hd.
  - destruct (digits_of_bytes x y z) as (D1 & D2 & D3 & D4); [lia..|]. destruct (IH l) as (core & k & He & Hc & Hk); [done|].
    exists (enc_digit (x / 4) :: enc_digit (x mod 4 * 16 + y / 16) :: enc_digit (y mod 16 * 4 + z / 64) :: enc_digit (z mod 64) :: core), k.
    split; [cbn [encode_bytes]; by rewrite He|]. split; [repeat constructor; try (by apply Hd); done|].
    cbn [List.length]. change (S (S (S (S (List.length core))))) with (4 + List.length core).
    rewrite Hk. replace ((4 + List.length core) mod 4) with (List.length core mod 4); [done|].
    replace (4 + List.length core) with (List.length core + 1 * 4) by lia. by rewrite Nat.Div0.mod_add.
Qed.

Lemma digit_url a : digit_ok a = true -> from_url (to_url a) = a /\ Ascii.eqb (to_url a) "=" = false /\ Ascii.eqb (to_url a) "." = false.
Proof.
  assert (forallb (fun a => Ascii.eqb (from_url (to_url a)) a && negb (Ascii.eqb (to_url a) "=") && negb (Ascii.eqb (to_url a) "."))
    alphabet = true) as Hall by (vm_compute; reflexivity).
  rewrite forallb_forall in Hall. unfold digit_ok. rewrite existsb_exists. intros (b & Hb & ->%Ascii.eqb_eq).
  specialize (Hall b Hb). rewrite !andb_true_iff, !negb_true_iff, Ascii.eqb_eq in Hall. naive_solver.
Qed.

Lemma b64_shape s : exists core k, b64 s = of_chars (to_url <$> core) /\ b64encode s = of_chars (core ++ repeat "="%char k) /\
  Forall (fun a => digit_ok a = true) core /\ k = (4 - List.length core mod 4) mod 4.
Proof.
  destruct (encode_split (nat_of_ascii <$> chars s)) as (core & k & He & Hc & Hk).
  { apply Forall_fmap, Forall_forall. intros a _. apply nat_ascii_bounded. }
  exists core, k. assert (b64encode s = of_chars (core ++ repeat "="%char k)) as Henc by (unfold b64encode; by rewrite He).
  split_and!; try done. unfold b64. rewrite Henc.
  assert (str_map to_url (of_chars (core ++ repeat "="%char k)) = of_chars (to_url <$> core) +:+ of_chars (repeat "="%char k)) as ->.
  { apply chars_inj. rewrite chars_str_map, chars_app, !chars_of_chars, fmap_app. f_equal. clear.
    induction k as [|k IH]; [done|]. cbn. by rewrite IH. }
  apply rstrip_by_app.
  - rewrite chars_of_chars. apply Forall_fmap. eapply Forall_impl; [exact Hc|]. intros a Ha. by apply digit_url in Ha as (_ & ? & _).
  - clear. induction k; constructor; done.
Qed.

Lemma b64d_b64 s : b64d (b64 s) = Some s.
Proof.
  destruct (b64_shape s) as (core & k & Hb & He & Hc & Hk). unfold b64d. rewrite Hb, <- length_chars, chars_of_chars, length_fmap, <- Hk.
  assert (str_map from_url (of_chars (to_url <$> core) +:+ of_chars (repeat "="%char k)) = b64encode s) as ->; [|apply b64_roundtrip].
  rewrite He. apply chars_inj. rewrite chars_str_map, chars_app, !chars_of_chars, fmap_app. f_equal.
  - rewrite <- list_fmap_compose. rewrite <- (list_fmap_id core) at 2. apply list_fmap_ext. intros i a Ha. cbn.
    apply digit_url. by eapply Forall_lookup_1 in Hc.
  - clear. induction k as [|k IH]; [done|]. cbn. by rewrite IH.
Qed.

Lemma split_token_body s sig : split_token (b64 s +:+ "." +:+ sig) = Some (b64 s, sig).
Proof.
  destruct (b64_shape s) as (core & k & -> & _ & Hc & _). unfold split_token.
  rewrite !chars_app, chars_of_chars. change (chars ".") with ["."%char]. cbn [app].
  assert (Forall (fun a => negb (Ascii.eqb a ".") = true) (to_url <$> core)) as Hd.
  { apply Forall_fmap. eapply Forall_impl; [exact Hc|]. intros a Ha. cbn. by apply digit_url in Ha as (_ & _ & ->). }
  rewrite drop_while_app, take_while_stop, take_while_all by done. cbn. by rewrite of_chars_chars.
Qed.

(** A cookie is what it was minted as, and nothing else is a cookie. Until its expiry a minted
    cookie verifies as the user it was minted for, and afterwards as nobody; and whatever
    verifies carries the signature of its body under the console's secret and a known role. *)
Theorem cookies_sound hmac ttl u now now' :
  user_role u ∈ ROLES -> int_ok (now + ttl) = true ->
  verify_cookie hmac (mint hmac ttl u now) now' = Ok (if (now + ttl <? now')%Z then None else Some u) /\
  forall token t u', verify_cookie hmac token t = Ok (Some u') ->
    user_role u' ∈ ROLES /\ exists body, split_token token = Some (body, sign_body hmac body).
Proof.
  intros Hr Hexp. split.
  - unfold verify_cookie, mint. cbv zeta. rewrite split_token_body, String.eqb_refl. cbn [negb]. rewrite b64d_b64, loads_dumps.
    + unfold VObj. set (p := fields _).
      change (dget_or "exp" (VInt 0) p) with (VInt (now + ttl)). change (dget "r" p) with (Some (VStr (user_role u))).
      change (dget_or "u" (VStr "") p) with (VStr (username u)). clearbody p. cbn [int_field num_of mbind result_bind].
      destruct (_ <? _)%Z; [done|]. cbn. rewrite bool_decide_eq_true_2 by done. by destruct u.
    + split; [by repeat constructor|]. split; [|by repeat split].
      change (NoDup [KStr "u"; KStr "r"; KStr "exp"]). by apply (bool_decide_unpack _).
  - intros token t u'. unfold verify_cookie. destruct (split_token token) as [[body sig]|]; [|done].
    destruct (String.eqb_spec sig (sign_body hmac body)) as [->|]; [|done]. cbn [negb].
    destruct (b64d body) as [raw|]; [|done]. destruct (json_loads raw) as [[]|]; try done.
    intros (exp & _ & He)%bind_ok. destruct (exp <? t)%Z; [done|]. apply bind_ok in He as (known & Hk & He).
    destruct (opt_val (dget "r" d)) as [| | | |r| |]; try done. destruct known; [|done]. injection He as <-. cbn in *.
    injection Hk as Hk%bool_decide_eq_true. split; [done|by exists body].
Qed.

(** * A deployment *)
Definition demo_hmac (body : string) : string := "k" +:+ body.
Definition demo_cookie : string := mint demo_hmac 3600 {| username := "ann"; user_role := "approver" |} 1000.
Definition demo_fresh (n : nat) : string := String "a" (pretty n).
Definition demo_submit : console_event :=
  SubmitApproval None (Ok (VObj [("tool", VStr "db.drop"); ("session_id", VStr "s1")])) 1000.
Definition demo_console : list console_event :=
  [demo_submit; demo_submit; ResolveApproval (Some demo_cookie) "a0" true "ok" 1001;
   ResolveApproval (Some demo_cookie) "a0" false "no" 1002; WaitReturns "a0" false; WaitReturns "a1" false;
   WaitReturns "a1" true; ResolveApproval (Some demo_cookie) "a1" true "late" 1003].

Lemma demo_fresh_inj n n' : demo_fresh n = demo_fresh n' -> n = n'.
Proof. intros [= Hp]. by apply (inj pretty). Qed.

Lemma approval_needs_approver_witness :
  let c := console_run demo_hmac None demo_fresh demo_console in
  c_answered c = [("a0", {| ap_approved := true; ap_approver := "ann"; ap_note := "ok" |}); ("a1", timed_out_answer)] /\
  NoDup (akeys (c_answered c)).
Proof.
  split; [vm_compute; reflexivity|].
  exact (proj1 (approval_needs_approver demo_hmac None demo_fresh demo_console demo_fresh_inj)).
Defined.

Lemma cookies_sound_witness :
  verify_cookie demo_hmac demo_cookie 4600 = Ok (Some {| username := "ann"; user_role := "approver" |}) /\
  verify_cookie demo_hmac demo_cookie 4601 = Ok None.
Proof.
  split; [apply (cookies_sound demo_hmac 3600 {| username := "ann"; user_role := "approver" |} 1000 4600)
         |apply (cookies_sound demo_hmac 3600 {| username := "ann"; user_role := "approver" |} 1000 4601)];
    (set_solver || (vm_compute; reflexivity)).
Defined.

(** * Observations *)

(** A host name that begins like a loopback address passes for one. *)
Lemma loopback_prefix_trusted : is_loopback_host "127.attacker.example" = true.
Proof. vm_compute. reflexivity. Qed.
