(* ===== verification/Passwords.v ===== *)
(** Console passwords: [hash_password] and [verify_password] of [console/auth.py]. The key
    derivation [hashlib.pbkdf2_hmac("sha256", ...)] is a parameter, over the password, the salt
    and the rounds; a stored field that is not base64 of the URL-safe alphabet is malformed. *)
From S2P Require Import Prelude Base64 PyVal Forwarder Console.

Definition PBKDF2_ROUNDS : Z := 200000.
Definition ALGO : string := "pbkdf2_sha256".

Section Passwords.
Context (pbkdf2 : string -> string -> Z -> string).

(** [salt] is the given one, or 16 random bytes. *)
Definition hash_password (salt password : string) : string :=
  ALGO +:+ "$" +:+ (pretty PBKDF2_ROUNDS +:+ "$" +:+ (b64 salt +:+ "$" +:+ b64 (pbkdf2 password salt PBKDF2_ROUNDS))).

(** A malformed hash is a refusal; only a count of rounds beyond a C [int] escapes. *)
Definition verify_password (password encoded : string) : result bool :=
  match of_chars <$> split_by "$" (chars encoded) with
  | [algo; rounds_s; salt_s; hash_s] =>
      if negb (bool_decide (algo = ALGO)) then Ok false
      else match b64d salt_s, b64d hash_s, int_of_str rounds_s with
           | Some salt, Some expected, Some rounds =>
               if (rounds <=? 0)%Z then Ok false
               else if (2147483647 <? rounds)%Z then raise OtherError "iteration value is too great."
               else Ok (bool_decide (pbkdf2 password salt rounds = expected))
           | _, _, _ => Ok false
           end
  | _ => Ok false
  end.

Lemma b64_no_dollar s : forallb (fun a => negb (Ascii.eqb a "$")) (chars (b64 s)) = true.
Proof.
  destruct (b64_shape s) as (core & k & -> & _ & Hd & _). rewrite chars_of_chars. clear k s.
  induction Hd as [|a core Ha _ IH]; [done|]. cbn [fmap list_fmap forallb]. rewrite IH, andb_true_r.
  revert Ha. by destruct a as [[] [] [] [] [] [] [] []].
Qed.

(** A stored hash lets exactly its own password in: checking any password against the
    hash of another gives, without an exception, whether their derived keys agree; and a
    string that is not four fields is refused. *)
Theorem password_checks salt password attempt :
  verify_password attempt (hash_password salt password) =
    Ok (bool_decide (pbkdf2 attempt salt PBKDF2_ROUNDS = pbkdf2 password salt PBKDF2_ROUNDS)) /\
  (forall encoded, List.length (split_by "$" (chars encoded)) <> 4 -> verify_password attempt encoded = Ok false).
Proof.
  split.
  - unfold verify_password, hash_password. rewrite !chars_app.
    cbn [chars app].
    rewrite (split_by_app "$" (chars ALGO)), (split_by_app "$" (chars (pretty PBKDF2_ROUNDS))),
      (split_by_app "$" (chars (b64 salt))), split_by_last by (done || apply b64_no_dollar).
    cbn [fmap list_fmap]. rewrite !of_chars_chars, !b64d_b64. by rewrite bool_decide_eq_true_2.
  - intros encoded Hl. unfold verify_password. by destruct (split_by "$" (chars encoded)) as [|? [|? [|? [|? []]]]].
Qed.
End Passwords.
