(* ===== verification/PolicyCi.v ===== *)
(** Reviewing a policy before it ships: the golden tests of [policy/testing.py] and the checks
    of [policy/ci.py] (validate, goldens, coverage, backtest), over the targets [Diff]
    discovers. A golden case's tool, role and arguments are taken to be a string, a string or
    nothing, and a mapping; anything else is reported as an untyped field. What a report
    prints is in [Reports]. *)
From S2P Require Import Prelude PyVal Json Glob Session Rules Loader Merge Engine Approvals Redaction Protocol Pipeline Gateway Spool Backtest Connectors Diff.

(** * Golden tests ([policy/testing.py]) *)
Definition EXPECT_FIELDS : list string := ["outcome"; "action"; "stage"; "reason_contains"; "disposition"; "rewritten"].

Record GoldenResult := { g_name : val; g_failures : list string }.
Definition passed (r : GoldenResult) : bool := match g_failures r with [] => true | _ => false end.

(** [path.suffix] *)
Definition suffix (path : string) : string := (split_suffix (base_name path)).2.

Definition load_tests_file (fs : FS) (yaml_load : string -> option val) (path : string) : result (list val) :=
  text ← of_option (f_text fs path) (Exn PolicyError ("tests file not found: " +:+ path));
  document ← (if String.eqb (suffix path) ".json" then json_loads text
              else of_option (yaml_load text) (Exn OtherError "YAMLError"));
  match document with
  | VDict d => match dget "tests" d with
               | Some (VList tests) => Ok tests
               | _ => raise PolicyError (path +:+ ": expected a top-level 'tests' list")
               end
  | _ => raise PolicyError (path +:+ ": expected a top-level 'tests' list")
  end.

(** ** The expectations of a case; each gives the failures it finds *)
Definition fail_unless (holds : bool) (failure : string) : list string := if holds then [] else [failure].

Definition outcome_name (o : StageOutcome) : string := if denied o then "deny" else "allow".

Definition check_outcome (o : StageOutcome) (expected : val) : list string :=
  fail_unless (py_eqb (VStr (outcome_name o)) expected)
    ("outcome: expected " +:+ py_str expected +:+ ", got " +:+ outcome_name o
     +:+ (if denied o then " (" +:+ py_str (o_reason o) +:+ ")" else "")).

Definition decided_action (c : CallContext) : val := match decision c with Some d => d_action d | None => VNone end.
Definition check_action (c : CallContext) (expected : val) : list string :=
  fail_unless (py_eqb (decided_action c) expected)
    ("action: expected " +:+ py_str expected +:+ ", got " +:+ py_str (decided_action c)).

Definition check_stage (o : StageOutcome) (expected : val) : list string :=
  fail_unless (py_eqb (VStr (o_stage o)) expected)
    ("stage: expected " +:+ py_str expected +:+ ", got " +:+ str_repr (o_stage o)).

(** [needle in haystack]; a reason that is not a string is out of the model. *)
Definition check_reason (o : StageOutcome) (c : CallContext) (needle : val) : result (list string) :=
  let haystack := if denied o then o_reason o
                  else VStr (match decision c with Some d => d_reason d | None => "" end) in
  match haystack, needle with
  | VStr h, VStr n => Ok (fail_unless (contains n h)
      ("reason: expected substring " +:+ str_repr n +:+ " in " +:+ str_repr h))
  | VStr _, v => raise TypeError ("'in <string>' requires string as left operand, not " +:+ type_name v)
  | _, _ => untyped "reason"
  end.

Definition check_disposition (c : CallContext) (expected : val) : list string :=
  let actual := disp_str (cx_disposition c) in
  fail_unless (py_eqb (VStr actual) expected)
    ("disposition: expected " +:+ py_str expected +:+ ", got " +:+ str_repr actual).

(** [outbound_arguments]: what is forwarded. *)
Definition outbound_arguments (ci : CallInfo) (c : CallContext) : val :=
  match effective_arguments c with Some a => a | None => VDict (ci_arguments ci) end.

Definition check_argument (outbound : val) (kv : key * val) : result (list string) :=
  match outbound with
  | VDict d =>
      let actual := opt_val (aget kv.1 d) in
      Ok (fail_unless (py_eqb actual kv.2)
        ("rewritten[" +:+ py_str (key_val kv.1) +:+ "]: expected " +:+ py_repr kv.2 +:+ ", got " +:+ py_repr actual))
  | v => raise AttributeError ("'" +:+ type_name v +:+ "' object has no attribute 'get'")
  end.

Definition check_rewritten (ci : CallInfo) (c : CallContext) (expected : val) : result (list string) :=
  match expected with
  | VDict items => fs ← map_res (check_argument (outbound_arguments ci c)) items; Ok (concat fs)
  | v => raise AttributeError ("'" +:+ type_name v +:+ "' object has no attribute 'items'")
  end.

(** [if name in expect: ...] *)
Definition expecting (name : string) (expect : pydict) (f : val -> result (list string)) : result (list string) :=
  match dget name expect with Some v => f v | None => Ok [] end.

Definition check_expectations (expect : pydict) (ci : CallInfo) (o : StageOutcome) (c : CallContext) : result (list string) :=
  f1 ← expecting "outcome" expect (fun v => Ok (check_outcome o v));
  f2 ← expecting "action" expect (fun v => Ok (check_action c v));
  f3 ← expecting "stage" expect (fun v => Ok (check_stage o v));
  f4 ← expecting "reason_contains" expect (check_reason o c);
  f5 ← expecting "disposition" expect (fun v => Ok (check_disposition c v));
  f6 ← expecting "rewritten" expect (check_rewritten ci c);
  Ok (f1 ++ f2 ++ f3 ++ f4 ++ f5 ++ f6).

Section Goldens.
Context `{Regex} (fs : FS) (yaml_load : string -> option val) (svc : RedactionService).
(** The identifier and the start of the fresh session of a case. *)
Context (sid started : string).

(** The call a case describes. *)
Definition golden_call (case : pydict) : result CallInfo :=
  tool ← str_field "tool" (opt_val (dget "tool" case));
  arguments ← of_option (as_dict (dget_or "arguments" (VDict []) case)) (Exn OtherError "arguments: untyped field");
  role ← (let r := opt_val (dget "role" case) in if truthy r then s ← str_field "role" r; Ok [s] else Ok []);
  Ok {| ci_session := Session_new sid started;
        ci_message := fields [("jsonrpc", VStr "2.0"); ("id", VInt 0); ("method", VStr "tools/call");
                              ("params", VObj [("name", VStr tool); ("arguments", VDict arguments)])];
        ci_tool := tool; ci_arguments := arguments;
        ci_principal := {| principal_id := "golden"; roles := role |} |}.

(** Static policy only: neither the session gate nor the sequence gate. *)
Definition golden_stages (e : PolicyEngine) (hs : list (string * handler)) (ci : CallInfo) : list (string * stage) :=
  [("policy", PolicyStage ci e); ("constraints", ConstraintsStage ci); ("action", ActionStage ci hs)].

(** The expectations of a well-formed case, or what is wrong with it. *)
Definition case_expect (case : val) : result (pydict * pydict + string) :=
  match case with
  | VDict d =>
      match dget "tool" d, dget "expect" d with
      | Some _, Some (VDict expect) =>
          if negb (dhas "outcome" expect) then Ok (inr "'expect' must be a mapping with 'outcome'")
          else match unknown_keys EXPECT_FIELDS expect with
               | [] => Ok (inl (d, expect))
               | ks => ks ← sorted_keys ks;
                       Ok (inr ("unknown expect field(s): [" +:+ join ", " (key_repr <$> ks) +:+ "]"))
               end
      | Some _, Some _ => Ok (inr "'expect' must be a mapping with 'outcome'")
      | _, _ => Ok (inr "case must be a mapping with 'tool' and 'expect'")
      end
  | _ => Ok (inr "case must be a mapping with 'tool' and 'expect'")
  end.

Definition case_name (index : nat) (case : val) : val :=
  let dflt := VStr ("case[" +:+ pretty index +:+ "]") in
  match case with VDict d => dget_or "name" dflt d | _ => dflt end.

(** [_run_case]; the service's vault is shared by the cases of a suite. *)
Definition run_case (e : PolicyEngine) (hs : list (string * handler)) (v : vault) (ic : nat * val)
  : result (GoldenResult * vault) :=
  let result_of failures := {| g_name := case_name ic.1 ic.2; g_failures := failures |} in
  x ← case_expect ic.2;
  match x with
  | inr why => Ok (result_of [why], v)
  | inl (d, expect) =>
      ci ← golden_call d;
      let '(r, c) := run (golden_stages e hs ci) (CallContext_new v 0) in
      o ← r;
      failures ← check_expectations expect ci o c;
      Ok (result_of failures, cx_vault c)
  end.

Fixpoint run_cases (e : PolicyEngine) (hs : list (string * handler)) (v : vault) (cases : list (nat * val))
  : result (list GoldenResult) :=
  match cases with
  | [] => Ok []
  | ic :: cases =>
      '(r, v) ← run_case e hs v ic;
      rs ← run_cases e hs v cases;
      Ok (r :: rs)
  end.

Definition run_policy_tests (policy_paths : list string) (tests_path : string) : result (list GoldenResult) :=
  e ← engine_load fs yaml_load policy_paths;
  cases ← load_tests_file fs yaml_load tests_path;
  run_cases e (build_action_handlers (Some svc) None) [] (enumerate cases).
End Goldens.

(** * CI checks ([policy/ci.py]) *)
Definition VALIDATE := "validate".
Definition GOLDENS := "goldens".
Definition COVERAGE := "coverage".
Definition BACKTEST := "backtest".
Definition MAX_LISTED := 8.

Record Check := { ck_name : string; ck_ok : bool; ck_detail : string; ck_failures : list string; ck_skipped : bool }.
Definition failing (name detail : string) (fs : list string) : Check :=
  {| ck_name := name; ck_ok := false; ck_detail := detail; ck_failures := fs; ck_skipped := false |}.
Definition skipping (name detail : string) : Check :=
  {| ck_name := name; ck_ok := true; ck_detail := detail; ck_failures := []; ck_skipped := true |}.
(** Ok when nothing failed. *)
Definition judged (name detail : string) (fs : list string) : Check :=
  {| ck_name := name; ck_ok := match fs with [] => true | _ => false end; ck_detail := detail; ck_failures := fs;
     ck_skipped := false |}.
Definition check_to_dict (c : Check) : val :=
  VObj [("check", VStr (ck_name c)); ("ok", VBool (ck_ok c)); ("detail", VStr (ck_detail c));
        ("failures", strs (ck_failures c)); ("skipped", VBool (ck_skipped c))].

Record PackReport := { pr_target : Target; pr_checks : list Check }.
Definition pack_ok (r : PackReport) : bool := forallb ck_ok (pr_checks r).
Definition kind_str (k : target_kind) : string := match k with CONNECTOR => "connector" | POLICY_FILE => "policy" end.
Definition pack_to_dict (r : PackReport) : val :=
  let t := pr_target r in
  VObj [("name", VStr (t_name t)); ("kind", VStr (kind_str (t_kind t))); ("path", VStr (t_path t));
        ("layers", strs (t_layers t)); ("ok", VBool (pack_ok r)); ("checks", VList (check_to_dict <$> pr_checks r))].

Record CiReport := { ci_root : string; ci_packs : list PackReport }.
Definition ci_ok (r : CiReport) : bool := forallb pack_ok (ci_packs r).
Definition ci_failed (r : CiReport) : list PackReport := List.filter (fun p => negb (pack_ok p)) (ci_packs r).
Definition ci_to_dict (r : CiReport) : val :=
  VObj [("root", VStr (ci_root r)); ("ok", VBool (ci_ok r));
        ("packs_checked", VInt (Z.of_nat (List.length (ci_packs r))));
        ("packs_failed", VInt (Z.of_nat (List.length (ci_failed r))));
        ("packs", VList (pack_to_dict <$> ci_packs r))].

Definition list_some (items : list string) : string :=
  let shown := join ", " (take MAX_LISTED items) in
  if MAX_LISTED <? List.length items
  then shown +:+ ", and " +:+ pretty (List.length items - MAX_LISTED) +:+ " more" else shown.

(** [try: ... except GatewayError as exc], with [str(exc)]. *)
Definition catch_gateway {A} (r : result A) : result (A + string) :=
  match r with
  | Ok a => Ok (inl a)
  | Err x => if is_gateway_error x then Ok (inr (exn_msg x)) else Err x
  end.

(** [json.dumps(v)]: non-ASCII text (and DEL) is escaped. *)
Definition ascii_only (a : ascii) : list ascii :=
  if nat_of_ascii a <? 127 then [a] else chars (chr 92 +:+ "u00" +:+ hex2 (nat_of_ascii a)).
Definition json_line (event : pydict) : bytes :=
  concat (ascii_only <$> chars (json_dumps_default (VDict event))) ++ [nl].

Definition change_kind_str (k : change_kind) : string :=
  match k with
  | kind_unchanged => "unchanged" | newly_blocked => "newly_blocked" | newly_allowed => "newly_allowed"
  | action_changed => "action_changed" end.
Definition call_outcome_str (o : call_outcome) : string := match o with allowed => "allowed" | blocked => "blocked" end.

Definition replayed_row (c : ReplayedCall) : string :=
  let k := rc_key c in
  k_tool k +:+ (match k_role k with Some (String _ _ as r) => " [" +:+ r +:+ "]" | _ => "" end) +:+ ": "
  +:+ (match k_action k with Some (String _ _ as a) => a | _ => call_outcome_str (k_outcome k) end)
  +:+ " -> " +:+ py_str (rc_new_action c) +:+ " (" +:+ change_kind_str (rc_kind c) +:+ ")".

Section Ci.
Context `{Regex} (fs : FS) (yaml_load : string -> option val) (svc : RedactionService).
Context (sid started : string).

(** Layers one by one, then the merged policy. *)
Definition load_layer (acc : list PolicyLayer * list string) (layer : string) : result (list PolicyLayer * list string) :=
  r ← catch_gateway (load_policy_file (f_text fs) yaml_load layer);
  Ok match r with inl l => (acc.1 ++ [l], acc.2) | inr failure => (acc.1, acc.2 ++ [failure]) end.

Definition check_validate (t : Target) : result (Check * option PolicyEngine) :=
  '(documents, failures) ← fold_res load_layer ([], []) (t_layers t);
  match failures with
  | _ :: _ => Ok (failing VALIDATE "policy did not parse" failures, None)
  | [] =>
      r ← catch_gateway (PolicyEngine_init documents);
      Ok match r with
         | inr failure => (failing VALIDATE "merged policy did not compile" [failure], None)
         | inl e => (judged VALIDATE (pretty (List.length (t_layers t)) +:+ " layer(s) ok, merged ok") [], Some e)
         end
  end.

Definition golden_failure (r : GoldenResult) : string := py_str (g_name r) +:+ ": " +:+ join "; " (g_failures r).

Definition check_goldens (t : Target) (min_goldens : nat) : result Check :=
  match t_tests t with
  | None =>
      Ok match t_kind t with
         | CONNECTOR => failing GOLDENS "no golden tests"
             ["a connector pack must ship policy_tests.yaml — an unverified policy is an unverified security control"]
         | POLICY_FILE => skipping GOLDENS "no goldens alongside this file (validate-only)"
         end
  | Some tests =>
      r ← catch_gateway (run_policy_tests fs yaml_load svc sid started (t_layers t) tests);
      match r with
      | inr failure => Ok (failing GOLDENS "golden suite did not run" [failure])
      | inl results =>
          let failed := List.filter (fun r => negb (passed r)) results in
          let n := List.length results in
          let few := if n <? min_goldens
                     then ["only " +:+ pretty n +:+ " golden case(s); at least " +:+ pretty min_goldens +:+ " required"]
                     else [] in
          Ok (judged GOLDENS (pretty (n - List.length failed) +:+ "/" +:+ pretty n +:+ " golden decisions hold")
                ((golden_failure <$> failed) ++ few))
      end
  end.

(** The names of an inventory. *)
Definition tool_names (c : Connector) : result (list string) :=
  inventory ← tools fs yaml_load c;
  map_res (fun k => match k with KStr s => Ok s | _ => untyped "tools" end) (akeys inventory).

Definition falls_through (e : PolicyEngine) (tool : string) : result (option string) :=
  d ← evaluate e tool None; Ok (if String.eqb (d_rule d) "default" then Some tool else None).

Definition check_coverage (t : Target) (e : PolicyEngine) : result (option Check) :=
  match t_connector t with
  | None => Ok None
  | Some c =>
      r ← catch_gateway (tool_names c);
      match r with
      | inr failure => Ok (Some (failing COVERAGE "tool inventory did not load" [failure]))
      | inl [] => Ok (Some (skipping COVERAGE "no tools.yaml inventory to check"))
      | inl ((_ :: _) as inventory) =>
          ms ← map_res (falls_through e) inventory;
          let missing := omap id ms in
          let n := List.length inventory in
          Ok (Some (judged COVERAGE
            (pretty (n - List.length missing) +:+ "/" +:+ pretty n +:+ " tools have an explicit rule")
            (match missing with
             | [] => []
             | _ => [pretty (List.length missing) +:+ " inventoried tool(s) fall through to default_action (unrated means unreviewed): "
                     +:+ list_some missing] end)))
      end
  end.

(** The tools the self check replays: the inventory, or else those of the goldens. *)
Definition golden_tool (case : val) : option string :=
  match case with VDict d => match dget "tool" d with Some (VStr s) => Some s | _ => None end | _ => None end.

Definition replayed_tools (t : Target) : result (list string) :=
  names ← match t_connector t with Some c => ns ← tool_names c; Ok (isort str_leb ns) | None => Ok [] end;
  match names, t_tests t with
  | [], Some tests => cases ← load_tests_file fs yaml_load tests; Ok (sorted_set (omap golden_tool cases))
  | _, _ => Ok names
  end.

Definition check_backtest (t : Target) (e : PolicyEngine) : result Check :=
  names ← replayed_tools t;
  match names with
  | [] => Ok (skipping BACKTEST "no tools to replay")
  | _ =>
      let roles := None :: (Some <$> declared_roles e) in
      let deny := effective_deny_set svc in
      let expected := List.length names * List.length roles in
      log ← synthetic_log e deny names roles;
      r ← backtest_policy (Some (concat (json_line <$> log))) e deny;
      let n := calls_examined r in
      let unread := if n =? expected then []
                    else ["backtest read " +:+ pretty n +:+ " of " +:+ pretty expected +:+ " synthesized call(s) ("
                          +:+ pretty (bt_bad_lines r) +:+ " unparseable line(s))"] in
      let flipped := match bt_changed r with
                     | [] => []
                     | rows => ["replaying the pack's own decisions through the pack changed " +:+ pretty (List.length rows)
                                +:+ " of them — the backtest replay path disagrees with the live matcher: "
                                +:+ list_some (replayed_row <$> rows)] end in
      let detail := match unread ++ flipped with
                    | [] => pretty n +:+ " replayed call(s) across " +:+ pretty (List.length roles) +:+ " role view(s), zero-diff"
                    | _ => pretty (List.length (bt_changed r)) +:+ " unexpected diff(s)" end in
      Ok (judged BACKTEST detail (unread ++ flipped))
  end.

Definition check_target (min_goldens : nat) (backtest : bool) (t : Target) : result PackReport :=
  let report cs := {| pr_target := t; pr_checks := cs |} in
  if truthy_str (t_error t) then Ok (report [failing VALIDATE "pack failed to load" [default "" (t_error t)]])
  else
    '(validated, engine) ← check_validate t;
    match engine with
    | None => Ok (report [validated])
    | Some e =>
        goldens ← check_goldens t min_goldens;
        coverage ← check_coverage t e;
        replayed ← (if backtest then c ← check_backtest t e; Ok [c] else Ok []);
        Ok (report (validated :: goldens :: opt_list coverage ++ replayed))
    end.

(** A name of [only] that matches nothing is a failing pack. *)
Definition missing_pack (root name : string) : PackReport :=
  {| pr_target := {| t_name := name; t_kind := CONNECTOR; t_path := root; t_layers := []; t_tests := None;
                     t_connector := None; t_error := None |};
     pr_checks := [failing VALIDATE "no such pack"
       ["--only " +:+ str_repr name +:+ " matched no connector pack or policy file under " +:+ root]] |}.

Definition run_policy_ci (root : string) (min_goldens : nat) (backtest : bool) (only : list string) : result CiReport :=
  targets ← discover_targets yaml_load fs root;
  let '(targets, missing) :=
    match only with
    | [] => (targets, [])
    | _ => let kept := List.filter (fun t => bool_decide (t_name t ∈ only)) targets in
           (kept, missing_pack root <$> List.filter (fun n => negb (bool_decide (n ∈ t_name <$> kept))) (sorted_set only))
    end in
  reports ← map_res (check_target min_goldens backtest) targets;
  Ok {| ci_root := root; ci_packs := missing ++ reports |}.
End Ci.

(** * Golden decisions and production decisions *)
Definition with_asked (n : nat) (c : CallContext) : CallContext :=
  {| decision := decision c; effective_arguments := effective_arguments c; argument_changes := argument_changes c;
     argument_redactions := argument_redactions c; cx_disposition := cx_disposition c; redaction_spec := redaction_spec c;
     approval := approval c; cx_vault := cx_vault c; cx_asked := n |}.

Section Production.
Context `{Regex}.
Implicit Types (ci : CallInfo) (c : CallContext) (d : Decision).

(** A handler that asks nobody looks at the arguments of the call only. *)
Lemma on_request_asked ci ci' fuel hs hs' h d n c : is_approval h = false -> ci_arguments ci' = ci_arguments ci ->
  on_request ci' (S fuel) hs' h d (with_asked n c) =
    ((on_request ci (S fuel) hs h d c).1, with_asked n (on_request ci (S fuel) hs h d c).2).
Proof.
  intros Hh Ha. destruct h as [| |[s|]| | |b]; try discriminate Hh; try done; cbn [on_request].
  - unfold redact_on_request, mbind, M_bind, get, modify, mret, M_ret, when. rewrite Ha. cbn [cx_vault with_asked].
    destruct (svc_redact _ _ _) as [[x [fs v]]|e]; [|done]. by destruct (negb _).
  - unfold rewrite_on_request, lift, mbind, M_bind, modify, mret, M_ret, when. rewrite Ha.
    destruct (apply_rewrites _ _) as [[args ch]|e]; [|done]. by destruct (negb _).
Qed.

Lemma handler_for_agree svc b b' v : v <> VStr "require_approval" ->
  handler_for (build_action_handlers svc b) v = handler_for (build_action_handlers svc b') v.
Proof.
  intros Hv. unfold handler_for. destruct v as [| | | |s| |]; try done. unfold build_action_handlers. cbn.
  repeat case_decide; try done. congruence.
Qed.

Lemma handler_for_simple svc b v h : v <> VStr "require_approval" ->
  handler_for (build_action_handlers svc b) v = Ok (Some h) -> is_approval h = false.
Proof.
  intros Hv Hh. unfold handler_for in Hh. destruct v as [| | | |s| |]; try discriminate Hh.
  injection Hh as Hh. apply build_handlers_plain in Hh as (Hq & _). destruct h; try done.
  by rewrite (Hq _ eq_refl) in Hv.
Qed.

Lemma action_stage_agree ci ci' svc b b' d n c : decision c = Some d -> d_action d <> VStr "require_approval" ->
  ci_arguments ci' = ci_arguments ci ->
  let r := ActionStage ci (build_action_handlers svc b) c in
  ActionStage ci' (build_action_handlers svc b') (with_asked n c) = (r.1, with_asked n r.2).
Proof.
  intros Hd Hn Ha. unfold ActionStage, get, lift, mbind, M_bind. cbn [decision with_asked]. rewrite Hd.
  rewrite (handler_for_agree svc b' b) by done.
  destruct (handler_for _ _) as [[h|]|e] eqn:Hh; [|done|done].
  rewrite (on_request_asked ci ci' 1 (build_action_handlers svc b) _ h d n c) by (done || by eapply handler_for_simple).
  by destruct (on_request ci 2 (build_action_handlers svc b) h d c) as [[o|e] c1].
Qed.

Lemma golden_run_eq e hs ci c : run (golden_stages e hs ci) c =
  match evaluate e (ci_tool ci) (first_role (ci_principal ci)) with
  | Err x => (Ok (crash "policy" x), c)
  | Ok d =>
      match first_violation (d_constraints d) (ci_arguments ci) with
      | Some v => (Ok (set_stage "constraints" (deny_with v CONSTRAINT_VIOLATION)), set_decision d c)
      | None => run [("action", ActionStage ci hs)] (set_decision d c)
      end
  end.
Proof.
  unfold golden_stages. rewrite run_cons, policy_stage_eq. destruct (evaluate _ _ _) as [d|x]; [|done].
  cbn [denied proceed]. rewrite run_cons, (constraints_stage_eq _ d) by done. by destruct (first_violation _ _).
Qed.

(** Two calls that static policy cannot tell apart. *)
Record same_call (ci ci' : CallInfo) : Prop := {
  sc_tool : ci_tool ci' = ci_tool ci;
  sc_arguments : ci_arguments ci' = ci_arguments ci;
  sc_role : first_role (ci_principal ci') = first_role (ci_principal ci);
}.

(** What the gates of the session let through is decided as the golden run decides it, unless
    the rule asks a human and there is one to ask. *)
Lemma golden_run_production e svc b p ci ci' v n :
  default_pipeline e (Some svc) b = Ok p -> same_call ci ci' ->
  suspended (ci_session ci') = false -> check (rp_sequence p) (ci_tool ci') (ci_session ci') = None ->
  let g := run (golden_stages e (build_action_handlers (Some svc) None) ci) (CallContext_new v 0) in
  pipeline_run p ci' (CallContext_new v n) = (g.1, with_asked n g.2) \/
  exists d b', evaluate e (ci_tool ci) (first_role (ci_principal ci)) = Ok d /\ b = Some b' /\
    d_action d = VStr "require_approval" /\ exists o, g.1 = Ok o /\ denied o = true.
Proof.
  intros (sp & _ & [= <-])%bind_ok [Ht Ha Hr] Hs Hc. cbn [rp_sequence] in Hc. rewrite pipeline_run_eq, Hs, golden_run_eq.
  unfold evaluate_call. cbn [rp_engine rp_sequence rp_handlers]. rewrite Hc, Ht, Hr, Ha.
  destruct (evaluate _ _ _) as [d|x] eqn:Hd; [|by left]. destruct (first_violation _ _); [by left|].
  rewrite !run_cons. destruct (decide (d_action d = VStr "require_approval")) as [Hq|Hq].
  - unfold ActionStage, get, lift, mbind, M_bind. cbn [decision set_decision]. rewrite Hq. cbn.
    destruct b as [b|]; [right|by left]. exists d, b. split_and!; [done..|]. by eexists.
  - left. change (set_decision d (CallContext_new v n)) with (with_asked n (set_decision d (CallContext_new v 0))).
    rewrite (action_stage_agree ci ci' (Some svc) None b d n) by done.
    destruct (ActionStage ci _ _) as [[o|x] c1]; [|done]. cbn. by destruct (denied o).
Qed.
End Production.

(** ** What a passing case says of production *)
Lemma check_outcome_ok o v : check_outcome o v = [] -> py_eqb (VStr (outcome_name o)) v = true.
Proof. unfold check_outcome, fail_unless. by destruct (py_eqb _ _). Qed.

Lemma check_expectations_agree `{Regex} expect ci ci' o c n : same_call ci ci' ->
  check_expectations expect ci' o (with_asked n c) = check_expectations expect ci o c.
Proof.
  intros [_ Ha _]. unfold check_expectations, check_rewritten, outbound_arguments. cbn [effective_arguments with_asked].
  by rewrite Ha.
Qed.

Lemma check_expectations_outcome expect ci o c : check_expectations expect ci o c = Ok [] ->
  forall v, dget "outcome" expect = Some v -> py_eqb (VStr (outcome_name o)) v = true.
Proof.
  unfold check_expectations, expecting.
  intros (f1 & H1 & (f2 & _ & (f3 & _ & (f4 & _ & (f5 & _ & (f6 & _ & Hf)%bind_ok)%bind_ok)%bind_ok)%bind_ok)%bind_ok)%bind_ok v Hv.
  rewrite Hv in H1. injection H1 as <-. injection Hf as Hf. apply app_nil in Hf as [Hf _]. by apply check_outcome_ok.
Qed.

Lemma run_case_passed `{Regex} sid started e hs v i case r v' :
  run_case sid started e hs v (i, case) = Ok (r, v') -> passed r = true ->
  exists d expect ci o c, case_expect case = Ok (inl (d, expect)) /\ golden_call sid started d = Ok ci /\
    run (golden_stages e hs ci) (CallContext_new v 0) = (Ok o, c) /\ check_expectations expect ci o c = Ok [].
Proof.
  unfold run_case. cbn [fst snd]. intros ([[d expect]|why] & He & Hr)%bind_ok Hp; [|by injection Hr as <- <-].
  apply bind_ok in Hr as (ci & Hci & Hr). destruct (run _ _) as [ro c] eqn:Hrun.
  apply bind_ok in Hr as (o & -> & (fs & Hfs & [= <- <-])%bind_ok). unfold passed in Hp. cbn in Hp.
  destruct fs as [|f fs]; [|done]. by exists d, expect, ci, o, c.
Qed.

(** What production does with a call that a golden case describes. *)
Definition meets_case `{Regex} (sid started : string) (e : PolicyEngine) (svc : RedactionService) (v : vault) (case : val) : Prop :=
  exists d expect gci, case_expect case = Ok (inl (d, expect)) /\ golden_call sid started d = Ok gci /\
    forall b p ci n, default_pipeline e (Some svc) b = Ok p -> same_call gci ci ->
      suspended (ci_session ci) = false -> check (rp_sequence p) (ci_tool ci) (ci_session ci) = None ->
      exists o c, pipeline_run p ci (CallContext_new v n) = (Ok o, c) /\
        (check_expectations expect ci o c = Ok [] \/
         (dget "outcome" expect <> Some (VStr "allow") /\
          exists b' dec, b = Some b' /\ evaluate e (ci_tool ci) (first_role (ci_principal ci)) = Ok dec /\
            d_action dec = VStr "require_approval")) /\
        (dget "outcome" expect = Some (VStr "allow") -> denied o = false).

Lemma case_predicts `{Regex} sid started e svc v i case r v' :
  run_case sid started e (build_action_handlers (Some svc) None) v (i, case) = Ok (r, v') -> passed r = true ->
  meets_case sid started e svc v case.
Proof.
  intros Hrun Hp. destruct (run_case_passed _ _ _ _ _ _ _ _ _ Hrun Hp) as (d & expect & gci & o & c & He & Hg & Hr & Hc).
  exists d, expect, gci. split; [done|]. split; [done|]. intros b p ci n Hpipe Hsame Hs Hk.
  pose proof (check_expectations_outcome _ _ _ _ Hc) as Hout.
  destruct (golden_run_production e svc b p gci ci v n Hpipe Hsame Hs Hk) as [Heq|(dec & b' & Hd & -> & Hq & o' & Ho & Hden)];
    rewrite Hr in *; cbn [fst snd] in *.
  - exists o, (with_asked n c). split; [done|]. split; [left; by rewrite (check_expectations_agree _ gci)|].
    intros Hal. specialize (Hout _ Hal). unfold outcome_name in Hout. by destruct (denied o).
  - injection Ho as <-. assert (dget "outcome" expect <> Some (VStr "allow")) as Hna.
    { intros Hal. specialize (Hout _ Hal). unfold outcome_name in Hout. by rewrite Hden in Hout. }
    destruct (run_total (pipeline_stages p ci) (CallContext_new v n)) as (o2 & c2 & Hr2).
    exists o2, c2. split; [done|]. split; [|done]. right. split; [done|]. exists b', dec.
    destruct Hsame as [-> _ ->]. done.
Qed.

Lemma run_cases_elem `{Regex} sid started e hs v cases rs : run_cases sid started e hs v cases = Ok rs ->
  Forall2 (fun ic r => exists v1 v2, run_case sid started e hs v1 ic = Ok (r, v2)) cases rs.
Proof.
  revert v rs. induction cases as [|ic cases IH]; intros v rs; cbn; [intros [= <-]; constructor|].
  intros ([r v1] & Hr & (rs' & Hrs & [= <-])%bind_ok)%bind_ok. constructor; [by exists v, v1|by eapply IH].
Qed.

Lemma suite_predicts `{Regex} fs yaml_load svc sid started paths tests rs :
  run_policy_tests fs yaml_load svc sid started paths tests = Ok rs -> Forall (fun r => passed r = true) rs ->
  exists e cases, engine_load fs yaml_load paths = Ok e /\ load_tests_file fs yaml_load tests = Ok cases /\
    List.length rs = List.length cases /\ forall case, case ∈ cases -> exists v, meets_case sid started e svc v case.
Proof.
  intros (e & He & (cases & Hc & Hrs)%bind_ok)%bind_ok Hp. exists e, cases. apply run_cases_elem in Hrs.
  assert ((enumerate cases).*2 = cases) as Henum.
  { unfold enumerate. generalize 0. clear. induction cases as [|x l IH]; intros n; [done|]. cbn. by rewrite IH. }
  split_and!; try done.
  - rewrite <- (Forall2_length _ _ _ Hrs), <- (length_fmap snd), Henum. done.
  - intros case Hin. rewrite <- Henum in Hin. apply list_elem_of_fmap in Hin as ([i x] & -> & Hin).
    destruct (proj1 (Forall2_elem _ _ _ Hrs) _ Hin) as (r & Hr & v1 & v2 & Hrun). exists v1.
    eapply case_predicts; [exact Hrun|]. by eapply Forall_forall in Hp.
Qed.


(** * What a green build says *)
Lemma catch_gateway_inl {A} (r : result A) a : catch_gateway r = Ok (inl a) -> r = Ok a.
Proof. unfold catch_gateway. destruct r as [a'|e]; [congruence|]. by destruct (is_gateway_error e). Qed.

Lemma judged_ok name detail fs : ck_ok (judged name detail fs) = true -> fs = [].
Proof. by destruct fs. Qed.

Section Green.
Context `{Regex} (fs : FS) (yaml_load : string -> option val) (svc : RedactionService) (sid started : string).

Lemma load_layers_ok layers docs fails docs' : fold_res (load_layer fs yaml_load) (docs, fails) layers = Ok (docs', []) ->
  fails = [] /\ exists ds, map_res (load_policy_file (f_text fs) yaml_load) layers = Ok ds /\ docs' = docs ++ ds.
Proof.
  revert docs fails. induction layers as [|l layers IH]; intros docs fails; cbn.
  { intros [= <- <-]. split; [done|]. exists []. by rewrite app_nil_r. }
  intros ([d1 f1] & (r & Hr & Hl)%bind_ok & Hrest)%bind_ok. destruct (IH _ _ Hrest) as (-> & ds & Hds & ->).
  injection Hl as Hl. destruct r as [x|x]; cbn in Hl; injection Hl as <- Hf; [|by destruct fails].
  split; [done|]. apply catch_gateway_inl in Hr. rewrite Hr. cbn. rewrite Hds. exists (x :: ds). by rewrite <- app_assoc.
Qed.

Lemma check_validate_ok t c e : check_validate fs yaml_load t = Ok (c, Some e) -> engine_load fs yaml_load (t_layers t) = Ok e.
Proof.
  unfold check_validate. intros ([docs fails] & Hf & Hr)%bind_ok. destruct fails; [|done].
  apply bind_ok in Hr as (r & Hr & [= Hr']). destruct r as [e'|]; [|done]. injection Hr' as _ ->.
  apply catch_gateway_inl in Hr. destruct (load_layers_ok _ _ _ _ Hf) as (_ & ds & Hds & ->).
  unfold engine_load. by rewrite Hds.
Qed.

Lemma check_validate_none t c : check_validate fs yaml_load t = Ok (c, None) -> ck_ok c = false.
Proof.
  unfold check_validate. intros ([docs fails] & _ & Hr)%bind_ok. destruct fails; [|by injection Hr as <-].
  apply bind_ok in Hr as (r & _ & [= Hr']). destruct r; [done|]. by injection Hr' as <-.
Qed.

Lemma check_goldens_ok t min_goldens c : check_goldens fs yaml_load svc sid started t min_goldens = Ok c -> ck_ok c = true ->
  match t_tests t with
  | None => t_kind t = POLICY_FILE
  | Some tests => exists rs, run_policy_tests fs yaml_load svc sid started (t_layers t) tests = Ok rs /\
      Forall (fun r => passed r = true) rs /\ min_goldens <= List.length rs
  end.
Proof.
  unfold check_goldens. destruct (t_tests t) as [tests|]; [|by destruct (t_kind t); intros [= <-]].
  intros (r & Hr & Hc)%bind_ok Hok. destruct r as [rs|f]; [|by injection Hc as <-].
  injection Hc as <-. apply judged_ok, app_nil in Hok as [Hfail Hfew]. exists rs. apply catch_gateway_inl in Hr.
  split; [done|]. split.
  - apply fmap_nil_inv in Hfail. apply Forall_forall. intros r Hin. destruct (passed r) eqn:Hp; [done|].
    assert (r ∈ List.filter (fun r => negb (passed r)) rs) as Hbad; [|by rewrite Hfail in Hbad; apply elem_of_nil in Hbad].
    apply list_elem_of_In, List.filter_In. split; [by apply list_elem_of_In|]. by rewrite Hp.
  - destruct (Nat.ltb_spec (List.length rs) min_goldens); [done|lia].
Qed.

Lemma falls_through_None e tool : falls_through e tool = Ok None -> exists pattern, RuleMatcher_match (matcher e) tool = Some pattern.
Proof.
  unfold falls_through, evaluate. destruct (RuleMatcher_match _ _) as [pattern|]; [by exists pattern|]. done.
Qed.

Lemma check_coverage_ok t e oc c : check_coverage fs yaml_load t e = Ok oc -> t_connector t = Some c ->
  (forall k, oc = Some k -> ck_ok k = true) ->
  exists inventory, tool_names fs yaml_load c = Ok inventory /\
    forall tool, tool ∈ inventory -> exists pattern, RuleMatcher_match (matcher e) tool = Some pattern.
Proof.
  unfold check_coverage. intros Hc Ht Hok. rewrite Ht in Hc. apply bind_ok in Hc as (r & Hr & Hc).
  destruct r as [inv|f]; [|injection Hc as <-; by specialize (Hok _ eq_refl)].
  apply catch_gateway_inl in Hr. exists inv. split; [done|]. destruct inv as [|x inv]; [intros tool Hin; by apply elem_of_nil in Hin|].
  apply bind_ok in Hc as (ms & Hms & [= <-]). specialize (Hok _ eq_refl). apply judged_ok in Hok.
  destruct (omap id ms) as [|m l] eqn:Hm; [|done]. intros tool Hin. apply map_res_ok in Hms.
  destruct (proj1 (Forall2_elem _ _ _ Hms) _ Hin) as (o & Ho & Hf).
  destruct o as [s|]; [|by eapply falls_through_None].
  assert (s ∈ omap id ms) as Hs by (by apply elem_omap_id). rewrite Hm in Hs. by apply elem_of_nil in Hs.
Qed.

(** What the checks of one target establish. *)
Record target_checked (min_goldens : nat) (t : Target) : Prop := {
  tk_loaded : truthy_str (t_error t) = false;
  tk_engine : exists e, engine_load fs yaml_load (t_layers t) = Ok e /\
    (t_tests t = None -> t_kind t = POLICY_FILE) /\
    (forall tests, t_tests t = Some tests -> exists cases, load_tests_file fs yaml_load tests = Ok cases /\
       min_goldens <= List.length cases /\ forall case, case ∈ cases -> exists v, meets_case sid started e svc v case) /\
    (forall c, t_connector t = Some c -> exists inventory, tool_names fs yaml_load c = Ok inventory /\
       forall tool, tool ∈ inventory -> exists pattern, RuleMatcher_match (matcher e) tool = Some pattern);
}.

Lemma check_target_ok min_goldens backtest t r :
  check_target fs yaml_load svc sid started min_goldens backtest t = Ok r -> pack_ok r = true -> target_checked min_goldens t.
Proof.
  unfold check_target. destruct (truthy_str (t_error t)) eqn:Herr; [by intros [= <-]|].
  intros ([c [e|]] & Hv & Hr)%bind_ok Hok.
  2: { injection Hr as <-. unfold pack_ok in Hok. cbn in Hok. by rewrite (check_validate_none _ _ Hv) in Hok. }
  apply bind_ok in Hr as (g & Hg & (cov & Hcov & (rep & _ & [= <-])%bind_ok)%bind_ok).
  unfold pack_ok in Hok. cbn in Hok. rewrite forallb_app in Hok. apply andb_true_iff in Hok as [_ [Hgo [Hco _]%andb_true_iff]%andb_true_iff].
  pose proof (check_validate_ok _ _ _ Hv) as He. pose proof (check_goldens_ok _ _ _ Hg Hgo) as Hgold.
  split; [done|]. exists e. split; [done|]. split; [by intros Hn; rewrite Hn in Hgold|]. split.
  - intros tests Ht. rewrite Ht in Hgold. destruct Hgold as (rs & Hrs & Hp & Hn).
    destruct (suite_predicts _ _ _ _ _ _ _ _ Hrs Hp) as (e' & cases & He' & Hc & Hlen & Hcase).
    rewrite He in He'. injection He' as <-. exists cases. split; [done|]. split; [lia|done].
  - intros c' Hc'. eapply check_coverage_ok; [exact Hcov|done|]. intros k ->. cbn in Hco. by destruct (ck_ok k).
Qed.

(** C35: A green build checked everything. When a CI run reports ok, every name it was asked for
    is a discovered target, and every discovered target it was asked for (all of them, if it was
    asked for none) loaded, compiles, ships goldens if it is a connector pack, at least the
    required number, all of which hold in production, and has an explicit rule for every tool
    of its inventory. *)
Theorem green_build_checked root min_goldens backtest only r :
  run_policy_ci fs yaml_load svc sid started root min_goldens backtest only = Ok r -> ci_ok r = true ->
  exists targets, discover_targets yaml_load fs root = Ok targets /\
    (forall name, name ∈ only -> exists t, t ∈ targets /\ t_name t = name) /\
    (forall t, t ∈ targets -> only = [] \/ t_name t ∈ only -> target_checked min_goldens t).
Proof.
  intros (targets & Ht & Hr)%bind_ok Hok. exists targets. split; [done|].
  set (kept := List.filter (fun t => bool_decide (t_name t ∈ only)) targets) in *.
  assert (forall ts missing reports, map_res (check_target fs yaml_load svc sid started min_goldens backtest) ts = Ok reports ->
    forallb pack_ok (missing ++ reports) = true -> forallb pack_ok missing = true /\ forall t, t ∈ ts -> target_checked min_goldens t)
    as Hall.
  { intros ts missing reports Hm%map_res_ok. rewrite forallb_app, andb_true_iff. intros [Hmiss Hrep]. split; [done|].
    intros t Hin. destruct (proj1 (Forall2_elem _ _ _ Hm) _ Hin) as (pr & Hpr & Hct).
    eapply check_target_ok; [exact Hct|]. rewrite forallb_forall in Hrep. by apply Hrep, list_elem_of_In. }
  destruct only as [|n0 only'] eqn:Hon.
  - apply bind_ok in Hr as (reports & Hm & [= <-]). destruct (Hall _ [] reports Hm Hok) as [_ Hk]. split; [intros name Hin; by apply elem_of_nil in Hin|]. auto.
  - rewrite <- Hon in *. apply bind_ok in Hr as (reports & Hm & [= <-]). destruct (Hall _ _ _ Hm Hok) as [Hmiss Hk]. split.
    + intros name Hin. destruct (decide (name ∈ t_name <$> kept)) as [Hd|Hd].
      * apply list_elem_of_fmap in Hd as (t & -> & Hkt). exists t. split; [|done].
        apply list_elem_of_In, List.filter_In in Hkt as [? _]. by apply list_elem_of_In.
      * rewrite forallb_forall in Hmiss. exfalso.
        enough (pack_ok (missing_pack root name) = true) by done. apply Hmiss.
        apply list_elem_of_In, list_elem_of_fmap. exists name. split; [done|].
        apply list_elem_of_In, List.filter_In. split; [by apply list_elem_of_In, elem_sorted_set|]. by rewrite bool_decide_eq_false_2.
    + intros t Hin [Hnil|Hname]; [congruence|]. apply Hk, list_elem_of_In, List.filter_In. split; [by apply list_elem_of_In|].
      rewrite Hon in Hname. by apply bool_decide_eq_true_2.
Qed.
End Green.

(** * A repository with one pack *)
#[local] Existing Instance literal_regex.
Definition pack_policy : val := VObj
  [("schema_version", VInt 1); ("name", VStr "pg"); ("default_action", VStr "block");
   ("tools", VObj [("pg.*", VObj [("action", VStr "require_approval")]);
                   ("pg.read", VObj [("action", VStr "allow"); ("reason", VStr "reads are safe");
                      ("roles", VObj [("intern", VObj [("action", VStr "quarantine")])])])])].
Definition golden (fs : list (string * val)) (expect : list (string * val)) : val := VObj (fs ++ [("expect", VObj expect)]).
Definition pack_tests : val := VObj [("tests", VList
  [golden [("name", VStr "reads"); ("tool", VStr "pg.read")]
     [("outcome", VStr "allow"); ("action", VStr "allow"); ("reason_contains", VStr "safe")];
   golden [("tool", VStr "pg.read"); ("role", VStr "intern"); ("arguments", VObj [("sql", VStr "SELECT 1")])]
     [("outcome", VStr "allow"); ("disposition", VStr "quarantine"); ("rewritten", VObj [("sql", VStr "SELECT 1")])];
   golden [("tool", VStr "pg.drop")] [("outcome", VStr "deny"); ("stage", VStr "action"); ("action", VStr "require_approval")]])].
(** The text of a file names its document. *)
Definition ci_docs (text : string) : option val :=
  if String.eqb text "manifest" then Some (VObj [("name", VStr "pg")])
  else if String.eqb text "policy" then Some pack_policy
  else if String.eqb text "tests" then Some pack_tests
  else if String.eqb text "tools" then Some (VObj [("tools", VObj [("pg.read", VObj []); ("pg.drop", VObj [])])])
  else if String.eqb text "broken tools" then Some (VInt 7)
  else None.
Definition ci_files (tools_text : string) : FS :=
  {| f_text := fun p => aget p [("r/connectors/pg/manifest.yaml", "manifest"); ("r/connectors/pg/policy.yaml", "policy");
                               ("r/connectors/pg/policy_tests.yaml", "tests"); ("r/connectors/pg/tools.yaml", tools_text)];
     f_children := fun p => aget p [("r/connectors", ["pg"]);
       ("r/connectors/pg", ["manifest.yaml"; "policy.yaml"; "policy_tests.yaml"; "tools.yaml"])] |}.
Definition ci_run (tools_text : string) : result CiReport :=
  run_policy_ci (ci_files tools_text) ci_docs demo_service "s" "t" "r" 3 true ["pg"].
Definition green_report : CiReport := Eval vm_compute in the (ci_run "tools") I.
Definition green_suite : list GoldenResult := Eval vm_compute in
  the (run_policy_tests (ci_files "tools") ci_docs demo_service "s" "t" ["r/connectors/pg/policy.yaml"] "r/connectors/pg/policy_tests.yaml") I.
Example green_checks : (fun p => (fun c => (ck_name c, ck_ok c, ck_detail c)) <$> pr_checks p) <$> ci_packs green_report =
  [[("validate", true, "1 layer(s) ok, merged ok"); ("goldens", true, "3/3 golden decisions hold");
    ("coverage", true, "2/2 tools have an explicit rule"); ("backtest", true, "4 replayed call(s) across 2 role view(s), zero-diff")]].
Proof. vm_compute. reflexivity. Qed.


Lemma green_build_checked_witness :
  ci_ok green_report = true /\
  exists targets, discover_targets ci_docs (ci_files "tools") "r" = Ok targets /\
    exists t, t ∈ targets /\ t_name t = "pg" /\ target_checked (ci_files "tools") ci_docs demo_service "s" "t" 3 t.
Proof.
  split; [vm_compute; reflexivity|].
  destruct (green_build_checked (ci_files "tools") ci_docs demo_service "s" "t" "r" 3 true ["pg"] green_report)
    as (targets & Ht & Hn & Hk); [vm_compute; reflexivity|vm_compute; reflexivity|].
  exists targets. split; [exact Ht|]. destruct (Hn "pg") as (t & Hin & Hname); [set_solver|].
  exists t. split; [exact Hin|]. split; [exact Hname|]. apply Hk; [exact Hin|]. right. rewrite Hname. set_solver.
Defined.

(** * Observations *)

(** An inventory that does not load is a failed coverage check, but the backtest check reads it
    again and the run ends in the exception, with no report for this pack or any other. *)
Lemma broken_inventory_aborts_ci :
  exists msg, ci_run "broken tools" = Err (Exn ConnectorError msg).
Proof. eexists. vm_compute. reflexivity. Qed.
