(* ===== verification/Reports.v ===== *)
(** How reports are printed: the text and markdown of [policy/diff.py] and [policy/ci.py], the
    workflow commands of [policy/ci.py], the text of [policy/backtest.py], and the documents
    that [--json] prints. Literal text beyond ASCII is its UTF-8 bytes; widths count
    characters of the padded text. *)
From S2P Require Import Prelude PyVal Json Session Rules Loader Merge Engine Approvals Redaction Pipeline Spool Backtest Connectors Diff PolicyCi.

(** * Lines and columns *)
Definition spaces (n : nat) : string := of_chars (repeat " "%char n).
Definition ljust (w : nat) (s : string) : string := s +:+ spaces (w - String.length s).
Definition rjust (w : nat) (s : string) : string := spaces (w - String.length s) +:+ s.
Definition unlines (l : list string) : string := join newline l.
(** [x or dflt], rendered *)
Definition or_text (dflt : string) (v : val) : string := if truthy v then py_str v else dflt.
Definition given (o : option string) : option string := match o with Some (String _ _ as s) => Some s | _ => None end.
(** [max((len(s) for s in l), default=10)] *)
Definition widest (l : list string) : nat := match l with [] => 10 | _ => foldr Nat.max 0 (String.length <$> l) end.

(** * The blast radius *)
Definition MAX_ROWS := 40.
Definition DIFF_NOTE := "Action-level diff over each pack's full tool surface. Argument constraints, taint/sequence gating, and approval outcomes are not evaluated (they depend on runtime state), so a rule whose constraints changed but whose action did not is reported as unchanged.".

Record RepoDiff := { rd_base : string; rd_head : string; rd_packs : list PackDiff }.
Definition rd_sum (f : PackDiff -> nat) (d : RepoDiff) : nat := sum_list_with f (rd_packs d).

Definition diff_kind_str (k : diff_kind) : string :=
  match k with LOOSENED => "loosened" | TIGHTENED => "tightened" | CHANGED_KIND => "changed" end.
Definition pack_state_str (s : pack_state) : string :=
  match s with ADDED => "added" | REMOVED => "removed" | CHANGED => "changed" | UNCHANGED => "unchanged" | BROKEN => "broken" end.

Definition nat_val (n : nat) : val := VInt (Z.of_nat n).
Definition change_to_dict (c : ChangedDecision) : val := VObj
  [("tool", VStr (cd_tool c)); ("role", opt_str (cd_role c)); ("base_action", base_action c); ("head_action", head_action c);
   ("kind", VStr (diff_kind_str (cd_kind c))); ("crosses_deny_boundary", VBool (crosses_deny_boundary c))].
(** A dictionary from actions to counts; an action is text. *)
Definition summary_val (l : list (val * nat)) : val := VObj ((fun an => (py_str an.1, nat_val an.2)) <$> l).
Definition pack_diff_to_dict (d : PackDiff) : val := VObj
  [("name", VStr (pd_name d)); ("state", VStr (pack_state_str (pd_state d)));
   ("decisions_examined", nat_val (decisions_examined d)); ("role_views", nat_val (role_views d));
   ("summary", VObj [("loosened", nat_val (loosened d)); ("tightened", nat_val (tightened d)); ("changed", nat_val (lateral d));
                     ("newly_allowed", nat_val (newly_ungated d)); ("unchanged", nat_val (pd_unchanged d))]);
   ("changed", VList (change_to_dict <$> pd_changed d)); ("action_summary", summary_val (action_summary d));
   ("error", opt_str (pd_error d))].
Definition repo_diff_to_dict (d : RepoDiff) : val := VObj
  [("base_root", VStr (rd_base d)); ("head_root", VStr (rd_head d)); ("clean", VBool (diff_clean (rd_packs d)));
   ("summary", VObj [("loosened", nat_val (rd_sum loosened d)); ("tightened", nat_val (rd_sum tightened d));
                     ("changed", nat_val (rd_sum lateral d)); ("newly_allowed", nat_val (rd_sum newly_ungated d));
                     ("packs_touched", nat_val (List.length (touched (rd_packs d))))]);
   ("packs", VList (pack_diff_to_dict <$> rd_packs d)); ("note", VStr DIFF_NOTE)].

(** [_actions]: the strongest action first; an unknown action is the weakest. *)
Definition rank (action : val) : Z :=
  match action with VStr a => match aget a STRENGTH with Some n => Z.of_nat n | None => -1 end | _ => -1 end%Z.
Definition ranked_leb (x y : val * nat) : bool :=
  (rank y.1 <? rank x.1)%Z || (rank x.1 =? rank y.1)%Z && str_leb (py_str x.1) (py_str y.1).
Definition actions (summary : list (val * nat)) : string :=
  join ", " ((fun an => pretty an.2 +:+ " " +:+ py_str an.1) <$> isort ranked_leb summary).

Definition more_rows {A} (l : list A) (f : nat -> string) : list string :=
  if MAX_ROWS <? List.length l then [f (List.length l - MAX_ROWS)] else [].

Definition change_line (c : ChangedDecision) : string :=
  "    " +:+ ljust 10 (diff_kind_str (cd_kind c)) +:+ " " +:+ cd_tool c
  +:+ (match given (cd_role c) with Some r => " [" +:+ r +:+ "]" | None => "" end) +:+ "  "
  +:+ or_text "(absent)" (base_action c) +:+ " -> " +:+ or_text "(absent)" (head_action c)
  +:+ (if crosses_deny_boundary c then "  !! now un-gated" else "").

Definition pack_lines (d : PackDiff) : list string :=
  match pd_state d with
  | BROKEN => [pd_name d +:+ ": could not diff — " +:+ default "None" (pd_error d)]
  | ADDED | REMOVED =>
      [pd_name d +:+ " [" +:+ pack_state_str (pd_state d) +:+ "]: " +:+ pretty (decisions_examined d) +:+ " decision(s) across "
       +:+ pretty (role_views d) +:+ " role view(s) — " +:+ actions (action_summary d)]
  | CHANGED | UNCHANGED =>
      (pd_name d +:+ " [" +:+ pack_state_str (pd_state d) +:+ "]: " +:+ pretty (loosened d) +:+ " loosened, "
       +:+ pretty (tightened d) +:+ " tightened, " +:+ pretty (lateral d) +:+ " changed (" +:+ pretty (pd_unchanged d)
       +:+ " unchanged of " +:+ pretty (decisions_examined d) +:+ " decisions across " +:+ pretty (role_views d) +:+ " role view(s))")
      :: (change_line <$> take MAX_ROWS (pd_changed d))
      ++ more_rows (pd_changed d) (fun n => "    ... and " +:+ pretty n +:+ " more")
  end.

Definition diff_format_text (d : RepoDiff) : string :=
  unlines ((if diff_clean (rd_packs d) then ["no policy decisions changed"] else [])
    ++ concat (pack_lines <$> touched (rd_packs d)) ++ [""; "note: " +:+ DIFF_NOTE]).

(** ** The comment on a pull request *)
Definition COMMENT_MARKER := "<!-- mcp-gateway:policy-diff -->".
Definition code (s : string) : string := "`" +:+ s +:+ "`".
Definition sub_note : string := "<sub>" +:+ DIFF_NOTE +:+ "</sub>".

Definition diff_icon (c : ChangedDecision) : string :=
  if crosses_deny_boundary c then "🚨"
  else match cd_kind c with LOOSENED => "⚠️" | TIGHTENED => "🔒" | CHANGED_KIND => "🔁" end.
Definition change_row (c : ChangedDecision) : string :=
  "| " +:+ diff_icon c +:+ " | " +:+ code (cd_tool c) +:+ " | "
  +:+ (match given (cd_role c) with Some r => code r | None => "–" end)
  +:+ " | " +:+ code (py_str (base_action c)) +:+ " | " +:+ code (py_str (head_action c)) +:+ " |".

Definition pack_section (d : PackDiff) : list string :=
  match pd_state d with
  | UNCHANGED => []
  | BROKEN => ["### " +:+ code (pd_name d) +:+ " — could not diff"; "";
               "```" +:+ newline +:+ default "None" (pd_error d) +:+ newline +:+ "```"; ""]
  | REMOVED =>
      ["### " +:+ code (pd_name d) +:+ " — 🚨 pack removed"; "";
       pretty (decisions_examined d) +:+ " decision(s) this pack enforced are gone: " +:+ actions (action_summary d)
       +:+ ". Anything still pointed at this upstream is now policed by whatever policy replaces it — or by none."; ""]
  | ADDED =>
      ["### " +:+ code (pd_name d) +:+ " — 🆕 new pack"; "";
       "Adds " +:+ pretty (decisions_examined d) +:+ " decision(s) across " +:+ pretty (role_views d) +:+ " role view(s): "
       +:+ actions (action_summary d) +:+ "."; ""]
  | CHANGED =>
      ["### " +:+ code (pd_name d); "";
       pretty (loosened d) +:+ " loosened · " +:+ pretty (tightened d) +:+ " tightened · " +:+ pretty (lateral d)
       +:+ " changed · " +:+ pretty (pd_unchanged d) +:+ " unchanged (" +:+ pretty (decisions_examined d) +:+ " decisions across "
       +:+ pretty (role_views d) +:+ " role view(s))"; ""]
      ++ match pd_changed d with
         | [] => []
         | changed =>
             ["| | Tool | Role | Before | After |"; "| --- | --- | --- | --- | --- |"]
             ++ (change_row <$> take MAX_ROWS changed)
             ++ more_rows changed (fun n => "| | _… and " +:+ pretty n +:+ " more_ | | | |") ++ [""]
         end
  end.

(** The alert above the packs: a decision that crosses the deny boundary outranks one that
    is merely weaker. *)
Definition caution (n : nat) : list string :=
  ["> [!CAUTION]";
   "> **" +:+ pretty n +:+ " decision(s) cross the deny boundary**: refused before, and would now go through with no human in the loop. Confirm each one is intended."; ""].
Definition warning (n : nat) : list string :=
  ["> [!WARNING]";
   "> This branch **weakens enforcement** on " +:+ pretty n +:+ " decision(s) (a step down the `allow < redact < quarantine < require_approval < block` ladder). None of them go through un-gated, but confirm each is intended."; ""].
Definition alert (d : RepoDiff) : list string :=
  if negb (rd_sum newly_ungated d =? 0) then caution (rd_sum newly_ungated d)
  else if negb (rd_sum loosened d =? 0) then warning (rd_sum loosened d) else [].

Definition comment_lines (d : RepoDiff) : list string :=
  [COMMENT_MARKER; "## Policy blast radius"; ""]
  ++ if diff_clean (rd_packs d) then ["No policy decision changes on this branch."; ""; sub_note; ""]
     else ["**" +:+ pretty (rd_sum loosened d) +:+ " loosened** · **" +:+ pretty (rd_sum tightened d) +:+ " tightened** · "
           +:+ pretty (rd_sum lateral d) +:+ " changed"; ""]
          ++ alert d ++ concat (pack_section <$> rd_packs d) ++ [sub_note; ""].
Definition diff_format_markdown (d : RepoDiff) : string := unlines (comment_lines d).

(** * Policy CI *)
Definition label (t : Target) : string := kind_str (t_kind t) +:+ ":" +:+ t_name t.

Definition check_lines (c : Check) : list string :=
  ("      " +:+ rjust 4 (if ck_skipped c then "skip" else if ck_ok c then "ok" else "FAIL") +:+ "  " +:+ ljust 9 (ck_name c)
   +:+ " " +:+ ck_detail c) :: ((fun f => "            - " +:+ f) <$> ck_failures c).
Definition report_lines (r : PackReport) : list string :=
  ((if pack_ok r then "PASS" else "FAIL") +:+ "  " +:+ label (pr_target r)) :: concat (check_lines <$> pr_checks r).
Definition passed_count (r : CiReport) : string :=
  pretty (List.length (ci_packs r) - List.length (ci_failed r)) +:+ "/" +:+ pretty (List.length (ci_packs r)).

Definition ci_format_text (r : CiReport) : string :=
  unlines (concat (report_lines <$> ci_packs r) ++ [""; passed_count r +:+ " pack(s) passed"]
    ++ match ci_failed r with [] => [] | fs => ["failed: " +:+ join ", " ((fun p => label (pr_target p)) <$> fs)] end).

Definition ci_cell (r : PackReport) (name : string) : string :=
  match List.find (fun c => bool_decide (ck_name c = name)) (pr_checks r) with
  | None => "–"
  | Some c => (if ck_skipped c then "➖ " else if ck_ok c then "✅ " else "❌ ") +:+ ck_detail c
  end.
Definition ci_row (r : PackReport) : string :=
  "| " +:+ code (t_name (pr_target r)) +:+ " | " +:+ join " | " (ci_cell r <$> [VALIDATE; GOLDENS; COVERAGE; BACKTEST]) +:+ " |".
(** The failures of the failed packs, with the pack and the check. *)
Definition ci_failures (r : CiReport) : list (Target * Check * string) :=
  concat ((fun p => concat ((fun c => (fun f => (pr_target p, c, f)) <$> ck_failures c) <$> pr_checks p)) <$> ci_failed r).

Definition ci_format_markdown (r : CiReport) : string :=
  let head := if ci_ok r then "✅ All policy packs passed"
              else "❌ " +:+ pretty (List.length (ci_failed r)) +:+ " policy pack(s) failed" in
  unlines (["## Policy CI"; ""; head +:+ " — " +:+ passed_count r +:+ " passed."; "";
            "| Pack | Validate | Goldens | Coverage | Backtest |"; "| --- | --- | --- | --- | --- |"]
    ++ (ci_row <$> ci_packs r)
    ++ (if ci_ok r then []
        else [""; "### Failures"; ""] ++
             ((fun '(t, c, f) => "- **" +:+ code (t_name t) +:+ " / " +:+ ck_name c +:+ "** — " +:+ f) <$> ci_failures r)))
  +:+ newline.

(** [_escape]; [::] is replaced last, left to right. *)
Fixpoint escape_colons (l : list ascii) : list ascii :=
  match l with
  | a :: ((b :: rest) as l') =>
      if Ascii.eqb a ":" && Ascii.eqb b ":" then chars "%3A%3A" ++ escape_colons rest else a :: escape_colons l'
  | l => l
  end.
Definition escape_workflow (a : ascii) : list ascii :=
  if Ascii.eqb a "%" then chars "%25"
  else if nat_of_ascii a =? 13 then chars "%0D"
  else if nat_of_ascii a =? 10 then chars "%0A"
  else if Ascii.eqb a "," then chars "%2C" else [a].
Definition escape_command (text : string) : string := of_chars (escape_colons (concat (escape_workflow <$> chars text))).

(** [anchor.relative_to(root)] of a path under the root, else the path itself. *)
Definition relative_to (root path : string) : string :=
  if bool_decide (path = root) then "."
  else if startswith (root +:+ "/") path then slice path (S (String.length root)) (String.length path) else path.
Definition anchor (root : string) (t : Target) : string :=
  relative_to root (match t_layers t with l :: _ => l | [] => t_path t end).
Definition annotation (root : string) (tcf : Target * Check * string) : string :=
  let '(t, c, f) := tcf in
  "::error file=" +:+ anchor root t +:+ ",title=" +:+ escape_command ("policy " +:+ ck_name c +:+ ": " +:+ t_name t)
  +:+ "::" +:+ escape_command f.
Definition github_annotations (r : CiReport) : list string := annotation (ci_root r) <$> ci_failures r.

(** * The backtest *)
Definition BACKTEST_NOTE := "Action-level backtest: argument constraints, taint/sequence gating, and approval outcomes are NOT replayed (audit is counts-only).".

Definition replayed_to_dict (c : ReplayedCall) : val :=
  let k := rc_key c in VObj
  [("tool", VStr (k_tool k)); ("role", opt_str (k_role k)); ("old_outcome", VStr (call_outcome_str (k_outcome k)));
   ("old_action", opt_str (k_action k)); ("old_stage", opt_str (k_stage k)); ("new_action", rc_new_action c);
   ("new_outcome", VStr (call_outcome_str (rc_new_outcome c))); ("count", nat_val (rc_count c));
   ("changed", VBool (rc_changed c)); ("change_kind", VStr (change_kind_str (rc_kind c)))].
Definition backtest_to_dict (r : BacktestReport) : val := VObj
  [("policy_source", VStr (policy_source r)); ("calls_examined", nat_val (calls_examined r));
   ("distinct_calls", nat_val (distinct_calls r));
   ("summary", VObj [("unchanged", nat_val (n_unchanged r)); ("newly_blocked", nat_val (n_newly_blocked r));
                     ("newly_allowed", nat_val (n_newly_allowed r)); ("action_changed", nat_val (n_action_changed r))]);
   ("changed", VList (replayed_to_dict <$> bt_changed r)); ("bad_lines", nat_val (bt_bad_lines r)); ("note", VStr BACKTEST_NOTE)].

Definition replayed_line (w : nat) (c : ReplayedCall) : string :=
  let k := rc_key c in
  "  " +:+ ljust 14 (change_kind_str (rc_kind c)) +:+ " " +:+ ljust w (k_tool k)
  +:+ (match given (k_role k) with Some r => " [" +:+ r +:+ "]" | None => "" end) +:+ "  "
  +:+ default (call_outcome_str (k_outcome k)) (given (k_action k)) +:+ " -> " +:+ py_str (rc_new_action c)
  +:+ "  x" +:+ pretty (rc_count c)
  +:+ (match given (k_stage k) with Some s => " (was blocked at " +:+ s +:+ ")" | None => "" end).

Definition backtest_format_report (r : BacktestReport) : string :=
  unlines (
    ["policy:   " +:+ policy_source r;
     "examined: " +:+ pretty (calls_examined r) +:+ " recorded call(s), " +:+ pretty (distinct_calls r) +:+ " distinct";
     "changed:  " +:+ pretty (n_newly_blocked r) +:+ " newly blocked, " +:+ pretty (n_newly_allowed r) +:+ " newly allowed, "
     +:+ pretty (n_action_changed r) +:+ " action changed  (" +:+ pretty (n_unchanged r) +:+ " unchanged)"]
    ++ (if bt_bad_lines r =? 0 then [] else ["warning:  " +:+ pretty (bt_bad_lines r) +:+ " unparseable spool line(s) skipped"])
    ++ match bt_changed r with
       | [] => []
       | cs => "" :: (replayed_line (widest ((fun c => k_tool (rc_key c)) <$> cs)) <$> cs)
       end
    ++ [""; "note: " +:+ BACKTEST_NOTE]).

(** * What a workflow command lets through *)
Fixpoint no_colons (l : list ascii) : bool :=
  match l with
  | a :: ((b :: _) as l') => negb (Ascii.eqb a ":" && Ascii.eqb b ":") && no_colons l'
  | _ => true
  end.
(** The characters that end or separate the parts of a command. *)
Definition breaks (a : ascii) : bool := (nat_of_ascii a =? 10) || (nat_of_ascii a =? 13) || Ascii.eqb a ",".

Lemma escape_workflow_safe l : forallb (fun a => negb (breaks a)) (concat (escape_workflow <$> l)) = true.
Proof.
  induction l as [|a l IH]; [done|]. cbn [fmap list_fmap concat]. rewrite forallb_app, IH, andb_true_r.
  by destruct a as [[] [] [] [] [] [] [] []].
Qed.

Lemma escape_colons_ind (P : list ascii -> Prop) : P [] -> (forall a, P [a]) ->
  (forall a b l, P l -> P (b :: l) -> P (a :: b :: l)) -> forall l, P l.
Proof.
  intros H0 H1 H2. assert (forall l, P l /\ forall a, P (a :: l)) as H; [|intros l; apply H].
  induction l as [|b l [IH IHb]]; [by split|]. split; [apply IHb|]. intros a. by apply H2.
Qed.

Lemma escape_colons_head l : match escape_colons l, l with
  | a :: _, b :: _ => Ascii.eqb a ":" = true -> Ascii.eqb b ":" = true | [], _ => True | _ :: _, [] => False end.
Proof.
  destruct l as [|a [|b l]]; cbn; [done|done|]. destruct (Ascii.eqb a ":" && Ascii.eqb b ":") eqn:Hc; [done|by cbn].
Qed.

Lemma escape_colons_cons a b l : escape_colons (a :: b :: l) =
  if Ascii.eqb a ":" && Ascii.eqb b ":" then chars "%3A%3A" ++ escape_colons l else a :: escape_colons (b :: l).
Proof. reflexivity. Qed.

Lemma escape_colons_safe l : forallb (fun a => negb (breaks a)) l = true ->
  forallb (fun a => negb (breaks a)) (escape_colons l) = true /\ no_colons (escape_colons l) = true.
Proof.
  induction l as [|a|a b l IH IHb] using escape_colons_ind; [done|by split|].
  intros H. pose proof H as [Ha Hb]%andb_true_iff. change (forallb (fun x => negb (breaks x)) (b :: l) = true) in Hb.
  pose proof Hb as [_ Hl]%andb_true_iff. destruct (IH Hl) as [H1 H2]. destruct (IHb Hb) as [H3 H4].
  rewrite escape_colons_cons. destruct (Ascii.eqb a ":" && Ascii.eqb b ":") eqn:Hc.
  - split; [by cbn|]. cbn [app chars]. pose proof (escape_colons_head l) as Hh. revert H2.
    destruct (escape_colons l) as [|x r]; [done|]. by intros H2; cbn in H2 |- *.
  - split; [by cbn [forallb]; rewrite Ha, H3|]. pose proof (escape_colons_head (b :: l)) as Hh. revert H4 Hh.
    destruct (escape_colons (b :: l)) as [|x r]; [done|]. intros H4 Hh.
    change (negb (Ascii.eqb a ":" && Ascii.eqb x ":") && no_colons (x :: r) = true). rewrite H4, andb_true_r.
    destruct (Ascii.eqb a ":"); [|done]. cbn in Hc |- *. destruct (Ascii.eqb x ":"); [|done]. by rewrite Hh in Hc.
Qed.

Lemma escape_command_safe s : forallb (fun a => negb (breaks a)) (chars (escape_command s)) = true /\
  no_colons (chars (escape_command s)) = true.
Proof. unfold escape_command. rewrite chars_of_chars. apply escape_colons_safe, escape_workflow_safe. Qed.

Lemma breaks_no_newline l : forallb (fun a => negb (breaks a)) l = true -> forallb (fun a => negb (nat_of_ascii a =? 10)) l = true.
Proof.
  induction l as [|a l IH]; [done|]. cbn. unfold breaks at 1. destruct (nat_of_ascii a =? 10); [done|]. cbn.
  intros [_ H]%andb_true_iff. auto.
Qed.

Lemma in_ci_failures r t c f : (t, c, f) ∈ ci_failures r <->
  exists p, p ∈ ci_packs r /\ pack_ok p = false /\ pr_target p = t /\ c ∈ pr_checks p /\ f ∈ ck_failures c.
Proof.
  unfold ci_failures, ci_failed. rewrite elem_concat. split.
  - intros (l & (p & -> & Hp)%list_elem_of_fmap & (m & (c' & -> & Hc)%list_elem_of_fmap & (f' & [= -> -> ->] & Hf)
      %list_elem_of_fmap)%elem_concat).
    rewrite list_elem_of_In, filter_In, <- list_elem_of_In, negb_true_iff in Hp. destruct Hp. by exists p.
  - intros (p & Hp & Hn & <- & Hc & Hf). eexists. split.
    + apply list_elem_of_fmap. exists p. split; [done|]. by rewrite list_elem_of_In, filter_In, <- list_elem_of_In, negb_true_iff.
    + apply elem_concat. eexists. split; [apply list_elem_of_fmap; by exists c|apply list_elem_of_fmap; by exists f].
Qed.

(** Each failure reaches the pull request, and only as what it is. Every failure of a
    failed pack has an annotation, anchored at the pack's policy file; each annotation is one
    line, whatever line breaks, commas and colons the failure and the pack's name contain,
    as long as the path has no line break; and its text can neither end the title nor start
    another part of the command. *)
Theorem annotations_safe r : Forall (fun p => no_newline (anchor (ci_root r) (pr_target p)) = true) (ci_packs r) ->
  (forall p c f, p ∈ ci_packs r -> pack_ok p = false -> c ∈ pr_checks p -> f ∈ ck_failures c ->
     annotation (ci_root r) (pr_target p, c, f) ∈ github_annotations r) /\
  (forall a, a ∈ github_annotations r -> no_newline a = true /\ exists t title message,
     a = "::error file=" +:+ anchor (ci_root r) t +:+ ",title=" +:+ title +:+ "::" +:+ message /\
     forallb (fun x => negb (breaks x)) (chars title) = true /\ no_colons (chars title) = true /\
     forallb (fun x => negb (breaks x)) (chars message) = true /\ no_colons (chars message) = true).
Proof.
  rewrite Forall_forall. intros Hp. split.
  - intros p c f Hin Hbad Hc Hf. apply list_elem_of_fmap_2, in_ci_failures. by exists p.
  - intros a ([[t c] f] & -> & (p & Hin & _ & <- & _)%in_ci_failures)%list_elem_of_fmap.
    destruct (escape_command_safe ("policy " +:+ ck_name c +:+ ": " +:+ t_name (pr_target p))) as [T1 T2].
    destruct (escape_command_safe f) as [M1 M2]. specialize (Hp p Hin). split.
    + unfold annotation. rewrite !no_newline_app, Hp. unfold no_newline at 3. rewrite (breaks_no_newline _ T1).
      unfold no_newline at 4. by rewrite (breaks_no_newline _ M1).
    + eexists _, _, _. split; [reflexivity|done].
Qed.

(** * What a comment cannot leave out *)
Section Comment.
Context `{Regex} (svc : RedactionService) (yaml_load : string -> option val) (bfs hfs : FS).

(** Only a pack that both sides compile has rows, and such a pack is shown as changed. *)
Lemma diff_pack_rows name b h d : diff_pack svc yaml_load bfs hfs name b h = Ok d ->
  pd_changed d = [] \/ pd_state d = CHANGED /\ StronglySorted (fun c c' => change_leb c c' = true) (pd_changed d).
Proof.
  unfold diff_pack. intros ([be berr] & _ & ([he herr] & _ & Hd)%bind_ok)%bind_ok.
  assert (forall n s e g v d', diff_one_sided n s e g v = Ok d' -> pd_changed d' = []) as Hone
    by (unfold diff_one_sided; intros * (? & _ & [= <-])%bind_ok; done).
  destruct (_ || _); [injection Hd as <-; by left|].
  destruct (if truthy_str berr then None else be) as [eb|], he as [eh|];
    [|apply bind_ok in Hd as (? & _ & Hd); left; by eapply Hone..|injection Hd as <-; by left].
  apply bind_ok in Hd as (tools & _ & Hd). unfold diff_changed in Hd. apply bind_ok in Hd as (rows & _ & [= <-]). cbn.
  destruct (omap id rows) as [|c cs] eqn:Ho; [by left|]. right. split; [done|].
  apply isort_sorted; [apply change_leb_total|apply change_leb_trans].
Qed.

Lemma diff_roots_rows br hr packs p : diff_roots svc yaml_load bfs hfs br hr = Ok packs -> p ∈ packs ->
  pd_changed p = [] \/ pd_state p = CHANGED /\ StronglySorted (fun c c' => change_leb c c' = true) (pd_changed p).
Proof.
  unfold diff_roots. intros (bs & _ & (hs & _ & Hm)%bind_ok)%bind_ok Hp. apply map_res_ok in Hm.
  destruct (Forall2_elem _ _ _ Hm) as [_ Hb]. destruct (Hb p Hp) as (n & _ & Hd). by eapply diff_pack_rows.
Qed.
End Comment.

Lemma rd_sum_pos f d : 0 < rd_sum f d <-> exists p, p ∈ rd_packs d /\ 0 < f p.
Proof.
  unfold rd_sum. induction (rd_packs d) as [|p ps IH]; cbn; [split; [lia|]; by intros (? & ?%not_elem_of_nil & _)|].
  setoid_rewrite elem_of_cons. split.
  - intros Hs. destruct (f p) eqn:Hf; [apply IH in Hs as (q & Hq & ?); by exists q; auto|]. exists p. rewrite Hf. split; [auto|lia].
  - intros (q & [-> |Hq] & Hf); [lia|]. assert (0 < sum_list_with f ps) by (apply IH; eauto). lia.
Qed.

Lemma count_changed_pos f d : 0 < count_changed f d <-> exists c, c ∈ pd_changed d /\ f c = true.
Proof.
  unfold count_changed. split.
  - destruct (List.filter f (pd_changed d)) as [|c cs] eqn:Hf; cbn; [lia|]. intros _. exists c.
    rewrite list_elem_of_In, <- filter_In, Hf. by left.
  - intros (c & Hc & Hf). assert (In c (List.filter f (pd_changed d))) as Hin by (by rewrite filter_In, <- list_elem_of_In).
    destruct (List.filter f (pd_changed d)); [done|cbn; lia].
Qed.

Lemma elem_section d l p : p ∈ rd_packs d -> l ∈ pack_section p -> diff_clean (rd_packs d) = false -> l ∈ comment_lines d.
Proof.
  intros Hp Hl Hc. unfold comment_lines. rewrite Hc. rewrite !elem_of_app. right. right. right. left.
  apply elem_concat. eexists. split; [apply list_elem_of_fmap; by exists p|done].
Qed.

(** The comment on a pull request never plays a change down. If any decision of any pack
    was refused and would go through ungated, the comment opens with the caution that counts
    them all; if none does but some decision is looser, with the warning that counts those.
    Each such decision has its own row, marked as crossing, unless its pack has more rows than
    are shown; then the rows left out come after 40 rows at least as alarming. *)
Theorem comment_raises_alarm `{Regex} svc yaml_load bfs hfs br hr packs :
  diff_roots svc yaml_load bfs hfs br hr = Ok packs ->
  let d := {| rd_base := br; rd_head := hr; rd_packs := packs |} in
  (forall p c, p ∈ packs -> c ∈ pd_changed p -> crosses_deny_boundary c = true ->
     (exists n pre post, 0 < n /\ n = rd_sum newly_ungated d /\ comment_lines d = pre ++ caution n ++ post) /\
     (List.length (pd_changed p) <= MAX_ROWS -> change_row c ∈ comment_lines d /\ diff_icon c = "🚨")) /\
  (forall p c, p ∈ packs -> c ∈ pd_changed p -> cd_kind c = LOOSENED -> rd_sum newly_ungated d = 0 ->
     exists n pre post, 0 < n /\ n = rd_sum loosened d /\ comment_lines d = pre ++ warning n ++ post) /\
  (forall p c c', p ∈ packs -> c ∈ take MAX_ROWS (pd_changed p) -> c' ∈ drop MAX_ROWS (pd_changed p) ->
     change_leb c c' = true).
Proof.
  intros Hd d. assert (forall p c, p ∈ packs -> c ∈ pd_changed p -> pd_state p = CHANGED /\ diff_clean packs = false) as Hrows.
  { intros p c Hp Hc. destruct (diff_roots_rows _ _ _ _ _ _ _ _ Hd Hp) as [Hnil|[Hst _]]; [by rewrite Hnil in Hc; apply not_elem_of_nil in Hc|].
    split; [done|]. unfold diff_clean. destruct (touched packs) eqn:Ht; [|done]. exfalso.
    apply (not_elem_of_nil p). rewrite <- Ht. unfold touched. rewrite list_elem_of_In, filter_In, <- list_elem_of_In, Hst. done. }
  assert (forall al, diff_clean packs = false -> alert d = al -> exists pre post, comment_lines d = pre ++ al ++ post) as Hal.
  { intros al Hc <-. unfold comment_lines. cbn [rd_packs d]. rewrite Hc. eexists (_ :: _ :: _ :: _ :: _ :: []), _. reflexivity. }
  split_and!.
  - intros p c Hp Hc Hx. destruct (Hrows p c Hp Hc) as [Hst Hcl].
    assert (0 < rd_sum newly_ungated d) as Hpos by (apply rd_sum_pos; exists p; split; [done|apply count_changed_pos; by exists c]).
    split.
    + destruct (Hal (caution (rd_sum newly_ungated d)) Hcl) as (pre & post & He); [|by exists (rd_sum newly_ungated d), pre, post].
      unfold alert. by destruct (rd_sum newly_ungated d); [lia|].
    + intros Hlen. split; [|unfold diff_icon; by rewrite Hx]. apply (elem_section d _ p); [done| |done].
      unfold pack_section. rewrite Hst. destruct (pd_changed p) as [|c0 cs] eqn:Hch; [by apply not_elem_of_nil in Hc|].
      rewrite take_ge by done. rewrite !elem_of_app. right. right. left. by apply list_elem_of_fmap_2.
  - intros p c Hp Hc Hk H0. destruct (Hrows p c Hp Hc) as [Hst Hcl].
    assert (0 < rd_sum loosened d) as Hpos
      by (apply rd_sum_pos; exists p; split; [done|apply count_changed_pos; exists c; by rewrite bool_decide_eq_true]).
    destruct (Hal (warning (rd_sum loosened d)) Hcl) as (pre & post & He); [|by exists (rd_sum loosened d), pre, post].
    unfold alert. rewrite H0. by destruct (rd_sum loosened d); [lia|].
  - intros p c c' Hp Hc Hc'. destruct (diff_roots_rows _ _ _ _ _ _ _ _ Hd Hp) as [Hnil|[_ Hs]].
    + rewrite Hnil in Hc. by apply not_elem_of_nil in Hc.
    + rewrite <- (take_drop MAX_ROWS (pd_changed p)) in Hs. by apply (StronglySorted_app_1_elem_of (fun c c' => change_leb c c' = true) _ _ c c' Hs).
Qed.

(** * A pull request that opens two tools *)
#[local] Existing Instance literal_regex.
Definition request_docs (text : string) : option val :=
  if String.eqb text "strict" then Some (revision "block" "block") else Some (revision "block" "allow").
Definition request_checkout (text : string) : FS :=
  {| f_text := fun p => if String.eqb p "./policies/p.yaml" then Some text else None;
     f_children := fun d => if String.eqb d "./policies" then Some ["p.yaml"] else None |}.
Definition request_packs : list PackDiff := Eval vm_compute in
  the (diff_roots demo_service request_docs (request_checkout "strict") (request_checkout "open") "." ".") I.

Lemma comment_raises_alarm_witness :
  let d := {| rd_base := "."; rd_head := "."; rd_packs := request_packs |} in
  rd_sum newly_ungated d = 2 /\
  exists p c, p ∈ request_packs /\ c ∈ pd_changed p /\ crosses_deny_boundary c = true /\ change_row c ∈ comment_lines d.
Proof.
  split; [vm_compute; reflexivity|].
  destruct (comment_raises_alarm demo_service request_docs (request_checkout "strict") (request_checkout "open") "." "." request_packs)
    as (Hrow & _ & _); [vm_compute; reflexivity|].
  eexists _, _. split; [left|]. split; [left|]. split; [vm_compute; reflexivity|].
  refine (proj1 (proj2 (Hrow _ _ _ _ _) _)); [left|left|vm_compute; reflexivity|apply Nat.leb_le; vm_compute; reflexivity].
Defined.

(** * Observations *)

(** The annotation escapes the title and the message, not the path: a pack in a directory whose
    name holds a comma gives the command one more property. *)
Lemma annotation_path_unescaped :
  let t := {| t_name := "p"; t_kind := POLICY_FILE; t_path := "r/policies/a,line=1.yaml"; t_layers := ["r/policies/a,line=1.yaml"];
              t_tests := None; t_connector := None; t_error := None |} in
  startswith "::error file=policies/a,line=1.yaml,title=" (annotation "r" (t, failing "goldens" "" [], "f")) = true.
Proof. vm_compute. reflexivity. Qed.
