(* ===== verification/ConsoleApp.v ===== *)
(** The console's application: [console/app.py], the login, the read-only routes over the audit
    index, the backtest, and the live feed over the spool. The approval routes are in
    [Console]. FastAPI gives a route its parameters and bodies as typed values, asks for the
    user before the index, and answers 422 to a limit out of range; a value an answer cannot
    encode is outside the model. *)
From S2P Require Import Prelude PyVal Json Protocol Session Rules Loader Merge Engine Approvals Redaction Pipeline Spool Forwarder AuditIndex Backtest Connectors Reports Console.

(** * The live feed *)

(** What one pass over the spool sends; [KeepAlive] is the comment between passes. *)
Inductive feed_item := FeedEvent (rec : SpoolRecord) | KeepAlive.
Definition frame_lines (i : feed_item) : list string :=
  match i with
  | FeedEvent rec => ["id: " +:+ pretty (r_offset rec); "data: " +:+ json_dumps (VDict (r_event rec)); ""]
  | KeepAlive => [": keep-alive"; ""]
  end.
Definition sse_frame (i : feed_item) : string := String.concat "" ((fun l => l +:+ newline) <$> frame_lines i).

(** [read_spool] from a position that the client named: a negative one cannot be sought. *)
Definition read_from (file : option bytes) (pos : Z) : result (list SpoolRecord * Z) :=
  if (pos <? 0)%Z then match file with None => Ok ([], pos) | Some _ => raise OtherError "[Errno 22] Invalid argument" end
  else r ← read_spool file (Z.to_nat pos); Ok (records r, Z.of_nat (next_offset r)).

(** [after] is exclusive: the first pass reads the client's last event again and skips it. *)
Definition feed_pass (after : option Z) (first : bool) (file : option bytes) (pos : Z) : result (list SpoolRecord * Z) :=
  '(rs, next) ← read_from file pos;
  let known rec := first && match after with Some a => (Z.of_nat (r_offset rec) <=? a)%Z | None => false end in
  Ok (List.filter (fun rec => negb (known rec)) rs, next).

(** [_event_stream], for the spool as it is at each pass until the client is gone: what was
    sent, and the exception that ended it, if one did. *)
Fixpoint event_loop (after : option Z) (once first : bool) (pos : Z) (files : list (option bytes)) : list feed_item * option exn :=
  match files with
  | [] => ([], None)
  | file :: files =>
      match feed_pass after first file pos with
      | Err e => ([], Some e)
      | Ok (rs, pos) =>
          if once then (FeedEvent <$> rs, None)
          else let '(items, e) := event_loop after once false pos files in ((FeedEvent <$> rs) ++ KeepAlive :: items, e)
      end
  end.
Definition event_stream (after : option Z) (once : bool) (files : list (option bytes)) : list feed_item * option exn :=
  event_loop after once true (default 0%Z after) files.

(** [str.isdigit]: the superscripts are digits too. *)
Definition digit_char (a : ascii) : bool := is_digit a || bool_decide (nat_of_ascii a ∈ [178; 179; 185]).
Definition isdigit (s : string) : bool := nonempty s && forallb digit_char (chars s).

(** The cursor of a request: the query parameter, or the [Last-Event-ID] header. *)
Definition stream_cursor (last_event_id : option Z) (header : option string) : result (option Z) :=
  match last_event_id, header with
  | Some z, _ => Ok (Some z)
  | None, Some h =>
      if isdigit (lstrip_by (fun a => Ascii.eqb a "-") h) then z ← py_int (VStr h); Ok (Some z) else Ok None
  | None, None => Ok None
  end.

(** * The routes *)
Inductive request :=
  | Login (name password : string) | Logout | Me
  | ListSessions (limit : Z) | SessionDetail (sid : string) (limit : Z)
  | Events (sid event tool : option string) (after : option Z) (limit : Z) | Stats
  | Policy | Backtest_ (policy : option pydict) (deny_set : option (list string))
  | Stream (last_event_id : option Z) (header : option string) (once : bool).

Inductive reply :=
  | Refused (code : Z) | Answer (body : val) | LoggedIn (body : val) (cookie : string) | LoggedOut
  | Streaming (after : option Z) (once : bool)
  | ServerError (e : exn).

Section App.
Context `{Regex} (hmac : string -> string) (ttl : Z) (verify_password : string -> string -> bool).
Context (users : list (string * (User * string))) (policy_engine : option PolicyEngine).

Definition user_body (u : User) : val := VObj [("username", VStr (username u)); ("role", VStr (user_role u))].

(** [Query(default, ge=1, le=1000)] *)
Definition limited (limit : Z) (k : reply) : reply := if ((1 <=? limit) && (limit <=? 1000))%Z then k else Refused 422.

Definition events_answer (db : AuditIndex) (sid event tool : option string) (after : option Z) (limit : Z) : val :=
  let rows := match after with
              | Some z => if (z <? 0)%Z then [] else query_events db sid event tool (Some (Z.to_nat z)) limit false
              | None => query_events db sid event tool None limit false end in
  VObj [("events", VList (VDict <$> rows)); ("latest_offset", VInt (Z.of_nat (latest_offset db)))].

(** What a read route answers from the tables of the index; [None]: it does not read them. *)
Definition index_answer (db : AuditIndex) (rq : request) : option reply :=
  match rq with
  | ListSessions limit => Some (limited limit (Answer (VObj [("sessions", VList (list_sessions db limit))])))
  | SessionDetail sid limit =>
      Some (limited limit (match session_detail db sid limit with Some d => Answer d | None => Refused 404 end))
  | Events sid event tool after limit => Some (limited limit (Answer (events_answer db sid event tool after limit)))
  | Stats => Some (Answer (VObj [("counts_by_event", VObj ((fun kn => (kn.1, VInt kn.2)) <$> counts_by_event db))]))
  | _ => None
  end.

Definition backtest_route (file : option bytes) (policy : option pydict) (deny_set : option (list string)) : reply :=
  let engine :=
    match policy, policy_engine with
    | Some doc, _ => match from_documents [(VDict doc, "candidate")] with
                     | Ok e => inr e
                     | Err e => inl (if is_gateway_error e then Refused 400 else ServerError e) end
    | None, Some e => inr e
    | None, None => inl (Refused 400)
    end in
  match engine with
  | inl r => r
  | inr e => match backtest_policy file e (default registry_denying_actions deny_set) with
             | Ok report => Answer (backtest_to_dict report) | Err e => ServerError e end
  end.

(** A request with its cookie, on the spool as it is, over the index file. *)
Definition handle (cookie : option string) (now : Z) (file : option bytes) (rq : request) (db : AuditIndex) : reply * AuditIndex :=
  match rq with
  | Login name password =>
      (match authenticate_user verify_password users name password with
       | None => Refused 401
       | Some u => LoggedIn (user_body u) (mint hmac ttl u now) end, db)
  | Logout => (LoggedOut, db)
  | _ =>
      match current_user hmac cookie now with
      | Err e => (ServerError e, db)
      | Ok None => (Refused 401, db)
      | Ok (Some u) =>
          match index_answer db rq with
          | Some _ =>
              match catch_up file db with
              | Err e => (ServerError e, db)
              | Ok (db, _) => (default (Refused 500) (index_answer db rq), db)
              end
          | None =>
              (match rq with
               | Me => Answer (user_body u)
               | Policy => match policy_engine with Some e => Answer (describe e) | None => Refused 404 end
               | Backtest_ policy deny_set => backtest_route file policy deny_set
               | Stream last_event_id header once =>
                   match stream_cursor last_event_id header with Ok after => Streaming after once | Err e => ServerError e end
               | _ => Refused 500
               end, db)
          end
      end
  end.
End App.

(** * What a client of the feed sees *)
Definition feed_events (items : list feed_item) : list SpoolRecord :=
  omap (fun i => match i with FeedEvent r => Some r | KeepAlive => None end) items.
(** The states of a spool that is only appended to. *)
Fixpoint grows (c : bytes) (cs : list bytes) : Prop :=
  match cs with [] => True | c' :: cs => (exists more, c' = c ++ more) /\ grows c' cs end.
Definition newer (after : option Z) (rec : SpoolRecord) : bool :=
  match after with Some a => (a <? Z.of_nat (r_offset rec))%Z | None => true end.

Lemma feed_events_app l1 l2 : feed_events (l1 ++ l2) = feed_events l1 ++ feed_events l2.
Proof. apply omap_app. Qed.
Lemma feed_events_sent l : feed_events (FeedEvent <$> l) = l.
Proof. induction l as [|r l IH]; [done|]. cbn. by f_equal. Qed.
Lemma filter_all {A} (p : A -> bool) l : Forall (fun x => p x = true) l -> List.filter p l = l.
Proof. induction 1 as [|x l Hx _ IH]; [done|]. cbn. by rewrite Hx, IH. Qed.
Lemma filter_none {A} (p : A -> bool) l : Forall (fun x => p x = false) l -> List.filter p l = [].
Proof. induction 1 as [|x l Hx _ IH]; [done|]. cbn. by rewrite Hx, IH. Qed.

Lemma last_cons_default {A} (x d : A) l : List.last (x :: l) d = List.last l x.
Proof.
  revert x d. induction l as [|y l IH]; intros x d; [done|]. change (List.last (y :: l) d = List.last (y :: l) x). by rewrite !IH.
Qed.

Lemma grows_readable c cs all : grows c cs -> all_records (List.last cs c) = Ok all -> exists rs rest, all_records c = Ok rs /\ all = rs ++ rest.
Proof.
  revert c. induction cs as [|c' cs IH]; intros c; cbn [grows]; [intros _ Ha; exists all, []; by rewrite app_nil_r|].
  intros [[more ->] Hg] Ha. rewrite last_cons_default in Ha. destruct (IH _ Hg Ha) as (rs & rest & Hrs & ->). destruct (all_records_prefix _ _ _ Hrs) as (rs0 & rest0 & H0 & ->).
  exists rs0, (rest0 ++ rest). by rewrite (assoc_L (++)).
Qed.

Lemma read_from_resume c pos rs all : resume_point c pos rs -> all_records c = Ok all ->
  exists new next, all = rs ++ new /\ read_from (Some c) (Z.of_nat pos) = Ok (new, Z.of_nat next) /\ resume_point c next all.
Proof.
  intros Hp Ha. destruct (resume_reads _ _ _ _ Hp Ha) as (r & Hr & ->). exists (records r), (next_offset r). split; [done|].
  unfold read_from. destruct (Z.ltb_spec (Z.of_nat pos) 0); [lia|]. rewrite Nat2Z.id, Hr. split; [done|].
  destruct (read_resume _ _ _ _ Hp Hr) as [_ Hk]. specialize (Hk _ (le_n _)). rewrite take_ge in Hk by done.
  by rewrite (next_offset_last_end _ _ _ Hr).
Qed.

(** Later passes send what the spool gained. *)
Lemma later_passes after c cs pos rs all : resume_point c pos rs -> all_records c = Ok rs -> grows c cs ->
  all_records (List.last cs c) = Ok all ->
  exists items, event_loop after false false (Z.of_nat pos) (Some <$> cs) = (items, None) /\ all = rs ++ feed_events items.
Proof.
  revert c pos rs. induction cs as [|c' cs IH]; intros c pos rs Hp Hrs; cbn [grows fmap list_fmap event_loop].
  - intros _ Ha. exists []. split; [done|]. change (all_records c = Ok all) in Ha. cbn. rewrite app_nil_r. congruence.
  - intros [[more ->] Hg] Ha. rewrite last_cons_default in Ha. destruct (grows_readable _ _ _ Hg Ha) as (all' & rest & Hall' & _).
    destruct (read_from_resume _ _ _ _ (resume_point_app _ more _ _ Hp) Hall') as (new & next & -> & Hread & Hp').
    unfold feed_pass. rewrite Hread. cbn [mbind result_bind andb negb]. rewrite (filter_all _ new) by by apply Forall_true.
    destruct (IH _ _ _ Hp' Hall' Hg Ha) as (items & -> & ->). eexists. split; [done|].
    rewrite feed_events_app, feed_events_sent. by rewrite (assoc_L (++)).
Qed.

Lemma newer_split after rs1 r rs2 : after = Some (Z.of_nat (r_offset r)) ->
  StronglySorted (fun r r' => r_offset r < r_offset r') (rs1 ++ r :: rs2) ->
  List.filter (newer after) (rs1 ++ r :: rs2) = rs2 /\ Forall (fun x => newer after x = true) rs2.
Proof.
  intros -> Hs. apply StronglySorted_app in Hs as (H12 & _ & Hs). apply StronglySorted_inv in Hs as [_ Hr].
  assert (Forall (fun x => newer (Some (Z.of_nat (r_offset r))) x = true) rs2) as Hnew
    by (eapply Forall_impl; [exact Hr|]; cbn; intros x Hx; apply Z.ltb_lt; lia).
  split; [|done]. rewrite List.filter_app. rewrite (filter_none _ rs1).
  - cbn [app List.filter newer]. rewrite Z.ltb_irrefl. by apply filter_all.
  - apply Forall_forall. intros x Hx. cbn. apply Z.ltb_ge. specialize (H12 x r Hx ltac:(left)). lia.
Qed.

(** The first pass sends what the spool holds and the client does not. *)
Lemma first_pass after c all : all_records c = Ok all ->
  (after = None \/ exists c0 more rs1 r rs2, c = c0 ++ more /\ all_records c0 = Ok (rs1 ++ r :: rs2) /\ after = Some (Z.of_nat (r_offset r))) ->
  exists next, feed_pass after true (Some c) (default 0%Z after) = Ok (List.filter (newer after) all, Z.of_nat next) /\
    resume_point c next all /\ forall rest, StronglySorted (fun r r' => r_offset r < r_offset r') (all ++ rest) ->
      List.filter (newer after) rest = rest.
Proof.
  intros Hall [->|(c0 & more & rs1 & r & rs2 & -> & H0 & ->)].
  - destruct (read_from_resume _ _ _ _ (resume_point_0 c) Hall) as (new & next & -> & Hread & Hp). exists next.
    unfold feed_pass. cbn [default]. change 0%Z with (Z.of_nat 0). rewrite Hread. cbn [mbind result_bind andb negb app].
    split; [|split; [done|]]; [|intros rest _]; rewrite !filter_all; try done; by apply Forall_true.
  - pose proof (resume_point_app _ more _ _ (resume_at_record _ _ _ _ H0)) as Hp.
    destruct (all_records_prefix _ _ _ Hall) as (rs0 & rest & Hrs0 & ->). rewrite H0 in Hrs0. injection Hrs0 as <-.
    destruct (read_from_resume _ _ _ _ Hp Hall) as (new & next & He & Hread & Hp'). rewrite <- (assoc_L (++)) in He.
    apply app_inv_head in He. cbn [app] in He. subst new. exists next. unfold feed_pass. cbn [from_option id]. rewrite Hread.
    cbn [mbind result_bind]. pose proof (all_records_sorted _ _ Hall) as Hs. rewrite <- (assoc_L (++)) in Hs |- *. cbn [app] in Hs |- *.
    destruct (newer_split _ rs1 r (rs2 ++ rest) eq_refl Hs) as [Hf Hnew]. split; [|split].
    + f_equal. f_equal. rewrite Hf. cbn [List.filter andb negb]. rewrite Z.leb_refl. cbn [negb].
      apply filter_all. eapply Forall_impl; [exact Hnew|]. cbn. intros x Hx. apply negb_true_iff, Z.leb_gt. by apply Z.ltb_lt in Hx.
    + by rewrite <- (assoc_L (++)) in Hp'.
    + intros rest' Hs'. rewrite <- (assoc_L (++)) in Hs'. cbn [app] in Hs'.
      destruct (newer_split _ rs1 r ((rs2 ++ rest) ++ rest') eq_refl Hs') as [_ Hn]. apply Forall_app in Hn as [_ Hn]. by apply filter_all.
Qed.

(** C23: The live feed loses nothing and repeats nothing. A client that starts afresh, or resumes
    with the id of any event it was ever sent, receives over the passes that follow exactly
    the events of the spool after that id, each once and in order, however the spool grew in
    between and wherever a line was torn; the stream does not fail; a one-shot request gets
    those of the moment; and no event can forge the frame of another, as every line of a
    frame is one line. *)
Theorem feed_exactly_once after c cs all :
  (after = None \/ exists c0 more rs1 r rs2, c = c0 ++ more /\ all_records c0 = Ok (rs1 ++ r :: rs2) /\ after = Some (Z.of_nat (r_offset r))) ->
  grows c cs -> all_records (List.last cs c) = Ok all ->
  (exists items, event_stream after false (Some <$> c :: cs) = (items, None) /\ feed_events items = List.filter (newer after) all /\
     Forall (fun i => Forall (fun l => no_newline l = true) (frame_lines i)) items) /\
  (exists now, all_records c = Ok now /\ event_stream after true (Some <$> c :: cs) = (FeedEvent <$> List.filter (newer after) now, None)).
Proof.
  intros Hafter Hg Hall. destruct (grows_readable _ _ _ Hg Hall) as (now & _ & Hnow & _).
  destruct (first_pass _ _ _ Hnow Hafter) as (next & Hpass & Hp & Hrest).
  destruct (later_passes after _ _ _ _ _ Hp Hnow Hg Hall) as (items & Hitems & ->).
  unfold event_stream. cbn [fmap list_fmap event_loop]. rewrite Hpass. split; [|by exists now].
  rewrite Hitems. eexists. split; [done|]. split.
  - rewrite feed_events_app, feed_events_sent, List.filter_app. cbn [feed_events omap list_omap]. f_equal.
    symmetry. eapply Hrest, all_records_sorted. exact Hall.
  - apply Forall_forall. intros [rec|] _; cbn [frame_lines]; repeat apply Forall_cons_2; try done.
    + rewrite no_newline_app. by apply pretty_N_no_newline.
    + rewrite no_newline_app, dumps_no_newline. done.
Qed.

Lemma feed_exactly_once_witness :
  let now := torn_spool ++ torn_rest in
  feed_events (event_stream (Some 0%Z) false (Some <$> [torn_spool; now; now])).1 =
    List.filter (newer (Some 0%Z)) (the (all_records now) I) /\
  r_event <$> List.filter (newer (Some 0%Z)) (the (all_records now) I) = [demo_event "b"].
Proof.
  split; [|vm_compute; reflexivity].
  destruct (feed_exactly_once (Some 0%Z) torn_spool [torn_spool ++ torn_rest; torn_spool ++ torn_rest]
    (the (all_records (torn_spool ++ torn_rest)) I)) as [(items & -> & <- & _) _].
  - right. exists torn_spool, [], [], {| r_offset := 0; r_end := List.length (spool_emit [] (demo_event "a")); r_event := demo_event "a" |}, [].
    split; [by rewrite app_nil_r|]. split; vm_compute; reflexivity.
  - split; [by exists torn_rest|]. split; [|done]. exists []. by rewrite app_nil_r.
  - vm_compute. reflexivity.
  - reflexivity.
Defined.

(** * What the routes answer *)
Section Answers.
Context `{Regex} (hmac : string -> string) (ttl : Z) (verify_password : string -> string -> bool).
Context (users : list (string * (User * string))) (policy_engine : option PolicyEngine).

(** A request as it arrives: its cookie, the time, and the spool of that moment. *)
Record arrival := { a_cookie : option string; a_now : Z; a_file : option bytes; a_request : request }.
Definition answer (a : arrival) (db : AuditIndex) : reply * AuditIndex :=
  handle hmac ttl verify_password users policy_engine (a_cookie a) (a_now a) (a_file a) (a_request a) db.

(** The requests, one after the other, over the one index file. *)
Fixpoint serve (l : list arrival) (db : AuditIndex) : list reply * AuditIndex :=
  match l with
  | [] => ([], db)
  | a :: l => let '(r, db) := answer a db in let '(rs, db) := serve l db in (r :: rs, db)
  end.

(** The spool only grows from one arrival to the next. *)
Fixpoint spool_grows (c : bytes) (l : list arrival) : Prop :=
  match l with [] => True | a :: l => (exists more, contents (a_file a) = c ++ more) /\ spool_grows (contents (a_file a)) l end.

(** The console that keeps no index: what it reads, it derives from the spool. *)
Definition stateless (a : arrival) : reply :=
  match a_request a, current_user hmac (a_cookie a) (a_now a) with
  | Login _ _, _ | Logout, _ | _, Err _ => (answer a index_empty).1
  | _, Ok None => Refused 401
  | rq, Ok (Some _) =>
      match index_answer index_empty rq, rebuilt (a_file a) with
      | None, _ => (answer a index_empty).1
      | Some _, Err e => ServerError e
      | Some _, Ok db => default (Refused 500) (index_answer db rq)
      end
  end.

Lemma index_answer_reads db db' rq : is_Some (index_answer db rq) -> is_Some (index_answer db' rq).
Proof. destruct rq; cbn; try done; intros [? ?]; done. Qed.

Lemma answer_derived a db : derived (contents (a_file a)) db ->
  (answer a db).1 = stateless a /\ derived (contents (a_file a)) (answer a db).2.
Proof.
  intros Hd. pose proof (catch_up_derived _ _ Hd) as Hc.
  assert (forall db', catch_up (a_file a) db = Ok db' -> derived (contents (a_file a)) db'.1) as Hd'.
  { intros [db' rep] Hcu. rewrite Hcu in Hc. by apply derived_rebuilt. }
  unfold stateless, answer, handle. destruct (a_request a) eqn:Hrq; cbn [index_answer];
    destruct (current_user hmac (a_cookie a) (a_now a)) as [[u|]|e]; cbn [fst snd]; try done;
    destruct (catch_up (a_file a) db) as [[db' rep]|e]; cbn in Hc; rewrite <- ?Hc; cbn; (split; [done|]); try done; by apply (Hd' (db', rep)).
Qed.

Lemma serve_derived l c db : derived c db -> spool_grows c l -> (serve l db).1 = stateless <$> l.
Proof.
  revert c db. induction l as [|a l IH]; intros c db Hd; [done|]. cbn [spool_grows serve].
  intros [[more Hmore] Hg]. apply (derived_app _ more) in Hd. rewrite <- Hmore in Hd.
  destruct (answer_derived a db Hd) as [Hr Hd2]. destruct (answer a db) as [r db']. cbn in Hr, Hd2.
  specialize (IH _ _ Hd2 Hg). destruct (serve l db') as [rs db'']. cbn in IH |- *. by rewrite Hr, IH.
Qed.

Definition discloses (r : reply) : bool := match r with Answer _ | Streaming _ _ => true | _ => false end.

(** C22: The index is a cache that no client can observe. However the requests of the console's
    clients interleave with the growth of the spool, and with whatever the index file already
    holds of it, each is answered as by a console that keeps no index and derives what it
    answers from the spool of that moment, errors included; and nothing but a refusal, a
    failure, or the outcome of a login is answered without the cookie of a user. *)
Theorem console_reads_spool c db l : derived c db -> spool_grows c l ->
  (serve l db).1 = stateless <$> l /\
  Forall (fun a => discloses (stateless a) = true -> exists u, current_user hmac (a_cookie a) (a_now a) = Ok (Some u)) l.
Proof.
  intros Hd Hg. split; [by eapply serve_derived|]. apply Forall_forall. intros a _. unfold stateless, answer, handle.
  destruct (current_user hmac (a_cookie a) (a_now a)) as [[u|]|e]; [by exists u|..]; destruct (a_request a); cbn; try done;
    by destruct (authenticate_user verify_password users name password).
Qed.
End Answers.

Definition demo_ask (file : bytes) (rq : request) : arrival :=
  {| a_cookie := Some demo_cookie; a_now := 2000; a_file := Some file; a_request := rq |}.
Definition demo_clients : list arrival :=
  [demo_ask (take 90 demo_spool) Stats; {| a_cookie := None; a_now := 2000; a_file := Some demo_spool; a_request := Stats |};
   demo_ask demo_spool Stats; demo_ask demo_spool (ListSessions 0)].
Definition demo_console_app (a : arrival) : reply := stateless (H := literal_regex) demo_hmac 3600 (fun _ _ => false) [] None a.
Definition demo_counts (l : list (string * Z)) : reply :=
  Answer (VObj [("counts_by_event", VObj ((fun kn => (kn.1, VInt kn.2)) <$> l))]).

Lemma console_reads_spool_witness :
  (serve (H := literal_regex) demo_hmac 3600 (fun _ _ => false) [] None demo_clients index_empty).1 =
    demo_console_app <$> demo_clients /\
  demo_console_app <$> demo_clients =
    [demo_counts [("tool_call_allowed", 1%Z)]; Refused 401;
     demo_counts [("tool_call_allowed", 1%Z); ("session_suspended", 1%Z)]; Refused 422].
Proof.
  split; [|vm_compute; reflexivity]. apply (console_reads_spool (H := literal_regex) demo_hmac 3600 (fun _ _ => false) [] None [] index_empty demo_clients).
  - exists [], []. split; vm_compute; reflexivity.
  - split; [by exists (take 90 demo_spool)|]. split; [exists (drop 90 demo_spool); vm_compute; reflexivity|].
    split; [exists []; vm_compute; reflexivity|]. split; [exists []; vm_compute; reflexivity|done].
Defined.

(** * Observations *)

(** The test of the [Last-Event-ID] header lets through what [int] then refuses. *)
Lemma resume_header_crashes :
  stream_cursor None (Some "--5") = raise ValueError "invalid literal for int() with base 10: '--5'" /\
  stream_cursor None (Some "-5") = Ok (Some (-5)%Z) /\ stream_cursor None (Some "e5") = Ok None.
Proof. vm_compute. repeat split. Qed.

(** A negative cursor is a position that no file has: the stream ends before its first event. *)
Lemma negative_cursor_ends_stream :
  event_stream (Some (-5)%Z) false [None; Some torn_spool] = ([KeepAlive], Some (Exn OtherError "[Errno 22] Invalid argument")).
Proof. vm_compute. reflexivity. Qed.

(** A cursor on the events, newest first, asks for those before it. *)
Lemma events_cursor_goes_back :
  events_answer demo_index None None None (Some 0%Z) 100 =
    VObj [("events", VList []); ("latest_offset", VInt (Z.of_nat (latest_offset demo_index)))].
Proof. vm_compute. reflexivity. Qed.
