(* ===== verification/HttpStream.v ===== *)
(** The event streams of the Streamable HTTP transport and the end of its sessions:
    [sse_events], [close], [terminate] and [shutdown_all] of
    [transports/streamable_http.py], over the machine of [Http]. A GET that is answered with a
    stream starts a reader; a reader looks at the session's flag, then waits at its queue for
    a line or for fifteen seconds. A session that was removed lives on for its readers.
    Closing is one step: the upstream is given by its exit code, and a call of the session that was
    cut short is not resumed. *)
From S2P Require Import Prelude PyVal Json Session Rules Engine Redaction Approvals Protocol Pipeline Gateway GatewayProofs Identity Http.

(** * Readers *)
Inductive phase := Looking | Waiting | Ended.
Inductive frame := Message (line : string) | KeepAlive.
Definition frame_text (f : frame) : string :=
  match f with Message line => "data: " +:+ line | KeepAlive => ": keep-alive" end +:+ newline +:+ newline.

Record Reader := { rd_session : string; rd_phase : phase }.

Record Service := {
  sv_hub : Hub;
  sv_gone : list (string * HSession);          (* removed sessions *)
  sv_readers : list (nat * Reader);            (* by the GET that opened them *)
  sv_out : list (nat * (string * frame));      (* what was streamed: to whom, of which session *)
}.
Definition service_empty : Service := {| sv_hub := hub_empty; sv_gone := []; sv_readers := []; sv_out := [] |}.

Definition session_of (sid : string) (sv : Service) : option HSession :=
  match aget sid (sessions (sv_hub sv)) with Some s => Some s | None => aget sid (sv_gone sv) end.

Definition set_queue (q : list string) (s : HSession) : HSession :=
  {| hs_gateway := hs_gateway s; hs_world := hs_world s; hs_pending := hs_pending s; hs_sse := q; hs_closed := hs_closed s |}.
(** The queue belongs to the session object, removed or not. *)
Definition requeue (sid : string) (q : list string) (sv : Service) : Service :=
  match aget sid (sessions (sv_hub sv)), aget sid (sv_gone sv) with
  | Some s, _ => {| sv_hub := set_sessions (aset sid (set_queue q s) (sessions (sv_hub sv))) (sv_hub sv);
                    sv_gone := sv_gone sv; sv_readers := sv_readers sv; sv_out := sv_out sv |}
  | None, Some s => {| sv_hub := sv_hub sv; sv_gone := aset sid (set_queue q s) (sv_gone sv);
                       sv_readers := sv_readers sv; sv_out := sv_out sv |}
  | None, None => sv
  end.
Definition set_reader (rid : nat) (r : Reader) (sv : Service) : Service :=
  {| sv_hub := sv_hub sv; sv_gone := sv_gone sv; sv_readers := aset rid r (sv_readers sv); sv_out := sv_out sv |}.
Definition stream (rid : nat) (sid : string) (f : frame) (sv : Service) : Service :=
  {| sv_hub := sv_hub sv; sv_gone := sv_gone sv; sv_readers := sv_readers sv; sv_out := sv_out sv ++ [(rid, (sid, f))] |}.

(** A turn of a reader: look at the flag, take a line, or give up waiting. *)
Inductive turn := Look | Take | TimeOut | Leave.
Definition reader_turn (rid : nat) (t : turn) (sv : Service) : Service :=
  match aget rid (sv_readers sv) with
  | None => sv
  | Some r =>
      let sid := rd_session r in
      let become p := set_reader rid {| rd_session := sid; rd_phase := p |} in
      match session_of sid sv with
      | None => sv
      | Some s =>
          match t, rd_phase r, hs_sse s with
          | Leave, _, _ => become Ended sv
          | Look, Looking, _ => become (if hs_closed s then Ended else Waiting) sv
          | Take, Waiting, line :: q => become Looking (stream rid sid (Message line) (requeue sid q sv))
          | TimeOut, Waiting, [] => become Looking (stream rid sid KeepAlive sv)
          | _, _, _ => sv
          end
      end
  end.

(** * The end of a session *)

(** [_Session.close]: the futures are gone, the upstream is down, and the gateway records both. *)
Definition close_session (rc : option Z) (s : HSession) : HSession :=
  {| hs_gateway := hs_gateway s; hs_world := ((_ ← on_upstream_exit rc; on_stop) (hs_world s)).2;
     hs_pending := []; hs_sse := hs_sse s; hs_closed := true |}.
Definition cancelled (s : HSession) : list (nat * http_response) := (fun kr => (kr.2, Cancelled)) <$> hs_pending s.

Inductive happening :=
  | Arrives (e : http_event)
  | Reads (rid : nat) (t : turn)
  | ShutdownAll.

Section Service.
Context `{Regex}.
Context (parts : string -> result (SecurityGateway * World)) (fresh : nat -> string) (command : list string).
Context (resolver : option (nat -> option string -> result Principal)).
(** What the upstream of a session exits with when it is shut down. *)
Context (exit_code : string -> option Z).

Definition shutdown_all (sv : Service) : Service :=
  let ss := sessions (sv_hub sv) in
  {| sv_hub := hub_answer (concat ((fun ks => cancelled ks.2) <$> ss)) (set_sessions [] (sv_hub sv));
     sv_gone := ((fun ks => (ks.1, close_session (exit_code ks.1) ks.2)) <$> ss) ++ sv_gone sv;
     sv_readers := sv_readers sv; sv_out := sv_out sv |}.

(** The hub takes a request; a GET may start a reader, a DELETE removes a session. *)
Definition arrives (e : http_event) (sv : Service) : Service :=
  let h := sv_hub sv in
  let sv' := {| sv_hub := hub_step parts fresh command resolver h e; sv_gone := sv_gone sv;
                sv_readers := sv_readers sv; sv_out := sv_out sv |} in
  match e with
  | Get rid rq =>
      match find_session resolver rid rq h (RpcError 404 VNone (-32001)) with
      | inr (sid, _) => set_reader rid {| rd_session := sid; rd_phase := Looking |} sv'
      | inl _ => sv'
      end
  | Delete rid rq =>
      match find_session resolver rid rq h NotFound with
      | inr (sid, s) => {| sv_hub := sv_hub sv'; sv_gone := (sid, close_session (exit_code sid) s) :: sv_gone sv;
                           sv_readers := sv_readers sv; sv_out := sv_out sv |}
      | inl _ => sv'
      end
  | _ => sv'
  end.

Definition service_step (sv : Service) (x : happening) : Service :=
  match x with
  | Arrives e => arrives e sv
  | Reads rid t => reader_turn rid t sv
  | ShutdownAll => shutdown_all sv
  end.
Definition service_run : list happening -> Service := fun l => fold_left service_step l service_empty.
End Service.

Lemma service_run_snoc `{Regex} parts fresh command resolver exit_code hs x :
  service_run parts fresh command resolver exit_code (hs ++ [x]) =
  service_step parts fresh command resolver exit_code (service_run parts fresh command resolver exit_code hs) x.
Proof. unfold service_run. by rewrite fold_left_app. Qed.

(** * What a session sends its client *)
Definition client_lines (l : list event) : list string := omap (fun e => match e with ToClient line => Some line | _ => None end) l.
(** A line that no POST can wait for. *)
Definition server_initiated (line : string) : bool :=
  match decode_line line with Ok (Some raw) => negb (is_response raw) | _ => true end.
(** In order and each once: nothing but what was sent, and nothing initiated by the server left out. *)
Definition carries (ls sent : list string) : Prop :=
  ls `sublist_of` sent /\ List.filter server_initiated sent `sublist_of` ls.

Lemma client_lines_app l1 l2 : client_lines (l1 ++ l2) = client_lines l1 ++ client_lines l2.
Proof. apply omap_app. Qed.
Lemma carries_nil : carries [] [].
Proof. by split. Qed.
Lemma carries_app l1 l2 s1 s2 : carries l1 s1 -> carries l2 s2 -> carries (l1 ++ l2) (s1 ++ s2).
Proof. intros [H1 H2] [H3 H4]. split; [by apply sublist_app|]. rewrite List.filter_app. by apply sublist_app. Qed.

(** What a step makes of a session: it adds to the trace and to the queue, and never reopens. *)
Record flow (s s' : HSession) : Prop := {
  fl_gateway : hs_gateway s' = hs_gateway s;
  fl_closed : hs_closed s = true -> hs_closed s' = true;
  fl_lines : exists evs new, trace (hs_world s') = trace (hs_world s) ++ evs /\ hs_sse s' = hs_sse s ++ new /\
    carries new (client_lines evs);
}.

Lemma flow_frame s s' : hs_gateway s' = hs_gateway s -> (hs_closed s = true -> hs_closed s' = true) ->
  trace (hs_world s') = trace (hs_world s) -> hs_sse s' = hs_sse s -> flow s s'.
Proof. intros Hg Hc Ht Hq. split; [done..|]. exists [], []. rewrite !app_nil_r. split_and!; [done..|apply carries_nil]. Qed.

#[export] Instance flow_preorder : PreOrder flow.
Proof.
  split; [intros s; by apply flow_frame|].
  intros s1 s2 s3 [G1 L1 (e1 & n1 & T1 & Q1 & C1)] [G2 L2 (e2 & n2 & T2 & Q2 & C2)]. split; [congruence|auto|].
  exists (e1 ++ e2), (n1 ++ n2). rewrite T2, Q2, T1, Q1, client_lines_app, !(assoc_L (++)). split_and!; [done..|by apply carries_app].
Qed.

Lemma flow_carries ls s s' : flow s s' -> carries (ls ++ hs_sse s) (client_lines (trace (hs_world s))) ->
  carries (ls ++ hs_sse s') (client_lines (trace (hs_world s'))).
Proof.
  intros [_ _ (evs & new & -> & -> & Hn)] Hc. rewrite client_lines_app, (assoc_L (++)). by apply carries_app.
Qed.

Lemma send_client_carries line s : hs_world (send_client_http line s).2 = hs_world s /\
  hs_closed (send_client_http line s).2 = hs_closed s /\
  exists new, hs_sse (send_client_http line s).2 = hs_sse s ++ new /\ carries new [line].
Proof.
  assert (carries [line] [line]) as Hone by (split; [done|]; cbn; case_match; [done|apply sublist_nil_l]).
  unfold send_client_http. destruct (decode_line line) as [[raw|]|] eqn:Hd; try by (split; [done|]; split; [done|]; exists [line]).
  destruct (is_response raw) eqn:Hr; [|by split; [|split; [|exists [line]]]].
  destruct (vget _ _); [|by split; [|split; [|exists [line]]]]. split; [done|]. split; [done|]. exists []. rewrite app_nil_r. split; [done|].
  split; [apply sublist_nil_l|]. unfold server_initiated. cbn. by rewrite Hd, Hr.
Qed.

Lemma deliver_carries evs s : hs_world (deliver evs s).2 = hs_world s /\ hs_closed (deliver evs s).2 = hs_closed s /\
  exists new, hs_sse (deliver evs s).2 = hs_sse s ++ new /\ carries new (client_lines evs).
Proof.
  revert s. induction evs as [|[n fs|l|l|x] evs IH]; intros s; cbn [deliver]; [|by apply IH| |by apply IH..].
  - split; [done|]. split; [done|]. exists []. rewrite app_nil_r. split; [done|apply carries_nil].
  - destruct (send_client_carries l s) as (Hw1 & Hl1 & n1 & Hq1 & Hc1). destruct (send_client_http l s) as [rs s1]. cbn in Hw1, Hl1, Hq1.
    destruct (IH s1) as (Hw2 & Hl2 & n2 & Hq2 & Hc2). destruct (deliver evs s1) as [rs' s2]. cbn in Hw2, Hl2, Hq2 |- *.
    split; [congruence|]. split; [congruence|].
    exists (n1 ++ n2). rewrite Hq2, Hq1, (assoc_L (++)). split; [done|]. by apply (carries_app n1 n2 [l]).
Qed.

Lemma drive_flow m s : keeps grows (m (hs_gateway s)) -> flow s (drive m s).2.2.
Proof.
  intros Hk. pose proof (drive_gateway m s) as Hg. unfold drive in *. specialize (Hk (hs_world s)).
  destruct (m (hs_gateway s) (hs_world s)) as [r w']. cbn in Hk, Hg |- *. destruct (gr_trace _ _ Hk) as [evs He].
  rewrite He, drop_app_length in *. destruct (deliver_carries evs (set_world w' s)) as (Hw & Hl & new & Hq & Hc).
  split; [done|by rewrite Hl|]. exists evs, new. by rewrite Hw, Hq.
Qed.

(** ** Steps of the hub *)
Definition flows (h h' : Hub) : Prop := forall sid, option_Forall2 flow (aget sid (sessions h)) (aget sid (sessions h')).

Lemma flows_same h h' : sessions h' = sessions h -> flows h h'.
Proof. intros Heq sid. by rewrite Heq. Qed.
Lemma flows_aset sid s s' h h' : aget sid (sessions h) = Some s -> flow s s' -> sessions h' = aset sid s' (sessions h) -> flows h h'.
Proof. intros Hs Hf Heq sid'. rewrite Heq, aget_aset. case_decide; [subst; rewrite Hs; by constructor|done]. Qed.

Section Flows.
Context `{Regex} (parts : string -> result (SecurityGateway * World)) (fresh : nat -> string) (command : list string).
Context (resolver : option (nat -> option string -> result Principal)).
Notation step := (hub_step parts fresh command resolver).

Lemma client_line_flow s raw p : flow s (drive (fun g => on_client_line g (encode_msg raw)) (hs_set_pending p s)).2.2.
Proof.
  transitivity (hs_set_pending p s); [by apply flow_frame|]. apply drive_flow, client_line_grows.
Qed.

Lemma handle_request_flows rid sid raw id h : flows h (handle_request rid sid raw id h) /\ minted (handle_request rid sid raw id h) = minted h.
Proof.
  unfold handle_request. destruct (aget sid (sessions h)) as [s|] eqn:Hs; [|by split; [apply flows_same|]].
  destruct (hashable id); [|by split; [apply flows_same|]].
  pose proof (client_line_flow s raw (vset id rid (hs_pending s))) as Hf. destruct (drive _ _) as [r [rs s']].
  destruct r; (split; [by eapply flows_aset|done]).
Qed.

Lemma handle_notification_flows rid sid raw h : flows h (handle_notification rid sid raw h) /\ minted (handle_notification rid sid raw h) = minted h.
Proof.
  unfold handle_notification. destruct (aget sid (sessions h)) as [s|] eqn:Hs; [|by split; [apply flows_same|]].
  pose proof (drive_flow (fun g => on_client_line g (encode_msg raw)) s (client_line_grows _ _)) as Hf. destruct (drive _ _) as [r [rs s']].
  split; [by eapply flows_aset|done].
Qed.

(** A step lets the live sessions flow, after creating at most one. *)
Definition flows_or_born (h h' : Hub) : Prop :=
  (flows h h' /\ minted h' = minted h) \/ exists a, flows (create parts fresh command a h).2 h' /\ minted h' = S (minted h).

Lemma post_flows rid rq h : flows_or_born h (step h (Post rid rq)).
Proof.
  assert (forall rs, flows_or_born h (hub_answer rs h)) as Hquiet by (intros rs; left; split; [by apply flows_same|done]).
  cbn. unfold handle_post. destruct (json_loads (rq_body rq)) as [[]|]; try done.
  destruct (decode_line (encode_msg d)) as [[msg|]|]; try done.
  assert (forall a, flows_or_born h (match create parts fresh command a h with
    | (Some sid, h) => handle_request rid sid d (msg_id msg) h | (None, h) => hub_answer [(rid, ServerError)] h end)) as Hborn.
  { intros a. right. exists a. destruct (create_sessions parts fresh command a h) as [Hm _].
    destruct (create parts fresh command a h) as [[sid|] h1]; cbn in Hm |- *; [|by split; [apply flows_same|]].
    destruct (handle_request_flows rid sid d (msg_id msg) h1) as [Hf ->]. done. }
  assert (forall sid, flows_or_born h (if is_request msg then handle_request rid sid d (msg_id msg) h else handle_notification rid sid d h)) as Hlive.
  { intros sid. left. destruct (is_request msg); [apply handle_request_flows|apply handle_notification_flows]. }
  destruct (authenticate resolver rid rq (msg_id msg)); [..|done];
    (destruct (rq_session rq) as [sid|];
      [destruct (aget sid (sessions h)) as [s|]; [|done]; destruct (owns s _); [apply Hlive|done]|case_bool_decide; [apply Hborn|done]]).
Qed.

Lemma step_flows e h : (forall rid rq, e <> Delete rid rq) -> flows_or_born h (step h e).
Proof.
  intros Hn. destruct e as [rid rq|rid rq|rid rq|sid line|rid|sid rc]; [apply post_flows|left; by split; [apply flows_same|]|..]; left; cbn.
  - by destruct (Hn rid rq).
  - unfold upstream_says. destruct (aget sid (sessions h)) as [s|] eqn:Hs; [|by split; [apply flows_same|]].
    pose proof (drive_flow (fun g => on_upstream_line g line) s (upstream_line_grows _ _)) as Hf. destruct (drive _ _) as [r [rs s']].
    split; [by eapply flows_aset|done].
  - unfold deadline. destruct (ahas rid (answers h)); [by split; [apply flows_same|]|].
    destruct (aget rid (waiting h)) as [[sid id]|]; [|by split; [apply flows_same|]]. cbn.
    destruct (aget sid (sessions h)) as [s|] eqn:Hs; [|by split; [apply flows_same|]]. split; [|done].
    eapply (flows_aset _ s (hs_set_pending (vdel id (hs_pending s)) s)); [exact Hs|by apply flow_frame|reflexivity].
  - unfold session_upstream_exit. destruct (aget sid (sessions h)) as [s|] eqn:Hs; [|by split; [apply flows_same|]].
    assert (flow s (drive (fun _ => on_upstream_exit rc) (hs_close s)).2.2) as Hf.
    { transitivity (hs_close s); [by apply flow_frame|]. apply drive_flow. apply emit_grows. }
    destruct (drive _ _) as [r [rs s']]. split; [by eapply flows_aset|done].
Qed.
End Flows.

(** ** Steps of the service *)
Lemma close_flow rc s : flow s (close_session rc s).
Proof.
  split; [done..|].
  exists [Audit "upstream_exit" (fields [("returncode", match rc with Some z => VInt z | None => VNone end)]); Audit "gateway_stop" (fields [])], [].
  split_and!; [symmetry; apply (assoc_L (++) _ [_] [_])|symmetry; apply app_nil_r|apply carries_nil].
Qed.

(** The lines of a session that were streamed, in order. *)
Definition lines_of (sid : string) (out : list (nat * (string * frame))) : list string :=
  omap (fun x => match x.2 with (sid', Message line) => if decide (sid' = sid) then Some line else None | _ => None end) out.
Lemma lines_of_app sid l1 l2 : lines_of sid (l1 ++ l2) = lines_of sid l1 ++ lines_of sid l2.
Proof. apply omap_app. Qed.

Section Invariant.
Context `{Regex} (parts : string -> result (SecurityGateway * World)) (fresh : nat -> string) (command : list string).
Context (resolver : option (nat -> option string -> result Principal)) (exit_code : string -> option Z).
Context (fresh_inj : forall n n', fresh n = fresh n' -> n = n').
Context (parts_silent : forall sid g w, parts sid = Ok (g, w) -> client_lines (trace w) = []).
Notation step := (service_step parts fresh command resolver exit_code).

(** A session came to be, or flowed on from the one before. *)
Definition session_step (sv sv' : Service) (sid : string) (s' : HSession) : Prop :=
  (exists s, session_of sid sv = Some s /\ flow s s') \/
  (session_of sid sv = None /\ sid = fresh (minted (sv_hub sv)) /\ minted (sv_hub sv') = S (minted (sv_hub sv)) /\
   carries (hs_sse s') (client_lines (trace (hs_world s')))).

Record service_inv (sv : Service) : Prop := {
  si_built : all_built parts (sv_hub sv);
  si_drawn : forall sid, is_Some (session_of sid sv) -> exists n, n < minted (sv_hub sv) /\ sid = fresh n;
  si_streamed : forall sid, session_of sid sv = None -> lines_of sid (sv_out sv) = [];
  si_carries : forall sid s, session_of sid sv = Some s ->
    carries (lines_of sid (sv_out sv) ++ hs_sse s) (client_lines (trace (hs_world s)));
}.

Lemma create_born a h :
  sessions (create parts fresh command a h).2 = sessions h \/
  exists s, hs_sse s = [] /\ client_lines (trace (hs_world s)) = [] /\
    sessions (create parts fresh command a h).2 = aset (fresh (minted h)) s (sessions h).
Proof.
  unfold create. destruct (parts _) as [[g w]|x] eqn:Hp; [right|by left]. eexists. split; [|split; [|reflexivity]]; [done|].
  cbn [hs_world]. apply parts_silent in Hp. unfold on_start, when.
  unfold mbind, M_bind. destruct (any_open _); cbn; rewrite ?client_lines_app, Hp; done.
Qed.

(** Steps that stream nothing keep the invariant when every session they leave is explained. *)
Lemma quiet_inv sv sv' : service_inv sv -> sv_out sv' = sv_out sv -> all_built parts (sv_hub sv') ->
  minted (sv_hub sv) <= minted (sv_hub sv') -> (forall sid, is_Some (session_of sid sv) -> is_Some (session_of sid sv')) ->
  (forall sid s', session_of sid sv' = Some s' -> session_step sv sv' sid s') -> service_inv sv'.
Proof.
  intros [Hn Hd Hs Hc] Ho Hn' Hm Hkeep Hstep. split; [done|..].
  - intros sid [s' Hs']. destruct (Hstep _ _ Hs') as [(s & Hold & _)|(_ & -> & Hm' & _)]; [|exists (minted (sv_hub sv)); split; [lia|done]].
    destruct (Hd sid (ex_intro _ _ Hold)) as (n & Hlt & ->). exists n. split; [lia|done].
  - intros sid Hnone. rewrite Ho. apply Hs. destruct (session_of sid sv) eqn:He; [|done].
    destruct (Hkeep sid) as [s' Hs']; [by rewrite He|congruence].
  - intros sid s' Hs'. rewrite Ho. destruct (Hstep _ _ Hs') as [(s & Hold & Hf)|(Hnone & _ & _ & Hc')].
    + by eapply flow_carries, Hc.
    + by rewrite (Hs _ Hnone).
Qed.

(** The common case: the same sessions, each of which flowed on. *)
Lemma steady_inv sv sv' : service_inv sv -> sv_out sv' = sv_out sv -> all_built parts (sv_hub sv') ->
  minted (sv_hub sv') = minted (sv_hub sv) ->
  (forall sid, option_Forall2 flow (session_of sid sv) (session_of sid sv')) -> service_inv sv'.
Proof.
  intros Hi Ho Hb Hm Hf. apply (quiet_inv sv); try done; [lia|..]; intros sid; specialize (Hf sid).
  - intros [s Hs]. rewrite Hs in Hf. inversion Hf. eauto.
  - intros s' Hs'. rewrite Hs' in Hf. inversion Hf. left. eauto.
Qed.

Lemma session_of_flows sv h' : flows (sv_hub sv) h' ->
  forall sid, option_Forall2 flow (session_of sid sv)
    (session_of sid {| sv_hub := h'; sv_gone := sv_gone sv; sv_readers := sv_readers sv; sv_out := sv_out sv |}).
Proof. intros Hf sid. unfold session_of. cbn. destruct (Hf sid); [by constructor|reflexivity]. Qed.

Lemma hub_inv_step sv e : service_inv sv -> (forall rid rq, e <> Delete rid rq) ->
  service_inv {| sv_hub := hub_step parts fresh command resolver (sv_hub sv) e; sv_gone := sv_gone sv;
                 sv_readers := sv_readers sv; sv_out := sv_out sv |}.
Proof.
  intros Hi He. pose proof Hi as [Hb Hd _ _].
  pose proof (all_built_step parts fresh command resolver (sv_hub sv) e Hb) as Hb'.
  destruct (step_flows parts fresh command resolver e (sv_hub sv) He) as [[Hf Hm]|(a & Hf & Hm)].
  - apply (steady_inv sv); try done. apply (session_of_flows _ _ Hf).
  - assert (session_of (fresh (minted (sv_hub sv))) sv = None) as Hfresh.
    { destruct (session_of _ sv) eqn:Hs; [|done]. destruct (Hd _ (ex_intro _ _ Hs)) as (n & Hlt & Heq%fresh_inj). lia. }
    assert (forall sid, sid <> fresh (minted (sv_hub sv)) ->
      aget sid (sessions (create parts fresh command a (sv_hub sv)).2) = aget sid (sessions (sv_hub sv))) as Hother.
    { intros sid Hne. destruct (create_born a (sv_hub sv)) as [->|(s & _ & _ & ->)]; [done|by rewrite aget_aset_ne]. }
    apply (quiet_inv sv); try done; cbn; [lia|..]; intros sid; specialize (Hf sid).
    + intros Hs. assert (sid <> fresh (minted (sv_hub sv))) as Hne by (intros ->; rewrite Hfresh in Hs; by destruct Hs).
      rewrite Hother in Hf by done. revert Hs. unfold session_of. cbn. destruct Hf; [eauto|done].
    + intros s' Hs'. destruct (decide (sid = fresh (minted (sv_hub sv)))) as [->|Hne].
      * right. split_and!; [done..|]. revert Hfresh Hs'. unfold session_of. cbn.
        destruct (aget _ (sessions (sv_hub sv))) eqn:Hlive; [done|]. intros ->.
        destruct (create_born a (sv_hub sv)) as [Hs|(s & Hq & Ht & Hs)]; rewrite Hs in Hf; [rewrite Hlive in Hf; inversion Hf; by intros|].
        rewrite aget_aset_eq in Hf. inversion Hf as [? s1 Hfl Hx Hs1|]. subst. intros [= <-].
        apply (flow_carries []) in Hfl; [done|]. rewrite Hq, Ht. apply carries_nil.
      * left. rewrite Hother in Hf by done. revert Hs'. unfold session_of. cbn. destruct Hf as [s1 s2 Hfl|]; [intros [= <-]; eauto|].
        intros Hs. exists s'. by split.
Qed.

Lemma find_session_live rid rq h missing sid s : find_session resolver rid rq h missing = inr (sid, s) ->
  rq_session rq = Some sid /\ aget sid (sessions h) = Some s.
Proof.
  unfold find_session. destruct (authenticate _ _ _ _) as [|p|r]; [..|discriminate];
    (destruct (rq_session rq) as [[|a sid']|]; [discriminate| |discriminate]);
    (destruct (aget _ _) as [s'|] eqn:Hs; [|discriminate]); (destruct (owns s' _); [|discriminate]); by intros [= <- <-].
Qed.

Lemma arrives_inv e sv : service_inv sv -> service_inv (arrives parts fresh command resolver exit_code e sv).
Proof.
  intros Hi. assert ((forall rid rq, e <> Delete rid rq) \/ exists rid rq, e = Delete rid rq) as [He|(rid & rq & ->)]
    by (destruct e; eauto; left; done).
  - pose proof (hub_inv_step sv e Hi He) as Hi'. unfold arrives. destruct e; try done; [|by destruct (He rid rq)].
    destruct (find_session _ _ _ _ _) as [r|[sid s]]; [done|]. by destruct Hi'.
  - unfold arrives. pose proof Hi as [Hb _ _ _]. pose proof (all_built_step parts fresh command resolver _ (Delete rid rq) Hb) as Hb'.
    cbn in Hb' |- *. unfold handle_delete in *. destruct (find_session _ _ _ _ _) as [r|[sid s]] eqn:Hf; [by apply (steady_inv sv)|].
    apply find_session_live in Hf as [_ Hf]. apply (steady_inv sv); try done. intros sid'. unfold session_of. cbn.
    destruct (decide (sid' = sid)) as [->|Hne].
    + rewrite aget_adel_eq by apply Hb. rewrite Hf. constructor. apply close_flow.
    + by rewrite aget_adel_ne.
Qed.

Lemma aget_close_all sid ss : aget sid ((fun ks : string * HSession => (ks.1, close_session (exit_code ks.1) ks.2)) <$> ss) =
  close_session (exit_code sid) <$> aget sid ss.
Proof. induction ss as [|[k s] ss IH]; [done|]. cbn. case_decide; [by subst|done]. Qed.

Lemma aget_app_l {A} sid (d1 d2 : list (string * A)) : aget sid (d1 ++ d2) = match aget sid d1 with Some x => Some x | None => aget sid d2 end.
Proof. induction d1 as [|[k x] d1 IH]; [done|]. cbn. by case_decide. Qed.

Lemma shutdown_inv sv : service_inv sv -> service_inv (shutdown_all exit_code sv).
Proof.
  intros Hi. apply (steady_inv sv); try done; [by split; [constructor|]|]. intros sid. unfold session_of, shutdown_all. cbn.
  rewrite aget_app_l, aget_close_all. destruct (aget sid (sessions (sv_hub sv))); cbn; [constructor; apply close_flow|reflexivity].
Qed.

(** A reader takes a line from the queue and streams it. *)
Lemma take_inv rid sid line q s sv : service_inv sv -> session_of sid sv = Some s -> hs_sse s = line :: q ->
  service_inv (stream rid sid (Message line) (requeue sid q sv)).
Proof.
  intros [Hb Hd Hs Hc] Hsid Hq.
  assert (forall sid', session_of sid' (requeue sid q sv) = if decide (sid' = sid) then Some (set_queue q s) else session_of sid' sv) as Hso.
  { intros sid'. revert Hsid. unfold requeue, session_of. destruct (aget sid (sessions (sv_hub sv))) as [s0|] eqn:Hlive.
    - intros [= ->]. cbn. rewrite aget_aset. by case_decide.
    - intros Hg. rewrite Hg. cbn. rewrite aget_aset. case_decide; [subst; by rewrite Hlive|done]. }
  assert (sv_out (requeue sid q sv) = sv_out sv /\ minted (sv_hub (requeue sid q sv)) = minted (sv_hub sv) /\ all_built parts (sv_hub (requeue sid q sv))) as (Ho & Hm & Hb').
  { unfold requeue. destruct (aget sid (sessions (sv_hub sv))) as [s0|] eqn:Hlive; [|by destruct (aget sid (sv_gone sv))].
    split_and!; [done..|]. destruct Hb as [Hn Hb]. split; [by apply NoDup_aset|]. intros sid' s'. cbn. rewrite aget_aset.
    case_decide; [subst; intros [= <-]; by apply (Hb _ _ Hlive)|apply Hb]. }
  split; unfold stream; cbn [sv_hub sv_out]; [done|..].
  - intros sid'. change (session_of sid' _) with (session_of sid' (requeue sid q sv)). rewrite Hso, Hm. case_decide; [subst|apply Hd].
    intros _. apply Hd. by rewrite Hsid.
  - intros sid'. change (session_of sid' _) with (session_of sid' (requeue sid q sv)). rewrite Hso, Ho, lines_of_app. case_decide as He; [done|].
    intros Hnone. rewrite Hs by done. cbn. by rewrite decide_False.
  - intros sid' s'. change (session_of sid' _) with (session_of sid' (requeue sid q sv)). rewrite Hso, Ho, lines_of_app. case_decide as He.
    + subst. intros [= <-]. cbn. rewrite decide_True by done. specialize (Hc _ _ Hsid). rewrite Hq in Hc. by rewrite <- (assoc_L (++)).
    + cbn. rewrite decide_False, app_nil_r by done. apply Hc.
Qed.

Lemma keep_alive_inv rid sid sv : service_inv sv -> service_inv (stream rid sid KeepAlive sv).
Proof.
  intros [Hb Hd Hs Hc]. split; unfold stream; cbn [sv_hub sv_out]; [done|exact Hd|..]; intros sid'; rewrite lines_of_app, app_nil_r; [apply Hs|apply Hc].
Qed.

Lemma reader_inv rid r sv : service_inv sv -> service_inv (set_reader rid r sv).
Proof. by intros [Hb Hd Hs Hc]. Qed.

Lemma service_inv_step sv x : service_inv sv -> service_inv (step sv x).
Proof.
  intros Hi. destruct x as [e|rid t|]; cbn; [by apply arrives_inv| |by apply shutdown_inv]. unfold reader_turn.
  destruct (aget rid (sv_readers sv)) as [r|]; [|done]. destruct (session_of (rd_session r) sv) as [s|] eqn:Hs; [|done].
  destruct t, (rd_phase r); try done; try by apply reader_inv.
  - destruct (hs_sse s) as [|line q] eqn:Hq; [done|]. apply reader_inv. by eapply take_inv.
  - destruct (hs_sse s); [|done]. by apply reader_inv, keep_alive_inv.
Qed.

Lemma service_inv_run hs : service_inv (service_run parts fresh command resolver exit_code hs).
Proof.
  unfold service_run. assert (service_inv service_empty) as Hi.
  { split; cbn; [by split; [constructor|]|intros sid [s [=]]|done|done]. }
  revert Hi. generalize service_empty. induction hs as [|x hs IH]; intros sv Hi; [done|]. by apply IH, service_inv_step.
Qed.

(** ** A session stays, with its gateway, and closed once closed *)
Definition persists (sv sv' : Service) : Prop := forall sid s, session_of sid sv = Some s ->
  exists s', session_of sid sv' = Some s' /\ hs_gateway s' = hs_gateway s /\ (hs_closed s = true -> hs_closed s' = true).

#[local] Instance persists_preorder : PreOrder persists.
Proof.
  split; [intros sv sid s Hs; by exists s|]. intros sv1 sv2 sv3 H12 H23 sid s (s2 & H2 & G2 & C2)%H12.
  destruct (H23 _ _ H2) as (s3 & H3 & G3 & C3). exists s3. split_and!; [done|congruence|auto].
Qed.

Lemma flow_persists sv sv' : (forall sid, is_Some (session_of sid sv) -> option_Forall2 flow (session_of sid sv) (session_of sid sv')) -> persists sv sv'.
Proof.
  intros Hf sid s Hs. specialize (Hf sid (ex_intro _ _ Hs)). rewrite Hs in Hf. inversion Hf as [? s' [] Hx Hs'|]. subst. eauto.
Qed.

Lemma arrives_persists e sv : service_inv sv -> persists sv (arrives parts fresh command resolver exit_code e sv).
Proof.
  intros [Hb Hd _ _].
  assert ((forall rid rq, e <> Delete rid rq) -> persists sv {| sv_hub := hub_step parts fresh command resolver (sv_hub sv) e;
    sv_gone := sv_gone sv; sv_readers := sv_readers sv; sv_out := sv_out sv |}) as Hhub.
  { intros He. apply flow_persists. intros sid Hsid. destruct (step_flows parts fresh command resolver e (sv_hub sv) He) as [[Hf _]|(a & Hf & _)];
      [by apply session_of_flows|]. specialize (Hf sid). unfold session_of in *. cbn. destruct (Hd _ Hsid) as (n & Hlt & ->).
    assert (aget (fresh n) (sessions (create parts fresh command a (sv_hub sv)).2) = aget (fresh n) (sessions (sv_hub sv))) as Heq.
    { destruct (create_born a (sv_hub sv)) as [->|(s & _ & _ & ->)]; [done|]. apply aget_aset_ne. intros Hn%fresh_inj. lia. }
    rewrite Heq in Hf. destruct Hf; [by constructor|reflexivity]. }
  unfold arrives. destruct e as [rid rq|rid rq|rid rq|sid line|rid|sid rc]; try by apply Hhub.
  - assert (persists sv {| sv_hub := hub_step parts fresh command resolver (sv_hub sv) (Get rid rq);
      sv_gone := sv_gone sv; sv_readers := sv_readers sv; sv_out := sv_out sv |}) as Hg by by apply Hhub.
    destruct (find_session _ _ _ _ _) as [r|[sid s]]; exact Hg.
  - apply flow_persists. intros sid' _. cbn. unfold handle_delete. destruct (find_session _ _ _ _ _) as [r|[sid s]] eqn:Hf; [reflexivity|].
    apply find_session_live in Hf as [_ Hf]. unfold session_of. cbn. destruct (decide (sid' = sid)) as [->|Hne].
    + rewrite aget_adel_eq by apply Hb. rewrite Hf. constructor. apply close_flow.
    + by rewrite aget_adel_ne.
Qed.

Lemma requeue_persists sid q sv : persists sv (requeue sid q sv).
Proof.
  intros sid' s. unfold requeue, session_of. destruct (aget sid (sessions (sv_hub sv))) as [s0|] eqn:Hlive.
  - cbn. rewrite aget_aset. case_decide; [subst; rewrite Hlive; intros [= <-]|intros ->]; eauto.
  - destruct (aget sid (sv_gone sv)) as [s0|] eqn:Hg; [|eauto]. cbn. destruct (aget sid' (sessions (sv_hub sv))) eqn:He; [eauto|].
    rewrite aget_aset. case_decide; [subst; rewrite Hg; intros [= <-]|intros ->]; eauto.
Qed.

Lemma step_persists sv x : service_inv sv -> persists sv (step sv x).
Proof.
  intros Hi. destruct x as [e|rid t|]; cbn; [by apply arrives_persists| |].
  - unfold reader_turn. destruct (aget rid (sv_readers sv)) as [r|]; [|done]. destruct (session_of (rd_session r) sv) as [s|]; [|done].
    destruct t, (rd_phase r), (hs_sse s) as [|line q]; intros sid s0 Hs0; try by exists s0.
    exact (requeue_persists (rd_session r) q sv sid s0 Hs0).
  - apply flow_persists. intros sid _. unfold session_of, shutdown_all. cbn. rewrite aget_app_l, aget_close_all.
    destruct (aget sid (sessions (sv_hub sv))); cbn; [constructor; apply close_flow|reflexivity].
Qed.

(** ** A stream ends with its session *)
Definition frames_of (rid : nat) (sv : Service) : nat := List.length (List.filter (fun x => x.1 =? rid) (sv_out sv)).
Definition budget (rid : nat) (sv : Service) : nat :=
  match aget rid (sv_readers sv) with Some {| rd_phase := Waiting |} => 1 | _ => 0 end.
Definition reopens (rid : nat) (x : happening) : Prop := exists rq, x = Arrives (Get rid rq).
Definition reads_closed (rid : nat) (sv : Service) : Prop :=
  exists r s, aget rid (sv_readers sv) = Some r /\ session_of (rd_session r) sv = Some s /\ hs_closed s = true.

Lemma frames_stream rid rid' sid f sv : frames_of rid (stream rid' sid f sv) = frames_of rid sv + (if rid' =? rid then 1 else 0).
Proof.
  unfold frames_of, stream. cbn [sv_out]. rewrite List.filter_app, length_app. cbn. by destruct (rid' =? rid).
Qed.
Lemma requeue_frame sid q sv : sv_out (requeue sid q sv) = sv_out sv /\ sv_readers (requeue sid q sv) = sv_readers sv.
Proof. unfold requeue. by repeat case_match. Qed.

Lemma reader_turn_budget rid rid' t sv : reads_closed rid sv ->
  frames_of rid (reader_turn rid' t sv) + budget rid (reader_turn rid' t sv) <= frames_of rid sv + budget rid sv /\
  exists r r', aget rid (sv_readers sv) = Some r /\ aget rid (sv_readers (reader_turn rid' t sv)) = Some r' /\ rd_session r' = rd_session r.
Proof.
  intros (r & s & Hr & Hs & Hc).
  assert (forall sv' p, frames_of rid sv' = frames_of rid sv -> sv_readers sv' = sv_readers sv -> rid' <> rid ->
    frames_of rid (set_reader rid' p sv') + budget rid (set_reader rid' p sv') <= frames_of rid sv + budget rid sv /\
    exists r r', aget rid (sv_readers sv) = Some r /\ aget rid (sv_readers (set_reader rid' p sv')) = Some r' /\ rd_session r' = rd_session r) as Hother.
  { intros sv' p Hf Hrd Hne. unfold budget, set_reader. cbn. rewrite aget_aset_ne, Hrd by done. unfold frames_of in *. cbn. split; [lia|eauto]. }
  unfold reader_turn. destruct (decide (rid' = rid)) as [->|Hne].
  - rewrite Hr, Hs. unfold budget. rewrite Hr. destruct t, r as [sid []], (hs_sse s) as [|line q]; cbn [rd_phase rd_session]; rewrite ?Hc;
      unfold set_reader; cbn [sv_readers]; rewrite ?aget_aset_eq, ?Hr; (split; [|eauto]);
      try (unfold frames_of; cbn; lia); fold (set_reader rid {| rd_session := sid; rd_phase := Looking |}).
    + change (frames_of rid {| sv_hub := _; sv_gone := _; sv_readers := _; sv_out := sv_out (stream rid sid (Message line) (requeue sid q sv)) |})
        with (frames_of rid (stream rid sid (Message line) (requeue sid q sv))).
      rewrite frames_stream, Nat.eqb_refl. unfold frames_of. rewrite (proj1 (requeue_frame sid q sv)). lia.
    + change (frames_of rid {| sv_hub := _; sv_gone := _; sv_readers := _; sv_out := sv_out (stream rid sid KeepAlive sv) |})
        with (frames_of rid (stream rid sid KeepAlive sv)). rewrite frames_stream, Nat.eqb_refl. lia.
  - assert (exists r r', aget rid (sv_readers sv) = Some r /\ aget rid (sv_readers sv) = Some r' /\ rd_session r' = rd_session r) as Hsame by eauto.
    destruct (aget rid' (sv_readers sv)) as [r'|]; [|done]. destruct (session_of (rd_session r') sv) as [s'|]; [|done].
    assert (forall sid f sv', frames_of rid sv' = frames_of rid sv -> frames_of rid (stream rid' sid f sv') = frames_of rid sv) as Hf.
    { intros sid f sv' <-. rewrite frames_stream, (proj2 (Nat.eqb_neq rid' rid) Hne). lia. }
    destruct t, (rd_phase r'), (hs_sse s') as [|line q]; try (split; [lia|exact Hsame]); apply Hother; try done; try apply Hf; try done;
      [unfold frames_of; by rewrite (proj1 (requeue_frame _ q sv))|apply (requeue_frame _ q sv)].
Qed.

Lemma arrives_readers rid e sv : ~ reopens rid (Arrives e) ->
  aget rid (sv_readers (arrives parts fresh command resolver exit_code e sv)) = aget rid (sv_readers sv) /\
  sv_out (arrives parts fresh command resolver exit_code e sv) = sv_out sv.
Proof.
  intros He. unfold arrives. destruct e as [rid' rq|rid' rq|rid' rq|sid line|rid'|sid rc]; try done;
    (destruct (find_session _ _ _ _ _) as [r|[sid s]]; [done|]); cbn; [|done].
  rewrite aget_aset_ne; [done|]. intros ->. apply He. by exists rq.
Qed.

Lemma closed_step rid sv x : service_inv sv -> ~ reopens rid x -> reads_closed rid sv ->
  reads_closed rid (step sv x) /\ frames_of rid (step sv x) + budget rid (step sv x) <= frames_of rid sv + budget rid sv.
Proof.
  intros Hi Hx Hrc. pose proof Hrc as (r & s & Hr & Hs & Hc). destruct (step_persists _ x Hi _ _ Hs) as (s' & Hs' & _ & Hc').
  assert (forall r', aget rid (sv_readers (step sv x)) = Some r' -> rd_session r' = rd_session r -> reads_closed rid (step sv x)) as Hkeep.
  { intros r' Hr' Heq. exists r', s'. rewrite Heq. auto. }
  destruct x as [e|rid' t|]; cbn [service_step] in *.
  - destruct (arrives_readers rid e sv Hx) as [Hrd Ho]. split; [by apply (Hkeep r); [rewrite Hrd|]|]. unfold frames_of, budget. by rewrite Hrd, Ho.
  - destruct (reader_turn_budget rid rid' t sv Hrc) as (Hle & r1 & r2 & Hr1 & Hr2 & Heq). split; [|done].
    apply (Hkeep r2); [done|congruence].
  - split; [by apply (Hkeep r)|done].
Qed.

Lemma budget_one rid sv : budget rid sv <= 1.
Proof. unfold budget. repeat case_match; lia. Qed.

Lemma closed_run rid hs sv : service_inv sv -> Forall (fun x => ~ reopens rid x) hs -> reads_closed rid sv ->
  frames_of rid (fold_left step hs sv) <= S (frames_of rid sv).
Proof.
  intros Hi Hhs Hrc. pose proof (budget_one rid sv). enough (frames_of rid (fold_left step hs sv) <= frames_of rid sv + budget rid sv) by lia.
  clear H0. revert sv Hi Hrc. induction Hhs as [|x hs Hx _ IH]; intros sv Hi Hrc; cbn; [lia|].
  destruct (closed_step rid sv x Hi Hx Hrc) as [Hrc' Hle]. specialize (IH _ (service_inv_step _ x Hi) Hrc'). lia.
Qed.
End Invariant.

(** ** Only the owner reads *)
Section Owner.
Context `{Regex} (parts : string -> result (SecurityGateway * World)) (fresh : nat -> string) (command : list string).
Context (resolve : nat -> option string -> result Principal) (exit_code : string -> option Z).
Context (fresh_inj : forall n n', fresh n = fresh n' -> n = n').
Context (parts_silent : forall sid g w, parts sid = Ok (g, w) -> client_lines (trace w) = []).
Notation run := (service_run parts fresh command (Some resolve) exit_code).

(** The reader was opened by a GET that named the session with its owner's credential. *)
Definition opened_by_owner (hs : list happening) (sv : Service) (rid : nat) (sid : string) : Prop :=
  exists rq p s, Arrives (Get rid rq) ∈ hs /\ rq_session rq = Some sid /\ resolve rid (rq_authorization rq) = Ok p /\
    session_of sid sv = Some s /\ principal_id (principal (hs_gateway s)) = principal_id p.
Definition owners_read (hs : list happening) (sv : Service) : Prop :=
  (forall rid r, aget rid (sv_readers sv) = Some r -> opened_by_owner hs sv rid (rd_session r)) /\
  (forall x, x ∈ sv_out sv -> opened_by_owner hs sv x.1 x.2.1).

Lemma opened_later hs x sv sv' rid sid : persists sv sv' -> opened_by_owner hs sv rid sid -> opened_by_owner (hs ++ [x]) sv' rid sid.
Proof.
  intros Hp (rq & p & s & Hin & Hsid & Hr & Hs & Ho). destruct (Hp _ _ Hs) as (s' & Hs' & Hg & _).
  exists rq, p, s'. rewrite Hg. split_and!; try done. set_solver.
Qed.

Lemma opened_now hs rid rq sv sv' sid s : find_session (Some resolve) rid rq (sv_hub sv) (RpcError 404 VNone (-32001)%Z) = inr (sid, s) ->
  persists sv sv' -> opened_by_owner (hs ++ [Arrives (Get rid rq)]) sv' rid sid.
Proof.
  intros (Hsid & Hs & p & Hr & Ho)%find_session_inr Hp. destruct (Hp sid s) as (s' & Hs' & Hg & _); [unfold session_of; by rewrite Hs|].
  exists rq, p, s'. rewrite Hg. split_and!; try done. set_solver.
Qed.

Lemma owners_read_step hs x sv : service_inv parts fresh sv -> owners_read hs sv ->
  owners_read (hs ++ [x]) (service_step parts fresh command (Some resolve) exit_code sv x).
Proof.
  intros Hi [Hr Ho]. pose proof (step_persists parts fresh command (Some resolve) exit_code fresh_inj parts_silent sv x Hi) as Hp.
  set (sv' := service_step parts fresh command (Some resolve) exit_code sv x) in *.
  assert (forall rid r, aget rid (sv_readers sv) = Some r -> opened_by_owner (hs ++ [x]) sv' rid (rd_session r)) as Hr'
    by (intros rid r Hrd; by eapply opened_later, Hr).
  assert (forall y, y ∈ sv_out sv -> opened_by_owner (hs ++ [x]) sv' y.1 y.2.1) as Ho' by (intros y Hy; by eapply opened_later, Ho).
  destruct x as [e|rid t|]; cbn in sv'; [| |by split].
  - destruct e as [rid rq|rid rq|rid rq|sid line|rid|sid rc]; try by split.
    + unfold sv', arrives in *. destruct (find_session _ _ _ _ _) as [e|[sid s]] eqn:Hf; [by split|]. split; [|done].
      cbn [set_reader sv_readers]. intros rid' r. rewrite aget_aset. case_decide; [subst; intros [= <-]|apply Hr']. by eapply opened_now.
    + unfold sv', arrives in *. destruct (find_session _ _ _ _ _) as [e|[sid s]]; by split.
  - unfold sv', reader_turn in *. destruct (aget rid (sv_readers sv)) as [r|] eqn:Hrd; [|by split].
    destruct (session_of (rd_session r) sv) as [s|] eqn:Hs; [|by split].
    assert (forall p rs, rs = sv_readers sv -> forall rid' r', aget rid' (aset rid {| rd_session := rd_session r; rd_phase := p |} rs) = Some r' ->
      opened_by_owner (hs ++ [Reads rid t]) sv' rid' (rd_session r')) as Hset.
    { intros p rs -> rid' r'. rewrite aget_aset. case_decide; [subst; intros [= <-]; by apply (Hr' rid r)|apply Hr']. }
    unfold sv' in *. destruct t, (rd_phase r), (hs_sse s) as [|line q]; try (by split); (split; [apply Hset; try done; apply (requeue_frame _ q sv)|]);
      try done; cbn [set_reader stream sv_out]; rewrite ?(proj1 (requeue_frame _ q sv)); intros y [Hy|Hy]%elem_of_app; auto;
      apply list_elem_of_singleton in Hy as ->; by apply (Hr' rid r).
Qed.

Lemma owners_read_run hs : owners_read hs (run hs).
Proof.
  induction hs as [|x hs IH] using rev_ind; [split; [done|intros y Hy; by apply elem_of_nil in Hy]|].
  rewrite service_run_snoc. apply owners_read_step; [|done].
  by apply service_inv_run.
Qed.
End Owner.

(** C33: The event stream of a session. Whatever requests, upstream lines, deadlines, exits, reader turns
    and shutdowns happen, in any order: the lines streamed from a session, followed by those
    still queued, are in order and each once lines its gateway sent, and none that the
    server initiated is missing; every frame went to a GET that named the session and whose
    credential resolved to the principal it is bound to; and once the session is closed a
    stream of it sends at most one more frame. *)
Theorem stream_carries_messages `{Regex} parts fresh command resolve exit_code hs :
  (forall n n' : nat, fresh n = fresh n' -> n = n') ->
  (forall sid g w, parts sid = Ok (g, w) -> client_lines (trace w) = []) ->
  let step := service_step parts fresh command (Some resolve) exit_code in
  let sv := service_run parts fresh command (Some resolve) exit_code hs in
  (forall sid s, session_of sid sv = Some s -> carries (lines_of sid (sv_out sv) ++ hs_sse s) (client_lines (trace (hs_world s)))) /\
  (forall x, x ∈ sv_out sv -> opened_by_owner resolve hs sv x.1 x.2.1) /\
  (forall rid later, reads_closed rid sv -> Forall (fun x => ~ reopens rid x) later ->
     frames_of rid (fold_left step later sv) <= S (frames_of rid sv)).
Proof.
  intros Hinj Hsil step sv.
  pose proof (service_inv_run parts fresh command (Some resolve) exit_code Hinj Hsil hs : service_inv parts fresh sv) as Hi.
  pose proof (owners_read_run parts fresh command resolve exit_code Hinj Hsil hs : owners_read resolve hs sv) as [_ Ho].
  clearbody sv. split; [exact (si_carries _ _ _ Hi)|]. split; [exact Ho|]. intros rid later Hc Hl.
  exact (closed_run parts fresh command (Some resolve) exit_code Hinj Hsil rid later sv Hi Hl Hc).
Qed.

(** * A client that listens *)
#[local] Existing Instance literal_regex.
Definition note (m : string) : string := encode_msg (fields [("jsonrpc", VStr "2.0"); ("method", VStr m)]).
Definition demo_service (hs : list happening) : Service :=
  service_run hub_parts hub_fresh ["upstream"] (Some hub_resolve) (fun _ => Some 0%Z) ((Arrives <$> opened) ++ hs).
Definition demo_listen : list happening :=
  [Arrives (Get 5 (demo_request "a" (Some "s0") "")); Arrives (Get 6 (demo_request "b" (Some "s0") "")); Reads 5 Look;
   Arrives (UpstreamSays "s0" (note "notifications/a")); Reads 5 Take; Reads 5 Look; Reads 5 TimeOut;
   Arrives (UpstreamSays "s0" (note "notifications/b")); Reads 5 Look; Reads 6 Look].

Lemma hub_parts_silent sid g w : hub_parts sid = Ok (g, w) -> client_lines (trace w) = [].
Proof. unfold hub_parts. by intros (g0 & _ & [= _ <-])%bind_ok. Qed.

Lemma stream_carries_messages_witness :
  let sv := demo_service demo_listen in
  sv_out sv = [(5, ("s0", Message (note "notifications/a"))); (5, ("s0", KeepAlive))] /\
  (forall sid s, session_of sid sv = Some s -> carries (lines_of sid (sv_out sv) ++ hs_sse s) (client_lines (trace (hs_world s)))).
Proof.
  split; [vm_compute; reflexivity|].
  exact (proj1 (stream_carries_messages hub_parts hub_fresh ["upstream"] hub_resolve (fun _ => Some 0%Z) ((Arrives <$> opened) ++ demo_listen)
    hub_fresh_inj hub_parts_silent)).
Defined.

(** * Observations *)

(** What is queued when the upstream ends is never streamed: the reader looks at the flag first. *)
Lemma queued_lines_lost :
  let sv := demo_service [Arrives (Get 5 (demo_request "a" (Some "s0") "")); Arrives (UpstreamSays "s0" (note "notifications/a"));
    Arrives (UpstreamExit "s0" (Some 0%Z)); Reads 5 Look; Reads 5 Take] in
  sv_out sv = [] /\ (hs_sse <$> session_of "s0" sv) = Some [note "notifications/a"] /\
  rd_phase <$> aget 5 (sv_readers sv) = Some Ended.
Proof. vm_compute. done. Qed.

(** An upstream that ended on its own is recorded again when its session is deleted. *)
Lemma upstream_exit_recorded_twice :
  let sv := demo_service [Arrives (UpstreamExit "s0" (Some 1%Z)); Arrives (Delete 5 (demo_request "a" (Some "s0") ""))] in
  (fun s => List.length (List.filter (fun e => match e with Audit n _ => String.eqb n "upstream_exit" | _ => false end) (trace (hs_world s))))
    <$> session_of "s0" sv = Some 2.
Proof. vm_compute. done. Qed.
