(* ===== verification/HttpApp.v ===== *)
(** The application around the Streamable HTTP hub: the routes of [create_streamable_http_app] in
    [transports/streamable_http.py] with the operational endpoints, what a handler's answer is
    on the wire, and the shutdown at the end. The behaviour of a hub and its streams is in
    [Http] and [HttpStream]. *)
From S2P Require Import Prelude PyVal Json Session Rules Engine Pipeline Protocol Gateway Identity Observability Http HttpStream.

(** * Answers on the wire *)
Definition SESSION_HEADER : string := "mcp-session-id".

Record WireResponse := { status : Z; headers : list (string * string); content : option val }.

Definition rpc_error (request_id : val) (code : Z) (message : string) (status : Z) : WireResponse :=
  {| status := status; headers := []; content := Some (VDict (error_response request_id code message)) |}.

(** [_unauthorized] *)
Definition unauthorized (request_id : val) (message : string) : WireResponse :=
  let resp := rpc_error request_id ERROR_UNAUTHENTICATED ("unauthenticated: " +:+ message) 401 in
  {| status := status resp; headers := aset "WWW-Authenticate" "Bearer, ApiKey" (headers resp); content := content resp |}.

(** [_json_line] *)
Definition json_line (line : string) (headers : list (string * string)) : result WireResponse :=
  v ← json_loads line; Ok {| status := 200; headers := headers; content := Some v |}.

(** * Routes *)
Inductive verb := GET | POST | DELETE | OtherVerb.
#[export] Instance verb_eq_dec : EqDecision verb.
Proof. solve_decision. Defined.

Inductive endpoint := Healthz | Readyz | MetricsText | McpPost | McpGet | McpDelete.

(** In the order they are declared; the first that fits answers. *)
Definition routes (path : string) : list ((verb * string) * endpoint) :=
  [((GET, "/healthz"), Healthz); ((GET, "/readyz"), Readyz); ((GET, "/metrics"), MetricsText);
   ((POST, path), McpPost); ((GET, path), McpGet); ((DELETE, path), McpDelete)].

(** An unknown path is not found; a known one under another verb is not allowed. *)
Definition route (path : string) (v : verb) (p : string) : Z + endpoint :=
  match aget (v, p) (routes path) with
  | Some e => inr e
  | None => inl (if bool_decide (p ∈ (routes path).*1.*2) then 405 else 404)%Z
  end.

(** * The application *)

(** What an operational endpoint or the router itself answers. *)
Inductive ops_answer := JsonAnswer (status : Z) (body : val) | TextAnswer (r : result (Z * string)) | Refusal (status : Z).

Inductive app_event :=
  | Requests (rid : nat) (v : verb) (p : string) (rq : http_request)
  | Happens (x : happening)       (* a stream, an upstream, a deadline *)
  | Ends.                         (* the end of the lifespan *)

Record App := { app_service : Service; app_answers : list (nat * ops_answer) }.
Definition app_start : App := {| app_service := service_empty; app_answers := [] |}.

Section App.
Context `{Regex}.
Context (parts : string -> result (SecurityGateway * World)) (fresh : nat -> string) (command : list string)
  (resolver : option (nat -> option string -> result Principal)) (exit_code : string -> option Z).
(** The mount path, the readiness checks, and the registry as it is when a request arrives. *)
Context (path : string) (readiness : list (string * ReadinessCheck)) (registry : nat -> Registry).

Definition serve (x : happening) (a : App) : App :=
  {| app_service := service_step parts fresh command resolver exit_code (app_service a) x; app_answers := app_answers a |}.
Definition reply_ops (rid : nat) (r : ops_answer) (a : App) : App :=
  {| app_service := app_service a; app_answers := app_answers a ++ [(rid, r)] |}.

Definition streamable_http_app (a : App) (e : app_event) : App :=
  match e with
  | Requests rid v p rq =>
      match route path v p with
      | inr McpPost => serve (Arrives (Post rid rq)) a
      | inr McpGet => serve (Arrives (Get rid rq)) a
      | inr McpDelete => serve (Arrives (Delete rid rq)) a
      | inr Healthz => reply_ops rid (JsonAnswer healthz.1 healthz.2) a
      | inr Readyz => let r := readyz readiness in reply_ops rid (JsonAnswer r.1 r.2) a
      | inr MetricsText => reply_ops rid (TextAnswer (metrics_endpoint (registry rid))) a
      | inl code => reply_ops rid (Refusal code) a
      end
  | Happens x => serve x a
  | Ends => serve ShutdownAll a
  end.

Definition app_run (es : list app_event) : App := fold_left streamable_http_app es app_start.

(** What of the events reaches the hub. *)
Definition reaches (e : app_event) : option happening :=
  match e with
  | Requests rid v p rq =>
      match route path v p with
      | inr McpPost => Some (Arrives (Post rid rq))
      | inr McpGet => Some (Arrives (Get rid rq))
      | inr McpDelete => Some (Arrives (Delete rid rq))
      | _ => None
      end
  | Happens x => Some x
  | Ends => Some ShutdownAll
  end.

(** The application is the service of [HttpStream] behind its routes: what that file and [Http]
    show of the service holds of the application, and no operational endpoint, refused path or
    refused verb touches a session. *)
Lemma app_is_service es : app_service (app_run es) = service_run parts fresh command resolver exit_code (omap reaches es).
Proof.
  unfold app_run, service_run. change service_empty with (app_service app_start). generalize app_start.
  induction es as [|e es IH]; intros a; [done|]. cbn [fold_left]. rewrite IH. cbn [omap list_omap].
  destruct e as [rid v p rq|x|]; cbn [streamable_http_app reaches]; [|done..].
  by destruct (route path v p) as [|[]].
Qed.

(** Only the mount path and its three verbs lead to the hub. *)
Lemma route_to_hub v p : (exists e, route path v p = inr e /\ e ∈ [McpPost; McpGet; McpDelete]) ->
  p = path /\ v ∈ [GET; POST; DELETE].
Proof.
  intros (e & Hr & He). unfold route in Hr. destruct (aget (v, p) (routes path)) as [e'|] eqn:Ha; [|done].
  injection Hr as ->. apply aget_Some_elem in Ha. unfold routes in Ha. 
  repeat (apply elem_of_cons in Ha as [[= -> -> ->]|Ha]; [set_solver|]). by apply elem_of_nil in Ha.
Qed.
End App.

(** A hub mounted on an operational path is not reachable there by GET: the earlier route answers. *)
Lemma ops_path_shadows : route "/metrics" GET "/metrics" = inr MetricsText /\ route "/metrics" POST "/metrics" = inr McpPost.
Proof. split; vm_compute; reflexivity. Qed.
