(* ===== verification/Cli.v ===== *)
(** The command line, policy commands: the handlers of [cli/__init__.py] for [policy validate],
    [show], [test], [backtest], [ci], [diff], [keygen] and [bundle ...]. What a command does to
    the world is the list of its effects, in order; a file is read before the command writes
    it. *)
From S2P Require Import Prelude PyVal Json Session Rules Loader Merge Engine Approvals Redaction Pipeline Gateway Spool Backtest AuditIndex Vault Connectors Bundle BundleStore Keys Diff PolicyCi Reports.

(** * Effects *)
Inductive effect :=
  | Out (text : string)                         (* standard output *)
  | ErrOut (text : string)                      (* standard error *)
  | WriteFile (path text : string)
  | AppendFile (path text : string)
  | Chmod (path : string) (mode : Z)
  | StoreWrite (name : string) (w : write)      (* a file of a pack of the bundle store *)
  | Audited (event : string) (fs : pydict)      (* a record written to the spool *)
  | VaultIs (db : VaultDb)                      (* what the vault's file holds now *)
  | IndexIs (db : AuditIndex)                   (* what the audit index holds now *)
  | Forwarded (f : Fwd)                         (* the forwarder's watermark, and what its sink took *)
  | Serve (host : string) (port : Z) (gateway_token : option string)   (* an HTTP server runs until it is stopped *)
  | Annotated (fs : pydict)                     (* default fields of the records that follow *)
  | Ran (evs : list event).                     (* what a gateway did while it ran *)

Abbreviation Cli := (M (list effect)).
Definition perform (e : effect) : Cli unit := modify (fun l => l ++ [e]).
Definition print (text : string) : Cli unit := perform (Out (text +:+ newline)).
Definition print_err (text : string) : Cli unit := perform (ErrOut (text +:+ newline)).
Definition print_json (v : val) : Cli unit := print (json_dumps_indent v).
Fixpoint each {A} (f : A -> Cli unit) (l : list A) : Cli unit :=
  match l with [] => mret tt | x :: l => _ ← f x; each f l end.

(** [recorder.emit] over a spool: a failure to write goes to standard error and nowhere else. *)
Definition record (spool_writes : bool) (event : string) (fs : list (string * val)) : Cli unit :=
  if spool_writes then perform (Audited event (fields fs))
  else print_err "mcp-gateway: audit sink JsonlSpool failed: OSError".

(** [except GatewayError as exc: ...] *)
Definition catch {A} (m : Cli A) (h : string -> Cli A) : Cli A :=
  try_catch m (fun e => if is_gateway_error e then h (exn_msg e) else throw e).

(** ** The connector search path ([connectors/registry.py]) *)
Definition user_dir (environ : string -> option string) (home : string) : string :=
  path_join (path_join (default (path_join home ".config") (given (environ "XDG_CONFIG_HOME"))) "mcp-gateway") "connectors".
(** [bundled] is the directory of the packs that ship with the gateway. *)
Definition search_paths (environ : string -> option string) (home bundled : string) : list string :=
  (match given (environ "MCPG_CONNECTORS_DIR") with
   | Some env => List.filter nonempty (of_chars <$> split_by ":" (chars env))
   | None => [] end) ++ [user_dir environ home; bundled].

(** * The options of the commands, as the parser names them *)
Record ShowArgs := { sh_policy : list string; sh_json : bool }.
Record TestArgs := { ts_policy : list string; ts_tests : string }.
Record BacktestArgs := { bk_policy : list string; bk_audit : string; bk_json : bool }.
Record CiArgs := { ci_root_dir : string; ci_only : list string; ci_min_goldens : nat; ci_no_backtest : bool;
                   ci_json : bool; ci_github : bool }.
Record DiffArgs := { df_base : string; df_head : string; df_markdown : bool; df_json : bool; df_fail_on_crossing : bool }.
Record BuildArgs := { bb_connector : option string; bb_policy : list string; bb_out : string; bb_sign_key : option string;
                      bb_name : option string; bb_version : option string }.
Record VerifyArgs := { bv_bundle : string; bv_public_key : option string; bv_json : bool }.
Record StoreArgs := { bs_subject : string; bs_public_key : string }.
Record KeygenArgs := { kg_out : string; kg_force : bool }.

Section Policy.
Context `{Regex} `{Crypto} `{KeyLib} (fs : FS) (yaml_load : string -> option val) (svc : RedactionService).
(** The connector search path, the environment, and the clock in the formats of a bundle. *)
Context (roots : list string) (environ : string -> option string) (stamp iso : string).

(** ** [policy validate] *)
Definition validate_one (acc : list PolicyLayer * bool) (path : string) : Cli (list PolicyLayer * bool) :=
  catch (layer ← lift (load_policy_file (f_text fs) yaml_load path);
         _ ← print ("ok       " +:+ path); mret (acc.1 ++ [layer], acc.2))
        (fun msg => _ ← print_err ("invalid  " +:+ msg); mret (acc.1, true)).
Fixpoint validate_all (acc : list PolicyLayer * bool) (paths : list string) : Cli (list PolicyLayer * bool) :=
  match paths with [] => mret acc | p :: ps => acc ← validate_one acc p; validate_all acc ps end.

Definition run_policy_validate (files : list string) : Cli Z :=
  '(layers, failed) ← validate_all ([], false) files;
  if (failed : bool) then mret 1%Z
  else match layers with
  | [] => mret 0%Z
  | _ =>
      catch (_ ← lift (PolicyEngine_init layers);
             _ ← when (1 <? List.length layers) (print ("ok       merged result of " +:+ pretty (List.length layers) +:+ " layers"));
             mret 0%Z)
            (fun msg => _ ← print_err ("invalid  merged: " +:+ msg); mret 1%Z)
  end.

(** ** [policy show] *)
Definition rule_notes (pc : string * CompiledRule) : list string :=
  let c := pc.2 in let b := base c in
  (match er_constraints b with [] => [] | cs => [pretty (List.length cs) +:+ " constraint(s)"] end)
  ++ (match er_rewrites b with [] => [] | rs => [pretty (List.length rs) +:+ " rewrite(s)"] end)
  ++ (if py_eqb (er_action b) (VStr "require_approval") then ["then=" +:+ py_str (er_then b)] else [])
  ++ match overlays c with
     | [] => []
     | os => ["roles: " +:+ join ", " ((fun re => re.1 +:+ "→" +:+ py_str (er_action re.2)) <$> os)]
     end.
Definition show_rule (w : nat) (pc : string * CompiledRule) : string :=
  "  " +:+ ljust w pc.1 +:+ "  " +:+ ljust 16 (py_str (er_action (base pc.2)))
  +:+ match rule_notes pc with [] => "" | notes => "   [" +:+ join "; " notes +:+ "]" end.

Definition run_policy_show (ns : ShowArgs) : Cli Z :=
  engine ← lift (engine_load fs yaml_load (sh_policy ns));
  if sh_json ns then _ ← print_json (describe engine); mret 0%Z
  else
    _ ← print ("layers:         " +:+ join " + " (layer_names engine));
    _ ← print ("default action: " +:+ default_action engine);
    _ ← print "";
    _ ← each (fun pc => print (show_rule (widest (akeys (rules engine))) pc)) (rules engine);
    mret 0%Z.

(** ** [policy test] and [policy backtest] *)
Definition print_golden (r : GoldenResult) : Cli unit :=
  _ ← print ((if passed r then "PASS" else "FAIL") +:+ "  " +:+ py_str (g_name r));
  each (fun f => print ("      " +:+ f)) (g_failures r).

Definition run_policy_test (sid started : string) (ns : TestArgs) : Cli Z :=
  results ← lift (run_policy_tests fs yaml_load svc sid started (ts_policy ns) (ts_tests ns));
  let failed := List.filter (fun r => negb (passed r)) results in
  _ ← each print_golden results;
  _ ← print (newline +:+ pretty (List.length results - List.length failed) +:+ "/" +:+ pretty (List.length results) +:+ " passed");
  mret (match failed with [] => 0 | _ => 1 end)%Z.

(** A report, not a gate; calls are scored against the bare registry. *)
Definition run_policy_backtest (ns : BacktestArgs) : Cli Z :=
  engine ← lift (engine_load fs yaml_load (bk_policy ns));
  report ← lift (backtest_policy (chars <$> f_text fs (bk_audit ns)) engine registry_denying_actions);
  _ ← (if bk_json ns then print_json (backtest_to_dict report) else print (backtest_format_report report));
  mret 0%Z.

(** ** [policy ci] *)

(** Whether the job summary's file can be appended to. *)
Context (appendable : string -> bool).

Definition run_policy_ci_cmd (sid started : string) (ns : CiArgs) : Cli Z :=
  report ← lift (run_policy_ci fs yaml_load svc sid started (ci_root_dir ns) (ci_min_goldens ns)
                   (negb (ci_no_backtest ns)) (ci_only ns));
  _ ← (if ci_json ns then print_json (ci_to_dict report) else print (ci_format_text report));
  _ ← when (ci_github ns)
        (_ ← each print (github_annotations report);
         match given (environ "GITHUB_STEP_SUMMARY") with
         | None => mret tt
         | Some path =>
             if appendable path then perform (AppendFile path (ci_format_markdown report))
             else print_err "warning: could not write job summary: OSError"
         end);
  mret (if ci_ok report then 0 else 1)%Z.

(** ** [policy diff]; both checkouts are directories of the same file system *)
Definition run_policy_diff (ns : DiffArgs) : Cli Z :=
  packs ← lift (diff_roots svc yaml_load fs fs (df_base ns) (df_head ns));
  let result := {| rd_base := df_base ns; rd_head := df_head ns; rd_packs := packs |} in
  _ ← (if df_json ns then print_json (repo_diff_to_dict result)
       else if df_markdown ns then perform (Out (diff_format_markdown result))
       else print (diff_format_text result));
  if df_fail_on_crossing ns && negb (rd_sum newly_ungated result =? 0) then
    _ ← print_err ("error: " +:+ pretty (rd_sum newly_ungated result) +:+ " decision(s) that were refused would now go through un-gated");
    mret 1%Z
  else mret 0%Z.

(** ** [policy keygen] *)
Definition path_exists (path : string) : bool := is_file fs path || is_dir fs path.

Definition run_policy_keygen (ns : KeygenArgs) : Cli Z :=
  let priv_path := kg_out ns +:+ ".pem" in
  let pub_path := kg_out ns +:+ ".pub.pem" in
  _ ← (if kg_force ns then mret tt
       else lift (iter_res (fun p => require (negb (path_exists p)) GatewayError (p +:+ " exists (use --force to overwrite)"))
                    [priv_path; pub_path]));
  key ← lift generate_keypair;
  pem ← lift (private_key_to_pem key);
  _ ← perform (WriteFile priv_path pem);
  _ ← perform (Chmod priv_path 384);
  pub ← lift (public_key_to_pem (sk_public_raw key));
  _ ← perform (WriteFile pub_path pub);
  _ ← print ("private key: " +:+ priv_path +:+ "  (keep secret; chmod 600)");
  _ ← print ("public key:  " +:+ pub_path);
  _ ← print ("key id:      " +:+ key_id (sk_public_raw key));
  mret 0%Z.

(** ** [policy bundle ...] *)
Definition bundle_build_layers (ns : BuildArgs) : result (list string) :=
  match given (bb_connector ns), bb_policy ns with
  | Some _, _ :: _ => raise GatewayError "bundle build: use --connector or --policy, not both"
  | Some name, [] => c ← find_connector fs yaml_load name roots; Ok (policy_layers fs c)
  | None, (_ :: _) as paths => Ok paths
  | None, [] => raise GatewayError "bundle build: provide --connector NAME or --policy FILE"
  end.

Definition run_policy_bundle_build (ns : BuildArgs) : Cli Z :=
  layers ← lift (bundle_build_layers ns);
  bundle ← lift (build_bundle (f_text fs) yaml_load layers (bb_name ns) (bb_version ns) stamp iso);
  '(bundle, signed) ← lift (match given (bb_sign_key ns) with
     | Some path => key ← load_signing_key fs path;
                    Ok (sign_with key bundle, "signed by " +:+ py_str (b_signer_key_id (sign_with key bundle)))
     | None => Ok (bundle, "UNSIGNED (add --sign-key to sign)")
     end);
  _ ← perform (WriteFile (bb_out ns) (bundle_text bundle));
  _ ← print ("wrote " +:+ bb_out ns);
  _ ← print ("  name:    " +:+ b_name bundle);
  _ ← print ("  version: " +:+ b_version bundle);
  _ ← print ("  hash:    " +:+ b_content_hash bundle);
  _ ← print ("  " +:+ signed);
  mret 0%Z.

Definition verify_to_dict (b : PolicyBundle) (r : VerifyResult) : val := VObj
  [("name", VStr (b_name b)); ("version", VStr (b_version b)); ("content_hash", VStr (b_content_hash b));
   ("ok", VBool (vr_ok r)); ("integrity_ok", VBool (integrity_ok r)); ("signature_state", VStr (state_str (vr_signature r)));
   ("reasons", strs (reasons r))].

(** Without a key only the hash is judged. *)
Definition run_policy_bundle_verify (ns : VerifyArgs) : Cli Z :=
  bundle ← lift (load_bundle fs (bv_bundle ns));
  key ← lift (match given (bv_public_key ns) with
              | Some path => k ← load_verifying_key fs path; Ok (Some k) | None => Ok None end);
  let result := verify_bundle bundle key in
  _ ← (if bv_json ns then print_json (verify_to_dict bundle result)
       else
         _ ← print ("bundle:  " +:+ b_name bundle +:+ " " +:+ b_version bundle);
         _ ← print ("result:  " +:+ vr_summary result);
         _ ← each (fun r => print ("  - " +:+ r)) (reasons result);
         when (negb (is_some key)) (print "  (no --public-key: signature was not checked — inspection only)"));
  mret (if (if is_some key then vr_ok result else integrity_ok result) then 0 else 1)%Z.

(** The manifest document of [to_dict]. *)
Definition manifest_info (b : PolicyBundle) : list (string * val) :=
  manifest_fields b ++ [("signer_key_id", b_signer_key_id b)].
Definition run_policy_bundle_show (path : string) (json : bool) : Cli Z :=
  bundle ← lift (load_bundle fs path);
  let ok := integrity_ok (verify_bundle bundle None) in
  let signed := is_some (b_signature bundle) in
  if json then
    _ ← print_json (VObj (manifest_info bundle ++ [("integrity_ok", VBool ok); ("signed", VBool signed)])); mret 0%Z
  else
    _ ← print ("name:         " +:+ b_name bundle);
    _ ← print ("version:      " +:+ b_version bundle);
    _ ← print ("created:      " +:+ b_created bundle);
    _ ← print ("content hash: " +:+ b_content_hash bundle +:+ "  (" +:+ (if ok then "ok" else "MISMATCH") +:+ ")");
    who ← lift (if signed then match b_signer_key_id bundle with
                               | VStr s => Ok ("yes, by " +:+ s)
                               | _ => raise TypeError "can only concatenate str to str" end
                else Ok "no");
    _ ← print ("signed:       " +:+ who);
    _ ← print "layers:";
    _ ← each (fun l => print ("  - " +:+ bl_name l +:+ "  (" +:+ pretty (String.length (bl_text l)) +:+ " bytes)")) (b_layers bundle);
    mret 0%Z.

(** The packs of the bundle store, by name, and the time an installation records. *)
Context (packs : string -> Pack) (now : string).

Definition store_writes (name : string) (ws : list write) : Cli unit := each (fun w => perform (StoreWrite name w)) ws.

Definition run_policy_bundle_install (ns : StoreArgs) : Cli Z :=
  key ← lift (load_verifying_key fs (bs_public_key ns));
  bundle ← lift (load_bundle fs (bs_subject ns));
  let '(ws, r) := install key bundle now (packs (b_name bundle)) in
  _ ← store_writes (b_name bundle) ws;
  result ← lift r;
  _ ← print ((if accepted result then "installed" else "REJECTED") +:+ "  " +:+ ir_name result +:+ " "
             +:+ py_str (ir_version result) +:+ ": " +:+ ir_reason result);
  _ ← when (accepted result && truthy (displaced_version result))
        (print ("  last-known-good is now " +:+ py_str (displaced_version result)));
  mret (if accepted result then 0 else 1)%Z.

Definition run_policy_bundle_rollback (ns : StoreArgs) : Cli Z :=
  key ← lift (load_verifying_key fs (bs_public_key ns));
  let '(ws, r) := rollback key (bs_subject ns) (packs (bs_subject ns)) in
  _ ← store_writes (bs_subject ns) ws;
  result ← lift r;
  _ ← print ((if accepted result then "rolled back" else "FAILED") +:+ ": " +:+ ir_reason result);
  mret (if accepted result then 0 else 1)%Z.

Definition run_policy_bundle_current (store : string) (ns : StoreArgs) : Cli Z :=
  key ← lift (load_verifying_key fs (bs_public_key ns));
  resolved ← lift (current key (packs (bs_subject ns)));
  match resolved with
  | None => _ ← print_err (bs_subject ns +:+ ": no usable bundle in " +:+ store); mret 1%Z
  | Some r =>
      _ ← print (b_name (res_bundle r) +:+ " " +:+ b_version (res_bundle r)
                 +:+ (if fell_back r then " (last-known-good fallback)" else ""));
      mret 0%Z
  end.
End Policy.

(** * Running commands *)
Section Run.
Context {A B : Type}.

Lemma run_bind (c : Cli A) (f : A -> Cli B) l b l' : (x ← c; f x) l = (Ok b, l') <->
  exists a l1, c l = (Ok a, l1) /\ f a l1 = (Ok b, l').
Proof.
  unfold mbind, M_bind. destruct (c l) as [[a|e] l1]; [|naive_solver]. split; [by eauto|]. by intros (? & ? & [= -> ->] & ?).
Qed.

Lemma run_lift (r : result A) l a l' : (lift r : Cli A) l = (Ok a, l') <-> r = Ok a /\ l' = l.
Proof. unfold lift. naive_solver. Qed.

Lemma bind_lift (r : result A) (f : A -> Cli B) l : (x ← (lift r : Cli A); f x) l = match r with Ok a => f a l | Err e => (Err e, l) end.
Proof. by destruct r. Qed.

(** Printing does not change a command's answer. *)
Lemma answer_after (c : Cli A) (f : A -> Cli B) (r : result B) l :
  no_raise c -> (forall a l', (f a l').1 = r) -> ((x ← c; f x) l).1 = r.
Proof.
  intros Hc Hf. unfold mbind, M_bind. destruct (Hc l) as [a Ha]. destruct (c l) as [q l1]. cbn in Ha. subst q. apply Hf.
Qed.
End Run.

Lemma no_raise_perform e : no_raise (perform e).
Proof. apply no_raise_modify. Qed.
Lemma no_raise_each {A} (f : A -> Cli unit) l : (forall x, no_raise (f x)) -> no_raise (each f l).
Proof. intros Hf. induction l as [|x l IH]; cbn; [apply no_raise_ret|]. by apply no_raise_bind. Qed.
#[export] Hint Resolve no_raise_perform : keeps.
Lemma no_raise_print s : no_raise (print s). Proof. apply no_raise_perform. Qed.
Lemma no_raise_print_err s : no_raise (print_err s). Proof. apply no_raise_perform. Qed.
Lemma no_raise_print_json v : no_raise (print_json v). Proof. apply no_raise_perform. Qed.
Lemma no_raise_record b e fs : no_raise (record b e fs).
Proof. destruct b; [apply no_raise_perform|apply no_raise_print_err]. Qed.
#[export] Hint Resolve no_raise_print no_raise_print_err no_raise_print_json no_raise_record : keeps.
#[export] Hint Extern 2 (no_raise (each _ _)) => apply no_raise_each; intros; no_raise_tac : keeps.

(** [answered z]: what is left of a command only prints, then answers [z]. *)
Ltac answered := repeat (apply answer_after; [solve [no_raise_tac; eauto with keeps]|intros ? ?]); reflexivity.

(** The exit codes a command may answer with. *)
Definition ret_in {A} (P : A -> Prop) (c : Cli A) : Prop := forall l a, (c l).1 = Ok a -> P a.

Lemma ret_in_ret {A} (P : A -> Prop) a : P a -> ret_in P (mret a).
Proof. by intros Ha l b [= <-]. Qed.
Lemma ret_in_throw {A} (P : A -> Prop) e : ret_in P (throw e).
Proof. by intros l a. Qed.
Lemma ret_in_bind {A B} (P : B -> Prop) (c : Cli A) (f : A -> Cli B) : (forall a, ret_in P (f a)) -> ret_in P (c ≫= f).
Proof. intros Hf l b. unfold mbind, M_bind. destruct (c l) as [[a|e] l1]; [apply Hf|done]. Qed.
Lemma ret_in_catch {A} (P : A -> Prop) (c : Cli A) h : ret_in P c -> (forall msg, ret_in P (h msg)) -> ret_in P (catch c h).
Proof.
  intros Hc Hh l a. unfold catch, try_catch. pose proof (Hc l) as H. destruct (c l) as [[b|e] l1]; [exact (H a)|].
  destruct (is_gateway_error e); [apply Hh|done].
Qed.
Definition exit_code (z : Z) : Prop := z = 0%Z \/ z = 1%Z \/ z = 2%Z.
Ltac exit_tac :=
  repeat first
    [ apply ret_in_ret; unfold exit_code; repeat case_match; lia
    | apply ret_in_throw | apply ret_in_bind; intros ? | apply ret_in_catch; [|intros ?] | progress case_match ].

(** * Observations *)
Section Observed.
#[local] Existing Instance literal_regex.

(** The command scores a call against the bare registry, where [redact] can only refuse: a
    recorded call that a policy redacts is reported as one the very same policy would newly
    block, though every gateway the command line starts has a redaction service. *)
Definition redacting_policy (_ : string) : option val := Some (VObj
  [("schema_version", VInt 1); ("default_action", VStr "block"); ("tools", VObj [("mail.read", VObj [("action", VStr "redact")])])]).
Definition redacted_call : bytes := spool_emit []
  (fields [("event", VStr "tool_call_allowed"); ("session_id", VStr "s1"); ("tool", VStr "mail.read"); ("action", VStr "redact")]).
Lemma redacted_call_newly_blocked :
  let fs := {| f_text := fun p => if String.eqb p "audit.log" then Some (of_chars redacted_call) else Some ""; f_children := fun _ => None |} in
  exists e r, engine_load fs redacting_policy ["p.yaml"] = Ok e /\
    backtest_policy (chars <$> f_text fs "audit.log") e registry_denying_actions = Ok r /\ n_newly_blocked r = 1 /\
    exists r', backtest_policy (chars <$> f_text fs "audit.log") e (effective_deny_set demo_service) = Ok r' /\
      n_newly_blocked r' = 0 /\ n_unchanged r' = 1.
Proof.
  eexists _, _. split; [vm_compute; reflexivity|]. split; [vm_compute; reflexivity|]. split; [reflexivity|].
  eexists. split; [vm_compute; reflexivity|]. by split.
Qed.
End Observed.
