(* ===== verification/CliOps.v ===== *)
(** The command line, operations: the handlers of [cli/__init__.py] for [audit reindex] and
    [forward], [redact], [detokenize], [connectors ...], [console ...] and [serve]. An event
    whose name is not text, on which a mapping of the forwarder would raise, is outside the
    model. *)
From Stdlib Require Import SpecFloat.
From S2P Require Import Prelude Base64 PyVal Json Session Rules Loader Merge Engine Spans Redaction Detectors Vault RedactionEval Approvals Pipeline Gateway Spool Forwarder AuditIndex Connectors Scaffold Reports Console Passwords Central Cli.

(** * Options *)
Record ReindexArgs := { ri_audit : string; ri_index : string; ri_incremental : bool }.
Record ForwardArgs := {
  fd_audit : string; fd_watermark : option string; fd_sink : string; fd_format : string; fd_batch_size : Z;
  fd_once : bool; fd_poll_seconds : Z; fd_url : option string; fd_header : list string; fd_token_env : option string;
  fd_sourcetype : string; fd_bucket : option string; fd_prefix : string }.
Record RedactArgs := { rd_profile : string; rd_json : bool; rd_eval : bool; rd_file : option string }.
Record DetokenizeArgs := { dt_vault : string; dt_audit : string; dt_principal : string; dt_token : string }.
Record ConsoleArgs := {
  cs_index : string; cs_audit : string; cs_users : string; cs_policy : list string; cs_host : string; cs_port : Z;
  cs_secret_env : string; cs_gateway_token_env : option string; cs_allow_insecure_approvals : bool }.
Record ServeArgs := { sv_config : string; sv_host : string; sv_port : Z }.

Definition is_value_error (e : exn) : bool := bool_decide (exn_cls e ∈ [ValueError; JSONDecodeError]).

Section Ops.
Context (fs : FS) (yaml_load : string -> option val) (environ : string -> option string) (stdin : string).

(** [_load_config_file_generic]: a missing file, bad JSON and bad YAML raise what they raise. *)
Definition load_config_file_generic (path : string) : result val :=
  text ← of_option (f_text fs path) (Exn OtherError ("FileNotFoundError: " +:+ path));
  if endswith ".json" path then json_loads text else of_option (yaml_load text) (Exn OtherError "YAMLError").

(** [_load_config_file] *)
Definition load_config_file (path : string) : result (list val) :=
  document ← load_config_file_generic path;
  let document := match document with VDict d => default document (dget "recognizers" d) | _ => document end in
  of_option (as_list document) (Exn GatewayError (path +:+ ": expected a list of recognizers")).

(** ** [audit reindex]; the index before the command *)
Definition run_audit_reindex (index : AuditIndex) (ns : ReindexArgs) : Cli Z :=
  let file := chars <$> f_text fs (ri_audit ns) in
  '(db, (inserted, next, bad, torn)) ← lift (if ri_incremental ns then catch_up file index else rebuild file index);
  _ ← perform (IndexIs db);
  _ ← print ((if ri_incremental ns then "caught up" else "rebuilt") +:+ " " +:+ ri_index ns +:+ " from " +:+ ri_audit ns +:+ ": "
             +:+ pretty inserted +:+ " event(s) indexed, next_offset=" +:+ pretty next);
  _ ← when (negb (bad =? 0)) (print_err ("  warning: " +:+ pretty bad +:+ " unparseable line(s) skipped"));
  _ ← when torn (print_err "  note: a torn final line was skipped (writer still appending)");
  mret 0%Z.

(** ** [audit forward] *)

(** [_headers] *)
Definition add_header (out : list (string * string)) (item : string) : result (list (string * string)) :=
  match split_by ":" (chars item) with
  | k :: ((_ :: _) as rest) => Ok (aset (strip (of_chars k)) (strip (join ":" (of_chars <$> rest))) out)
  | _ => raise GatewayError ("--header must be 'Key: Value', got " +:+ str_repr item)
  end.
Definition token_of_env (name : option string) : option string := match given name with Some n => environ n | None => None end.

(** The HTTP client and the object store, as the sinks use them. *)
Context (post : Poster) (s3 : S3Sink -> Sink).

Definition build_sink (ns : ForwardArgs) : result Sink :=
  let token := token_of_env (fd_token_env ns) in
  if String.eqb (fd_sink ns) "webhook" then
    match given (fd_url ns) with
    | None => raise GatewayError "--sink webhook requires --url"
    | Some url =>
        headers ← fold_res add_header [] (fd_header ns);
        let headers := match given token with
                       | Some t => if ahas "Authorization" headers then headers else headers ++ [("Authorization", "Bearer " +:+ t)]
                       | None => headers end in
        Ok (webhook_sink {| wh_url := url; wh_headers := headers; as_array := false |} post)
    end
  else if String.eqb (fd_sink ns) "splunk" then
    match given (fd_url ns), given token with
    | None, _ => raise GatewayError "--sink splunk requires --url (the HEC base URL)"
    | _, None => raise GatewayError "--sink splunk requires --token-env naming the HEC token var"
    | Some url, Some t => s ← SplunkHecSink_init url t (fd_sourcetype ns) None; Ok (splunk_sink s post)
    end
  else if String.eqb (fd_sink ns) "s3" then
    match given (fd_bucket ns) with
    | None => raise GatewayError "--sink s3 requires --bucket"
    | Some b => s ← S3Sink_init b (fd_prefix ns); Ok (s3 s)
    end
  else raise GatewayError ("unknown sink " +:+ str_repr (fd_sink ns)).

(** [MAPPERS[format]]; the inner [None] stands for the event a mapping raises on. *)
Definition mapper_of (version format : string) : option (pydict -> option pydict) :=
  let total (f : pydict -> result pydict) e := match f e with Ok d => Some d | Err _ => None end in
  if String.eqb format "ocsf" then Some (total (to_ocsf version))
  else if String.eqb format "ecs" then Some (total to_ecs) else None.

Definition forward_config (version : string) (ns : ForwardArgs) : ForwarderConfig :=
  Forwarder_init (fd_batch_size ns) (mapper_of version (fd_format ns)) DEFAULT_ALARM_LAG_BYTES true.
Definition lag_warning (sink : string) (lag : nat) : string :=
  "warning: forwarder lag is " +:+ pretty lag +:+ " bytes — is the " +:+ sink +:+ " sink down?".
Definition watermark_path (sink : Sink) (ns : ForwardArgs) : string :=
  default (fd_audit ns +:+ "." +:+ sink_name sink +:+ ".wm") (given (fd_watermark ns)).

(** [ticks]: what the spool and the sink are in each round until the interrupt. *)
Definition run_audit_forward (version : string) (ticks : list Tick) (ns : ForwardArgs) : Cli Z :=
  sink ← lift (build_sink ns);
  let wm := watermark_path sink ns in
  let cfg := forward_config version ns in
  _ ← print ("forwarding " +:+ fd_audit ns +:+ " -> " +:+ sink_name sink +:+ " (format=" +:+ fd_format ns +:+ ", watermark=" +:+ wm +:+ ")");
  start ← lift (watermark_load (f_text fs wm));
  let f := {| watermark := Z.to_nat start; accepted := []; alarms := [] |} in
  if fd_once ns then
    let file := chars <$> f_text fs (fd_audit ns) in
    '(result, f) ← lift (drain (S (match file with Some b => List.length b | None => 0 end)) cfg file (deliver sink) 0 f);
    _ ← each (fun lag => print_err (lag_warning (sink_name sink) lag)) (alarms f);
    _ ← perform (Forwarded f);
    _ ← print ("drained " +:+ pretty (fw_delivered result) +:+ " event(s); watermark at " +:+ pretty (fw_watermark result) +:+ ", "
               +:+ pretty (fw_lag result) +:+ " byte(s) behind");
    if fw_ok result then mret 0%Z
    else _ ← print_err ("error: delivery failed: " +:+ default "None" (fw_error result)); mret 1%Z
  else
    st ← lift (run cfg (fd_poll_seconds ns) 60 f ticks);
    _ ← each (fun lag => print_err (lag_warning (sink_name sink) lag)) (alarms (rs_fwd st));
    _ ← perform (Forwarded (rs_fwd st));
    _ ← print_err (newline +:+ "stopped");
    mret 0%Z.

(** ** [detokenize] *)
Context `{VaultCrypto} (spool_opens : string -> result unit) (spool_writes : bool).

(** A vault operation, on the file as it is. *)
Definition on_vault {A} (m : V A) (db : VaultDb) : Cli (A * VaultDb) :=
  let '(r, db') := m db in _ ← perform (VaultIs db'); a ← lift r; mret (a, db').

Definition run_detokenize (db : VaultDb) (ns : DetokenizeArgs) : Cli Z :=
  kek ← lift (load_kek_from_env (environ KEK_ENV_VAR));
  match kek with
  | None => throw (Exn GatewayError ("detokenize needs a base64 key in $" +:+ KEK_ENV_VAR))
  | Some kek =>
      '(v, db) ← on_vault (open_vault kek) db;
      '(value, _) ← on_vault (detokenize v (dt_token ns)) db;
      _ ← lift (spool_opens (dt_audit ns));
      _ ← record spool_writes "detokenize" [("principal", VStr (dt_principal ns)); ("token", VStr (dt_token ns));
                             ("found", VBool (match value with Some _ => true | None => false end))];
      match value with
      | None => _ ← print_err ("mcp-gateway: token not found in vault: " +:+ dt_token ns); mret 1%Z
      | Some value => _ ← print value; mret 0%Z
      end
  end.

(** ** [redact] *)
Context `{Regex} `{Finditer} `{FloatLib} `{Keyed} (presidio : Detector).
Definition MAX_BYTES : nat := 4 * 1024 * 1024.
Definition empty_context : DetectionContext := {| allowlist := ∅; denylist := ∅; context_words := ∅ |}.
Definition spec_of_profile (profile : string) : RedactionSpec :=
  {| spec_profile := profile; spec_allowlist := ∅; spec_denylist := ∅; spec_context_words := ∅; exclude_keys := ∅ |}.

Definition run_redact (ns : RedactArgs) : Cli Z :=
  match build_engine (get_detector presidio) None MAX_BYTES (rd_profile ns) with
  | Err e => if is_value_error e then _ ← print_err ("mcp-gateway redact: " +:+ exn_msg e); mret 2%Z else throw e
  | Ok engine =>
      if rd_eval ns then
        '(overall, by_entity) ← lift (evaluate (engine_counts engine []) BUILTIN_CORPUS);
        _ ← print (format_report overall by_entity); mret 0%Z
      else
        raw ← lift (match given (rd_file ns) with
                    | Some path => of_option (f_text fs path) (Exn OtherError ("FileNotFoundError: " +:+ path))
                    | None => Ok stdin end);
        report ← (if rd_json ns then
                    document ← lift (json_loads raw);
                    '(redacted, (report, _)) ← lift (service_redact (get_detector presidio) None MAX_BYTES document (spec_of_profile (rd_profile ns)) []);
                    _ ← print_json redacted; mret report
                  else
                    '(redacted, (report, _)) ← lift (redact_text engine raw empty_context []);
                    _ ← perform (Out (redacted +:+ (if endswith newline raw then "" else newline))); mret report);
        _ ← print_err (newline +:+ "[" +:+ pretty (List.length report) +:+ " redaction(s): " +:+ py_repr (counts_val (counts_by_entity report)) +:+ "]");
        mret 0%Z
  end.

(** ** [connectors ...] *)
Context (roots : list string).

Definition run_connectors_list : Cli Z :=
  found ← lift (list_connectors fs yaml_load roots);
  match found with
  | [] => _ ← print_err "no connectors found"; mret 0%Z
  | _ => _ ← each (fun c => print ("  " +:+ ljust (widest (c_name <$> found)) (c_name c) +:+ "  " +:+ description c)) found; mret 0%Z
  end.

(** The [repr] of a dictionary of counts. *)
Definition risks_repr (l : list (val * Z)) : string :=
  "{" +:+ join ", " ((fun rn => py_repr rn.1 +:+ ": " +:+ pretty rn.2) <$> l) +:+ "}".
Definition risks_val (l : list (val * Z)) : val := VObj ((fun rn => (py_str rn.1, VInt rn.2)) <$> l).

Definition run_connectors_show (name : string) (json : bool) : Cli Z :=
  c ← lift (find_connector fs yaml_load name roots);
  '(info, by_risk) ← lift (connector_describe fs yaml_load c);
  if json then _ ← print_json (VObj (info ++ [("tools_by_risk", risks_val by_risk)])); mret 0%Z
  else
    _ ← print ("name:        " +:+ c_name c);
    _ ← print ("description: " +:+ description c);
    _ ← print ("path:        " +:+ c_path c);
    _ ← when (truthy (VDict (upstream c))) (print ("upstream:    " +:+ py_repr (VDict (upstream c))));
    _ ← when (match launch c with [] => false | _ => true end) (print ("launch:      " +:+ join " " (launch c)));
    _ ← print ("tools:       " +:+ py_str (aget_or "tool_count" VNone info) +:+ " (" +:+ risks_repr by_risk +:+ ")");
    _ ← print ("tests:       " +:+ (match tests_path fs c with Some _ => "yes" | None => "no" end));
    mret 0%Z.

Definition run_connectors_scaffold (name dir : string) (force : bool) : Cli Z :=
  '(files, target) ← lift (scaffold_connector fs name dir force);
  _ ← each (fun pt => perform (WriteFile pt.1 pt.2)) files;
  _ ← print ("created connector " +:+ str_repr name +:+ " at " +:+ target);
  _ ← print ("  validate: mcp-gateway policy validate " +:+ target +:+ "/policy.yaml");
  _ ← print ("  test:     mcp-gateway policy test --policy " +:+ target +:+ "/policy.yaml --tests " +:+ target +:+ "/policy_tests.yaml");
  mret 0%Z.

(** ** [console ...] and [serve] *)
Context (server_installed : bool) (hash : string -> string).

Definition load_user (path : string) (users : list (string * (User * string))) (record : val) : result (list (string * (User * string))) :=
  match record with VDict d => add_user hash users d | _ => raise AttributeError "object has no attribute 'get'" end.
Definition load_users_file (path : string) : result (list (string * (User * string))) :=
  document ← load_config_file_generic path;
  let document := match document with VDict d => default document (dget "users" d) | _ => document end in
  records ← of_option (as_list document) (Exn GatewayError (path +:+ ": expected a list of users (or a 'users:' key)"));
  match fold_res (load_user path) [] records with
  | Err e => if is_value_error e then raise GatewayError (path +:+ ": " +:+ exn_msg e) else Err e
  | r => r
  end.

Definition console_exposed (ns : ConsoleArgs) : string :=
  "console serve --host " +:+ cs_host ns +:+ " would expose the cookieless approvals endpoint (POST /api/approvals) to the network with no shared token, so anyone reachable could flood the approval queue. Set --gateway-token-env NAME (with the token in $NAME), or pass --allow-insecure-approvals if the endpoint is already protected by an upstream proxy.".

(** [create_app] makes the routes of the module [Console], with this token. *)
Definition run_console_serve (ns : ConsoleArgs) : Cli Z :=
  _ ← lift (require server_installed GatewayError "the console needs the [server] extra: pip install 'mcp-gateway[server]'");
  users ← lift (load_users_file (cs_users ns));
  _ ← lift (require (match users with [] => false | _ => true end) GatewayError
              (cs_users ns +:+ ": no users defined — the console would be unusable"));
  let gateway_token := token_of_env (cs_gateway_token_env ns) in
  _ ← lift (require (match gateway_token with Some _ => true | None => false end
                     || is_loopback_host (cs_host ns) || cs_allow_insecure_approvals ns) GatewayError (console_exposed ns));
  _ ← when (negb (nonempty (default "" (environ (cs_secret_env ns)))))
        (print_err ("mcp-gateway console: $" +:+ cs_secret_env ns
           +:+ " unset — using a random cookie secret; sessions will not survive a restart."));
  _ ← match cs_policy ns with [] => mret tt | paths => _ ← lift (engine_load fs yaml_load paths); mret tt end;
  _ ← perform (Serve (cs_host ns) (cs_port ns) gateway_token);
  mret 0%Z.

(** [sys.stdin.readline().rstrip("\n")]; a carriage return ends a line as well. *)
Definition first_line (text : string) : string :=
  of_chars (take_while (fun a => negb (nat_of_ascii a =? 10) && negb (nat_of_ascii a =? 13)) (chars text)).
Definition run_console_hash_password (password : option string) : Cli Z :=
  let password := default (first_line stdin) password in
  if nonempty password then _ ← print (hash password); mret 0%Z
  else _ ← print_err "mcp-gateway: empty password"; mret 2%Z.

Context (resolve_path : string -> string -> string) {Store : Type} (connect : val -> result Store)
  (open_session : option Store -> string -> result Session) (load_identity : string -> result (nat -> option string -> result Principal)) (svc : RedactionService)
  (spool_directory : string -> string) (writable : string -> bool).

Definition run_serve (ns : ServeArgs) : Cli Z :=
  _ ← lift (require server_installed GatewayError "the central gateway needs the [server] extra: pip install 'mcp-gateway[server]'");
  config ← lift (load_gateway_config fs yaml_load resolve_path (sv_config ns));
  _ ← lift (build_central_app fs yaml_load connect open_session load_identity svc spool_directory writable config None);
  _ ← print_err ("mcp-gateway serve: " +:+ pretty (List.length (upstreams config)) +:+ " upstream(s) ["
        +:+ join ", " (isort str_leb (elements (gc_names config))) +:+ "] on http://" +:+ sv_host ns +:+ ":" +:+ pretty (sv_port ns)
        +:+ "/servers/<name>/mcp (audit → " +:+ spool_path config +:+ ", state → " +:+ state_backend config +:+ ")");
  _ ← perform (Serve (sv_host ns) (sv_port ns) None);
  mret 0%Z.
End Ops.

(** * What operations cannot do quietly *)

(** The console is not opened to the network without a lock. If [console serve] starts a
    server, then on the host and port it was given, after the users' file gave at least one
    user; and unless the host is a loopback one or the override was given, there is a shared
    token and the approvals endpoint of the served application refuses every request that
    does not carry it. If none of the three holds the command ends with a gateway error and
    has done nothing. *)
Theorem console_never_exposed `{Regex} fs yaml_load environ server_installed hash ns r l' :
  run_console_serve fs yaml_load environ server_installed hash ns [] = (r, l') ->
  (forall host port token, Serve host port token ∈ l' ->
     host = cs_host ns /\ port = cs_port ns /\
     (exists users, load_users_file fs yaml_load hash (cs_users ns) = Ok users /\ users <> []) /\
     (is_loopback_host host = true \/ cs_allow_insecure_approvals ns = true \/
      exists t, token = Some t /\ forall fresh header body now c, header <> Some t ->
        submit_approval token fresh header body now c = (Status 401, c))) /\
  (is_loopback_host (cs_host ns) = false -> cs_allow_insecure_approvals ns = false ->
   token_of_env environ (cs_gateway_token_env ns) = None -> exists e, r = Err e /\ l' = []).
Proof.
  unfold run_console_serve. rewrite bind_lift. destruct server_installed; cbn [require];
    [|intros [= <- <-]; split; [set_solver|by eexists]].
  rewrite bind_lift. destruct (load_users_file fs yaml_load hash (cs_users ns)) as [users|e];
    [|intros [= <- <-]; split; [set_solver|by eexists]].
  rewrite bind_lift. destruct users as [|u users]; cbn [require]; [intros [= <- <-]; split; [set_solver|by eexists]|].
  rewrite bind_lift. destruct (_ || _ || _) eqn:Hg; cbn [require]; [|intros [= <- <-]; split; [set_solver|by eexists]].
  intros Hr. split.
  - intros host port token Hin.
    assert (host = cs_host ns /\ port = cs_port ns /\ token = token_of_env environ (cs_gateway_token_env ns)) as (-> & -> & ->).
    { revert Hr Hin. destruct (negb (nonempty _)), (cs_policy ns) as [|p ps]; unfold when, print_err, perform, modify, lift;
        unfold mbind, M_bind, mret, M_ret; [|destruct (engine_load fs yaml_load (p :: ps))| |destruct (engine_load fs yaml_load (p :: ps))];
        intros [= _ <-]; rewrite ?elem_of_app, ?list_elem_of_singleton; set_solver. }
    split_and!; [done|done|by exists (u :: users)|]. apply orb_true_iff in Hg as [[Ht|Hl]%orb_true_iff|Ha]; [|by left|by right; left].
    right. right. destruct (token_of_env environ (cs_gateway_token_env ns)) as [t|]; [|done]. exists t. split; [done|].
    intros fresh header body now c Hh. unfold submit_approval. by rewrite bool_decide_eq_false_2.
  - intros Hl Ha Ht. by rewrite Hl, Ha, Ht in Hg.
Qed.

(** C31: A value leaves the vault on the record. If [detokenize] prints anything, then the vault,
    opened with the key of the environment, holds that value for the token, and the printing
    is the last thing done: right before it, when the spool can be written, the reversal was
    recorded with the principal and the token. A token the vault does not hold is recorded
    too, and answered with 1. *)
Theorem detokenize_on_record `{VaultCrypto} environ spool_opens db ns l' z :
  run_detokenize environ spool_opens true db ns [] = (Ok z, l') ->
  exists kek v db1 value db2, load_kek_from_env (environ KEK_ENV_VAR) = Ok (Some kek) /\
    open_vault kek db = (Ok v, db1) /\ detokenize v (dt_token ns) db1 = (Ok value, db2) /\
    l' = [VaultIs db1; VaultIs db2;
          Audited "detokenize" (fields [("principal", VStr (dt_principal ns)); ("token", VStr (dt_token ns));
                                        ("found", VBool (match value with Some _ => true | None => false end))]);
          match value with
          | Some x => Out (x +:+ newline)
          | None => ErrOut ("mcp-gateway: token not found in vault: " +:+ dt_token ns +:+ newline)
          end] /\
    z = (match value with Some _ => 0 | None => 1 end)%Z.
Proof.
  unfold run_detokenize. rewrite bind_lift. destruct (load_kek_from_env _) as [[kek|]|]; [|done..].
  unfold on_vault. destruct (open_vault kek db) as [[v|e] db1] eqn:Ho; [|by intros (? & ? & (? & ? & _ & [=])%run_bind & _)%run_bind].
  intros ([v' d'] & l1 & (u1 & q1 & [= _ <-] & (v2 & q2 & [= <- <-] & [= <- <- <-])%run_bind)%run_bind & Hr)%run_bind.
  destruct (detokenize v (dt_token ns) db1) as [[value|e] db2] eqn:Hd;
    [|apply run_bind in Hr as (? & ? & (? & ? & _ & [=])%run_bind & _)].
  apply run_bind in Hr as ([x d2] & l2 & (u2 & q3 & [= _ <-] & (v3 & q4 & [= <- <-] & [= <- <- <-])%run_bind)%run_bind & Hr).
  rewrite bind_lift in Hr. destruct (spool_opens (dt_audit ns)); [|done].
  apply run_bind in Hr as (u3 & q5 & [= _ <-] & Hr).
  exists kek, v, db1, value, db2. destruct value; apply run_bind in Hr as (u4 & q6 & [= _ <-] & [= <- <-]); split_and!; done.
Qed.

(** * Two commands on concrete machines *)
Definition console_args (token_env : option string) : ConsoleArgs :=
  {| cs_index := "audit.db"; cs_audit := "audit.log"; cs_users := "users.yaml"; cs_policy := []; cs_host := "0.0.0.0"; cs_port := 8800;
     cs_secret_env := "SECRET"; cs_gateway_token_env := token_env; cs_allow_insecure_approvals := false |}.
Definition console_env (name : string) : option string :=
  if String.eqb name "TOKEN" then Some "t0" else if String.eqb name "EMPTY" then Some "" else None.
Definition console_fs : FS := {| f_text := fun p => if String.eqb p "users.yaml" then Some "- alice" else None; f_children := fun _ => None |}.
Definition console_yaml (_ : string) : option val := Some (VList [VObj [("username", VStr "alice"); ("password", VStr "pw")]]).
Definition console_served (token_env : option string) : result Z * list effect :=
  @run_console_serve console_fs console_yaml console_env literal_regex true id (console_args token_env) [].

Lemma console_never_exposed_witness :
  Serve "0.0.0.0" 8800 (Some "t0") ∈ (console_served (Some "TOKEN")).2 /\
  exists t, Some "t0" = Some t /\ forall fresh header body now c, header <> Some t ->
    submit_approval (Some "t0") fresh header body now c = (Status 401, c).
Proof.
  assert (Serve "0.0.0.0" 8800 (Some "t0") ∈ (console_served (Some "TOKEN")).2) as Hin by (vm_compute; right; left).
  split; [exact Hin|].
  destruct (@console_never_exposed literal_regex console_fs console_yaml console_env true id (console_args (Some "TOKEN"))
    (console_served (Some "TOKEN")).1 (console_served (Some "TOKEN")).2) as [Hs _].
  - vm_compute. reflexivity.
  - destruct (Hs _ _ _ Hin) as (_ & _ & _ & [Hl|[Ha|Ht]]); [discriminate Hl|discriminate Ha|exact Ht].
Defined.

Definition vault_env (name : string) : option string := if String.eqb name KEK_ENV_VAR then Some (b64encode demo_kek) else None.
Definition demo_vault : VaultDb := ((v ← @open_vault toy_crypto demo_kek; @tokenize toy_crypto v "EMAIL" "a@b") VaultDb_new).2.
Definition demo_token : string := @token_of toy_crypto demo_kek ("EMAIL", "a@b").
Definition detokenize_args : DetokenizeArgs :=
  {| dt_vault := "vault.db"; dt_audit := "audit.log"; dt_principal := "alice"; dt_token := demo_token |}.
Definition detokenized (spool_writes : bool) : result Z * list effect :=
  @run_detokenize vault_env toy_crypto (fun _ => Ok tt) spool_writes demo_vault detokenize_args [].

Lemma detokenize_on_record_witness :
  (detokenized true).1 = Ok 0%Z /\
  exists kek v db1 value db2, load_kek_from_env (vault_env KEK_ENV_VAR) = Ok (Some kek) /\
    @open_vault toy_crypto kek demo_vault = (Ok v, db1) /\ @detokenize toy_crypto v demo_token db1 = (Ok value, db2) /\
    0%Z = (match value with Some _ => 0 | None => 1 end)%Z.
Proof.
  split; [vm_compute; reflexivity|].
  destruct (@detokenize_on_record toy_crypto vault_env (fun _ => Ok tt) demo_vault detokenize_args (detokenized true).2 0%Z)
    as (kek & v & db1 & value & db2 & Hk & Ho & Hd & _ & Hz).
  - vm_compute. reflexivity.
  - exists kek, v, db1, value, db2. exact (conj Hk (conj Ho (conj Hd Hz))).
Defined.

(** * Observations *)

(** A reversal that cannot be recorded is carried out all the same: the value is printed. *)
Lemma unrecorded_detokenize_prints :
  (detokenized false).1 = Ok 0%Z /\ Out ("a@b" +:+ newline) ∈ (detokenized false).2 /\
  forall ev fs, Audited ev fs ∉ (detokenized false).2.
Proof.
  split; [vm_compute; reflexivity|]. split; [vm_compute; do 3 right; left|].
  intros ev fs. vm_compute. intros Hin. repeat (apply elem_of_cons in Hin as [Hin|Hin]; [discriminate Hin|]). by apply not_elem_of_nil in Hin.
Qed.

(** A variable that is set but empty counts as a shared token: the console starts on the
    network, and a request whose token header is empty is served. *)
Lemma empty_token_exposes_console :
  (console_served (Some "EMPTY")).1 = Ok 0%Z /\ Serve "0.0.0.0" 8800 (Some "") ∈ (console_served (Some "EMPTY")).2 /\
  forall fresh body now c, submit_approval (Some "") fresh (Some "") body now c = submit_approval None fresh None body now c.
Proof. split; [vm_compute; reflexivity|]. split; [vm_compute; right; left|]. reflexivity. Qed.

(** A key that is too short is a [ValueError], which is not one of the gateway's errors: the
    command ends with a traceback, not with a message and an exit code. *)
Lemma short_kek_escapes :
  let env name := if String.eqb name KEK_ENV_VAR then Some (b64encode "short") else None in
  exists e, (@run_detokenize env toy_crypto (fun _ => Ok tt) true demo_vault detokenize_args []).1 = Err e /\
    exn_cls e = ValueError /\ is_gateway_error e = false.
Proof. eexists. split; [vm_compute; reflexivity|]. by split. Qed.
