(* ===== verification/CliWrap.v ===== *)
(** The command line, [wrap] of [cli/__init__.py]: the policy a sidecar enforces, a
    verified bundle or layers of files; the gateway it builds; and the session it runs. *)
From S2P Require Import Prelude PyVal Json Protocol Session Rules Loader Merge Engine Spans Redaction Detectors Vault Approvals Pipeline Gateway Safety Spool Forwarder AuditIndex Transports Backtest Connectors Bundle BundleStore Keys Diff PolicyCi Reports Http Console Central Cli CliOps.

Record WrapArgs := {
  wr_connector : option string; wr_policy : list string; wr_override : list string;
  wr_bundle : option string; wr_bundle_store : option string; wr_bundle_name : option string; wr_public_key : option string;
  wr_audit : string; wr_principal : string; wr_role : option string; wr_vault : option string;
  wr_recognizers : option string; wr_approvals : string; wr_approvals_url : option string;
  wr_anomaly : string; wr_anomaly_debounce : Z; wr_upstream_cmd : list string }.

(** What the parser leaves unsaid. *)
Definition wrap_defaults (cmd : list string) : WrapArgs :=
  {| wr_connector := None; wr_policy := []; wr_override := []; wr_bundle := None; wr_bundle_store := None; wr_bundle_name := None;
     wr_public_key := None; wr_audit := "audit.log"; wr_principal := "local"; wr_role := None; wr_vault := None;
     wr_recognizers := None; wr_approvals := "deny"; wr_approvals_url := None; wr_anomaly := "off"; wr_anomaly_debounce := 1;
     wr_upstream_cmd := cmd |}.

(** [argparse.REMAINDER] keeps a leading [--]. *)
Definition upstream_command (ns : WrapArgs) : list string :=
  match wr_upstream_cmd ns with c :: rest => if String.eqb c "--" then rest else c :: rest | [] => [] end.

(** [build_monitor]; the Claude backend, when its client can be made, is a function of how
    often it was asked. *)
Definition build_monitor (claude : option (nat -> SessionTrace -> option Verdict)) (mode : string) (debounce : Z)
  : Cli (option AnomalyMonitor) :=
  if String.eqb mode "off" then mret None
  else if String.eqb mode "heuristic" then mret (Some (HeuristicBackend debounce))
  else if String.eqb mode "claude" then
    match claude with
    | Some assess => mret (Some (AnomalyMonitor_init "claude" debounce assess))
    | None =>
        _ ← print_err "mcp-gateway: --anomaly claude unavailable (needs the [anomaly] extra and ANTHROPIC_API_KEY); falling back to the heuristic backend.";
        mret (Some (HeuristicBackend debounce))
    end
  else throw (Exn ValueError ("unknown anomaly mode " +:+ str_repr mode +:+ "; use off|heuristic|claude")).

(** Where the session's policy comes from. *)
Definition wants_bundle (ns : WrapArgs) : bool :=
  match given (wr_bundle ns), given (wr_bundle_store ns) with None, None => false | _, _ => true end.

Section Wrap.
Context `{Regex} `{Crypto} `{KeyLib} `{VaultCrypto} `{Finditer}.
Context (fs : FS) (yaml_load : string -> option val) (roots : list string) (environ : string -> option string).
Context (spool_opens : string -> result unit) (spool_writes : bool) (packs : string -> Pack).
(** The vault's file, the approver's channel, and the Claude backend. *)
Context (db : VaultDb) (http_channel : string -> ApprovalChannel) (claude : option (nat -> SessionTrace -> option Verdict)).
(** [RedactionService(vault, recognizers)] over the vault that was opened, if any. *)
Context (redaction_service : option EncryptedSqliteVault -> list Recognizer -> RedactionService) (version : string).

Definition open_vault_at (path : option string) : Cli (option EncryptedSqliteVault) :=
  match path with
  | None => mret None
  | Some _ =>
      kek ← lift (load_kek_from_env (environ KEK_ENV_VAR));
      match kek with
      | None => throw (Exn GatewayError ("--vault needs a base64 key in $" +:+ KEK_ENV_VAR
                  +:+ " (a persistent vault must not use a random key). Generate one with: python -c " +:+ dquote
                  +:+ "import os,base64;print(base64.b64encode(os.urandom(32)).decode())" +:+ dquote))
      | Some kek => '(v, _) ← on_vault (open_vault kek) db; mret (Some v)
      end
  end.

Definition build_wrap_engine (ns : WrapArgs) : result PolicyEngine :=
  match given (wr_connector ns), wr_policy ns with
  | Some name, _ =>
      c ← find_connector fs yaml_load name roots;
      engine_load fs yaml_load (policy_layers fs c ++ wr_policy ns ++ wr_override ns)
  | None, (_ :: _) as paths => engine_load fs yaml_load (paths ++ wr_override ns)
  | None, [] => raise GatewayError "wrap: provide --connector NAME or --policy FILE"
  end.

(** ** [_load_bundle_engine] *)
Definition reject {A} (name ver reason : string) : Cli A :=
  _ ← record spool_writes "policy_bundle_rejected" [("bundle", VStr name); ("version", VStr ver); ("reason", VStr reason)];
  throw (Exn GatewayError ("policy bundle rejected: " +:+ reason)).

Definition bundle_from_store (key : string) (ns : WrapArgs) : Cli (PolicyBundle * string) :=
  match given (wr_bundle_name ns) with
  | None => throw (Exn GatewayError "wrap --bundle-store requires --bundle-name NAME")
  | Some name =>
      resolved ← lift (current key (packs name));
      match resolved with
      | None => reject name "" "no usable current or last-known-good bundle"
      | Some r =>
          let b := res_bundle r in
          _ ← when (fell_back r) (record spool_writes "policy_bundle_fallback"
                [("bundle", VStr (b_name b)); ("version", VStr (b_version b));
                 ("reason", VStr "current bundle unusable; served last-known-good")]);
          mret (b, match res_source r with CURRENT => "current" | LAST_KNOWN_GOOD => "last_known_good" end)
      end
  end.

Definition bundle_from_file (key : string) (ns : WrapArgs) : Cli (PolicyBundle * string) :=
  b ← lift (load_bundle fs (default "" (wr_bundle ns)));
  let r := verify_bundle b (Some key) in
  if vr_ok r then mret (b, "file")
  else reject (b_name b) (b_version b) (match reasons r with why :: _ => why | [] => vr_summary r end).

Definition load_bundle_engine (ns : WrapArgs) : Cli (PolicyEngine * list (string * val)) :=
  _ ← lift (require (match wr_override ns, wr_policy ns, given (wr_connector ns) with [], [], None => true | _, _, _ => false end)
        GatewayError "wrap: --bundle/--bundle-store cannot be combined with --connector/--policy/--override (a bundle IS the policy)");
  path ← lift (of_option (given (wr_public_key ns)) (Exn GatewayError
        "wrap --bundle/--bundle-store requires --public-key to verify the signature; without it a signed bundle cannot be trusted"));
  key ← lift (load_verifying_key fs path);
  '(b, source) ← (match given (wr_bundle_store ns) with Some _ => bundle_from_store key ns | None => bundle_from_file key ns end);
  engine ← lift (engine_from_bundle yaml_load b);
  _ ← record spool_writes "policy_bundle_loaded" [("bundle", VStr (b_name b)); ("version", VStr (b_version b));
        ("signer_key_id", b_signer_key_id b); ("content_hash", VStr (b_content_hash b))];
  mret (engine, [("bundle_source", VStr source); ("bundle_name", VStr (b_name b)); ("bundle_version", VStr (b_version b));
                 ("bundle_signer", b_signer_key_id b)]).

(** ** [_run_wrap], up to the transport *)
Definition wrap_engine (ns : WrapArgs) : Cli (PolicyEngine * list (string * val)) :=
  if wants_bundle ns then load_bundle_engine ns else e ← lift (build_wrap_engine ns); mret (e, []).

Definition wrap_broker (e : PolicyEngine) (ns : WrapArgs) : result ApprovalBroker :=
  match build_broker (wr_approvals ns) (http_channel <$> given (wr_approvals_url ns)) 300
          (match p_approval (posture e) with OPEN => true | CLOSED => false end) with
  | Err e => if is_value_error e then raise GatewayError (exn_msg e) else Err e
  | r => r
  end.

Definition wrap_recognizers (path : option string) : result (list Recognizer) :=
  match given path with
  | None => Ok []
  | Some p => configs ← load_config_file fs yaml_load p;
              '(_, recs) ← load_recognizers builtin_entities configs; Ok recs
  end.

Definition wrap_gateway (ns : WrapArgs) : Cli SecurityGateway :=
  _ ← lift (spool_opens (wr_audit ns));
  '(engine, annotations) ← wrap_engine ns;
  vault ← open_vault_at (wr_vault ns);
  recs ← lift (wrap_recognizers (wr_recognizers ns));
  let redaction := redaction_service vault recs in
  broker ← lift (wrap_broker engine ns);
  monitor ← build_monitor claude (wr_anomaly ns) (wr_anomaly_debounce ns);
  p ← lift (default_pipeline engine (Some redaction) (Some broker));
  g ← lift (SecurityGateway_init p {| principal_id := wr_principal ns; roles := option_list (given (wr_role ns)) |}
              (Some redaction) (Some engine) monitor);
  _ ← perform (Annotated (fields ([("policy_source", VStr (engine_source engine));
        ("default_action", VStr (default_action engine)); ("transport", VStr "stdio");
        ("approval_mode", VStr (ch_name (channel broker)));
        ("anomaly_backend", VStr (match monitor with Some m => backend_name m | None => "off" end));
        ("gateway_version", VStr version)] ++ annotations)));
  mret g.

(** The session: the child process, what the two sides send, and the turns of the pumps. *)
Context (sid started : string) (proc : Proc) (client upstream : list read) (turns : list direction).

(** [None] is a session that the turns leave running. *)
Definition run_wrap (ns : WrapArgs) : Cli (option Z) :=
  match upstream_command ns with
  | [] => _ ← print_err "mcp-gateway wrap: provide the upstream server command after --"; mret (Some 2%Z)
  | cmd =>
      g ← wrap_gateway ns;
      command ← lift (transport_init cmd);
      match stdio_run g command proc client upstream turns (World_new (Session_new sid started)) with
      | None => mret None
      | Some (r, w) => _ ← perform (Ran (trace w)); code ← lift r; mret (Some code)
      end
  end.
End Wrap.

(** * What a sidecar enforces *)
Section Verified.
Context `{Regex} `{Crypto} `{KeyLib} `{VaultCrypto} `{Finditer}.
Context (fs : FS) (yaml_load : string -> option val) (roots : list string) (environ : string -> option string).
Context (spool_opens : string -> result unit) (spool_writes : bool) (packs : string -> Pack).
Context (db : VaultDb) (http_channel : string -> ApprovalChannel) (claude : option (nat -> SessionTrace -> option Verdict)).
Context (redaction_service : option EncryptedSqliteVault -> list Recognizer -> RedactionService) (version : string).

Lemma current_ok key p r : current key p = Ok (Some r) -> vr_ok (verify_bundle (res_bundle r) (Some key)) = true.
Proof.
  unfold current. intros ([b|] & Hl & Hc)%bind_ok; [injection Hc as <-; by eapply load_pointer_verified|].
  apply bind_ok in Hc as ([b|] & Hk & Hc); [|done]. injection Hc as <-. by eapply load_pointer_verified.
Qed.

(** Both sources give a bundle that verifies, or no bundle. *)
Lemma bundle_source_verified key ns l b source l1 :
  (match given (wr_bundle_store ns) with Some _ => bundle_from_store spool_writes packs key ns
   | None => bundle_from_file fs spool_writes key ns end) l = (Ok (b, source), l1) ->
  vr_ok (verify_bundle b (Some key)) = true.
Proof.
  assert (forall A n v r q q', reject (A := A) spool_writes n v r q <> (Ok q', l1)) as Hrej.
  { intros A n v r q q' (u & q1 & _ & Ht)%run_bind. done. }
  destruct (given (wr_bundle_store ns)).
  - unfold bundle_from_store. destruct (given (wr_bundle_name ns)) as [name|]; [|done].
    rewrite bind_lift. destruct (current key (packs name)) as [[r|]|] eqn:Hc; [|by intros ?%Hrej|done].
    intros (u & q1 & _ & [= <- _ _])%run_bind. by eapply current_ok.
  - unfold bundle_from_file. rewrite bind_lift. destruct (load_bundle fs _) as [b'|]; [|done].
    destruct (vr_ok (verify_bundle b' (Some key))) eqn:Hv; [by intros [= <- _ _]|by intros ?%Hrej].
Qed.

Record verified_policy (ns : WrapArgs) (b : PolicyBundle) (e : PolicyEngine) : Prop := {
  vp_key : exists path key, given (wr_public_key ns) = Some path /\ load_verifying_key fs path = Ok key /\
    vr_ok (verify_bundle b (Some key)) = true;
  vp_engine : engine_from_bundle yaml_load b = Ok e;
  vp_alone : wr_policy ns = [] /\ wr_override ns = [] /\ given (wr_connector ns) = None;
}.

Definition loaded_record (b : PolicyBundle) : effect := Audited "policy_bundle_loaded" (fields
  [("bundle", VStr (b_name b)); ("version", VStr (b_version b)); ("signer_key_id", b_signer_key_id b);
   ("content_hash", VStr (b_content_hash b))]).

Lemma load_bundle_engine_ok ns l e ann l' : load_bundle_engine fs yaml_load spool_writes packs ns l = (Ok (e, ann), l') ->
  exists b, verified_policy ns b e /\ (spool_writes = true -> loaded_record b ∈ l').
Proof.
  unfold load_bundle_engine. rewrite bind_lift. destruct (wr_override ns) eqn:Ho, (wr_policy ns) eqn:Hp, (given (wr_connector ns)) eqn:Hg;
    cbn [require]; try done. rewrite bind_lift. destruct (given (wr_public_key ns)) as [path|] eqn:Hpk; [|done]. cbn [of_option].
  rewrite bind_lift. destruct (load_verifying_key fs path) as [key|] eqn:Hk; [|done].
  intros ([b source] & l1 & Hb%bundle_source_verified & Hrest)%run_bind. rewrite bind_lift in Hrest.
  destruct (engine_from_bundle yaml_load b) as [e'|] eqn:He; [|done]. apply run_bind in Hrest as (u & l2 & Hr & [= <- _ <-]).
  exists b. split. { split; [by exists path, key|done|done]. }
  intros ->. injection Hr as _ <-. set_solver.
Qed.

(** Nothing before the session counts as the session. *)
Definition no_session (l l' : list effect) : Prop := (forall evs, Ran evs ∉ l) -> forall evs, Ran evs ∉ l'.
#[local] Instance no_session_preorder : PreOrder no_session.
Proof. split; [intros l Hl; exact Hl|]. intros l1 l2 l3 Ha Hb Hc. by apply Hb, Ha. Qed.

Lemma keeps_perform x : (forall evs, x <> Ran evs) -> keeps no_session (perform x).
Proof. intros Hx. apply keeps_modify. intros l Hl evs [?|Hin%list_elem_of_singleton]%elem_of_app; [by eapply Hl|]. by eapply Hx. Qed.
Lemma keeps_record bl ev fl : keeps no_session (record bl ev fl).
Proof. destruct bl; by apply keeps_perform. Qed.
Lemma keeps_print_err s : keeps no_session (print_err s).
Proof. by apply keeps_perform. Qed.
Lemma keeps_reject {A} n v r : keeps no_session (reject (A := A) spool_writes n v r).
Proof. apply (keeps_bind _); [apply keeps_record|intros _; apply (keeps_throw _)]. Qed.
Lemma keeps_on_vault {A} (q : V A) d : keeps no_session (on_vault q d).
Proof.
  unfold on_vault. destruct (q d) as [r d'].
  apply (keeps_bind _); [by apply keeps_perform|intros _]. apply (keeps_bind _); [apply (keeps_lift _)|intros a; apply (keeps_ret _)].
Qed.
#[local] Hint Resolve keeps_record keeps_print_err keeps_reject keeps_on_vault : keeps.
#[local] Hint Extern 1 (keeps no_session (perform _)) => by apply keeps_perform : keeps.

Lemma wrap_gateway_quiet ns : keeps no_session (wrap_gateway fs yaml_load roots environ spool_opens spool_writes packs db
  http_channel claude redaction_service version ns).
Proof.
  unfold wrap_gateway, wrap_engine, load_bundle_engine, bundle_from_store, bundle_from_file, open_vault_at, build_monitor.
  repeat first [progress keep_tac | case_match].
Qed.

(** An error stays the same error through the rest of a command. *)
Lemma run_bind_err {A B} (c : Cli A) (f : A -> Cli B) l e l' : c l = (Err e, l') -> (x ← c; f x) l = (Err e, l').
Proof. unfold mbind, M_bind. by intros ->. Qed.

Lemma run_bind_ok {A B} (c : Cli A) (f : A -> Cli B) l a l' : c l = (Ok a, l') -> (x ← c; f x) l = f a l'.
Proof. unfold mbind, M_bind. by intros ->. Qed.

Definition grows (l l' : list effect) : Prop := forall x, x ∈ l -> x ∈ l'.
#[local] Instance grows_preorder : PreOrder grows.
Proof. split; [by intros l x|]. intros l1 l2 l3 Ha Hb x Hx. by apply Hb, Ha. Qed.
Lemma grows_perform x : keeps grows (perform x).
Proof. apply keeps_modify. intros l y Hy. set_solver. Qed.
Lemma grows_on_vault {A} (q : V A) d : keeps grows (on_vault q d).
Proof.
  unfold on_vault. destruct (q d) as [r d']. apply (keeps_bind _); [apply grows_perform|intros _].
  apply (keeps_bind _); [apply (keeps_lift _)|intros a; apply (keeps_ret _)].
Qed.

Lemma grows_open_vault path : keeps grows (open_vault_at environ db path).
Proof.
  unfold open_vault_at. destruct path; [|apply (keeps_ret _)]. apply (keeps_bind _); [apply (keeps_lift _)|].
  intros [kek|]; [|apply (keeps_throw _)]. apply (keeps_bind _); [apply grows_on_vault|]. intros [? ?]. apply (keeps_ret _).
Qed.
Lemma grows_monitor mode d : keeps grows (build_monitor claude mode d).
Proof.
  unfold build_monitor. repeat case_match; try (apply (keeps_ret _) || apply (keeps_throw _)).
  apply (keeps_bind _); [apply grows_perform|intros _; apply (keeps_ret _)].
Qed.

Lemma wrap_gateway_ok ns l g l' : wants_bundle ns = true ->
  wrap_gateway fs yaml_load roots environ spool_opens spool_writes packs db http_channel claude redaction_service version ns l
    = (Ok g, l') ->
  exists b e br, verified_policy ns b e /\ policy g = Some e /\ default_pipeline e (redaction g) (Some br) = Ok (pipeline g) /\
    (spool_writes = true -> loaded_record b ∈ l').
Proof.
  intros Hw. unfold wrap_gateway, wrap_engine. rewrite Hw, bind_lift. destruct (spool_opens _); [|done].
  intros ([e ann] & l1 & (b & Hv & Hrec)%load_bundle_engine_ok & Hrest)%run_bind.
  apply run_bind in Hrest as (vault & l2 & Hvault & Hrest). rewrite bind_lift in Hrest.
  destruct (wrap_recognizers fs yaml_load (wr_recognizers ns)) as [recs|]; [|done]. rewrite bind_lift in Hrest.
  destruct (wrap_broker http_channel e ns) as [br|]; [|done].
  apply run_bind in Hrest as (mon & l3 & Hmon & Hrest). rewrite bind_lift in Hrest.
  destruct (default_pipeline e _ _) as [p|] eqn:Hp; [|done]. rewrite bind_lift in Hrest.
  destruct (SecurityGateway_init p _ _ _ _) as [g'|] eqn:Hg; [|done].
  apply run_bind in Hrest as (u & l4 & Hann & [= <- <-]).
  unfold SecurityGateway_init in Hg. apply bind_ok in Hg as (rk & _ & (sq & _ & [= <-])%bind_ok).
  exists b, e, br. split_and!; [done|done|exact Hp|]. intros Hsw. specialize (Hrec Hsw).
  pose proof (grows_open_vault (wr_vault ns) l1) as G1. rewrite Hvault in G1.
  pose proof (grows_monitor (wr_anomaly ns) (wr_anomaly_debounce ns) l2) as G2. rewrite Hmon in G2. cbn [snd] in G1, G2.
  injection Hann as _ <-. apply elem_of_app. left. by apply G2, G1.
Qed.
End Verified.

(** C5: What a sidecar started with a bundle enforces was verified. If [wrap] is given a bundle,
    as a file or from a store, and a session ran, then it ran on the engine compiled from a
    bundle that verifies under the key of the [--public-key] file, with no other policy in the
    mix and only that engine in the pipeline; what the session did is what the transport does
    with that gateway; and the spool, if it can be written, says which bundle was loaded. *)
Theorem wrap_enforces_verified_bundle `{Regex} `{Crypto} `{KeyLib} `{VaultCrypto} `{Finditer} fs yaml_load roots environ spool_opens
  spool_writes packs db http_channel claude redaction_service version sid started proc client upstream turns ns r l' evs :
  wants_bundle ns = true ->
  run_wrap fs yaml_load roots environ spool_opens spool_writes packs db http_channel claude redaction_service version
    sid started proc client upstream turns ns [] = (r, l') ->
  Ran evs ∈ l' ->
  exists b e g br q w, verified_policy fs yaml_load ns b e /\ policy g = Some e /\
    default_pipeline e (redaction g) (Some br) = Ok (pipeline g) /\
    stdio_run g (upstream_command ns) proc client upstream turns (World_new (Session_new sid started)) = Some (q, w) /\
    evs = trace w /\ (spool_writes = true -> loaded_record b ∈ l').
Proof.
  intros Hw Hr Hin. unfold run_wrap in Hr. destruct (upstream_command ns) as [|cmd rest] eqn:Hcmd; [injection Hr as _ <-; set_solver|].
  pose proof (wrap_gateway_quiet fs yaml_load roots environ spool_opens spool_writes packs db http_channel claude redaction_service
    version ns [] ltac:(set_solver)) as Hq.
  destruct (wrap_gateway fs yaml_load roots environ spool_opens spool_writes packs db http_channel claude redaction_service
    version ns []) as [[g|e] l1] eqn:Hg; cbn [snd] in Hq;
    [rewrite (run_bind_ok _ _ _ _ _ Hg) in Hr|rewrite (run_bind_err _ _ _ _ _ Hg) in Hr; injection Hr as _ <-; by destruct (Hq evs)].
  destruct (wrap_gateway_ok _ _ _ _ _ _ _ _ _ _ _ _ _ _ _ _ Hw Hg) as (b & e & br & Hv & Hp & Hpl & Hrec).
  rewrite bind_lift in Hr. assert (transport_init (cmd :: rest) = Ok (cmd :: rest)) as Ht by done. rewrite Ht in Hr.
  destruct (stdio_run g (cmd :: rest) proc client upstream turns (World_new (Session_new sid started))) as [[q w]|] eqn:Hs; [|injection Hr as _ <-; by destruct (Hq evs)].
  exists b, e, g, br, q, w. assert (l' = l1 ++ [Ran (trace w)]) as ->.
  { revert Hr. unfold perform, modify, mbind, M_bind, lift. destruct q; by intros [= _ <-]. }
  split_and!; try done.
  - apply elem_of_app in Hin as [Hin|[= ->]%list_elem_of_singleton]; [by destruct (Hq evs)|done].
  - intros Hsw. apply elem_of_app. left. by apply Hrec.
Qed.

(** ** What a bundle file that is refused leaves behind *)
Section Refused.
Context `{Regex} `{Crypto} `{KeyLib} `{VaultCrypto} `{Finditer} (fs : FS) (yaml_load : string -> option val) (roots : list string).
Context (environ : string -> option string) (spool_opens : string -> result unit) (packs : string -> Pack) (db : VaultDb).
Context (http_channel : string -> ApprovalChannel) (claude : option (nat -> SessionTrace -> option Verdict)).
Context (redaction_service : option EncryptedSqliteVault -> list Recognizer -> RedactionService) (version sid started : string).
Context (proc : Proc) (client upstream : list read) (turns : list direction) (ns : WrapArgs) (path file key : string).

(** [wrap --bundle FILE --public-key PATH -- COMMAND], with a spool to write to. *)
Record bundle_file_args : Prop := {
  ba_command : upstream_command ns <> [];
  ba_file : given (wr_bundle ns) = Some file; ba_store : given (wr_bundle_store ns) = None;
  ba_policy : wr_policy ns = []; ba_override : wr_override ns = []; ba_connector : given (wr_connector ns) = None;
  ba_path : given (wr_public_key ns) = Some path; ba_key : load_verifying_key fs path = Ok key;
  ba_spool : is_ok (spool_opens (wr_audit ns)) = true }.

Let go (spool_writes : bool) : result (option Z) * list effect :=
  run_wrap fs yaml_load roots environ spool_opens spool_writes packs db http_channel claude redaction_service version
    sid started proc client upstream turns ns [].

Lemma bundle_file_fails spool_writes e l : bundle_file_args -> bundle_from_file fs spool_writes key ns [] = (Err e, l) ->
  go spool_writes = (Err e, l).
Proof.
  intros [Hcmd Hf Hst Hp Ho Hc Hpk Hk Hs] Hb. unfold go, run_wrap. destruct (upstream_command ns); [done|]. apply run_bind_err.
  unfold wrap_gateway. rewrite bind_lift. destruct (spool_opens (wr_audit ns)); [|done]. apply run_bind_err.
  unfold wrap_engine, wants_bundle. rewrite Hf. unfold load_bundle_engine.
  rewrite bind_lift, Ho, Hp, Hc. cbn [require]. rewrite bind_lift, Hpk. cbn [of_option]. rewrite bind_lift, Hk, Hst.
  by apply run_bind_err.
Qed.

Lemma bundle_file_path : bundle_file_args -> default "" (wr_bundle ns) = file.
Proof. intros [_ Hf _ _ _ _ _ _ _]. unfold given in Hf. destruct (wr_bundle ns) as [[|a s]|]; by simplify_eq/=. Qed.

(** A bundle that does not verify starts nothing, and the trail says so. If the file loads but
    fails verification under the key, the command ends with a gateway error, before a child
    process or a gateway exists; the one thing it has done is to record the rejection with the
    bundle's name and version and the first reason of the verification. *)
Theorem refused_bundle_starts_nothing b : bundle_file_args -> load_bundle fs file = Ok b ->
  vr_ok (verify_bundle b (Some key)) = false ->
  exists reason, go true =
    (Err (Exn GatewayError ("policy bundle rejected: " +:+ reason)),
     [Audited "policy_bundle_rejected" (fields [("bundle", VStr (b_name b)); ("version", VStr (b_version b)); ("reason", VStr reason)])]) /\
    (reason = vr_summary (verify_bundle b (Some key)) \/ head (reasons (verify_bundle b (Some key))) = Some reason).
Proof.
  intros Ha Hb Hv.
  exists (match reasons (verify_bundle b (Some key)) with why :: _ => why | [] => vr_summary (verify_bundle b (Some key)) end).
  split; [|destruct (reasons _); auto]. apply bundle_file_fails; [done|].
  unfold bundle_from_file. by rewrite bind_lift, (bundle_file_path Ha), Hb, Hv.
Qed.

(** A file that is not a bundle any more (cut short, or edited into bad JSON) is refused as
    well, but the refusal is not recorded: nothing at all is done. *)
Lemma unreadable_bundle_unrecorded spool_writes e : bundle_file_args -> load_bundle fs file = Err e -> go spool_writes = (Err e, []).
Proof.
  intros Ha Hb. apply bundle_file_fails; [done|]. unfold bundle_from_file. by rewrite bind_lift, (bundle_file_path Ha), Hb.
Qed.
End Refused.

(** * A sidecar with concrete keys *)
Lemma last_in {A} (l : list A) x : last l = Some x -> x ∈ l.
Proof. intros (l' & ->)%last_Some. apply elem_of_app. right. by apply list_elem_of_singleton. Qed.

Section Demo.
#[local] Existing Instance echo_keys.
#[local] Existing Instance echo_crypto.
#[local] Existing Instance toy_crypto.
#[local] Existing Instance demo_finditer.
#[local] Existing Instance literal_regex.

Definition wrap_bundle : PolicyBundle := sign_with {| sk_key := "key"; sk_public_raw := "key" |}
  {| b_name := "github"; b_version := "v1"; b_created := "2026-07-27T18:30:00Z"; b_layers := [demo_layer "layer"];
     b_content_hash := payload_hash [demo_layer "layer"]; b_signer_key_id := VNone; b_signature := None |}.
Definition wrap_fs (bundle : PolicyBundle) : FS :=
  {| f_text := fun p => if String.eqb p "b.json" then Some (bundle_text bundle)
                        else if String.eqb p "key.pub.pem" then Some (PUBLIC_MARK +:+ "key") else None;
     f_children := fun _ => None |}.
Definition wrap_args : WrapArgs :=
  {| wr_connector := None; wr_policy := []; wr_override := []; wr_bundle := Some "b.json"; wr_bundle_store := None; wr_bundle_name := None;
     wr_public_key := Some "key.pub.pem"; wr_audit := "audit.log"; wr_principal := "local"; wr_role := None; wr_vault := None;
     wr_recognizers := None; wr_approvals := "deny"; wr_approvals_url := None; wr_anomaly := "off"; wr_anomaly_debounce := 1;
     wr_upstream_cmd := ["--"; "server"] |}.
Definition wrap_turns : list direction := [client_to_upstream; client_to_upstream].
Definition wrap_proc : Proc := {| returncode := None; on_terminate := Some 0%Z; on_kill := (-9)%Z |}.
Definition wrap_client : list read := frames (Some LINE_LIMIT) (wire (encode_msg (tool_call 1 "mail.send"))).
Definition wrapped (b : PolicyBundle) : result (option Z) * list effect :=
  run_wrap (wrap_fs b) (fun _ => Some demo_policy) [] (fun _ => None) (fun _ => Ok tt) true
    (fun _ => pack_empty) VaultDb_new (fun _ => DenyChannel) None (fun _ _ => demo_redaction) "1" "s1" "2024-01-01T00:00:00Z" wrap_proc
    wrap_client [] wrap_turns wrap_args [].
Definition ran_events (l : list effect) : list event := match last l with Some (Ran evs) => evs | _ => [] end.

Lemma wrap_enforces_verified_bundle_witness :
  exists b e g br q w, verified_policy (wrap_fs wrap_bundle) (fun _ => Some demo_policy) wrap_args b e /\ policy g = Some e /\
    default_pipeline e (redaction g) (Some br) = Ok (pipeline g) /\
    stdio_run g ["server"] wrap_proc wrap_client [] wrap_turns (World_new (Session_new "s1" "2024-01-01T00:00:00Z")) = Some (q, w) /\
    ran_events (wrapped wrap_bundle).2 = trace w /\ (true = true -> loaded_record b ∈ (wrapped wrap_bundle).2).
Proof.
  apply (wrap_enforces_verified_bundle (wrap_fs wrap_bundle) (fun _ => Some demo_policy) [] (fun _ => None) (fun _ => Ok tt) true
    (fun _ => pack_empty) VaultDb_new (fun _ => DenyChannel) None (fun _ _ => demo_redaction) "1" "s1" "2024-01-01T00:00:00Z"
    wrap_proc wrap_client [] wrap_turns wrap_args (wrapped wrap_bundle).1).
  - reflexivity.
  - vm_compute. reflexivity.
  - apply last_in. vm_compute. reflexivity.
Defined.
End Demo.
