(* ===== verification/CliMain.v ===== *)
(** The command line as a whole: [main] of [cli/__init__.py], and what holds of its commands.
    Parsing gives a command with its options; an interrupt, which ends any command with 130,
    is outside the model. *)
From S2P Require Import Prelude PyVal Json Session Rules Loader Merge Engine Spans Redaction Detectors Vault Approvals Pipeline Gateway Spool Forwarder AuditIndex Transports Backtest Connectors Bundle BundleStore Keys Diff PolicyCi Reports Http Console Central Cli CliOps CliWrap.

Inductive Command :=
  | CWrap (ns : WrapArgs)
  | CConnectorsList | CConnectorsShow (name : string) (json : bool) | CConnectorsScaffold (name dir : string) (force : bool)
  | CDetokenize (ns : DetokenizeArgs)
  | CPolicyValidate (files : list string) | CPolicyShow (ns : ShowArgs) | CPolicyTest (ns : TestArgs)
  | CPolicyBacktest (ns : BacktestArgs) | CPolicyCi (ns : CiArgs) | CPolicyDiff (ns : DiffArgs) | CPolicyKeygen (ns : KeygenArgs)
  | CBundleBuild (ns : BuildArgs) | CBundleVerify (ns : VerifyArgs) | CBundleShow (path : string) (json : bool)
  | CBundleInstall (store : string) (ns : StoreArgs) | CBundleRollback (store : string) (ns : StoreArgs)
  | CBundleCurrent (store : string) (ns : StoreArgs)
  | CAuditReindex (ns : ReindexArgs) | CAuditForward (ns : ForwardArgs)
  | CServe (ns : ServeArgs) | CConsoleServe (ns : ConsoleArgs) | CConsoleHashPassword (password : option string)
  | CRedact (ns : RedactArgs) | CVersion.

(** What a command finds: the machine, the libraries and services it calls, the clock, and
    the data files it opens by path. *)
Record Machine `{Regex} `{Crypto} `{KeyLib} `{VaultCrypto} `{Finditer} `{FloatLib} `{Keyed} := {
  mc_fs : FS; mc_yaml : string -> option val; mc_environ : string -> option string; mc_stdin : string;
  mc_home : string; mc_bundled : string; mc_stamp : string; mc_iso : string; mc_sid : string; mc_version : string;
  mc_service : option EncryptedSqliteVault -> list Recognizer -> RedactionService;
  mc_spool_opens : string -> result unit; mc_spool_writes : bool; mc_appendable : string -> bool;
  mc_packs : string -> string -> Pack; mc_vault : string -> VaultDb; mc_index : string -> AuditIndex;
  mc_post : Poster; mc_s3 : S3Sink -> Sink; mc_ticks : list Tick; mc_channel : string -> ApprovalChannel;
  mc_claude : option (nat -> SessionTrace -> option Verdict); mc_presidio : Detector;
  mc_server : bool; mc_hash : string -> string; mc_resolve : string -> string -> string;
  mc_store : Type; mc_connect : val -> result mc_store; mc_open : option mc_store -> string -> result Session;
  mc_identity : string -> result (nat -> option string -> result Principal);
  mc_directory : string -> string; mc_writable : string -> bool;
  mc_proc : Proc; mc_client : list read; mc_upstream : list read; mc_turns : list direction }.

Section Main.
Context `{Regex} `{Crypto} `{KeyLib} `{VaultCrypto} `{Finditer} `{FloatLib} `{Keyed} (m : Machine).

Definition mc_roots : list string := search_paths (mc_environ m) (mc_home m) (mc_bundled m).
Definition plain_service : RedactionService := mc_service m None [].

Definition simple_command (c : Command) : Cli Z :=
  let fs := mc_fs m in let yaml := mc_yaml m in
  match c with
  | CConnectorsList => run_connectors_list fs yaml mc_roots
  | CConnectorsShow name json => run_connectors_show fs yaml mc_roots name json
  | CConnectorsScaffold name dir force => run_connectors_scaffold fs name dir force
  | CDetokenize ns => run_detokenize (mc_environ m) (mc_spool_opens m) (mc_spool_writes m) (mc_vault m (dt_vault ns)) ns
  | CPolicyValidate files => run_policy_validate fs yaml files
  | CPolicyShow ns => run_policy_show fs yaml ns
  | CPolicyTest ns => run_policy_test fs yaml plain_service (mc_sid m) (mc_iso m) ns
  | CPolicyBacktest ns => run_policy_backtest fs yaml ns
  | CPolicyCi ns => run_policy_ci_cmd fs yaml plain_service (mc_environ m) (mc_appendable m) (mc_sid m) (mc_iso m) ns
  | CPolicyDiff ns => run_policy_diff fs yaml plain_service ns
  | CPolicyKeygen ns => run_policy_keygen fs ns
  | CBundleBuild ns => run_policy_bundle_build fs yaml mc_roots (mc_stamp m) (mc_iso m) ns
  | CBundleVerify ns => run_policy_bundle_verify fs ns
  | CBundleShow path json => run_policy_bundle_show fs path json
  | CBundleInstall store ns => run_policy_bundle_install fs (mc_packs m store) (mc_iso m) ns
  | CBundleRollback store ns => run_policy_bundle_rollback fs (mc_packs m store) ns
  | CBundleCurrent store ns => run_policy_bundle_current fs (mc_packs m store) store ns
  | CAuditReindex ns => run_audit_reindex fs (mc_index m (ri_index ns)) ns
  | CAuditForward ns => run_audit_forward fs (mc_environ m) (mc_post m) (mc_s3 m) (mc_version m) (mc_ticks m) ns
  | CServe ns => run_serve fs yaml (mc_server m) (mc_resolve m) (mc_connect m) (mc_open m) (mc_identity m) plain_service
                   (mc_directory m) (mc_writable m) ns
  | CConsoleServe ns => run_console_serve fs yaml (mc_environ m) (mc_server m) (mc_hash m) ns
  | CConsoleHashPassword p => run_console_hash_password (mc_stdin m) (mc_hash m) p
  | CRedact ns => run_redact fs (mc_stdin m) (mc_presidio m) ns
  | CVersion => _ ← print (mc_version m); mret 0%Z
  | CWrap _ => mret 2%Z
  end.

Definition wrap_packs (ns : WrapArgs) : string -> Pack := mc_packs m (default "" (wr_bundle_store ns)).
Definition wrap_command (ns : WrapArgs) : Cli (option Z) :=
  run_wrap (mc_fs m) (mc_yaml m) mc_roots (mc_environ m) (mc_spool_opens m) (mc_spool_writes m) (wrap_packs ns)
    (mc_vault m (default "" (wr_vault ns))) (mc_channel m) (mc_claude m) (mc_service m) (mc_version m) (mc_sid m) (mc_iso m)
    (mc_proc m) (mc_client m) (mc_upstream m) (mc_turns m) ns.

Definition dispatch (c : Command) : Cli (option Z) :=
  match c with CWrap ns => wrap_command ns | _ => code ← simple_command c; mret (Some code) end.

Definition main (c : Command) : Cli (option Z) :=
  catch (dispatch c) (fun msg => _ ← print_err ("mcp-gateway: " +:+ msg); mret (Some 1%Z)).
End Main.

(** * Exit codes *)
Section Codes.
Context `{Regex} `{Crypto} `{KeyLib} `{VaultCrypto} `{Finditer} `{FloatLib} `{Keyed} (m : Machine).

Lemma simple_codes c : ret_in exit_code (simple_command m c).
Proof.
  destruct c; cbn [simple_command].
  all: unfold run_connectors_list, run_connectors_show, run_connectors_scaffold, run_detokenize, run_policy_validate, run_policy_show,
    run_policy_test, run_policy_backtest, run_policy_ci_cmd, run_policy_diff, run_policy_keygen, run_policy_bundle_build,
    run_policy_bundle_verify, run_policy_bundle_show, run_policy_bundle_install, run_policy_bundle_rollback,
    run_policy_bundle_current, run_audit_reindex, run_audit_forward, run_serve, run_console_serve, run_console_hash_password,
    run_redact.
  all: exit_tac.
Qed.
End Codes.

Section Answers.
Context `{Regex} `{Crypto} `{KeyLib} `{VaultCrypto} `{Finditer} `{FloatLib} `{Keyed} (m : Machine).

Lemma main_zero c l : (main m c l).1 = Ok (Some 0%Z) <-> (dispatch m c l).1 = Ok (Some 0%Z).
Proof.
  unfold main, catch, try_catch. destruct (dispatch m c l) as [[o|e] l']; [done|]. cbn [fst].
  destruct (is_gateway_error e); split; [|done..]. cbn. by intros [=].
Qed.

Lemma simple_zero c l : (forall ns, c <> CWrap ns) ->
  (main m c l).1 = Ok (Some 0%Z) <-> (simple_command m c l).1 = Ok 0%Z.
Proof.
  intros Hc. rewrite main_zero. assert (dispatch m c = (code ← simple_command m c; mret (Some code))) as -> by (by destruct c; try done; edestruct Hc).
  unfold mbind, M_bind. destruct (simple_command m c l) as [[z|e] l']; cbn; naive_solver.
Qed.

Lemma code_zero b : (Ok (if b : bool then 0 else 1)%Z : result Z) = Ok 0%Z <-> b = true.
Proof. by destruct b. Qed.

Lemma ci_answer fs yaml svc env app sid started ns l report :
  run_policy_ci fs yaml svc sid started (ci_root_dir ns) (ci_min_goldens ns) (negb (ci_no_backtest ns)) (ci_only ns) = Ok report ->
  (run_policy_ci_cmd fs yaml svc env app sid started ns l).1 = Ok (if ci_ok report then 0 else 1)%Z.
Proof. intros Hr. unfold run_policy_ci_cmd. rewrite bind_lift, Hr. answered. Qed.

Lemma test_answer fs yaml svc sid started ns l rs : run_policy_tests fs yaml svc sid started (ts_policy ns) (ts_tests ns) = Ok rs ->
  (run_policy_test fs yaml svc sid started ns l).1 = Ok (if forallb passed rs then 0 else 1)%Z.
Proof.
  intros Hr. unfold run_policy_test. rewrite bind_lift, Hr.
  assert (forall r, no_raise (print_golden r)) by (intros r; unfold print_golden; no_raise_tac).
  do 2 (apply answer_after; [solve [eauto with keeps | by apply no_raise_each]|intros ? ?]). cbn. do 2 f_equal.
  clear. induction rs as [|r rs IH]; [done|]. cbn. destruct (passed r); [done|]. by cbn.
Qed.

Lemma verify_answer fs ns l b key : load_bundle fs (bv_bundle ns) = Ok b ->
  (match given (bv_public_key ns) with
   | Some path => k ← load_verifying_key fs path; Ok (Some k) | None => Ok None end) = Ok key ->
  (run_policy_bundle_verify fs ns l).1 =
    Ok (if (if is_some key then vr_ok (verify_bundle b key) else integrity_ok (verify_bundle b key)) then 0 else 1)%Z.
Proof.
  intros Hb Hk. unfold run_policy_bundle_verify. rewrite bind_lift, Hb, bind_lift, Hk.
  apply answer_after; [|reflexivity]. destruct (bv_json ns); eauto with keeps. no_raise_tac.
Qed.

Lemma install_answer fs packs now ns l key b r : load_verifying_key fs (bs_public_key ns) = Ok key ->
  load_bundle fs (bs_subject ns) = Ok b -> (install key b now (packs (b_name b))).2 = Ok r ->
  (run_policy_bundle_install fs packs now ns l).1 = Ok (if accepted r then 0 else 1)%Z.
Proof.
  intros Hk Hb Hr. unfold run_policy_bundle_install. rewrite bind_lift, Hk, bind_lift, Hb.
  destruct (install key b now (packs (b_name b))) as [ws q]. cbn in Hr. subst q. unfold store_writes.
  apply answer_after; [apply no_raise_each; eauto with keeps|]. intros _ l1. rewrite bind_lift. answered.
Qed.

Lemma diff_answer fs yaml svc ns l packs : diff_roots svc yaml fs fs (df_base ns) (df_head ns) = Ok packs ->
  (run_policy_diff fs yaml svc ns l).1 =
    Ok (if negb (df_fail_on_crossing ns && negb (sum_list_with newly_ungated packs =? 0)%nat) then 0%Z else 1%Z).
Proof.
  intros Hr. unfold run_policy_diff. rewrite bind_lift, Hr. unfold rd_sum. cbn [rd_packs].
  apply answer_after; [repeat case_match; eauto with keeps|]. intros _ l1.
  destruct (df_fail_on_crossing ns && _); answered.
Qed.
End Answers.


(** A gate that answers 0 has passed. [policy ci] answers 0 exactly when the report of its
    run is green, [policy test] when every golden case passed, [policy bundle verify] when the
    bundle loads and verifies under the given key (or, with no key, when its hash is that of
    its layers), [policy bundle install] when the store accepted the bundle under the key, and
    [policy diff --fail-on-crossing] when no decision crosses the deny boundary; every failure
    on the way is an answer other than 0. *)
Theorem gates_answer_zero `{Regex} `{Crypto} `{KeyLib} `{VaultCrypto} `{Finditer} `{FloatLib} `{Keyed} (m : Machine) l :
  let fs := mc_fs m in let yaml := mc_yaml m in let svc := plain_service m in
  (forall ns, (main m (CPolicyCi ns) l).1 = Ok (Some 0%Z) <->
     exists r, run_policy_ci fs yaml svc (mc_sid m) (mc_iso m) (ci_root_dir ns) (ci_min_goldens ns) (negb (ci_no_backtest ns))
       (ci_only ns) = Ok r /\ ci_ok r = true) /\
  (forall ns, (main m (CPolicyTest ns) l).1 = Ok (Some 0%Z) <->
     exists rs, run_policy_tests fs yaml svc (mc_sid m) (mc_iso m) (ts_policy ns) (ts_tests ns) = Ok rs /\ forallb passed rs = true) /\
  (forall ns, (main m (CBundleVerify ns) l).1 = Ok (Some 0%Z) <->
     exists b, load_bundle fs (bv_bundle ns) = Ok b /\
       match given (bv_public_key ns) with
       | Some path => exists key, load_verifying_key fs path = Ok key /\ vr_ok (verify_bundle b (Some key)) = true
       | None => integrity_ok (verify_bundle b None) = true
       end) /\
  (forall store ns, (main m (CBundleInstall store ns) l).1 = Ok (Some 0%Z) <->
     exists key b r, load_verifying_key fs (bs_public_key ns) = Ok key /\ load_bundle fs (bs_subject ns) = Ok b /\
       (install key b (mc_iso m) (mc_packs m store (b_name b))).2 = Ok r /\ accepted r = true) /\
  (forall ns, df_fail_on_crossing ns = true -> (main m (CPolicyDiff ns) l).1 = Ok (Some 0%Z) <->
     exists packs, diff_roots svc yaml fs fs (df_base ns) (df_head ns) = Ok packs /\ sum_list_with newly_ungated packs = 0).
Proof.
  cbn zeta. split_and!.
  - intros ns. rewrite simple_zero by done. cbn [simple_command].
    destruct (run_policy_ci (mc_fs m) (mc_yaml m) (plain_service m) (mc_sid m) (mc_iso m) (ci_root_dir ns) (ci_min_goldens ns)
      (negb (ci_no_backtest ns)) (ci_only ns)) as [r|e] eqn:Hr.
    + rewrite (ci_answer _ _ _ _ _ _ _ _ _ _ Hr), code_zero. naive_solver.
    + unfold run_policy_ci_cmd. rewrite bind_lift, Hr. naive_solver.
  - intros ns. rewrite simple_zero by done. cbn [simple_command].
    destruct (run_policy_tests (mc_fs m) (mc_yaml m) (plain_service m) (mc_sid m) (mc_iso m) (ts_policy ns) (ts_tests ns)) as [rs|e] eqn:Hr.
    + rewrite (test_answer _ _ _ _ _ _ _ _ Hr), code_zero. naive_solver.
    + unfold run_policy_test. rewrite bind_lift, Hr. naive_solver.
  - intros ns. rewrite simple_zero by done. cbn [simple_command].
    destruct (load_bundle (mc_fs m) (bv_bundle ns)) as [b|e] eqn:Hb;
      [|unfold run_policy_bundle_verify; rewrite bind_lift, Hb; naive_solver].
    destruct (given (bv_public_key ns)) as [path|] eqn:Hg.
    + destruct (load_verifying_key (mc_fs m) path) as [key|e] eqn:Hk.
      * rewrite (verify_answer (mc_fs m) ns l b (Some key) Hb), code_zero by (by rewrite Hg, Hk). naive_solver.
      * unfold run_policy_bundle_verify. rewrite bind_lift, Hb, bind_lift, Hg. rewrite Hk. naive_solver.
    + rewrite (verify_answer (mc_fs m) ns l b None Hb), code_zero by (by rewrite Hg). naive_solver.
  - intros store ns. rewrite simple_zero by done. cbn [simple_command].
    destruct (load_verifying_key (mc_fs m) (bs_public_key ns)) as [key|e] eqn:Hk;
      [|unfold run_policy_bundle_install; rewrite bind_lift, Hk; naive_solver].
    destruct (load_bundle (mc_fs m) (bs_subject ns)) as [b|e] eqn:Hb;
      [|unfold run_policy_bundle_install; rewrite bind_lift, Hk, bind_lift, Hb; naive_solver].
    destruct (install key b (mc_iso m) (mc_packs m store (b_name b))).2 as [r|e] eqn:Hr.
    + rewrite (install_answer _ _ _ _ _ _ _ _ Hk Hb Hr), code_zero. split; [intros Ha; by exists key, b, r|].
      intros (k' & b' & r' & [= <-] & [= <-] & Hr' & Ha). congruence.
    + unfold run_policy_bundle_install. rewrite bind_lift, Hk, bind_lift, Hb.
      destruct (install key b (mc_iso m) (mc_packs m store (b_name b))) as [ws q] eqn:Hi. cbn in Hr. subst q.
      split; [|intros (k' & b' & r' & [= <-] & [= <-] & Hr' & _); by rewrite Hi in Hr']. intros Hz. exfalso. revert Hz. unfold store_writes, mbind at 1, M_bind.
      destruct (no_raise_each (fun w => perform (StoreWrite (b_name b) w)) ws (fun w => no_raise_perform _) l) as [u Hu].
      destruct (each _ ws l) as [q l1]. cbn in Hu. subst q. done.
  - intros ns Hf. rewrite simple_zero by done. cbn [simple_command].
    destruct (diff_roots (plain_service m) (mc_yaml m) (mc_fs m) (mc_fs m) (df_base ns) (df_head ns)) as [packs|e] eqn:Hr.
    + rewrite (diff_answer _ _ _ _ _ _ Hr), Hf, andb_true_l, code_zero, negb_involutive, Nat.eqb_eq. naive_solver.
    + unfold run_policy_diff. rewrite bind_lift, Hr. naive_solver.
Qed.

(** * From a new key to a verified deployment *)

(** The file system after the files a command wrote. *)
Definition after (fs : FS) (l : list effect) : FS :=
  fold_left (fun fs e => match e with WriteFile path text => fs_write path text fs | _ => fs end) l fs.

Section Release.
Context `{Regex} `{HC : Crypto} `{HK : KeyLib} `{HL : !KeyLaws}.

Lemma pem_paths out : out +:+ ".pem" <> out +:+ ".pub.pem".
Proof. intros He%(f_equal (fun s => String.length s)). rewrite <- !length_chars, !chars_app, !length_app in He. cbn in He. lia. Qed.

Lemma keygen_files fs kg l1 : run_policy_keygen fs kg [] = (Ok 0%Z, l1) ->
  crypto_installed = true /\ f_text (after fs l1) (kg_out kg +:+ ".pem") = Some (private_bytes generated) /\
  f_text (after fs l1) (kg_out kg +:+ ".pub.pem") = Some (public_pem (public_of generated)).
Proof.
  unfold run_policy_keygen. intros (u & q & Hq & Hr)%run_bind.
  assert (q = []) as -> by (destruct (kg_force kg); [by injection Hq|by apply run_lift in Hq as [_ ->]]).
  unfold generate_keypair, private_key_to_pem, public_key_to_pem, require_crypto in Hr.
  destruct crypto_installed; [|done]. cbn [require mbind result_bind] in Hr. rewrite !bind_lift in Hr. cbn [sk_key sk_public_raw] in Hr.
  do 2 (apply run_bind in Hr as (? & ? & [= _ <-] & Hr)). rewrite bind_lift in Hr.
  destruct (from_public_bytes (public_of generated)); [done|].
  do 4 (apply run_bind in Hr as (? & ? & [= _ <-] & Hr)). injection Hr as <-. split; [done|].
  cbn [app after fold_left]. split.
  - rewrite fs_write_other by apply pem_paths. apply fs_write_same.
  - apply fs_write_same.
Qed.

Lemma build_bundle_fields read yaml paths n v stamp iso b : build_bundle read yaml paths n v stamp iso = Ok b ->
  map_res (read_layer read yaml) paths = Ok (b_layers b) /\ b_layers b <> [] /\ b_created b = iso /\
  b_content_hash b = computed_hash b /\ b_version b <> "" /\ (forall name, given n = Some name -> b_name b = name).
Proof.
  unfold build_bundle. intros (layers & Hl & Hb)%bind_ok. destruct layers as [|l0 ls]; [done|]. injection Hb as <-. cbn.
  split_and!; try done.
  - destruct v as [[|a s]|]; try done; intros Hv%(f_equal (fun s => String.length s));
      unfold default_version in Hv; rewrite <- !length_chars, !chars_app, !length_app in Hv; cbn in Hv; lia.
  - intros name. unfold given. by destruct n as [[|a s]|]; [|intros [= <-]|].
Qed.

Lemma given_some s t : t <> "" -> given (Some (s +:+ t)) = Some (s +:+ t).
Proof.
  intros Ht. unfold given. destruct (s +:+ t) eqn:He; [|done]. exfalso. apply Ht.
  apply (f_equal chars) in He. rewrite chars_app in He. apply app_eq_nil in He as [_ He]. by apply chars_inj.
Qed.

Lemma read_private fs path : crypto_installed = true -> f_text fs path = Some (private_bytes generated) ->
  load_signing_key fs path = Ok {| sk_key := generated; sk_public_raw := public_of generated |}.
Proof.
  intros Hc Ht. unfold load_signing_key, require_crypto, read_key_file. rewrite Hc, Ht. cbn [require mbind result_bind].
  by rewrite private_pem_reads.
Qed.

Lemma read_public fs path raw : crypto_installed = true -> f_text fs path = Some (public_pem raw) -> load_verifying_key fs path = Ok raw.
Proof.
  intros Hc Ht. unfold load_verifying_key, require_crypto, read_key_file. rewrite Hc, Ht. cbn [require mbind result_bind].
  by rewrite public_pem_reads.
Qed.

(** A bundle that was built and signed is one that its file gives back. *)
Lemma signed_wf key b : b_name b <> "" -> b_version b <> "" -> b_created b <> "" -> b_layers b <> [] -> b_content_hash b = computed_hash b ->
  bundle_wf (sign_with key b) /\ signer_text (sign_with key b).
Proof.
  intros Hn Hv Hc Hl Hh. split; [|right; by eexists]. unfold bundle_wf, sign_with, sign_bundle, with_signature. cbn. split_and!; try done.
  rewrite Hh. unfold computed_hash, payload_hash. intros He%(f_equal (fun s => String.length s)).
  rewrite <- length_chars, chars_app, length_app in He. cbn in He. lia.
Qed.

Lemma read_layers_texts read yaml paths layers : map_res (read_layer read yaml) paths = Ok layers ->
  (fun l => (bl_name l, Some (bl_text l))) <$> layers = (fun p => (base_name p, read p)) <$> paths.
Proof.
  revert layers. induction paths as [|p paths IH]; cbn; [by intros layers [= <-]|].
  intros layers (l & Hl & (ls & Hls & [= <-])%bind_ok)%bind_ok. cbn. rewrite (IH _ Hls). f_equal.
  unfold read_layer in Hl. apply bind_ok in Hl as (text & Ht & (u & _ & [= <-])%bind_ok). cbn.
  unfold of_option in Ht. by destruct (read p); simplify_eq.
Qed.
End Release.

(** C25: What a release job signs, a gateway accepts, and it is what the files said. Generate a key
    pair, build a bundle of policy files signed with its private key, under a name of one's
    own: then the bundle file, as written, loads; it verifies under the public key file of the
    pair, by [policy bundle verify] and by [wrap --bundle] alike; and its layers are, name for
    name and text for text, the policy files of the build. *)
Theorem release_pipeline_verifies `{Regex} `{HC : Crypto} `{HK : KeyLib} `{HL : !KeyLaws} fs yaml roots stamp iso kg ns l1 l2 name :
  run_policy_keygen fs kg [] = (Ok 0%Z, l1) ->
  run_policy_bundle_build (after fs l1) yaml roots stamp iso ns [] = (Ok 0%Z, l2) ->
  bb_sign_key ns = Some (kg_out kg +:+ ".pem") -> given (bb_name ns) = Some name -> iso <> "" ->
  bb_out ns <> kg_out kg +:+ ".pub.pem" ->
  let fs2 := after (after fs l1) l2 in let pub := kg_out kg +:+ ".pub.pem" in
  exists b key paths, load_bundle fs2 (bb_out ns) = Ok b /\ load_verifying_key fs2 pub = Ok key /\ b_name b = name /\
    vr_ok (verify_bundle b (Some key)) = true /\
    (run_policy_bundle_verify fs2 {| bv_bundle := bb_out ns; bv_public_key := Some pub; bv_json := false |} []).1 = Ok 0%Z /\
    (forall w, wr_bundle w = Some (bb_out ns) -> bundle_from_file fs2 true key w [] = (Ok (b, "file"), [])) /\
    bundle_build_layers (after fs l1) yaml roots ns = Ok paths /\
    (fun l => (bl_name l, Some (bl_text l))) <$> b_layers b = (fun p => (base_name p, f_text (after fs l1) p)) <$> paths.
Proof.
  intros Hkg Hbuild Hsign Hname Hiso Hout. cbn zeta. destruct (keygen_files _ _ _ Hkg) as (Hc & Hpriv & Hpub).
  unfold run_policy_bundle_build in Hbuild. rewrite bind_lift in Hbuild.
  destruct (bundle_build_layers (after fs l1) yaml roots ns) as [paths|] eqn:Hp; [|done]. rewrite bind_lift in Hbuild.
  destruct (build_bundle (f_text (after fs l1)) yaml paths (bb_name ns) (bb_version ns) stamp iso) as [b0|] eqn:Hb; [|done].
  destruct (build_bundle_fields _ _ _ _ _ _ _ _ Hb) as (Hl & Hne & Hcr & Hh & Hver & Hn). specialize (Hn name Hname).
  set (key := {| sk_key := generated; sk_public_raw := public_of generated |}).
  assert (given (bb_sign_key ns) = Some (kg_out kg +:+ ".pem")) as Hg by (rewrite Hsign; by apply given_some).
  pose proof (read_private _ _ Hc Hpriv) as Hk. fold key in Hk.
  rewrite bind_lift, Hg, Hk in Hbuild. cbn [mbind result_bind] in Hbuild.
  set (b := sign_with key b0) in *. apply run_bind in Hbuild as (? & ? & [= _ <-] & Hr).
  do 5 (apply run_bind in Hr as (? & ? & [= _ <-] & Hr)). injection Hr as <-.
  assert (after (after fs l1) ([] ++ [WriteFile (bb_out ns) (bundle_text b)]) = fs_write (bb_out ns) (bundle_text b) (after fs l1)) as Ha by done.
  assert (vr_ok (verify_bundle b (Some (public_of generated))) = true) as Hv.
  { apply sign_verifies; [apply sign_verify|exact Hh]. }
  assert (name <> "") as Hnn by (intros ->; unfold given in Hname; by destruct (bb_name ns) as [[|]|]).
  destruct (signed_wf key b0) as [Hwf Hst]; [congruence|done|congruence|done|done|]. fold b in Hwf, Hst.
  cbn [app after fold_left]. fold (after fs l1).
  exists b, (public_of generated), paths.
  pose proof (load_written (after fs l1) (bb_out ns) b Hwf Hst) as Hload.
  assert (load_verifying_key (fs_write (bb_out ns) (bundle_text b) (after fs l1)) (kg_out kg +:+ ".pub.pem") = Ok (public_of generated)) as Hvk.
  { apply read_public; [done|]. by rewrite fs_write_other. }
  split_and!; [exact Hload|exact Hvk|exact Hn|exact Hv| | |done|].
  - pose proof (given_some (kg_out kg) ".pub.pem" ltac:(done)) as Hgp.
    rewrite (verify_answer _ _ _ b (Some (public_of generated))); [|exact Hload|cbn [bv_public_key]; by rewrite Hgp, Hvk].
    cbn [is_some]. by rewrite Hv.
  - intros w Hw. unfold bundle_from_file. rewrite bind_lift. replace (default "" (wr_bundle w)) with (bb_out ns) by (by rewrite Hw).
    by rewrite Hload, Hv.
  - exact (read_layers_texts _ _ _ _ Hl).
Qed.

(** ** A release of one policy file, with concrete keys *)
Definition release_fs : FS :=
  {| f_text := fun p => if String.eqb p "policy.yaml" then Some "schema_version: 1" else None; f_children := fun _ => None |}.
Definition release_yaml (_ : string) : option val := Some (VObj [("schema_version", VInt 1); ("tools", VObj [])]).
Definition release_keygen : KeygenArgs := {| kg_out := "release"; kg_force := false |}.
Definition release_build : BuildArgs :=
  {| bb_connector := None; bb_policy := ["policy.yaml"]; bb_out := "github.bundle.json"; bb_sign_key := Some "release.pem";
     bb_name := Some "github"; bb_version := None |}.

Section ReleaseWitness.
#[local] Existing Instance echo_keys.
#[local] Existing Instance echo_crypto.
#[local] Existing Instance echo_laws.
#[local] Existing Instance literal_regex.
Definition released_keys := run_policy_keygen release_fs release_keygen [].
Definition release_fs1 := after release_fs released_keys.2.
Definition released_bundle := run_policy_bundle_build release_fs1 release_yaml [] "20260101" "2026-01-01T00:00:00Z" release_build [].
Definition release_fs2 := after release_fs1 released_bundle.2.

Lemma release_pipeline_verifies_witness :
  exists b key, load_bundle release_fs2 "github.bundle.json" = Ok b /\ load_verifying_key release_fs2 "release.pub.pem" = Ok key /\
    b_name b = "github" /\ vr_ok (verify_bundle b (Some key)) = true.
Proof.
  destruct (release_pipeline_verifies release_fs release_yaml [] "20260101" "2026-01-01T00:00:00Z" release_keygen release_build
    released_keys.2 released_bundle.2 "github") as (b & key & paths & H1 & H2 & H3 & H4 & _).
  - vm_compute. reflexivity.
  - vm_compute. reflexivity.
  - reflexivity.
  - reflexivity.
  - discriminate.
  - discriminate.
  - exists b, key. exact (conj H1 (conj H2 (conj H3 H4))).
Defined.
End ReleaseWitness.
