(* ===== verification/CliArgs.v ===== *)
(** The command line, arguments: [_build_parser] of [cli/__init__.py] as a table, and the
    reading of a parsed namespace by [main] and the handlers. [argparse] is the parameter
    [parse_args]; of it the model knows what it documents of the namespace it returns: every
    argument of the chosen sub-parsers is there, with its default or with what its action
    makes of converted values. A number of seconds is a whole number of them. *)
From S2P Require Import Prelude PyVal Session Rules Engine Redaction Detectors Vault Approvals Keys Bundle Stores Spool AuditIndex Bundle Reports Diff Cli CliOps CliWrap CliMain.

(** * [argparse], as the source uses it *)
Inductive action := Store | Append | StoreTrue.
Inductive conversion := ToStr | ToInt | ToFloat.
Inductive arity := One | ZeroOrOne | OneOrMore | Remainder.
Record Argument := { a_name : string; a_action : action; a_type : conversion; a_required : bool; a_default : val;
                     a_choices : list string; a_nargs : arity }.
Inductive Parser := Leaf (arguments : list Argument) | Subparsers (dest : string) (subs : list (string * Parser)).

Definition namespace : Type := list (string * val).

(** [--sign-key] is the attribute [sign_key]. *)
Definition dest (a : Argument) : string :=
  let body := if startswith "--" (a_name a) then slice (a_name a) 2 (String.length (a_name a)) else a_name a in
  str_map (fun c => if Ascii.eqb c "-" then "_"%char else c) body.

(** [add_argument("--x", default=d)], [..., required=True], [..., action="append"], a flag, a positional. *)
Definition option_arg (name : string) (d : val) : Argument :=
  {| a_name := name; a_action := Store; a_type := ToStr; a_required := false; a_default := d; a_choices := []; a_nargs := One |}.
Definition required_arg (name : string) : Argument :=
  {| a_name := name; a_action := Store; a_type := ToStr; a_required := true; a_default := VNone; a_choices := []; a_nargs := One |}.
Definition append_arg (name : string) (required : bool) : Argument :=
  {| a_name := name; a_action := Append; a_type := ToStr; a_required := required; a_default := VNone; a_choices := []; a_nargs := One |}.
Definition flag_arg (name : string) : Argument :=
  {| a_name := name; a_action := StoreTrue; a_type := ToStr; a_required := false; a_default := VBool false; a_choices := []; a_nargs := One |}.
Definition typed_arg (name : string) (t : conversion) (d : Z) : Argument :=
  {| a_name := name; a_action := Store; a_type := t; a_required := false; a_default := VInt d; a_choices := []; a_nargs := One |}.
Definition choice_arg (name : string) (required : bool) (d : val) (choices : list string) : Argument :=
  {| a_name := name; a_action := Store; a_type := ToStr; a_required := required; a_default := d; a_choices := choices; a_nargs := One |}.
Definition positional (name : string) (n : arity) : Argument :=
  {| a_name := name; a_action := Store; a_type := ToStr; a_required := match n with ZeroOrOne | Remainder => false | _ => true end;
     a_default := match n with Remainder => VList [] | _ => VNone end; a_choices := []; a_nargs := n |}.

Definition converted (t : conversion) (v : val) : bool :=
  match t, v with ToStr, VStr _ | ToInt, VInt _ | ToFloat, VInt _ => true | _, _ => false end.
Definition allowed (a : Argument) (v : val) : bool :=
  converted (a_type a) v && match a_choices a, v with [], _ => true | cs, VStr s => bool_decide (s ∈ cs) | _, _ => false end.

(** What the action and the number of arguments make of an argument that was given. *)
Definition given_ok (a : Argument) (v : val) : bool :=
  match a_action a, a_nargs a, v with
  | StoreTrue, _, VBool b => b
  | Append, _, VList (x :: xs) => forallb (allowed a) (x :: xs)
  | Store, (One | ZeroOrOne), v => allowed a v
  | Store, OneOrMore, VList (x :: xs) => forallb (allowed a) (x :: xs)
  | Store, Remainder, VList xs => forallb (allowed a) xs
  | _, _, _ => false
  end.
Definition default_ok (a : Argument) (v : val) : bool := negb (a_required a) && bool_decide (v = a_default a).
Definition argument_ok (ns : namespace) (a : Argument) : bool :=
  match aget (dest a) ns with Some v => default_ok a v || given_ok a v | None => false end.

(** The namespaces a parser can return. *)
Fixpoint accepts (p : Parser) (ns : namespace) : bool :=
  match p with
  | Leaf args => forallb (argument_ok ns) args
  | Subparsers d subs =>
      (fix any l := match l with
                    | [] => false
                    | (name, sub) :: l => match aget d ns with Some (VStr s) => String.eqb s name | _ => false end && accepts sub ns || any l
                    end) subs
  end.

(** * [_build_parser] *)
Definition wrap_parser : Parser := Leaf
  [option_arg "--connector" VNone; append_arg "--policy" false; append_arg "--override" false; option_arg "--bundle" VNone;
   option_arg "--bundle-store" VNone; option_arg "--bundle-name" VNone; option_arg "--public-key" VNone;
   option_arg "--audit" (VStr "audit.log"); option_arg "--principal" (VStr "local"); option_arg "--role" VNone;
   option_arg "--vault" VNone; option_arg "--recognizers" VNone;
   choice_arg "--approvals" false (VStr "deny") ["deny"; "allow"; "http"]; option_arg "--approvals-url" VNone;
   choice_arg "--anomaly" false (VStr "off") ["off"; "heuristic"; "claude"]; typed_arg "--anomaly-debounce" ToInt 1;
   positional "upstream_cmd" Remainder].
Definition validate_parser : Parser := Leaf [positional "files" OneOrMore].
Definition show_parser : Parser := Leaf [append_arg "--policy" true; flag_arg "--json"].
Definition test_parser : Parser := Leaf [append_arg "--policy" true; required_arg "--tests"].
Definition backtest_parser : Parser := Leaf [append_arg "--policy" true; required_arg "--audit"; flag_arg "--json"].
Definition ci_parser : Parser := Leaf
  [option_arg "--root" (VStr "."); append_arg "--only" false; typed_arg "--min-goldens" ToInt 1; flag_arg "--no-backtest";
   flag_arg "--json"; flag_arg "--github"].
Definition diff_parser : Parser := Leaf
  [required_arg "--base"; option_arg "--head" (VStr "."); flag_arg "--markdown"; flag_arg "--json"; flag_arg "--fail-on-crossing"].
Definition build_parser : Parser := Leaf
  [option_arg "--connector" VNone; append_arg "--policy" false; required_arg "--out"; option_arg "--sign-key" VNone;
   option_arg "--name" VNone; option_arg "--version" VNone].
Definition verify_parser : Parser := Leaf [positional "bundle" One; option_arg "--public-key" VNone; flag_arg "--json"].
Definition bundle_show_parser : Parser := Leaf [positional "bundle" One; flag_arg "--json"].
(** [install BUNDLE], [rollback NAME], [current NAME]. *)
Definition store_parser (subject : string) : Parser := Leaf [positional subject One; required_arg "--store"; required_arg "--public-key"].
Definition bundle_parser : Parser := Subparsers "bundle_command"
  [("build", build_parser); ("verify", verify_parser); ("show", bundle_show_parser); ("install", store_parser "bundle");
   ("rollback", store_parser "name"); ("current", store_parser "name")].
Definition keygen_parser : Parser := Leaf [required_arg "--out"; flag_arg "--force"].
Definition policy_parser : Parser := Subparsers "policy_command"
  [("validate", validate_parser); ("show", show_parser); ("test", test_parser); ("backtest", backtest_parser); ("ci", ci_parser);
   ("diff", diff_parser); ("bundle", bundle_parser); ("keygen", keygen_parser)].
Definition reindex_parser : Parser := Leaf
  [option_arg "--audit" (VStr "audit.log"); option_arg "--index" (VStr "audit.db"); flag_arg "--incremental"].
Definition forward_parser : Parser := Leaf
  [option_arg "--audit" (VStr "audit.log"); option_arg "--watermark" VNone; choice_arg "--sink" true VNone ["webhook"; "splunk"; "s3"];
   choice_arg "--format" false (VStr "raw") ["raw"; "ocsf"; "ecs"]; typed_arg "--batch-size" ToInt 500; flag_arg "--once";
   typed_arg "--poll-seconds" ToFloat 2; option_arg "--url" VNone; append_arg "--header" false; option_arg "--token-env" VNone;
   option_arg "--sourcetype" (VStr "mcp:gateway"); option_arg "--bucket" VNone; option_arg "--prefix" (VStr "mcp-audit")].
Definition audit_parser : Parser := Subparsers "audit_command" [("reindex", reindex_parser); ("forward", forward_parser)].
Definition redact_parser : Parser := Leaf
  [option_arg "--profile" (VStr "standard"); flag_arg "--json"; flag_arg "--eval"; positional "file" ZeroOrOne].
Definition detokenize_parser : Parser := Leaf
  [required_arg "--vault"; option_arg "--audit" (VStr "audit.log"); option_arg "--principal" (VStr "local"); positional "token" One].
Definition connectors_parser : Parser := Subparsers "connectors_command"
  [("list", Leaf []); ("show", Leaf [positional "name" One; flag_arg "--json"]);
   ("scaffold", Leaf [positional "name" One; option_arg "--dir" (VStr "connectors"); flag_arg "--force"])].
Definition console_serve_parser : Parser := Leaf
  [option_arg "--index" (VStr "audit.db"); option_arg "--audit" (VStr "audit.log"); required_arg "--users"; append_arg "--policy" false;
   option_arg "--host" (VStr "127.0.0.1"); typed_arg "--port" ToInt 8000; option_arg "--secret-env" (VStr "MCPG_CONSOLE_SECRET");
   option_arg "--gateway-token-env" VNone; flag_arg "--allow-insecure-approvals"; typed_arg "--approval-timeout" ToFloat 300].
Definition console_parser : Parser := Subparsers "console_command"
  [("serve", console_serve_parser); ("hash-password", Leaf [option_arg "--password" VNone])].
Definition serve_parser : Parser := Leaf
  [required_arg "--config"; option_arg "--host" (VStr "127.0.0.1"); typed_arg "--port" ToInt 8080].

Definition gateway_parser : Parser := Subparsers "command"
  [("wrap", wrap_parser); ("policy", policy_parser); ("audit", audit_parser); ("redact", redact_parser);
   ("detokenize", detokenize_parser); ("connectors", connectors_parser); ("console", console_parser); ("serve", serve_parser);
   ("version", Leaf [])].

(** * The attributes of a namespace *)
Definition attribute (ns : namespace) (name : string) : result val :=
  of_option (aget name ns) (Exn AttributeError ("'Namespace' object has no attribute " +:+ str_repr name)).
(** An attribute of another type would raise where it is used. *)
Definition not_a (what : string) : exn := Exn TypeError ("expected " +:+ what).
Definition text_of (v : val) : result string := match v with VStr s => Ok s | _ => Err (not_a "text") end.
Definition attr_str ns name : result string := v ← attribute ns name; text_of v.
Definition attr_opt ns name : result (option string) :=
  v ← attribute ns name; match v with VNone => Ok None | v => s ← text_of v; Ok (Some s) end.
Definition attr_bool ns name : result bool :=
  v ← attribute ns name; match v with VBool b => Ok b | _ => Err (not_a "a flag") end.
Definition attr_int ns name : result Z :=
  v ← attribute ns name; match v with VInt z => Ok z | _ => Err (not_a "a number") end.
(** [ns.policy or []] *)
Definition attr_list ns name : result (list string) :=
  v ← attribute ns name;
  match v with VNone => Ok [] | VList l => map_res text_of l | _ => Err (not_a "a list") end.

(** * What each handler reads *)
Section Readers.
Context (ns : namespace).
Let str := attr_str ns.
Let opt := attr_opt ns.
Let bool_ := attr_bool ns.
Let int := attr_int ns.
Let strs := attr_list ns.

Definition wrap_args_of : result WrapArgs :=
  connector ← opt "connector"; policy ← strs "policy"; override ← strs "override"; bundle ← opt "bundle";
  store ← opt "bundle_store"; name ← opt "bundle_name"; key ← opt "public_key"; audit ← str "audit"; principal ← str "principal";
  role ← opt "role"; vault ← opt "vault"; recognizers ← opt "recognizers"; approvals ← str "approvals"; url ← opt "approvals_url";
  anomaly ← str "anomaly"; debounce ← int "anomaly_debounce"; cmd ← strs "upstream_cmd";
  Ok {| wr_connector := connector; wr_policy := policy; wr_override := override; wr_bundle := bundle; wr_bundle_store := store;
        wr_bundle_name := name; wr_public_key := key; wr_audit := audit; wr_principal := principal; wr_role := role; wr_vault := vault;
        wr_recognizers := recognizers; wr_approvals := approvals; wr_approvals_url := url; wr_anomaly := anomaly;
        wr_anomaly_debounce := debounce; wr_upstream_cmd := cmd |}.
Definition ci_args_of : result CiArgs :=
  root ← str "root"; only ← strs "only"; min ← int "min_goldens"; nb ← bool_ "no_backtest"; json ← bool_ "json"; gh ← bool_ "github";
  Ok {| ci_root_dir := root; ci_only := only; ci_min_goldens := Z.to_nat min; ci_no_backtest := nb; ci_json := json; ci_github := gh |}.
Definition diff_args_of : result DiffArgs :=
  base ← str "base"; head ← str "head"; md ← bool_ "markdown"; json ← bool_ "json"; fc ← bool_ "fail_on_crossing";
  Ok {| df_base := base; df_head := head; df_markdown := md; df_json := json; df_fail_on_crossing := fc |}.
Definition build_args_of : result BuildArgs :=
  connector ← opt "connector"; policy ← strs "policy"; out ← str "out"; key ← opt "sign_key"; name ← opt "name"; ver ← opt "version";
  Ok {| bb_connector := connector; bb_policy := policy; bb_out := out; bb_sign_key := key; bb_name := name; bb_version := ver |}.
Definition verify_args_of : result VerifyArgs :=
  b ← str "bundle"; key ← opt "public_key"; json ← bool_ "json"; Ok {| bv_bundle := b; bv_public_key := key; bv_json := json |}.
Definition store_args_of (subject : string) : result (string * StoreArgs) :=
  s ← str subject; store ← str "store"; key ← str "public_key"; Ok (store, {| bs_subject := s; bs_public_key := key |}).
Definition forward_args_of : result ForwardArgs :=
  audit ← str "audit"; wm ← opt "watermark"; sink ← str "sink"; format ← str "format"; batch ← int "batch_size"; once ← bool_ "once";
  poll ← int "poll_seconds"; url ← opt "url"; header ← strs "header"; token ← opt "token_env"; st ← str "sourcetype"; bucket ← opt "bucket";
  prefix ← str "prefix";
  Ok {| fd_audit := audit; fd_watermark := wm; fd_sink := sink; fd_format := format; fd_batch_size := batch; fd_once := once;
        fd_poll_seconds := poll; fd_url := url; fd_header := header; fd_token_env := token; fd_sourcetype := st; fd_bucket := bucket;
        fd_prefix := prefix |}.
Definition console_args_of : result ConsoleArgs :=
  index ← str "index"; audit ← str "audit"; users ← str "users"; policy ← strs "policy"; host ← str "host"; port ← int "port";
  secret ← str "secret_env"; token ← opt "gateway_token_env"; insecure ← bool_ "allow_insecure_approvals";
  Ok {| cs_index := index; cs_audit := audit; cs_users := users; cs_policy := policy; cs_host := host; cs_port := port;
        cs_secret_env := secret; cs_gateway_token_env := token; cs_allow_insecure_approvals := insecure |}.

(** The tests of [main] on the sub-commands; [None] falls through to its last line. *)
Definition bundle_command_of (c : string) : result (option Command) :=
  if String.eqb c "build" then a ← build_args_of; Ok (Some (CBundleBuild a))
  else if String.eqb c "verify" then a ← verify_args_of; Ok (Some (CBundleVerify a))
  else if String.eqb c "show" then b ← str "bundle"; json ← bool_ "json"; Ok (Some (CBundleShow b json))
  else if String.eqb c "install" then '(store, a) ← store_args_of "bundle"; Ok (Some (CBundleInstall store a))
  else if String.eqb c "rollback" then '(store, a) ← store_args_of "name"; Ok (Some (CBundleRollback store a))
  else if String.eqb c "current" then '(store, a) ← store_args_of "name"; Ok (Some (CBundleCurrent store a))
  else Ok None.
Definition policy_command_of (c : string) : result (option Command) :=
  if String.eqb c "validate" then files ← strs "files"; Ok (Some (CPolicyValidate files))
  else if String.eqb c "show" then p ← strs "policy"; json ← bool_ "json"; Ok (Some (CPolicyShow {| sh_policy := p; sh_json := json |}))
  else if String.eqb c "test" then
    p ← strs "policy"; t ← str "tests"; Ok (Some (CPolicyTest {| ts_policy := p; ts_tests := t |}))
  else if String.eqb c "backtest" then
    p ← strs "policy"; a ← str "audit"; json ← bool_ "json";
    Ok (Some (CPolicyBacktest {| bk_policy := p; bk_audit := a; bk_json := json |}))
  else if String.eqb c "ci" then a ← ci_args_of; Ok (Some (CPolicyCi a))
  else if String.eqb c "diff" then a ← diff_args_of; Ok (Some (CPolicyDiff a))
  else if String.eqb c "keygen" then
    out ← str "out"; force ← bool_ "force"; Ok (Some (CPolicyKeygen {| kg_out := out; kg_force := force |}))
  else if String.eqb c "bundle" then b ← str "bundle_command"; bundle_command_of b
  else Ok None.
Definition connectors_command_of (c : string) : result (option Command) :=
  if String.eqb c "list" then Ok (Some CConnectorsList)
  else if String.eqb c "show" then n ← str "name"; json ← bool_ "json"; Ok (Some (CConnectorsShow n json))
  else if String.eqb c "scaffold" then n ← str "name"; dir ← str "dir"; force ← bool_ "force"; Ok (Some (CConnectorsScaffold n dir force))
  else Ok None.
Definition audit_command_of (c : string) : result (option Command) :=
  if String.eqb c "reindex" then
    a ← str "audit"; i ← str "index"; inc ← bool_ "incremental";
    Ok (Some (CAuditReindex {| ri_audit := a; ri_index := i; ri_incremental := inc |}))
  else if String.eqb c "forward" then a ← forward_args_of; Ok (Some (CAuditForward a))
  else Ok None.
Definition console_command_of (c : string) : result (option Command) :=
  if String.eqb c "serve" then a ← console_args_of; Ok (Some (CConsoleServe a))
  else if String.eqb c "hash-password" then p ← opt "password"; Ok (Some (CConsoleHashPassword p))
  else Ok None.

(** The dispatch of [main]. *)
Definition command_of : result (option Command) :=
  c ← str "command";
  if String.eqb c "wrap" then a ← wrap_args_of; Ok (Some (CWrap a))
  else if String.eqb c "connectors" then s ← str "connectors_command"; connectors_command_of s
  else if String.eqb c "detokenize" then
    vault ← str "vault"; a ← str "audit"; p ← str "principal"; t ← str "token";
    Ok (Some (CDetokenize {| dt_vault := vault; dt_audit := a; dt_principal := p; dt_token := t |}))
  else if String.eqb c "policy" then s ← str "policy_command"; policy_command_of s
  else if String.eqb c "audit" then s ← str "audit_command"; audit_command_of s
  else if String.eqb c "serve" then
    cfg ← str "config"; host ← str "host"; port ← int "port"; Ok (Some (CServe {| sv_config := cfg; sv_host := host; sv_port := port |}))
  else if String.eqb c "console" then s ← str "console_command"; console_command_of s
  else if String.eqb c "redact" then
    p ← str "profile"; json ← bool_ "json"; ev ← bool_ "eval"; file ← opt "file";
    Ok (Some (CRedact {| rd_profile := p; rd_json := json; rd_eval := ev; rd_file := file |}))
  else if String.eqb c "version" then Ok (Some CVersion)
  else Ok None.
End Readers.

(** [main(argv)]: the parser's own exit (usage errors, [--help]), or a namespace. *)
Section Run.
Context `{Regex} `{Crypto} `{KeyLib} `{VaultCrypto} `{Finditer} `{FloatLib} `{Keyed} (m : Machine).
Context (parse_args : Parser -> list string -> Z + namespace).

Definition gateway_main (argv : list string) : Cli (option Z) :=
  match parse_args gateway_parser argv with
  | inl code => mret (Some code)
  | inr ns =>
      c ← lift (command_of ns);
      match c with Some c => main m c | None => mret (Some 2%Z) end
  end.
End Run.

(** * What a parsed namespace holds *)
Lemma accepts_sub d subs ns : accepts (Subparsers d subs) ns = true ->
  exists name sub, (name, sub) ∈ subs /\ attr_str ns d = Ok name /\ accepts sub ns = true.
Proof.
  cbn [accepts]. induction subs as [|[name sub] subs IH]; [done|].
  intros [[Hd Hs]%andb_true_iff|(n & s & Hin & Hr)%IH]%orb_true_iff; [|exists n, s; split; [by right|done]].
  exists name, sub. split; [left|]. split; [|done]. unfold attr_str, attribute. destruct (aget d ns) as [[]|]; try done.
  cbn. by apply String.eqb_eq in Hd as ->.
Qed.

Lemma accepts_leaf args ns : accepts (Leaf args) ns = true -> Forall (fun a => argument_ok ns a = true) args.
Proof. cbn. intros Ha. apply Forall_forall. intros a Hin. rewrite forallb_forall in Ha. by apply Ha, list_elem_of_In. Qed.

Section Read.
Context (ns : namespace).

Lemma argument_value a : argument_ok ns a = true ->
  exists v, attribute ns (dest a) = Ok v /\ (default_ok a v = true \/ given_ok a v = true).
Proof. unfold argument_ok, attribute. destruct (aget (dest a) ns) as [v|]; [|done]. intros Hv%orb_true_iff. by exists v. Qed.

Lemma default_value a v : default_ok a v = true -> a_required a = false /\ v = a_default a.
Proof. unfold default_ok. intros [?%negb_true_iff ?%bool_decide_eq_true]%andb_true_iff. done. Qed.

Lemma allowed_text a v : allowed a v = true -> a_type a = ToStr ->
  exists s, v = VStr s /\ (a_choices a = [] \/ s ∈ a_choices a).
Proof.
  unfold allowed. intros [Hc Hch]%andb_true_iff Ht. rewrite Ht in Hc. destruct v; try done. eexists. split; [done|].
  destruct (a_choices a); [by left|right]. by apply bool_decide_eq_true in Hch.
Qed.

Lemma texts_ok a l : forallb (allowed a) l = true -> a_type a = ToStr -> exists ts, map_res text_of l = Ok ts /\ List.length ts = List.length l.
Proof.
  intros Ha Ht. induction l as [|v l IH]; [by exists []|]. cbn in Ha. apply andb_true_iff in Ha as [Hv Hl].
  destruct (allowed_text a v Hv Ht) as (s & -> & _). destruct (IH Hl) as (ts & Hts & Hlen). exists (s :: ts). cbn. by rewrite Hts, <- Hlen.
Qed.

(** One value that is text: it is what was given, or the default. *)
Lemma read_text a : argument_ok ns a = true -> a_action a = Store -> a_nargs a <> OneOrMore -> a_nargs a <> Remainder -> a_type a = ToStr ->
  exists v, attribute ns (dest a) = Ok v /\
    ((exists s, v = VStr s /\ (a_choices a = [] \/ s ∈ a_choices a)) \/ (a_required a = false /\ v = a_default a)).
Proof.
  intros (v & Hv & Ho)%argument_value Ha Hm Hr Ht. exists v. split; [done|]. destruct Ho as [[? ?]%default_value|Ho]; [by right|left].
  apply allowed_text; [|done]. unfold given_ok in Ho. rewrite Ha in Ho. by destruct (a_nargs a).
Qed.

Lemma read_str a : argument_ok ns a = true -> a_action a = Store -> a_nargs a = One -> a_type a = ToStr ->
  a_required a = true \/ (exists s, a_default a = VStr s /\ (a_choices a = [] \/ s ∈ a_choices a)) ->
  exists s, attr_str ns (dest a) = Ok s /\ (a_choices a = [] \/ s ∈ a_choices a).
Proof.
  intros Hok Ha Hn Ht Hd. destruct (read_text a) as (v & Hv & Hs); try done; [congruence..|]. unfold attr_str. rewrite Hv.
  destruct Hs as [(s & -> & Hs)|[Hr ->]]; [by exists s|]. destruct Hd as [Hq|(s & -> & Hs)]; [congruence|]. by exists s.
Qed.

Lemma read_choice n req d cs : argument_ok ns (choice_arg n req d cs) = true -> cs <> [] ->
  (req = true \/ exists s, d = VStr s /\ s ∈ cs) -> exists s, attr_str ns (dest (choice_arg n req d cs)) = Ok s /\ s ∈ cs.
Proof.
  intros Ha Hcs Hd. destruct (read_str _ Ha) as (s & Hs & [Hn|Hin]); try done; [|by exists s].
  destruct Hd as [?|(s & ? & ?)]; [by left|right; exists s; auto].
Qed.
Lemma read_default n s : argument_ok ns (option_arg n (VStr s)) = true -> exists t, attr_str ns (dest (option_arg n (VStr s))) = Ok t.
Proof. intros Ha. destruct (read_str _ Ha) as (t & Ht & _); [done..| |by exists t]. right. exists s. auto. Qed.
Lemma read_required n : argument_ok ns (required_arg n) = true -> exists t, attr_str ns (dest (required_arg n)) = Ok t.
Proof. intros Ha. destruct (read_str _ Ha) as (t & Ht & _); [done..|by left|by exists t]. Qed.
Lemma read_one n : argument_ok ns (positional n One) = true -> exists t, attr_str ns (dest (positional n One)) = Ok t.
Proof. intros Ha. destruct (read_str _ Ha) as (t & Ht & _); [done..|by left|by exists t]. Qed.

Lemma read_opt a : argument_ok ns a = true -> a_action a = Store -> a_nargs a <> OneOrMore -> a_nargs a <> Remainder -> a_type a = ToStr ->
  a_default a = VNone -> exists o, attr_opt ns (dest a) = Ok o.
Proof.
  intros Hok Ha Hm Hr Ht Hd. destruct (read_text a) as (v & Hv & Hs); try done. unfold attr_opt. rewrite Hv.
  destruct Hs as [(s & -> & _)|[_ ->]]; [by eexists|]. rewrite Hd. by eexists.
Qed.
Lemma read_option n : argument_ok ns (option_arg n VNone) = true -> exists o, attr_opt ns (dest (option_arg n VNone)) = Ok o.
Proof. intros Ha. by apply (read_opt _ Ha). Qed.
Lemma read_zero_or_one n : argument_ok ns (positional n ZeroOrOne) = true -> exists o, attr_opt ns (dest (positional n ZeroOrOne)) = Ok o.
Proof. intros Ha. by apply (read_opt _ Ha). Qed.

Lemma read_flag n : argument_ok ns (flag_arg n) = true -> exists b, attr_bool ns (dest (flag_arg n)) = Ok b.
Proof.
  intros (v & Hv & Ho)%argument_value. unfold attr_bool. rewrite Hv. cbn [mbind result_bind].
  destruct Ho as [[_ ->]%default_value|Ho]; [by eexists|]. destruct v; try done. by eexists.
Qed.

Lemma read_number n t d : t <> ToStr -> argument_ok ns (typed_arg n t d) = true -> exists z, attr_int ns (dest (typed_arg n t d)) = Ok z.
Proof.
  intros Ht (v & Hv & Ho)%argument_value. unfold attr_int. rewrite Hv. cbn [mbind result_bind].
  destruct Ho as [[_ ->]%default_value|Ho]; [by eexists|]. unfold given_ok, allowed in Ho. cbn in Ho.
  destruct t, v; try done; by eexists.
Qed.

(** Values that are texts. *)
Lemma read_texts a l : forallb (allowed a) l = true -> a_type a = ToStr -> attribute ns (dest a) = Ok (VList l) ->
  exists ts, attr_list ns (dest a) = Ok ts /\ (l <> [] -> ts <> []).
Proof.
  intros Hl Ht Hv. destruct (texts_ok a l Hl Ht) as (ts & Hts & Hlen). exists ts. unfold attr_list. rewrite Hv. split; [done|].
  intros Hne ->. by destruct l.
Qed.

Lemma read_append n req : argument_ok ns (append_arg n req) = true ->
  exists l, attr_list ns (dest (append_arg n req)) = Ok l /\ (req = true -> l <> []).
Proof.
  intros (v & Hv & [[Hr ->]%default_value|Ho])%argument_value.
  - exists []. unfold attr_list. rewrite Hv. split; [done|]. cbn in Hr. congruence.
  - destruct v as [| | | | |l|]; try done. destruct l as [|x xs]; [done|].
    destruct (read_texts _ (x :: xs) Ho eq_refl Hv) as (ts & Hts & Hne). exists ts. auto.
Qed.

Lemma read_many n : argument_ok ns (positional n OneOrMore) = true -> exists l, attr_list ns (dest (positional n OneOrMore)) = Ok l /\ l <> [].
Proof.
  intros (v & Hv & [[Hr _]%default_value|Ho])%argument_value; [done|].
  destruct v as [| | | | |l|]; try done. destruct l as [|x xs]; [done|].
  destruct (read_texts _ (x :: xs) Ho eq_refl Hv) as (ts & Hts & Hne). exists ts. auto.
Qed.

Lemma read_remainder n : argument_ok ns (positional n Remainder) = true -> exists l, attr_list ns (dest (positional n Remainder)) = Ok l.
Proof.
  intros (v & Hv & [[_ ->]%default_value|Ho])%argument_value; [exists []; unfold attr_list; by rewrite Hv|].
  destruct v as [| | | | |l|]; try done. destruct (read_texts _ l Ho eq_refl Hv) as (ts & Hts & _). by exists ts.
Qed.
End Read.

(** ** One sub-parser at a time *)

(** What an accepted argument says of its attribute, under its literal name. *)
Ltac at_name H := match type of H with context[dest ?a] => let d := eval vm_compute in (dest a) in change (dest a) with d in H end.
Ltac read_argument H :=
  first [ apply read_default in H as [? H] | apply read_required in H as [? H] | apply read_one in H as [? H]
        | apply read_option in H as [? H] | apply read_zero_or_one in H as [? H] | apply read_flag in H as [? H]
        | apply read_number in H as [? H]; [|discriminate] | apply read_append in H as (? & H & ?)
        | apply read_many in H as (? & H & ?) | apply read_remainder in H as [? H]
        | apply read_choice in H as (? & H & ?);
            [|discriminate|first [by left|right; eexists; split; [reflexivity|set_solver]]] ]; at_name H.
Ltac read_leaf H :=
  apply accepts_leaf in H;
  repeat match type of H with Forall _ (_ :: _) => let A := fresh "Arg" in apply Forall_cons in H as [A H]; read_argument A end;
  clear H.
Ltac use_attributes := repeat (match goal with H : ?m = Ok ?x |- context[?m] => rewrite H end; cbn [mbind result_bind]).
Ltac test_names := repeat match goal with
  |- context[String.eqb ?a ?b] => let r := eval vm_compute in (String.eqb a b) in change (String.eqb a b) with r; cbv iota beta end.
(** The sub-parsers of [H], one goal each, with the name that was chosen. *)
Ltac each_sub H :=
  let n := fresh "name" in let p := fresh "sub" in let Hin := fresh "Hin" in let Hn := fresh "Hname" in
  apply accepts_sub in H as (n & p & Hin & Hn & H);
  repeat (apply elem_of_cons in Hin as [[= -> ->]|Hin]; [|]); [..|by apply not_elem_of_nil in Hin].

(** The modes a handler is started with are ones it knows, and the policies it needs are there. *)
Definition modes_known (c : Command) : Prop :=
  match c with
  | CWrap a =>
      (forall claude l, is_ok (build_monitor claude (wr_anomaly a) (wr_anomaly_debounce a) l).1 = true) /\
      (forall http t fo, wr_approvals a <> "http" \/ is_some http = true -> is_ok (build_broker (wr_approvals a) http t fo) = true)
  | CAuditForward a => fd_sink a ∈ ["webhook"; "splunk"; "s3"] /\ fd_format a ∈ ["raw"; "ocsf"; "ecs"]
  | CPolicyValidate files => files <> []
  | CPolicyShow a => sh_policy a <> []
  | CPolicyTest a => ts_policy a <> []
  | CPolicyBacktest a => bk_policy a <> []
  | _ => True
  end.
Definition ready (ns : namespace) : Prop := exists c, command_of ns = Ok (Some c) /\ modes_known c.

Lemma wrap_ready ns : attr_str ns "command" = Ok "wrap" -> accepts wrap_parser ns = true -> ready ns.
Proof.
  intros Hname H. unfold wrap_parser in H. read_leaf H. unfold ready, command_of. use_attributes. test_names. unfold wrap_args_of.
  use_attributes. eexists. split; [reflexivity|]. cbn. split.
  - intros claude l. match goal with H : ?x ∈ ["off"; _; _] |- context[build_monitor _ ?x] =>
      apply elem_of_cons in H as [->|[->|[->|[]%elem_of_nil]%elem_of_cons]%elem_of_cons] end; try done. by destruct claude.
  - intros http t fo Hh. match goal with H : ?x ∈ ["deny"; _; _] |- context[build_broker ?x] =>
      apply elem_of_cons in H as [->|[->|[->|[]%elem_of_nil]%elem_of_cons]%elem_of_cons] end; try done. destruct http; [done|]. by destruct Hh.
Qed.

(** Unfold the readers, use what the sub-parser gives, and answer. *)
Ltac leaf_ready H p := unfold p in H; read_leaf H;
  unfold ci_args_of, diff_args_of, build_args_of, verify_args_of, store_args_of, forward_args_of, console_args_of; use_attributes;
  eexists; split; [reflexivity|cbn; auto].

Lemma bundle_ready ns name : attr_str ns "bundle_command" = Ok name -> accepts bundle_parser ns = true ->
  exists c, bundle_command_of ns name = Ok (Some c) /\ modes_known c.
Proof.
  intros Hname H. unfold bundle_parser in H. each_sub H; rewrite Hname0 in Hname; injection Hname as <-; unfold bundle_command_of; test_names.
  - leaf_ready H build_parser.
  - leaf_ready H verify_parser.
  - leaf_ready H bundle_show_parser.
  - leaf_ready H store_parser.
  - leaf_ready H store_parser.
  - leaf_ready H store_parser.
Qed.

Lemma policy_ready ns name : attr_str ns "policy_command" = Ok name -> accepts policy_parser ns = true ->
  exists c, policy_command_of ns name = Ok (Some c) /\ modes_known c.
Proof.
  intros Hname H. unfold policy_parser in H. each_sub H; rewrite Hname0 in Hname; injection Hname as <-; unfold policy_command_of; test_names.
  - leaf_ready H validate_parser.
  - leaf_ready H show_parser.
  - leaf_ready H test_parser.
  - leaf_ready H backtest_parser.
  - leaf_ready H ci_parser.
  - leaf_ready H diff_parser.
  - pose proof H as Hb. unfold bundle_parser in Hb. apply accepts_sub in Hb as (b & _ & _ & Hb & _). rewrite Hb. by apply bundle_ready.
  - leaf_ready H keygen_parser.
Qed.

Lemma audit_ready ns name : attr_str ns "audit_command" = Ok name -> accepts audit_parser ns = true ->
  exists c, audit_command_of ns name = Ok (Some c) /\ modes_known c.
Proof.
  intros Hname H. unfold audit_parser in H. each_sub H; rewrite Hname0 in Hname; injection Hname as <-; unfold audit_command_of; test_names.
  - leaf_ready H reindex_parser.
  - leaf_ready H forward_parser.
Qed.

Lemma connectors_ready ns name : attr_str ns "connectors_command" = Ok name -> accepts connectors_parser ns = true ->
  exists c, connectors_command_of ns name = Ok (Some c) /\ modes_known c.
Proof.
  intros Hname H. unfold connectors_parser in H. each_sub H; rewrite Hname0 in Hname; injection Hname as <-; unfold connectors_command_of; test_names;
    leaf_ready H connectors_parser.
Qed.

Lemma console_ready ns name : attr_str ns "console_command" = Ok name -> accepts console_parser ns = true ->
  exists c, console_command_of ns name = Ok (Some c) /\ modes_known c.
Proof.
  intros Hname H. unfold console_parser in H. each_sub H; rewrite Hname0 in Hname; injection Hname as <-; unfold console_command_of; test_names;
    leaf_ready H console_serve_parser.
Qed.

(** A group of commands: the name of the sub-command is there, and its own lemma applies. *)
Ltac group_ready H p lem := let Hs := fresh "Hs" in
  pose proof H as Hs; unfold p in Hs; apply accepts_sub in Hs as (? & _ & _ & Hs & _); rewrite Hs; by apply lem.


(** [wrap -- server]: what the parser leaves unsaid. *)
Definition wrap_namespace : namespace :=
  [("command", VStr "wrap"); ("connector", VNone); ("policy", VNone); ("override", VNone); ("bundle", VNone); ("bundle_store", VNone);
   ("bundle_name", VNone); ("public_key", VNone); ("audit", VStr "audit.log"); ("principal", VStr "local"); ("role", VNone);
   ("vault", VNone); ("recognizers", VNone); ("approvals", VStr "deny"); ("approvals_url", VNone); ("anomaly", VStr "off");
   ("anomaly_debounce", VInt 1); ("upstream_cmd", VList [VStr "--"; VStr "server"])].
Definition parse_one (p : Parser) (_ : list string) : Z + namespace :=
  if accepts p wrap_namespace then inr wrap_namespace else inl 2%Z.

